(* ===== verification/_CoqProject ===== *)
-Q . S2P
Prelude.v
JsValue.v
Json.v
RegExp.v
Buffer.v
Effects.v
Script.v
Chai.v
UtilsCore.v
Timers.v
Watch.v
Utils.v
OAuth.v
KebClient.v
KcpClient.v
Smctl.v
Gardener.v
KebHelpers.v
SkrHelpers.v
Suites.v
Mocha.v
Drivers.v
JsString.v
SwSnippets.v
SwWebpack.v
SwEncode.v
SwUtils.v
SwTopbar.v
SwErr.v
SwAuth.v
SwStore.v
SwDeepLink.v
SwValidate.v
SwImmutable.v
SwSpec.v
SwExecute.v
SwOperations.v
SwRequest.v
SwSystem.v
SwServer.v
SwOAuth.v
SwSecurity.v
SwSamples.v
SwAlternatives.v
SwResolve.v
SwPlugins.v
SwExamples.v
