(* ===== verification/Prelude.v ===== *)
(** The JavaScript of the Kyma Environment Broker, verified: the Swagger UI that the broker serves
    for its API, and the end-to-end test harness.

    The broker serves the bundles under src/files/swagger: a webpack module loader, the core of
    Swagger UI (a store with plugins that hold the definition, the authorizations, the errors and
    the layout), and the standalone preset with the top bar that chooses a definition. The harness
    under src/testing/e2e/skr provisions, updates, suspends, upgrades and deprovisions SKR clusters
    through the broker and checks what the clusters look like. This library models the whole harness
    and the parts of Swagger UI that compute, and proves what their operations guarantee.

    * Shared files

    - Prelude: strings, decimal numbers, notation, tactics and hint databases.
    - JsValue: JavaScript values and the operators the code applies to them (property access with
      its TypeErrors, truthiness, strict equality, comparison, conversion to strings and numbers).
    - Json: JSON.stringify and JSON.parse, with their round trip. Buffer: base64 and UTF-8.
    - RegExp: literal characters, dots and word boundaries of regular expressions. JsString:
      character classes, replace, trim and case folding.

    * Swagger UI: how the files correspond to the code

    The code of a bundle is its second line; names below are those of the original modules, which
    the source maps beside the bundles give together with their columns.

    - SwWebpack: the webpack runtime at the head of each bundle, [n] with its cache and export
      helpers, and the wrappers for CommonJS, AMD and the global object. Modules are programs over a
      heap of export objects ([prog], run by [run]), so that cycles see half-filled exports.
    - SwSnippets: core/plugins/request-snippets/fn.js; [sh_words] is a reader of POSIX shell words
      and [template_value] of JavaScript template literals, the references for what is printed.
    - SwEncode, SwUtils: core/utils.js, the query strings, form bodies, base64, PKCE, form data with
      repeated names and deeplyStripKey; [form_decode] is the reader of a server.
    - SwTopbar: plugins/topbar/topbar.jsx (state [topbar], one definition per handler, the actions
      it dispatches as a log), core/plugins/configs and the configuration chosen in core/index.js.
    - SwErr: core/plugins/err; the object DEFAULT_ERROR_STRUCTURE, which the reducers mutate, is
      part of the state. SwAuth: core/plugins/auth, on SwEncode and SwErr.
    - SwStore: makeReducer and wrapWithTryCatch of core/system.js, the plugin download-url as a
      transition system [lstep] over pages with overlapping requests, and the layout plugin.
    - SwValidate: the validators of core/utils.js up to validateParam, with getParameterSchema.
    - SwImmutable: the operations of the Immutable library on nested maps, and shapes of branches of
      the store. SwSpec: core/plugins/spec, the reducers and the selectors that join the definition
      with the entered values; the transition system [spec_step] starts from [spec_init], the text and address
      of core/index.js, and has all reducers of the branch ([edit_step] those that store no response). SwExecute: the reducers of
      core/plugins/oas3 and core/components/execute.jsx, one definition per handler, over both
      branches of the store ([tryout]); it composes SwSpec, SwValidate and makeReducer of SwStore.
    - SwOperations: the selectors of core/plugins/spec that collect, tag and sort the operations, the
      sorters of core/utils.js, filter and limit of core/plugins/layout and core/plugins/filter.
    - SwRequest: execute and executeRequest of core/plugins/spec/actions.js with the selectors they
      read; executions in flight, edits and answers are the transition system [xstep] on SwSpec.
    - SwDeepLink: core/plugins/deep-linking on the layout branch of SwStore, with the fragment of the
      address as the browser keeps it ([location_hash]).
    - SwSystem: combinePlugins, systemExtend, register and the chains of wrapped actions and
      components of core/system.js, over objects with functions ([val]).
    - SwServer: serverEffectiveValue of core/plugins/oas3 and the component servers.jsx, on SwExecute
      and SwRequest.
    - SwOAuth: the component oauth2.jsx, core/oauth2-authorize.js and the page oauth2-redirect.html,
      over a heap of state objects ([oauth_page]); the transition system [ostep] interleaves edits,
      clicks, redirects and tokens. It composes SwEncode, SwErr and SwAuth.
    - SwSecurity: the selectors of securities (core/plugins/auth, core/plugins/oas3), preauthorization
      and the dialog auths.jsx.
    - SwSamples, SwAlternatives: core/plugins/samples/fn.js in the mode for JSON and getSampleSchema of
      core/utils.js. The code joins schemas by writing into them, so schemas are objects of a heap;
      [valid] says of a value that it meets a schema, [supported] of a schema that it is of the kind for
      which the generator is correct; examples show schemas beyond that for which it is not.
    - SwResolve: the loading part of core/plugins/spec/actions.js with its wrappers. The page, the timer
      of the module and the answers of the resolver are events, [handle] is the effect of one;
      [calm_reach] says how a page is reached and which parts its runs got, [written] what these make up.
    - SwPlugins: modes and summary of core/plugins/layout, core/plugins/on-complete, core/plugins/logs
      and the wrapped action of core/plugins/swagger-js.
    - SwExamples: examples-select-value-retainer.jsx and examples-select.jsx below the request body; the
      retainer, the store and the renderings between them.

    * Swagger UI: what the theorems show

    - Loader: no module runs twice, loading ends in spite of cycles, and a module has one exports
      value for good. Snippets: the shell gives curl exactly the request if its words
      are [word_ok]; a map body is printed as
      JSON.stringify would; the escaping is exact on precisely the words [word_ok] accepts.
    - Top bar: no download while the page holds authorizations, and a choice survives a reload.
    - Store: in every interleaving of downloads the shown text and address belong together, and
      loading ends. Errors: clearing removes exactly what it names, messages read as intended.
    - Authorization: what each login stores, when a request counts as authorized, every token
      request ends in a stored token or a recorded error, persistence and form bodies round-trip,
      PKCE values have the required shape.
    - Validation: ends for every schema, every error leads to a place in value and schema ([located]),
      exact integer bounds.
    - Trying out: every store that a page reaches has its shape, an entered value is the one that is validated
      and sent, and unless a validation raises an exception a click sends a request exactly when parameters and body are in order.
    - Operations: every operation is listed under each of its tags and nowhere else, sorted and
      stable; a filter and a limit n show exactly the first n matching tags.
    - Requests: what is put into a request, what is stored for a success and a failure, and that
      every response shown for an operation is one of its own executions, in every interleaving.
    - Deep links: the address of an opened thing opens it again, and links lead to the same page.
    - Plugins: registration keeps every wrapper of an action, in the order of the plugins.
    - Servers: the choice settles, with every variable set, unless a selection was stored before the component
      came to the page; then the address shown is the one of the server with the variables filled in.
    - OAuth: what the authorization server reads, what is exchanged when it comes back, that verifier
      and challenge belong together in every interleaving, and what a second attempt sends. Dialog:
      values that are entered authorize a request, and a logout is final.
    - Example values: the value shown for a supported schema meets the schema, also when the schema only
      lists alternatives, where it meets the first one if that is supported; generating it ends.
    - Resolving: when nothing is requested during a run and the resolver does not fail, every requested
      part is resolved and stored in the end; a run writes every answer to its place; what is lost otherwise.
      Examples of a body: an edited body that was exchanged for an example is taken back unchanged.

    * The harness: how the files correspond to the code

    File names are relative to src/testing/e2e/skr.

    - Effects: the process state shared by all modules ([world]: environment, clock, console, module
      variables, files, unhandled rejections, trace of calls), the interface [Services] to the code
      outside the repository, and the monad [M] in which an async function returns, throws or never
      settles. [follows w w'] says that the outside of [w'] comes from that of [w] by calls, with their trace.
      Script: concrete outside worlds for example runs.
    - Chai: the assertions of the chai package, as the class [Chai] with the laws [ChaiLaws].
    - UtilsCore, Timers, Watch, Utils: utils/index.js. UtilsCore has logging, base64, random names
      and environment variables; Timers has sleep and wait; Watch has waitForK8sObject and
      waitForSecret; Utils has the Kubernetes operations.
    - OAuth: lib/oauth.js. KebClient: kyma-environment-broker/client.js. KcpClient: kcp/client.js.
      Smctl: smctl/helpers.js. Gardener: gardener/client.js.
    - KebHelpers: kyma-environment-broker/helpers.js (its functions that share a name with a method
      of the client have the suffix _op).
    - SkrHelpers: skr-test/helpers.js, skr-test/provision, the upgrade step of
      skr-aws-upgrade-integration and trial-suspension-test/helpers.js.
    - Suites: the bodies of the tests of skr-test/machine-type, skr-test/btp-manager-secret,
      keb-endpoints-test and skr-networking-test.
    - Mocha: the test runner as an interface, the class [Mocha] with the law [MochaLaws];
      [documented_run] is the order that mocha documents, [run_main] the part before the after hooks.
    - Drivers: the describe blocks of skr-test (test.js, provision-skr.js, deprovision-skr.js, oidc),
      skr-aws-upgrade-integration, skr-networking-test and trial-suspension-test: hooks, tests,
      nested blocks and the variables they share.

    * The harness: what the theorems show

    - Timers: [wait] polls once per interval, resolves with the earliest accepted value and rejects
      exactly at its deadline; the same contract holds for every interleaving of timers and
      overlapping polls in the transition system [wstep], which always settles, and the executable
      loop is one of its runs. Watch and Gardener: the watch loops meet the analogous contract.
    - KebClient, KebHelpers, OAuth: what a broker call sends and when it succeeds, which failures are
      returned instead of thrown, how the token is cached, and that provisioning, update and
      deprovisioning return only when the broker reported the announced operation as succeeded.
    - KcpClient: argument lists, configuration file, upgrade and orchestration results; queries for
      diagnosis never fail a test. Smctl: a cleanup runs all its commands and reports every failure.
    - Utils: patch-or-create, deletion that never fails, the cluster-admin checks.
    - SkrHelpers, Suites, Drivers: options of a run, choice of the machine type, the secret checks,
      the endpoint test, what a passing OIDC block shows, the request that deprovisions at the end of
      the SKR, networking, trial and (if wanted) upgrade suites, order of the tests.

    * Code outside the repository

    axios, execa, the Kubernetes client, YAML and uuid are the function [perform] of [Services], an
    arbitrary function of the call and an outside state, which may take any time and may throw any
    value. It always answers: the requests of axios and the commands of execa have no timeout, and when one
    never ends, neither does the function that awaits it; statements that something settles are for answered calls; theorems that need more say so as a hypothesis ([rejects_with_value]: what is thrown is
    not undefined or null). util.inspect, os.homedir, the API server address and the text of stack
    traces are further fields. chai and mocha are the classes named above; regular expressions
    outside the fragment, and matching on text that is not ASCII, are the class [RegExpRest].

    The libraries inside the bundles are parameters too: the text of an Immutable value
    ([Immutable]), url-parse ([UrlParse]), random bytes and SHA-256 ([Crypto] with [CryptoLaws]),
    js-yaml ([Yaml]), serialize-error ([SerializeError]), the URL class and address of the browser
    ([Browser]), Date.parse ([DateParse]), hashCode ([HashCode]), the order in which a Set is visited
    ([ImmutableSet]), localeCompare ([LocaleCompare]), swagger-client ([SwaggerClient]), url-parse and
    sanitize-url for addresses ([UrlTools]) and replacement by regular expressions that are not plain
    names ([RegExpReplace]). Each class with laws has an instance, so that the hypotheses can be met.

    * Conventions, bounds and fuel

    - A string is the list of bytes of its UTF-8 encoding. A number is m / 10^e or NaN: the code
      computes only with integers, and JSON numbers keep their decimal digits; statements about
      entered numbers are limited to integers below 2^53.
    - JSON.parse runs with fuel 2 * length + 2, which is enough for every text; stringify is
      structural. [wait] makes fewer than timeout / interval + 1 polls, the fuel of [ticks]; delays
      outside 1 .. 2^31-1 become 1 ms, as in node.
    - In the executable [wait] a poll that outlasts the interval is followed by the next one at its
      due time, and the state passes through the polls in the order of their start; when a timer and
      the completion of a call fall on the same millisecond the timer wins. The transition system
      has neither restriction on completion times.
    - Objects are values: a field assignment gives a new value that replaces the old one wherever the
      code can still reach it. Variables of enclosing functions are a store ([vars]).
    - [n] of the loader has fuel for nested calls, the number of modules plus one is enough;
      validateValueBySchema has fuel for the nesting of the schema, one more than [depth] is enough.
    - Immutable maps of the store are objects or association lists in the order of insertion. The
      indices in an error about repeated items are in ascending order; the code keeps them in a Set.
      Keys of an ordered map of operations are any values and compared by value.
    - A sorter of the configuration is a function or a value; as a name, alpha and method are known
      and every other value sorts nothing (names that objects inherit are not given). In SwSystem a
      function is a number, and plugin objects are values: the code copies them when it combines.
    - The sample generator has fuel for the nesting of the schema, its depth is enough. Keywords of a
      schema have the types of OpenAPI; the clock is a parameter, and its texts have at least 24
      characters. Names on the paths of requests to resolve are not array indices. The examples of a
      body are texts and a media type is chosen; at most three renderings follow a change.
    - Reading and writing local files succeeds. Loading utils/index.js leaves its clients with the
      default configuration.
    - The law of mocha covers runs in which every callback settles before its timeout and leaves no
      unhandled rejection ([en_regular]).

    * Not modelled

    Swagger UI: the React components but Topbar, Execute, Servers, Oauth2, Auths, ExamplesSelect and
    ExamplesSelectValueRetainer, the third-party libraries inside the bundles (the resolver of
    swagger-client is present only through its answers), the binding of actions and selectors to the
    Redux store, the selectors that only list parts of the definition, resolveSpec (superseded by the
    resolution of parts), samples in XML and YAML, the plugin view, the resolution of the address of a
    token request. Harness: output of child processes forwarded to the terminal, the debug output inside
    the shoot watch callback, the modules that only re-export others. The Go code of the broker.

    * Left to do

    Swagger UI: samples in XML, the binding of actions to the store. Harness: the suites under a mocha
    that goes on after a callback timed out, durations of the provisioning steps, what passing runs of
    the machine-type and secret blocks show. *)

From stdpp Require Export gmap strings list.
From Stdlib Require Export ZArith Lia.

(** * Notation scope, tactics and hint databases of the development *)

Declare Scope js_scope.
Delimit Scope js_scope with js.

Create HintDb js discriminated.
Create Rewrite HintDb jsdb.

(** Case analysis on the scrutinee of a [match] in the goal, remembering the equation. *)
Ltac case_goal :=
  match goal with
  | |- context [match ?x with _ => _ end] =>
      lazymatch x with
      | context [match _ with _ => _ end] => fail
      | _ => let E := fresh "E" in destruct x eqn:E
      end
  end.

(** The same in the hypotheses. *)
Ltac case_hyp :=
  match goal with
  | H : context [match ?x with _ => _ end] |- _ =>
      lazymatch x with
      | context [match _ with _ => _ end] => fail
      | _ => let E := fresh "E" in destruct x eqn:E
      end
  end.

Ltac crush := simplify_eq/=; try done; eauto with js; try lia; try congruence.

(** * Strings *)

(** A JavaScript string is represented by the bytes of its UTF-8 encoding. *)

#[global] Arguments String.append : simpl nomatch.

Definition chr (n : nat) : string := String (Ascii.ascii_of_nat n) EmptyString.
Definition nl : string := chr 10.
Definition tab : string := chr 9.
Definition dquote : string := chr 34.
#[global] Arguments chr : simpl never.
#[global] Arguments dquote : simpl never.

Lemma sapp_nil_r (s : string) : s +:+ "" = s.
Proof. induction s as [|c s IH]; simpl; [done|]. by rewrite IH. Qed.

Lemma sapp_assoc (s1 s2 s3 : string) : (s1 +:+ s2) +:+ s3 = s1 +:+ s2 +:+ s3.
Proof. induction s1 as [|c s IH]; simpl; [done|]. by rewrite IH. Qed.

Lemma sapp_cons c (s1 s2 : string) : String c s1 +:+ s2 = String c (s1 +:+ s2).
Proof. done. Qed.

Lemma sapp_inv_head (p s1 s2 : string) : p +:+ s1 = p +:+ s2 → s1 = s2.
Proof. induction p as [|c p IH]; simpl; [done|]. intros [= H]. auto. Qed.

Lemma slength_app (s1 s2 : string) :
  String.length (s1 +:+ s2) = String.length s1 + String.length s2.
Proof. induction s1 as [|c s IH]; simpl; [done|]. by rewrite IH. Qed.

#[export] Hint Rewrite sapp_nil_r sapp_assoc slength_app : jsdb.

(** [strip_prefix p s] is the rest of [s] after the prefix [p]. *)
Fixpoint strip_prefix (p s : string) : option string :=
  match p, s with
  | EmptyString, _ => Some s
  | String a p', String b s' => if Ascii.eqb a b then strip_prefix p' s' else None
  | String _ _, EmptyString => None
  end.

Lemma strip_prefix_app (p s : string) : strip_prefix p (p +:+ s) = Some s.
Proof. induction p as [|c p IH]; simpl; [done|]. by rewrite Ascii.eqb_refl. Qed.

Lemma strip_prefix_Some (p s r : string) : strip_prefix p s = Some r → s = p +:+ r.
Proof.
  revert s. induction p as [|a p IH]; intros [|b s]; simpl; intros H; simplify_eq; try done.
  destruct (Ascii.eqb_spec a b) as [->|]; [|done]. by rewrite (IH s H).
Qed.

(** [String.prototype.includes]. *)
Fixpoint includes (s sub : string) : bool :=
  match strip_prefix sub s with
  | Some _ => true
  | None => match s with EmptyString => false | String _ r => includes r sub end
  end.

Lemma includes_middle (a sub b : string) : includes (a +:+ sub +:+ b) sub = true.
Proof.
  assert (∀ s r, strip_prefix sub s = Some r → includes s sub = true) as Hp.
  { intros [|c s] r E; simpl in *; by rewrite E. }
  induction a as [|c a IH]; [exact (Hp _ _ (strip_prefix_app _ _))|].
  change (includes (String c (a +:+ sub +:+ b)) sub = true). cbn [includes].
  destruct (strip_prefix _ _); [done|apply IH].
Qed.

(** [String.prototype.split] with a non-empty separator: [k] counts the characters of a
    separator still to be skipped and [cur] is the piece under construction. *)
Fixpoint split_aux (sep : string) (k : nat) (cur s : string) : list string :=
  match s with
  | EmptyString => [cur]
  | String c r =>
      match k with
      | S k' => split_aux sep k' cur r
      | O => match strip_prefix sep s with
             | Some _ => cur :: split_aux sep (String.length sep - 1) "" r
             | None => split_aux sep 0 (cur +:+ String c "") r
             end
      end
  end.
Definition split (sep s : string) : list string := split_aux sep 0 "" s.

(** [Array.prototype.join]. *)
Fixpoint join (sep : string) (l : list string) : string :=
  match l with
  | [] => ""
  | [x] => x
  | x :: r => x +:+ sep +:+ join sep r
  end.

Lemma split_aux_skip sep (p s cur : string) :
  split_aux sep (String.length p) cur (p +:+ s) = split_aux sep 0 cur s.
Proof. induction p as [|c p IH]; simpl; [by destruct s|]. done. Qed.

Lemma split_aux_ne sep k cur s : split_aux sep k cur s ≠ [].
Proof.
  revert k cur. induction s as [|c s IH]; intros k cur; simpl; [done|].
  destruct k; [|done]. destruct (strip_prefix _ _); [done|]. apply IH.
Qed.

Lemma join_cons sep x l : l ≠ [] → join sep (x :: l) = x +:+ sep +:+ join sep l.
Proof. by destruct l. Qed.

(** Splitting loses nothing: joining the pieces with the separator gives the string back. *)
Lemma join_split_aux (sep : string) (s cur : string) :
  sep ≠ "" → join sep (split_aux sep 0 cur s) = cur +:+ s.
Proof.
  intros Hsep. revert cur.
  induction s as [s IH] using (induction_ltof1 _ String.length); intros cur.
  destruct s as [|c s]; simpl; [by rewrite sapp_nil_r|].
  destruct (strip_prefix sep (String c s)) as [r|] eqn:E.
  - apply strip_prefix_Some in E. destruct sep as [|d sep]; [done|].
    simpl in E. injection E as -> ->. rewrite join_cons by apply split_aux_ne.
    simpl String.length. rewrite Nat.sub_succ, Nat.sub_0_r, split_aux_skip, IH; [done|].
    unfold ltof. simpl. rewrite slength_app. lia.
  - rewrite IH by (unfold ltof; simpl; lia). by rewrite sapp_assoc.
Qed.

(** A separator that does not occur in [s] leaves one piece. *)
Lemma split_aux_none sep s cur :
  includes s sep = false → split_aux sep 0 cur s = [cur +:+ s].
Proof.
  revert cur. induction s as [|c s IH]; intros cur H; simpl in *; [by rewrite sapp_nil_r|].
  destruct (strip_prefix sep (String c s)); [done|]. rewrite IH by done. by rewrite sapp_assoc.
Qed.

Lemma strip_prefix_None_app (p s t : string) :
  String.length p ≤ String.length s → strip_prefix p s = None → strip_prefix p (s +:+ t) = None.
Proof.
  revert s. induction p as [|a p IH]; intros [|b s]; simpl; intros Hl Hs; try done; [lia|].
  destruct (Ascii.eqb a b); [|done]. apply IH; [lia|done].
Qed.

(** The separator [String d sep] first occurs in [a ++ String d sep ++ b] after [a] when it does
    not occur in [a] followed by all of the separator but its last character [e]. *)
Lemma split_aux_first (sep : string) (e : Ascii.ascii) (a b cur : string) :
  includes (a +:+ sep) (sep +:+ String e "") = false →
  split_aux (sep +:+ String e "") 0 cur (a +:+ (sep +:+ String e "") +:+ b) =
    (cur +:+ a) :: split_aux (sep +:+ String e "") 0 "" b.
Proof.
  set (s := sep +:+ String e ""). revert cur. induction a as [|c a IH]; intros cur Hi.
  - rewrite sapp_nil_r. simpl. assert (∃ d r, s = String d r) as (d & r & Hs).
    { unfold s. destruct sep; simpl; eauto. }
    rewrite Hs. simpl. rewrite Ascii.eqb_refl, strip_prefix_app, Nat.sub_0_r, split_aux_skip. done.
  - cbn [String.append includes] in Hi.
    destruct (strip_prefix s (String c (a +:+ sep))) eqn:E; [done|].
    assert (strip_prefix s (String c (a +:+ s +:+ b)) = None) as E'.
    { replace (String c (a +:+ s +:+ b)) with (String c (a +:+ sep) +:+ String e b)
        by (simpl; unfold s; by rewrite !sapp_assoc).
      apply strip_prefix_None_app; [|done]. unfold s. simpl. rewrite !slength_app. simpl. lia. }
    cbn [String.append split_aux]. rewrite E'. rewrite IH by done. by rewrite sapp_assoc.
Qed.

(** Splitting at one character. *)
Lemma split_aux_app1 (e : Ascii.ascii) (a b cur : string) :
  split_aux (String e "") 0 cur (a +:+ String e b) =
  split_aux (String e "") 0 cur a ++ split_aux (String e "") 0 "" b.
Proof.
  revert cur. induction a as [|c a IH]; intros cur; simpl; [by rewrite Ascii.eqb_refl|].
  destruct (Ascii.eqb e c); simpl; by rewrite IH.
Qed.

(** * Decimal digits *)

Definition digit (n : N) : Ascii.ascii := Ascii.ascii_of_N (48 + n).

Definition digit_val (c : Ascii.ascii) : option N :=
  let n := Ascii.N_of_ascii c in
  if ((48 <=? n) && (n <=? 57))%N then Some (n - 48)%N else None.

Fixpoint digits_fuel (f : nat) (n : N) (acc : string) : string :=
  let acc' := String (digit (n mod 10)) acc in
  match f with
  | O => acc'
  | S f' => if (n <? 10)%N then acc' else digits_fuel f' (n / 10) acc'
  end.

(** [String(n)] for a natural number. *)
Definition N_to_string (n : N) : string := digits_fuel (N.size_nat n) n "".
#[global] Arguments N_to_string : simpl never.

(** [String(z)] for an integer. *)
Definition Z_to_string (z : Z) : string :=
  match z with
  | Zneg p => String (Ascii.ascii_of_N 45) (N_to_string (Npos p))
  | _ => N_to_string (Z.to_N z)
  end.

(** The maximal run of digits at the head of [s], folded onto [acc], and the rest. *)
Fixpoint read_digits (acc : N) (s : string) : N * string :=
  match s with
  | String c r =>
      match digit_val c with
      | Some d => read_digits (acc * 10 + d) r
      | None => (acc, s)
      end
  | EmptyString => (acc, s)
  end.

Definition starts_digit (s : string) : bool :=
  match s with String c _ => bool_decide (is_Some (digit_val c)) | EmptyString => false end.

Lemma digit_val_digit (n : N) : (n < 10)%N → digit_val (digit n) = Some n.
Proof.
  intros H. unfold digit_val, digit. rewrite Ascii.N_ascii_embedding by lia.
  destruct (N.leb_spec 48 (48 + n)); [|lia]. destruct (N.leb_spec (48 + n) 57); [|lia].
  simpl. f_equal. lia.
Qed.

Lemma read_digits_stop acc s : starts_digit s = false → read_digits acc s = (acc, s).
Proof.
  destruct s as [|c s]; simpl; [done|]. intros H. apply bool_decide_eq_false_1 in H.
  destruct (digit_val c); [|done]. destruct H; eauto.
Qed.

Lemma read_digits_fuel f n acc :
  (n < 10 ^ N.of_nat (S f))%N →
  ∃ k : N, ∀ a, read_digits a (digits_fuel f n acc) = read_digits (a * 10 ^ k + n) acc.
Proof.
  revert n acc. induction f as [|f IH]; intros n acc Hn.
  - exists 1%N. intros a. simpl. change (10 ^ N.of_nat 1)%N with 10%N in Hn.
    rewrite N.mod_small, digit_val_digit by done. f_equal.
  - simpl. destruct (N.ltb_spec n 10) as [Hlt|Hge].
    + exists 1%N. intros a. simpl. by rewrite N.mod_small, digit_val_digit by done.
    + destruct (IH (n / 10)%N (String (digit (n mod 10)) acc)) as [k Hk].
      { apply N.Div0.div_lt_upper_bound.
        rewrite <- N.pow_succ_r', <- Nat2N.inj_succ. done. }
      exists (N.succ k). intros a. rewrite Hk. simpl.
      rewrite digit_val_digit by (apply N.mod_lt; done). f_equal.
      rewrite N.pow_succ_r'. pose proof (N.div_mod n 10). lia.
Qed.

Lemma N_to_string_bound n : (n < 10 ^ N.of_nat (S (N.size_nat n)))%N.
Proof.
  apply N.lt_le_trans with (2 ^ N.size n)%N; [apply N.size_gt|].
  replace (N.size n) with (N.of_nat (N.size_nat n)).
  - etrans; [apply N.pow_le_mono_l with (b := 10%N); lia|].
    apply N.pow_le_mono_r; lia.
  - destruct n as [|p]; [done|]. simpl.
    induction p; simpl; rewrite ?Nat2N.inj_succ, ?IHp; simpl; lia.
Qed.

(** Reading back the digits of [n] gives [n]. *)
Lemma read_digits_N n s : starts_digit s = false →
  read_digits 0 (N_to_string n +:+ s) = (n, s).
Proof.
  intros Hs. unfold N_to_string.
  assert (∀ f m acc, digits_fuel f m acc +:+ s = digits_fuel f m (acc +:+ s)) as Happ.
  { intros f. induction f as [|f IH]; intros m acc; simpl; [done|].
    destruct (m <? 10)%N; [done|]. apply IH. }
  rewrite Happ. destruct (read_digits_fuel (N.size_nat n) n ("" +:+ s)) as [k Hk].
  { apply N_to_string_bound. }
  rewrite Hk, N.mul_0_l, N.add_0_l. by apply read_digits_stop.
Qed.
