(* ===== verification/JsValue.v ===== *)
(** JavaScript values: the data the harness receives from HTTP responses, JSON documents and
    thrown exceptions, with the language operations the sources apply to them (property reads,
    truthiness, equality, template conversion, object spread). *)

From S2P Require Import Prelude.

(** * Values *)

(** Numbers are decimals [m / 10^e]; [JErr] is an exception object with its class name, its
    message and its own enumerable properties. *)

Unset Elimination Schemes.
Inductive jsval : Type :=
| JUndef
| JNull
| JBool (b : bool)
| JNum (m : Z) (e : nat)
| JNaN
| JStr (s : string)
| JArr (l : list jsval)
| JObj (fs : list (string * jsval))
| JErr (name msg : string) (fs : list (string * jsval)).
Set Elimination Schemes.

Abbreviation JInt z := (JNum z 0).

Section jsval_ind.
Variable P : jsval → Prop.
Hypothesis Pundef : P JUndef.
Hypothesis Pnull : P JNull.
Hypothesis Pbool : ∀ b, P (JBool b).
Hypothesis Pnum : ∀ m e, P (JNum m e).
Hypothesis Pnan : P JNaN.
Hypothesis Pstr : ∀ s, P (JStr s).
Hypothesis Parr : ∀ l, Forall P l → P (JArr l).
Hypothesis Pobj : ∀ fs, Forall (λ kv, P kv.2) fs → P (JObj fs).
Hypothesis Perr : ∀ n m fs, Forall (λ kv, P kv.2) fs → P (JErr n m fs).

Fixpoint jsval_ind (v : jsval) : P v :=
  let fields := fix fields (fs : list (string * jsval)) : Forall (λ kv, P kv.2) fs :=
    match fs with
    | [] => Forall_nil_2 _
    | kv :: r => Forall_cons_2 _ kv r (jsval_ind kv.2) (fields r)
    end in
  match v with
  | JUndef => Pundef
  | JNull => Pnull
  | JBool b => Pbool b
  | JNum m e => Pnum m e
  | JNaN => Pnan
  | JStr s => Pstr s
  | JArr l => Parr l ((fix items (l : list jsval) : Forall P l :=
      match l with
      | [] => Forall_nil_2 _
      | x :: r => Forall_cons_2 _ x r (jsval_ind x) (items r)
      end) l)
  | JObj fs => Pobj fs (fields fs)
  | JErr n m fs => Perr n m fs (fields fs)
  end.
End jsval_ind.

(** * Results of a computation *)

(** [Hang] is the outcome of awaiting a promise that never settles. *)
Inductive result (A : Type) : Type :=
| Ok (a : A)
| Throw (e : jsval)
| Hang.
Arguments Ok {A} a.
Arguments Throw {A} e.
Arguments Hang {A}.

#[export] Instance result_ret : MRet result := λ A a, Ok a.
#[export] Instance result_bind : MBind result := λ A B f m,
  match m with Ok a => f a | Throw e => Throw e | Hang => Hang end.

Definition is_ok {A} (r : result A) : bool := match r with Ok _ => true | _ => false end.

Lemma ok_bind {A B} (a : A) (f : A → result B) : Ok a ≫= f = f a.
Proof. done. Qed.

Lemma result_bind_Ok {A B} (m : result A) (f : A → result B) b :
  m ≫= f = Ok b ↔ ∃ a, m = Ok a ∧ f a = Ok b.
Proof. destruct m; simpl; naive_solver. Qed.

Lemma result_mapM {A B} (f : A → result B) l ks :
  mapM f l = Ok ks ↔ Forall2 (λ x y, f x = Ok y) l ks.
Proof.
  split.
  - revert ks. induction l as [|x l IH]; intros ks Hk; simpl in Hk.
    + injection Hk as <-. constructor.
    + apply result_bind_Ok in Hk as (y & Hy & Hk). apply result_bind_Ok in Hk as (ys & Hys & Hk).
      injection Hk as <-. constructor; auto.
  - induction 1 as [|x y l ks Hx _ IH]; simpl; [done|]. rewrite Hx. simpl. by rewrite IH.
Qed.

Lemma mapM_exists {A B} (f : A → result B) l : Forall (λ x, ∃ y, f x = Ok y) l → ∃ ks, mapM f l = Ok ks.
Proof.
  induction 1 as [|x l [y Hy] _ [ks IH]]; [by exists []|]. exists (y :: ks). cbn [mapM]. rewrite Hy, ok_bind, IH, ok_bind. done.
Qed.

Lemma result_mapM_ext {A B} (f g : A → result B) l :
  (∀ x, f x = g x) → mapM f l = mapM g l.
Proof. intros Hfg. induction l as [|x l IH]; [done|]. simpl. by rewrite Hfg, IH. Qed.

(** * Exceptions *)

(** [new Error(msg)] and the errors the language itself raises. *)
Definition mkError (msg : string) : jsval := JErr "Error" msg [].
Definition typeError (msg : string) : jsval := JErr "TypeError" msg [].
Definition syntaxError (msg : string) : jsval := JErr "SyntaxError" msg [].
Definition referenceError (msg : string) : jsval := JErr "ReferenceError" msg [].

(** * Numbers *)

Definition pow10 (e : nat) : Z := (10 ^ Z.of_nat e)%Z.

(** The canonical decimal of [m / 10^e]: no trailing zero in the fraction. *)
Fixpoint mknum (m : Z) (e : nat) : jsval :=
  match e with
  | O => JNum m 0
  | S e' => if (m mod 10 =? 0)%Z then mknum (m / 10) e' else JNum m e
  end.

(** Zero-pads [s] to [e] digits. *)
Definition zero_pad (e : nat) (s : string) : string :=
  String.concat "" (replicate (e - String.length s) "0") +:+ s.

Definition num_to_string (m : Z) (e : nat) : string :=
  let a := Z.to_N (Z.abs m) in
  let p := Z.to_N (pow10 e) in
  (if (m <? 0)%Z then "-" else "") +:+
  match e with
  | O => N_to_string a
  | S _ => N_to_string (a / p) +:+ "." +:+ zero_pad e (N_to_string (a mod p))
  end.

(** * Template conversion: [`${v}`] and [String(v)] *)

Definition err_to_string (name msg : string) : string :=
  if String.eqb name "" then msg
  else if String.eqb msg "" then name else name +:+ ": " +:+ msg.

Fixpoint to_string (v : jsval) : string :=
  match v with
  | JUndef => "undefined"
  | JNull => "null"
  | JBool b => if b then "true" else "false"
  | JNum m e => num_to_string m e
  | JNaN => "NaN"
  | JStr s => s
  | JArr l =>
      join "," (map (λ x, match x with JUndef | JNull => "" | _ => to_string x end) l)
  | JObj _ => "[object Object]"
  | JErr n m _ => err_to_string n m
  end.

(** * Truthiness and comparison *)

Definition truthy (v : jsval) : bool :=
  match v with
  | JUndef | JNull | JNaN => false
  | JBool b => b
  | JNum m _ => negb (m =? 0)%Z
  | JStr s => negb (String.eqb s "")
  | _ => true
  end.

Definition num_lt (m1 : Z) (e1 : nat) (m2 : Z) (e2 : nat) : bool :=
  (m1 * pow10 e2 <? m2 * pow10 e1)%Z.
Definition num_eq (m1 : Z) (e1 : nat) (m2 : Z) (e2 : nat) : bool :=
  (m1 * pow10 e2 =? m2 * pow10 e1)%Z.

(** [===]. Objects are compared by identity in the language; two objects met by the harness
    are never the same one, so the comparison is false on them. *)
Definition strict_eq (a b : jsval) : bool :=
  match a, b with
  | JUndef, JUndef | JNull, JNull => true
  | JBool x, JBool y => eqb x y
  | JNum m1 e1, JNum m2 e2 => num_eq m1 e1 m2 e2
  | JStr s, JStr t => String.eqb s t
  | _, _ => false
  end.

(** The decimal literal [s] as a number: optional sign, digits, optional fraction. *)
Definition str_to_num (s : string) : jsval :=
  let '(neg, s1) := match strip_prefix "-" s with
                    | Some r => (true, r)
                    | None => (false, default s (strip_prefix "+" s)) end in
  if String.eqb s "" then JInt 0
  else if negb (starts_digit s1) then JNaN
  else
    let '(i, r) := read_digits 0 s1 in
    let sgn (z : Z) := if (neg : bool) then Z.opp z else z in
    match r with
    | EmptyString => JInt (sgn (Z.of_N i))
    | _ => match strip_prefix "." r with
           | Some f =>
               let '(d, r') := read_digits 0 f in
               let k := (String.length f - String.length r')%nat in
               if String.eqb r' "" then mknum (sgn (Z.of_N i * pow10 k + Z.of_N d)%Z) k else JNaN
           | None => JNaN
           end
    end.

(** [ToNumber]. *)
Definition to_number (v : jsval) : jsval :=
  match v with
  | JUndef | JNaN => JNaN
  | JNull => JInt 0
  | JBool b => JInt (if b then 1 else 0)
  | JNum m e => JNum m e
  | _ => str_to_num (to_string v)
  end.

(** [a < b] when one side is a number: false as soon as a side is [NaN]. *)
Definition js_lt (a b : jsval) : bool :=
  match to_number a, to_number b with
  | JNum m1 e1, JNum m2 e2 => num_lt m1 e1 m2 e2
  | _, _ => false
  end.

(** [v == s] for a string [s]. *)
Definition loose_eq_str (v : jsval) (s : string) : bool :=
  match v with
  | JStr t => String.eqb t s
  | JUndef | JNull | JNaN => false
  | JBool _ | JNum _ _ => strict_eq (to_number v) (str_to_num s)
  | _ => String.eqb (to_string v) s
  end.

(** [v == null]. *)
Definition nullish (v : jsval) : bool :=
  match v with JUndef | JNull => true | _ => false end.

(** * Objects *)

Fixpoint assoc (fs : list (string * jsval)) (k : string) : option jsval :=
  match fs with
  | [] => None
  | (k', v) :: r => if String.eqb k' k then Some v else assoc r k
  end.

(** Assignment of an own property: in place when present, appended otherwise. *)
Fixpoint oset (fs : list (string * jsval)) (k : string) (v : jsval) : list (string * jsval) :=
  match fs with
  | [] => [(k, v)]
  | (k', v') :: r => if String.eqb k' k then (k', v) :: r else (k', v') :: oset r k v
  end.

Fixpoint odelete (fs : list (string * jsval)) (k : string) : list (string * jsval) :=
  match fs with
  | [] => []
  | (k', v') :: r => if String.eqb k' k then odelete r k else (k', v') :: odelete r k
  end.

(** The characters of a string, as the values iteration yields. *)
Fixpoint string_chars (s : string) : list jsval :=
  match s with EmptyString => [] | String c r => JStr (String c "") :: string_chars r end.

(** The elements of an array or string keyed by their index. *)
Definition indexed (l : list jsval) : list (string * jsval) :=
  imap (λ i x, (N_to_string (N.of_nat i), x)) l.

(** [{...fs, ...v}]: [undefined], [null], numbers and booleans contribute no property. *)
Definition spread (fs : list (string * jsval)) (v : jsval) : list (string * jsval) :=
  match v with
  | JObj gs | JErr _ _ gs => foldl (λ acc kv, oset acc kv.1 kv.2) fs gs
  | JArr l => foldl (λ acc kv, oset acc kv.1 kv.2) fs (indexed l)
  | JStr s => foldl (λ acc kv, oset acc kv.1 kv.2) fs (indexed (string_chars s))
  | _ => fs
  end.

(** The own properties of a value that an expression [v.k] can see. *)
Definition own (v : jsval) (k : string) : option jsval :=
  match v with
  | JObj fs => assoc fs k
  | JErr n m fs =>
      if String.eqb k "name" then Some (JStr n)
      else if String.eqb k "message" then Some (JStr m) else assoc fs k
  | JArr l => if String.eqb k "length" then Some (JInt (Z.of_nat (length l))) else None
  | JStr s => if String.eqb k "length" then Some (JInt (Z.of_nat (String.length s))) else None
  | _ => None
  end.

Definition cannot_read (v : jsval) (k : string) : jsval :=
  typeError ("Cannot read properties of " +:+ to_string v +:+ " (reading '" +:+ k +:+ "')").

(** [v.k]: throws on [undefined] and [null], [undefined] for an absent property. *)
Definition getp (v : jsval) (k : string) : result jsval :=
  if nullish v then Throw (cannot_read v k) else Ok (default JUndef (own v k)).

(** [v[i]]. *)
Definition geti (v : jsval) (i : nat) : result jsval :=
  let k := N_to_string (N.of_nat i) in
  match v with
  | JUndef | JNull => Throw (cannot_read v k)
  | JArr l => Ok (default JUndef (l !! i))
  | JObj fs | JErr _ _ fs => Ok (default JUndef (assoc fs k))
  | JStr s => match String.get i s with
              | Some c => Ok (JStr (String c ""))
              | None => Ok JUndef
              end
  | _ => Ok JUndef
  end.

(** A path [v.k1.k2...]. *)
Fixpoint getpath (v : jsval) (ks : list string) : result jsval :=
  match ks with
  | [] => Ok v
  | k :: r => x ← getp v k; getpath x r
  end.

(** [v.k = x] in strict mode on an object value: the updated object, or the TypeError. *)
Definition setp (v : jsval) (k : string) (x : jsval) : result jsval :=
  match v with
  | JUndef | JNull =>
      Throw (typeError ("Cannot set properties of " +:+ to_string v +:+ " (setting '" +:+ k +:+ "')"))
  | JObj fs => Ok (JObj (oset fs k x))
  | JErr n m fs => Ok (JErr n m (oset fs k x))
  | JArr l => Ok (JArr l)
  | _ => Throw (typeError ("Cannot create property '" +:+ k +:+ "' on " +:+ to_string v))
  end.

(** The same outside strict mode: assignments to primitives are ignored. *)
Definition setp_sloppy (v : jsval) (k : string) (x : jsval) : result jsval :=
  match v with
  | JUndef | JNull | JObj _ | JErr _ _ _ | JArr _ => setp v k x
  | _ => Ok v
  end.

(** [v.toString()]. *)
Definition toString_call (v : jsval) : result string :=
  if nullish v then Throw (cannot_read v "toString") else Ok (to_string v).

(** [v.m(...)] where [v] has no method [m]. *)
Definition not_a_function (v : jsval) (m : string) : jsval :=
  if nullish v then cannot_read v m else typeError (m +:+ " is not a function").

(** [v.includes(s)] for a string [s]. *)
Definition includes_call (v : jsval) (s : string) : result bool :=
  match v with
  | JStr t => Ok (includes t s)
  | JArr l => Ok (existsb (λ x, strict_eq x (JStr s)) l)
  | _ => Throw (not_a_function v "includes")
  end.

(** [v.split(sep)]. *)
Definition split_call (v : jsval) (sep : string) : result (list string) :=
  match v with
  | JStr t => Ok (split sep t)
  | _ => Throw (not_a_function v "split")
  end.

(** The element [l[i]] of an array of strings. *)
Definition nth_str (l : list string) (i : nat) : jsval :=
  match l !! i with Some s => JStr s | None => JUndef end.

(** * Lemmas *)

Lemma assoc_oset_eq fs k v : assoc (oset fs k v) k = Some v.
Proof.
  induction fs as [|[k' v'] fs IH]; simpl; [by rewrite String.eqb_refl|].
  destruct (String.eqb_spec k' k) as [->|Hne]; simpl; [by rewrite String.eqb_refl|].
  apply String.eqb_neq in Hne. by rewrite Hne.
Qed.

Lemma assoc_oset_ne fs k k' v : k ≠ k' → assoc (oset fs k v) k' = assoc fs k'.
Proof.
  intros Hne. induction fs as [|[j u] fs IH]; simpl.
  - apply String.eqb_neq in Hne. by rewrite Hne.
  - destruct (String.eqb_spec j k) as [->|]; simpl; [|by rewrite IH].
    apply String.eqb_neq in Hne. by rewrite Hne.
Qed.

Lemma assoc_odelete_eq fs k : assoc (odelete fs k) k = None.
Proof.
  induction fs as [|[j u] fs IH]; simpl; [done|].
  destruct (String.eqb_spec j k) as [|Hne]; [done|]. simpl.
  apply String.eqb_neq in Hne. by rewrite Hne.
Qed.

Lemma assoc_odelete_ne fs k k' : k ≠ k' → assoc (odelete fs k) k' = assoc fs k'.
Proof.
  intros Hne. induction fs as [|[j u] fs IH]; simpl; [done|].
  destruct (String.eqb_spec j k) as [->|]; simpl; [|by rewrite IH].
  apply String.eqb_neq in Hne. by rewrite Hne.
Qed.

Lemma oset_keys fs k v :
  map fst (oset fs k v) = if bool_decide (k ∈ map fst fs) then map fst fs else map fst fs ++ [k].
Proof.
  induction fs as [|[j u] fs IH]; simpl; [done|].
  destruct (String.eqb_spec j k) as [->|Hne]; simpl.
  - rewrite bool_decide_true; [done|]. by left.
  - rewrite IH. case_bool_decide as H1; case_bool_decide as H2; try done.
    + exfalso. apply H2. by right.
    + exfalso. apply H1. apply elem_of_cons in H2 as [->|]; done.
Qed.

Lemma oset_NoDup fs k v : NoDup (map fst fs) → NoDup (map fst (oset fs k v)).
Proof.
  intros Hnd. rewrite oset_keys. case_bool_decide as Hk; [done|]. apply NoDup_app.
  split_and!; [done| |apply NoDup_singleton]. intros x Hx Hin. apply list_elem_of_singleton in Hin as ->. done.
Qed.

Lemma oset_fresh fs k v : k ∉ map fst fs → oset fs k v = fs ++ [(k, v)].
Proof.
  induction fs as [|[j u] fs IH]; simpl; [done|]. intros H.
  destruct (String.eqb_spec j k) as [->|]; [set_solver|]. rewrite IH; set_solver.
Qed.

(** Adding the fields of an object one by one with fresh keys rebuilds the object. *)
Lemma oset_rebuild (gs fs : list (string * jsval)) :
  NoDup (map fst (fs ++ gs)) → foldl (λ acc kv, oset acc kv.1 kv.2) fs gs = fs ++ gs.
Proof.
  revert fs. induction gs as [|[k v] gs IH]; intros fs Hnd; simpl; [by rewrite app_nil_r|].
  rewrite oset_fresh.
  - rewrite IH; rewrite <- app_assoc; [done|]. exact Hnd.
  - rewrite map_app in Hnd. apply NoDup_app in Hnd as (_ & Hd & _).
    intros Hin. apply (Hd k Hin). simpl. by left.
Qed.

(** A later spread wins: after [{...fs, ...v}] every property of [v] has [v]'s value. *)
Lemma assoc_foldl_oset gs fs k :
  assoc (foldl (λ acc kv, oset acc kv.1 kv.2) fs gs) k =
  match assoc (rev gs) k with Some v => Some v | None => assoc fs k end.
Proof.
  induction gs as [|[j u] gs IH] using rev_ind; simpl; [done|].
  rewrite foldl_app, rev_app_distr. simpl.
  destruct (String.eqb_spec j k) as [->|Hne]; [apply assoc_oset_eq|].
  by rewrite assoc_oset_ne.
Qed.

Lemma assoc_elem fs k v : NoDup (map fst fs) → (k, v) ∈ fs → assoc fs k = Some v.
Proof.
  induction fs as [|[j u] fs IH]; intros Hnd Hin; [by apply elem_of_nil in Hin|].
  simpl in Hnd. apply NoDup_cons in Hnd as [Hj Hnd]. apply elem_of_cons in Hin as [[= -> ->]|Hin].
  - simpl. by rewrite String.eqb_refl.
  - simpl. destruct (String.eqb_spec j k) as [->|_]; [|by apply IH].
    destruct Hj. apply list_elem_of_fmap. by exists (k, v).
Qed.

Lemma assoc_Some_elem fs k v : assoc fs k = Some v → (k, v) ∈ fs.
Proof.
  induction fs as [|[j u] fs IH]; simpl; [done|].
  destruct (String.eqb_spec j k) as [->|_]; [intros [= ->]; by left|]. intros E. right. auto.
Qed.

Lemma assoc_None fs k : k ∉ map fst fs → assoc fs k = None.
Proof.
  intros Hk. destruct (assoc fs k) as [v|] eqn:E; [|done]. destruct Hk. apply assoc_Some_elem in E.
  apply list_elem_of_fmap. by exists (k, v).
Qed.

Lemma assoc_rev fs k : NoDup (map fst fs) → assoc (rev fs) k = assoc fs k.
Proof.
  intros Hnd.
  assert (Permutation (rev fs) fs) as Hp by (symmetry; apply Permutation_rev).
  destruct (assoc fs k) as [v|] eqn:E.
  - apply assoc_elem; [by rewrite Hp|]. rewrite Hp. by apply assoc_Some_elem.
  - destruct (assoc (rev fs) k) as [v|] eqn:E'; [|done].
    apply assoc_Some_elem in E'. rewrite Hp in E'. rewrite (assoc_elem fs k v) in E by done. done.
Qed.

(** Spreading an object with distinct keys: its own properties win. *)
Lemma assoc_spread fs cs k : NoDup (map fst cs) →
  assoc (spread fs (JObj cs)) k = match assoc cs k with Some v => Some v | None => assoc fs k end.
Proof. intros Hnd. simpl. by rewrite assoc_foldl_oset, assoc_rev. Qed.

Lemma getp_Ok v k : nullish v = false → getp v k = Ok (default JUndef (own v k)).
Proof. unfold getp. by intros ->. Qed.

Lemma getpath_app v ks ks' x : getpath v ks = Ok x → getpath v (ks ++ ks') = getpath x ks'.
Proof.
  revert v. induction ks as [|k ks IH]; intros v; simpl; [by intros [= ->]|].
  intros E. apply result_bind_Ok in E as (y & Hy & E). rewrite Hy. simpl. by apply IH.
Qed.

Lemma getpath_1 v k : getpath v [k] = getp v k.
Proof. simpl. by destruct (getp v k). Qed.

Lemma getp_obj fs k : getp (JObj fs) k = Ok (default JUndef (assoc fs k)).
Proof. done. Qed.

Lemma getp_not_hang v k : getp v k ≠ Hang.
Proof. unfold getp. by destruct (nullish v). Qed.

Lemma truthy_not_nullish v : truthy v = true → nullish v = false.
Proof. by destruct v. Qed.

Lemma strict_eq_str v s : strict_eq v (JStr s) = true ↔ v = JStr s.
Proof.
  destruct v; simpl; try done. split; [intros ->%String.eqb_eq; done|].
  intros [= ->]. apply String.eqb_refl.
Qed.

(** * Equality of values *)

Section Eqb.
Context (eqb_val : jsval → jsval → bool).
Fixpoint list_eqb (l k : list jsval) : bool :=
  match l, k with
  | [], [] => true
  | x :: l, y :: k => eqb_val x y && list_eqb l k
  | _, _ => false
  end.
Fixpoint fields_eqb (l k : list (string * jsval)) : bool :=
  match l, k with
  | [], [] => true
  | (a, x) :: l, (b, y) :: k => String.eqb a b && eqb_val x y && fields_eqb l k
  | _, _ => false
  end.
End Eqb.

Fixpoint jsval_eqb (v w : jsval) : bool :=
  match v, w with
  | JUndef, JUndef | JNull, JNull | JNaN, JNaN => true
  | JBool a, JBool b => eqb a b
  | JNum m e, JNum m' e' => (m =? m')%Z && (e =? e')%nat
  | JStr s, JStr t => String.eqb s t
  | JArr l, JArr k => list_eqb jsval_eqb l k
  | JObj l, JObj k => fields_eqb jsval_eqb l k
  | JErr n m l, JErr n' m' k => String.eqb n n' && String.eqb m m' && fields_eqb jsval_eqb l k
  | _, _ => false
  end.

Lemma list_eqb_spec l : Forall (λ v, ∀ w, jsval_eqb v w = true ↔ v = w) l →
  ∀ k, list_eqb jsval_eqb l k = true ↔ l = k.
Proof.
  induction 1 as [|x l Hx _ IH]; intros [|y k]; try done. cbn [list_eqb]. rewrite andb_true_iff, Hx, IH. naive_solver.
Qed.

Lemma fields_eqb_spec l : Forall (λ kv, ∀ w, jsval_eqb kv.2 w = true ↔ kv.2 = w) l →
  ∀ k, fields_eqb jsval_eqb l k = true ↔ l = k.
Proof.
  induction 1 as [|[a x] l Hx _ IH]; intros [|[b y] k]; try done. cbn [fields_eqb fst snd] in *.
  rewrite !andb_true_iff, Hx, IH, String.eqb_eq. naive_solver.
Qed.

Lemma jsval_eqb_spec v : ∀ w, jsval_eqb v w = true ↔ v = w.
Proof.
  induction v as [| |b|m e| |s|l IH|fs IH|n m fs IH] using jsval_ind; intros [| |b'|m' e'| |s'|l'|fs'|n' m' fs'];
    cbn [jsval_eqb]; try done.
  - rewrite eqb_true_iff. naive_solver.
  - rewrite andb_true_iff, Z.eqb_eq, Nat.eqb_eq. naive_solver.
  - rewrite String.eqb_eq. naive_solver.
  - rewrite list_eqb_spec by done. naive_solver.
  - rewrite fields_eqb_spec by done. naive_solver.
  - rewrite !andb_true_iff, !String.eqb_eq, fields_eqb_spec by done. naive_solver.
Qed.

#[export] Instance jsval_eq_dec : EqDecision jsval.
Proof. intros v w. destruct (jsval_eqb v w) eqn:E; [left; by apply jsval_eqb_spec|right]. intros H%jsval_eqb_spec. congruence. Defined.
