(* ===== verification/Json.v ===== *)
(** [JSON.parse] and [JSON.stringify], the two library functions through which every document
    exchanged with the broker, the kcp and smctl tools and the Kubernetes API passes, with their
    round trip. *)

From S2P Require Import Prelude JsValue.

(** * Printing *)

Definition hexdigit (n : N) : Ascii.ascii :=
  if (n <? 10)%N then Ascii.ascii_of_N (48 + n) else Ascii.ascii_of_N (87 + n).

(** [QuoteJSONString], one character. *)
Definition esc_char (c : Ascii.ascii) : string :=
  let n := Ascii.N_of_ascii c in
  let bs (m : N) := String (Ascii.ascii_of_N 92) (String (Ascii.ascii_of_N m) "") in
  if (n =? 34)%N then bs 34%N
  else if (n =? 92)%N then bs 92%N
  else if (n =? 8)%N then bs 98%N
  else if (n =? 9)%N then bs 116%N
  else if (n =? 10)%N then bs 110%N
  else if (n =? 12)%N then bs 102%N
  else if (n =? 13)%N then bs 114%N
  else if (n <? 32)%N then
    String (Ascii.ascii_of_N 92) (String (Ascii.ascii_of_N 117)
      (String (Ascii.ascii_of_N 48) (String (Ascii.ascii_of_N 48)
        (String (hexdigit (n / 16)) (String (hexdigit (n mod 16)) "")))))
  else String c "".

Fixpoint esc (s : string) : string :=
  match s with
  | EmptyString => ""
  | String c r => esc_char c +:+ esc r
  end.

Definition quote (s : string) : string := dquote +:+ esc s +:+ dquote.

(** The items of an array or an object between their brackets. *)
Definition wrap (opn cls gap ind : string) (items : list string) : string :=
  match items with
  | [] => opn +:+ cls
  | _ =>
      if String.eqb gap "" then opn +:+ join "," items +:+ cls
      else
        let sep := nl +:+ ind +:+ gap in
        opn +:+ sep +:+ join ("," +:+ sep) items +:+ nl +:+ ind +:+ cls
  end.

(** [SerializeJSONProperty]: [None] is JavaScript's [undefined]. *)
Fixpoint ser (gap ind : string) (v : jsval) : option string :=
  let fields := fix fields (fs : list (string * jsval)) : list string :=
    match fs with
    | [] => []
    | (k, x) :: r =>
        match ser gap (ind +:+ gap) x with
        | Some t => (quote k +:+ ":" +:+ (if String.eqb gap "" then "" else " ") +:+ t) :: fields r
        | None => fields r
        end
    end in
  match v with
  | JUndef => None
  | JNull | JNaN => Some "null"
  | JBool b => Some (if b then "true" else "false")
  | JNum m e => Some (num_to_string m e)
  | JStr s => Some (quote s)
  | JArr l => Some (wrap "[" "]" gap ind (map (λ x, default "null" (ser gap (ind +:+ gap) x)) l))
  | JObj fs => Some (wrap "{" "}" gap ind (fields fs))
  | JErr _ _ fs => Some (wrap "{" "}" gap ind (fields fs))
  end.

(** [JSON.stringify(v, null, gap)]; the empty gap is [JSON.stringify(v)]. *)
Definition stringify (gap : string) (v : jsval) : jsval :=
  match ser gap "" v with Some t => JStr t | None => JUndef end.

(** * Parsing *)

Definition is_ws (c : Ascii.ascii) : bool :=
  let n := Ascii.N_of_ascii c in
  (n =? 32)%N || (n =? 9)%N || (n =? 10)%N || (n =? 13)%N.

Fixpoint skip_ws (s : string) : string :=
  match s with
  | String c r => if is_ws c then skip_ws r else s
  | EmptyString => s
  end.

Definition hex_val (c : Ascii.ascii) : option N :=
  let n := Ascii.N_of_ascii c in
  if ((48 <=? n) && (n <=? 57))%N then Some (n - 48)%N
  else if ((97 <=? n) && (n <=? 102))%N then Some (n - 87)%N
  else if ((65 <=? n) && (n <=? 70))%N then Some (n - 55)%N
  else None.

Definition hex4 (a b c d : Ascii.ascii) : option N :=
  x ← hex_val a; y ← hex_val b; z ← hex_val c; t ← hex_val d;
  Some (((x * 16 + y) * 16 + z) * 16 + t)%N.

(** A string literal is read as raw bytes and UTF-16 code units given by [\u] escapes. *)
Inductive sunit := Raw (c : Ascii.ascii) | Code (n : N).

Definition escape_of (n : N) : option N :=
  if (n =? 34)%N then Some 34%N
  else if (n =? 92)%N then Some 92%N
  else if (n =? 47)%N then Some 47%N
  else if (n =? 98)%N then Some 8%N
  else if (n =? 102)%N then Some 12%N
  else if (n =? 110)%N then Some 10%N
  else if (n =? 114)%N then Some 13%N
  else if (n =? 116)%N then Some 9%N
  else None.

Definition push (u : sunit) (o : option (list sunit * string)) : option (list sunit * string) :=
  match o with Some (us, r) => Some (u :: us, r) | None => None end.

(** The characters of a string literal after its opening quote, and the rest of the text. *)
Fixpoint str_body (s : string) : option (list sunit * string) :=
  match s with
  | EmptyString => None
  | String c r =>
      let n := Ascii.N_of_ascii c in
      if (n =? 34)%N then Some ([], r)
      else if (n =? 92)%N then
        match r with
        | EmptyString => None
        | String e r1 =>
            match escape_of (Ascii.N_of_ascii e) with
            | Some b => push (Raw (Ascii.ascii_of_N b)) (str_body r1)
            | None =>
                if (Ascii.N_of_ascii e =? 117)%N then
                  match r1 with
                  | String a (String b (String d (String f r2))) =>
                      match hex4 a b d f with
                      | Some u => push (Code u) (str_body r2)
                      | None => None
                      end
                  | _ => None
                  end
                else None
            end
        end
      else if (n <? 32)%N then None
      else push (Raw c) (str_body r)
  end.

Definition byte_str (n : N) : string := String (Ascii.ascii_of_N n) "".

(** The UTF-8 bytes of a code point. *)
Definition utf8_encode (n : N) : string :=
  if (n <? 128)%N then byte_str n
  else if (n <? 2048)%N then byte_str (192 + n / 64) +:+ byte_str (128 + n mod 64)
  else if (n <? 65536)%N then
    byte_str (224 + n / 4096) +:+ byte_str (128 + (n / 64) mod 64) +:+ byte_str (128 + n mod 64)
  else
    byte_str (240 + n / 262144) +:+ byte_str (128 + (n / 4096) mod 64) +:+
    byte_str (128 + (n / 64) mod 64) +:+ byte_str (128 + n mod 64).

Definition is_high (n : N) : bool := ((55296 <=? n) && (n <=? 56319))%N.
Definition is_low (n : N) : bool := ((56320 <=? n) && (n <=? 57343))%N.

(** Joins surrogate pairs and encodes. *)
Fixpoint assemble (us : list sunit) : string :=
  match us with
  | [] => ""
  | Raw c :: r => String c (assemble r)
  | Code u :: r =>
      match r with
      | Code l :: r' =>
          if is_high u && is_low l
          then utf8_encode (65536 + (u - 55296) * 1024 + (l - 56320)) +:+ assemble r'
          else utf8_encode u +:+ assemble r
      | _ => utf8_encode u +:+ assemble r
      end
  end.

Definition read_string (s : string) : option (string * string) :=
  match str_body s with Some (us, r) => Some (assemble us, r) | None => None end.

(** A digit after a leading zero is a syntax error. *)
Definition leading_zero (s : string) : bool :=
  match strip_prefix "0" s with Some r => starts_digit r | None => false end.

Definition read_frac (s : string) : option (N * nat * string) :=
  match strip_prefix "." s with
  | None => Some (0%N, 0%nat, s)
  | Some f =>
      if starts_digit f then
        let '(d, r) := read_digits 0 f in Some (d, (String.length f - String.length r)%nat, r)
      else None
  end.

Definition read_exp (s : string) : option (Z * string) :=
  match s with
  | String c r =>
      if ((Ascii.N_of_ascii c =? 101) || (Ascii.N_of_ascii c =? 69))%N then
        let '(neg, r1) := match strip_prefix "-" r with
                          | Some r' => (true, r')
                          | None => (false, default r (strip_prefix "+" r)) end in
        if starts_digit r1 then
          let '(d, r2) := read_digits 0 r1 in
          Some ((if (neg : bool) then - Z.of_N d else Z.of_N d)%Z, r2)
        else None
      else Some (0%Z, s)
  | EmptyString => Some (0%Z, s)
  end.

Definition scale10 (m : Z) (k : nat) (x : Z) : jsval :=
  if (0 <=? x)%Z then mknum (m * 10 ^ x)%Z k else mknum m (k + Z.to_nat (- x)).

Definition read_number (s : string) : option (jsval * string) :=
  let '(neg, s1) := match strip_prefix "-" s with Some r => (true, r) | None => (false, s) end in
  if negb (starts_digit s1) || leading_zero s1 then None
  else
    let '(i, s2) := read_digits 0 s1 in
    match read_frac s2 with
    | None => None
    | Some (d, k, s3) =>
        match read_exp s3 with
        | None => None
        | Some (x, s4) =>
            let m := (Z.of_N i * pow10 k + Z.of_N d)%Z in
            Some (scale10 (if (neg : bool) then - m else m)%Z k x, s4)
        end
    end.

Definition read_literal (s : string) : option (jsval * string) :=
  match strip_prefix "null" s with
  | Some r => Some (JNull, r)
  | None =>
      match strip_prefix "true" s with
      | Some r => Some (JBool true, r)
      | None =>
          match strip_prefix "false" s with
          | Some r => Some (JBool false, r)
          | None => read_number s
          end
      end
  end.

(** A value, the remaining elements of an array, the remaining members of an object. *)
Fixpoint value (n : nat) (s : string) : option (jsval * string) :=
  match n with
  | O => None
  | S n =>
      match skip_ws s with
      | EmptyString => None
      | String c r =>
          let k := Ascii.N_of_ascii c in
          if (k =? 34)%N then
            match read_string r with Some (t, r') => Some (JStr t, r') | None => None end
          else if (k =? 91)%N then
            match strip_prefix "]" (skip_ws r) with
            | Some r' => Some (JArr [], r')
            | None => match elements n r with Some (l, r') => Some (JArr l, r') | None => None end
            end
          else if (k =? 123)%N then
            match strip_prefix "}" (skip_ws r) with
            | Some r' => Some (JObj [], r')
            | None =>
                match members n r with
                | Some (fs, r') => Some (JObj (foldl (λ acc kv, oset acc kv.1 kv.2) [] fs), r')
                | None => None
                end
            end
          else read_literal (String c r)
      end
  end
with elements (n : nat) (s : string) : option (list jsval * string) :=
  match n with
  | O => None
  | S n =>
      match value n s with
      | None => None
      | Some (x, r) =>
          match strip_prefix "," (skip_ws r) with
          | Some r' =>
              match elements n r' with Some (l, r'') => Some (x :: l, r'') | None => None end
          | None =>
              match strip_prefix "]" (skip_ws r) with
              | Some r' => Some ([x], r')
              | None => None
              end
          end
      end
  end
with members (n : nat) (s : string) : option (list (string * jsval) * string) :=
  match n with
  | O => None
  | S n =>
      match strip_prefix dquote (skip_ws s) with
      | None => None
      | Some r =>
          match read_string r with
          | None => None
          | Some (k, r1) =>
              match strip_prefix ":" (skip_ws r1) with
              | None => None
              | Some r2 =>
                  match value n r2 with
                  | None => None
                  | Some (x, r3) =>
                      match strip_prefix "," (skip_ws r3) with
                      | Some r4 =>
                          match members n r4 with
                          | Some (fs, r5) => Some ((k, x) :: fs, r5)
                          | None => None
                          end
                      | None =>
                          match strip_prefix "}" (skip_ws r3) with
                          | Some r4 => Some ([(k, x)], r4)
                          | None => None
                          end
                      end
                  end
              end
          end
      end
  end.

(** Every recursive call but [elements]/[members] to [value] consumes a character. *)
Definition parse_fuel (s : string) : nat := (2 * String.length s + 2)%nat.

(** [JSON.parse(s)] on a string. *)
Definition parse_text (s : string) : result jsval :=
  match value (parse_fuel s) s with
  | Some (v, r) =>
      if String.eqb (skip_ws r) "" then Ok v
      else Throw (syntaxError "Unexpected token in JSON")
  | None => Throw (syntaxError "Unexpected token in JSON")
  end.

(** [JSON.parse(v)]: the argument is first converted to a string. *)
Definition parse (v : jsval) : result jsval := parse_text (to_string v).

(** * Round trip *)

(** The values that JSON text can denote, in canonical form. *)
Fixpoint json_ok (v : jsval) : Prop :=
  match v with
  | JNull | JBool _ | JStr _ => True
  | JNum m e => e = O ∨ (m mod 10 ≠ 0)%Z
  | JArr l => (fix all (l : list jsval) : Prop :=
                 match l with [] => True | x :: r => json_ok x ∧ all r end) l
  | JObj fs => NoDup (map fst fs) ∧
      (fix all (fs : list (string * jsval)) : Prop :=
         match fs with [] => True | (_, x) :: r => json_ok x ∧ all r end) fs
  | JUndef | JNaN | JErr _ _ _ => False
  end.

(** Whitespace-only indentation. *)
Fixpoint blank (s : string) : bool :=
  match s with EmptyString => true | String c r => is_ws c && blank r end.

(** No character that could continue a number. *)
Definition num_end (s : string) : bool :=
  match s with
  | EmptyString => true
  | String c _ =>
      let n := Ascii.N_of_ascii c in
      negb (starts_digit s) && negb ((n =? 46) || (n =? 101) || (n =? 69))%N
  end.

Section strings.

Lemma str_body_esc_char c r :
  ∃ u, str_body (esc_char c +:+ r) = push u (str_body r) ∧
       ∀ us, assemble (u :: us) = String c (assemble us).
Proof.
  assert (∀ n us, (n < 128)%N → assemble (Code n :: us) = String (Ascii.ascii_of_N n) (assemble us)) as Hcode.
  { intros n us Hn. assert (is_high n = false) as Hh.
    { unfold is_high. destruct (N.leb_spec 55296 n); [lia|done]. }
    assert (utf8_encode n = String (Ascii.ascii_of_N n) "") as He.
    { unfold utf8_encode. destruct (N.ltb_spec n 128); [done|lia]. }
    destruct us as [|[d|l] us]; simpl; by rewrite ?Hh, He. }
  destruct c as [[] [] [] [] [] [] [] []];
    first [eexists (Raw _); split; [reflexivity|done]
          |eexists (Code _); split; [reflexivity|intros us; apply Hcode; done]].
Qed.

Lemma str_body_esc s rest :
  ∃ us, str_body (esc s +:+ dquote +:+ rest) = Some (us, rest) ∧ assemble us = s.
Proof.
  induction s as [|c s (us & IH & Ha)]; [by exists []|].
  cbn [esc]. rewrite sapp_assoc. destruct (str_body_esc_char c (esc s +:+ dquote +:+ rest)) as (u & -> & Hu).
  rewrite IH. exists (u :: us). split; [done|]. by rewrite Hu, Ha.
Qed.

Lemma read_string_esc s rest : read_string (esc s +:+ dquote +:+ rest) = Some (s, rest).
Proof. unfold read_string. destruct (str_body_esc s rest) as (us & -> & ->). done. Qed.

Lemma blank_app s t : blank (s +:+ t) = blank s && blank t.
Proof. induction s as [|c s IH]; simpl; [done|]. by rewrite IH, andb_assoc. Qed.

Lemma skip_ws_blank p s : blank p = true → skip_ws (p +:+ s) = skip_ws s.
Proof.
  induction p as [|c p IH]; simpl; [done|]. intros [Hc Hp]%andb_true_iff. rewrite Hc. auto.
Qed.

Lemma skip_ws_cons c s : is_ws c = false → skip_ws (String c s) = String c s.
Proof. simpl. by intros ->. Qed.

Lemma skip_ws_idemp s : skip_ws (skip_ws s) = skip_ws s.
Proof.
  induction s as [|c s IH]; simpl; [done|].
  destruct (is_ws c) eqn:E; [done|]. simpl. by rewrite E.
Qed.

Lemma skip_ws_length s : (String.length (skip_ws s) ≤ String.length s)%nat.
Proof. induction s as [|c s IH]; simpl; [done|]. destruct (is_ws c); simpl; lia. Qed.

End strings.

Section numbers.

Lemma digits_fuel_app f n acc s : digits_fuel f n acc +:+ s = digits_fuel f n (acc +:+ s).
Proof.
  revert n acc. induction f as [|f IH]; intros n acc; simpl; [done|].
  destruct (n <? 10)%N; [done|]. apply IH.
Qed.

Lemma digits_fuel_length f n acc (k : nat) :
  (n < 10 ^ N.of_nat (S k))%N →
  (String.length (digits_fuel f n acc) ≤ S k + String.length acc)%nat.
Proof.
  revert n acc k. induction f as [|f IH]; intros n acc k Hn; simpl; [lia|].
  destruct (N.ltb_spec n 10) as [|Hge]; simpl; [lia|].
  destruct k as [|k]; [change (10 ^ N.of_nat 1)%N with 10%N in Hn; lia|].
  etrans; [apply (IH _ _ k)|simpl; lia].
  apply N.Div0.div_lt_upper_bound. by rewrite <- N.pow_succ_r', <- Nat2N.inj_succ.
Qed.

Lemma strip_zero_digit n s : (0 < n < 10)%N → strip_prefix "0" (String (digit n) s) = None.
Proof.
  intros Hn. destruct (strip_prefix "0" _) as [r|] eqn:E; [|done].
  apply strip_prefix_Some in E. injection E as E _.
  apply (f_equal digit_val) in E. rewrite digit_val_digit in E by lia.
  vm_compute in E. injection E. lia.
Qed.

Lemma digits_fuel_head f n acc :
  (0 < n)%N → (n < 10 ^ N.of_nat (S f))%N →
  strip_prefix "0" (digits_fuel f n acc) = None.
Proof.
  revert n acc. induction f as [|f IH]; intros n acc H0 Hn; cbn [digits_fuel].
  - change (10 ^ N.of_nat 1)%N with 10%N in Hn. rewrite N.mod_small by lia.
    apply strip_zero_digit. lia.
  - destruct (N.ltb_spec n 10) as [|Hge].
    + rewrite N.mod_small by lia. apply strip_zero_digit. lia.
    + apply IH; [apply N.div_str_pos; lia|]. apply N.Div0.div_lt_upper_bound.
      by rewrite <- N.pow_succ_r', <- Nat2N.inj_succ.
Qed.

Lemma starts_digit_fuel f n acc : starts_digit (digits_fuel f n acc) = true.
Proof.
  revert n acc. induction f as [|f IH]; intros n acc; simpl.
  2: destruct (n <? 10)%N; [|apply IH].
  all: simpl; apply bool_decide_eq_true_2; rewrite digit_val_digit by (apply N.mod_lt; done); eauto.
Qed.

Lemma starts_digit_N n s : starts_digit (N_to_string n +:+ s) = true.
Proof. unfold N_to_string. rewrite digits_fuel_app. apply starts_digit_fuel. Qed.

Lemma leading_zero_N n s : starts_digit s = false → leading_zero (N_to_string n +:+ s) = false.
Proof.
  intros Hs. unfold leading_zero, N_to_string. rewrite digits_fuel_app.
  destruct (decide (n = 0)%N) as [->|Hn]; [done|].
  rewrite digits_fuel_head; [done|lia|apply N_to_string_bound].
Qed.

Lemma no_minus_N n s : strip_prefix "-" (N_to_string n +:+ s) = None.
Proof.
  pose proof (starts_digit_N n s) as H.
  destruct (strip_prefix "-" _) as [r|] eqn:E; [|done].
  apply strip_prefix_Some in E. rewrite E in H. done.
Qed.

Lemma num_end_digit s : num_end s = true → starts_digit s = false.
Proof. destruct s as [|c s]; simpl; [done|]. intros [H _]%andb_true_iff. by destruct (bool_decide _). Qed.

Lemma read_frac_end s : num_end s = true → read_frac s = Some (0%N, 0%nat, s).
Proof.
  unfold read_frac. destruct s as [|c s]; [done|]. intros H.
  destruct (strip_prefix "." _) as [r|] eqn:E; [|done].
  apply strip_prefix_Some in E. rewrite E in H. done.
Qed.

Lemma read_exp_end s : num_end s = true → read_exp s = Some (0%Z, s).
Proof.
  destruct s as [|c s]; [done|]. unfold num_end, read_exp.
  destruct (Ascii.N_of_ascii c =? 101)%N, (Ascii.N_of_ascii c =? 69)%N; simpl; try done;
    rewrite ?orb_true_r, ?andb_false_r; done.
Qed.

Lemma concat_zeros_S k :
  String.concat "" (replicate (S k) "0") = "0" +:+ String.concat "" (replicate k "0").
Proof. by destruct k. Qed.

Lemma replicate_zero_digits k a s :
  read_digits a (String.concat "" (replicate k "0") +:+ s) = read_digits (a * 10 ^ N.of_nat k) s.
Proof.
  revert a. induction k as [|k IH]; intros a; [simpl; by rewrite N.mul_1_r|].
  rewrite concat_zeros_S, sapp_assoc. cbn [read_digits String.append].
  change (digit_val _) with (Some 0%N). cbn iota. rewrite IH. f_equal.
  rewrite Nat2N.inj_succ, N.pow_succ_r'. lia.
Qed.

Lemma length_replicate_zero k : String.length (String.concat "" (replicate k "0")) = k.
Proof. induction k as [|k IH]; [done|]. rewrite concat_zeros_S, slength_app, IH. done. Qed.

Lemma zero_pad_length e x : (x < 10 ^ N.of_nat (S e))%N →
  String.length (zero_pad (S e) (N_to_string x)) = S e.
Proof.
  intros Hx. unfold zero_pad. rewrite slength_app, length_replicate_zero.
  assert (String.length (N_to_string x) ≤ S e)%nat; [|lia].
  unfold N_to_string. etrans; [by apply digits_fuel_length|simpl; lia].
Qed.

Lemma read_frac_pad e x s : (x < 10 ^ N.of_nat (S e))%N → starts_digit s = false →
  read_frac ("." +:+ zero_pad (S e) (N_to_string x) +:+ s) = Some (x, S e, s).
Proof.
  intros Hx Hs. unfold read_frac. rewrite strip_prefix_app.
  pose proof (zero_pad_length e x Hx) as Hlen. unfold zero_pad in *.
  rewrite sapp_assoc, replicate_zero_digits, N.mul_0_l, read_digits_N by done.
  rewrite slength_app in Hlen. rewrite !slength_app.
  assert (starts_digit (String.concat "" (replicate (S e - String.length (N_to_string x)) "0") +:+
            N_to_string x +:+ s) = true) as ->.
  { destruct (S e - String.length (N_to_string x))%nat as [|[|?]];
      [apply starts_digit_N|done|done]. }
  do 3 f_equal. lia.
Qed.

Lemma pow10_N e : Z.to_N (pow10 e) = (10 ^ N.of_nat e)%N.
Proof. unfold pow10. rewrite Z2N.inj_pow by lia. by rewrite <- nat_N_Z, N2Z.id. Qed.

Lemma mknum_canon m e : e = O ∨ (m mod 10 ≠ 0)%Z → mknum m e = JNum m e.
Proof.
  destruct e as [|e]; [done|]. intros [?|H]; [done|]. simpl.
  by apply Z.eqb_neq in H as ->.
Qed.

Lemma read_number_to_string m e s :
  (e = O ∨ (m mod 10 ≠ 0)%Z) → num_end s = true →
  read_number (num_to_string m e +:+ s) = Some (JNum m e, s).
Proof.
  intros Hc Hs. unfold num_to_string. rewrite sapp_assoc.
  set (a := Z.to_N (Z.abs m)).
  assert (∃ sg, (sg = if (m <? 0)%Z then true else false) ∧ ∀ n t,
    match strip_prefix "-" ((if (m <? 0)%Z then "-" else "") +:+ N_to_string n +:+ t) with
    | Some r => (true, r)
    | None => (false, (if (m <? 0)%Z then "-" else "") +:+ N_to_string n +:+ t) end
    = (sg, N_to_string n +:+ t)) as (sg & Hsg & Hsign).
  { exists (if (m <? 0)%Z then true else false). split; [done|]. intros n t.
    destruct (m <? 0)%Z; [by rewrite strip_prefix_app|].
    change ("" +:+ N_to_string n +:+ t) with (N_to_string n +:+ t). by rewrite no_minus_N. }
  assert (∀ z : Z, z = Z.of_N a → (if (sg : bool) then - z else z)%Z = m) as Hval.
  { intros z ->. subst a sg. rewrite Z2N.id by lia. destruct (Z.ltb_spec m 0); lia. }
  destruct e as [|e].
  - unfold read_number. rewrite Hsign. rewrite starts_digit_N, leading_zero_N by by apply num_end_digit.
    simpl. rewrite read_digits_N by by apply num_end_digit.
    rewrite read_frac_end, read_exp_end by done. unfold scale10. simpl.
    rewrite Hval; [by rewrite Z.mul_1_r|]. change (pow10 0) with 1%Z. lia.
  - rewrite pow10_N. set (p := (10 ^ N.of_nat (S e))%N).
    assert (0 < p)%N by (apply N.neq_0_lt_0, N.pow_nonzero; done).
    unfold read_number. rewrite sapp_assoc, Hsign.
    assert (starts_digit ("." +:+ zero_pad (S e) (N_to_string (a mod p)) +:+ s) = false) as Hd by done.
    rewrite (sapp_assoc "."). rewrite starts_digit_N, leading_zero_N by done. simpl negb. simpl orb. cbv iota.
    rewrite read_digits_N by done.
    rewrite read_frac_pad; [|apply N.mod_lt; lia|by apply num_end_digit].
    rewrite read_exp_end by done. unfold scale10. simpl (0 <=? 0)%Z. cbv iota.
    rewrite Hval.
    + rewrite Z.pow_0_r, Z.mul_1_r, mknum_canon by done. done.
    + rewrite <- (Z2N.id (pow10 (S e))) by (unfold pow10; lia). rewrite pow10_N. fold p.
      pose proof (N.div_mod a p). lia.
Qed.

End numbers.

Section roundtrip.

(** Fuel that [value] needs on the printed form of [v]. *)
Fixpoint jsize (v : jsval) : nat :=
  match v with
  | JArr l => S (S (foldr (λ x n, S (jsize x) + n) 0 l))
  | JObj fs => S (S (foldr (λ kv n, S (jsize kv.2) + n) 0 fs))
  | _ => 1
  end%nat.

Definition head_ok (t : string) : Prop :=
  match t with
  | EmptyString => False
  | String c _ => is_ws c = false ∧ (Ascii.N_of_ascii c =? 93)%N = false
  end.

Lemma head_ok_skip t s : head_ok t → skip_ws (t +:+ s) = t +:+ s.
Proof. destruct t as [|c t]; [done|]. intros [H _]. simpl. by rewrite H. Qed.

Lemma skip_ws_sym p s :
  match p with String c _ => is_ws c = false | EmptyString => False end →
  skip_ws (p +:+ s) = p +:+ s.
Proof. destruct p as [|c p]; [done|]. simpl. by intros ->. Qed.

Lemma head_ok_bracket t s : head_ok t → strip_prefix "]" (t +:+ s) = None.
Proof.
  destruct t as [|c t]; [done|]. intros [_ H].
  destruct (strip_prefix "]" _) as [r|] eqn:E; [|done].
  apply strip_prefix_Some in E. injection E as -> _. done.
Qed.

Lemma num_end_ws c s : is_ws c = true → num_end (String c s) = true.
Proof. by destruct c as [[] [] [] [] [] [] [] []]. Qed.

Lemma num_end_blank p s : blank p = true → num_end s = true → num_end (p +:+ s) = true.
Proof.
  destruct p as [|c p]; [done|]. intros [Hc _]%andb_true_iff _. by apply (num_end_ws c (p +:+ s)).
Qed.

Lemma value_blank n p s : blank p = true → value n (p +:+ s) = value n s.
Proof. intros Hp. destruct n; [done|]. cbn [value]. by rewrite skip_ws_blank. Qed.

Lemma elements_blank n p s : blank p = true → elements n (p +:+ s) = elements n s.
Proof. intros Hp. destruct n; [done|]. cbn [elements]. by rewrite value_blank. Qed.

Lemma members_blank n p s : blank p = true → members n (p +:+ s) = members n s.
Proof. intros Hp. destruct n; [done|]. cbn [members]. by rewrite skip_ws_blank. Qed.

Lemma value_arr n r : value (S n) ("[" +:+ r) =
  match strip_prefix "]" (skip_ws r) with
  | Some r' => Some (JArr [], r')
  | None => match elements n r with Some (l, r') => Some (JArr l, r') | None => None end
  end.
Proof. done. Qed.

Lemma value_obj n r : value (S n) ("{" +:+ r) =
  match strip_prefix "}" (skip_ws r) with
  | Some r' => Some (JObj [], r')
  | None => match members n r with
            | Some (fs, r') => Some (JObj (foldl (λ acc kv, oset acc kv.1 kv.2) [] fs), r')
            | None => None end
  end.
Proof. done. Qed.

(** What the round trip needs of the text [t] printed for a value [v]. *)
Definition printed (v : jsval) (t : string) : Prop :=
  head_ok t ∧ (jsize v ≤ 2 * String.length t + 1)%nat ∧
  ∀ n rest, (jsize v ≤ n)%nat → num_end rest = true → value n (t +:+ rest) = Some (v, rest).

Definition item_printed (kv : string * jsval) (it : string) : Prop :=
  ∃ sp t, blank sp = true ∧ it = quote kv.1 +:+ ":" +:+ sp +:+ t ∧ printed kv.2 t.

Lemma elements_printed l its sep cl n rest :
  l ≠ [] → Forall2 printed l its → blank sep = true → blank cl = true →
  (foldr (λ x n, S (jsize x) + n) 0 l ≤ n)%nat →
  elements n (join ("," +:+ sep) its +:+ cl +:+ "]" +:+ rest) = Some (l, rest).
Proof.
  intros Hne Hl Hsep Hcl. revert n. induction Hl as [|x t l its (Hh & _ & Hv) Hl IH]; [done|].
  intros n Hn. simpl in Hn. destruct n as [|n]; [lia|]. cbn [elements].
  destruct Hl as [|y u l its Hy Hl].
  - cbn [join]. rewrite Hv; [|lia|by apply num_end_blank].
    rewrite skip_ws_blank by done. rewrite (skip_ws_sym "]") by done.
    change (strip_prefix "," ("]" +:+ rest)) with (@None string).
    by rewrite strip_prefix_app.
  - rewrite join_cons by done. rewrite !sapp_assoc. rewrite Hv; [|simpl in *; lia|done].
    rewrite (skip_ws_sym ",") by done. rewrite strip_prefix_app, elements_blank by done.
    rewrite IH; [done|done|]. simpl in *. lia.
Qed.

Lemma members_printed fs its sep cl n rest :
  fs ≠ [] → Forall2 item_printed fs its → blank sep = true → blank cl = true →
  (foldr (λ kv n, S (jsize kv.2) + n) 0 fs ≤ n)%nat →
  members n (join ("," +:+ sep) its +:+ cl +:+ "}" +:+ rest) = Some (fs, rest).
Proof.
  intros Hne Hl Hsep Hcl. revert n. induction Hl as [|[k x] it fs its Hit Hl IH]; [done|].
  destruct Hit as (sp & t & Hsp & -> & Hh & _ & Hv). simpl in Hv.
  assert (∀ s, strip_prefix dquote (skip_ws ((quote k +:+ ":" +:+ sp +:+ t) +:+ s)) =
               Some (esc k +:+ dquote +:+ ":" +:+ sp +:+ t +:+ s)) as Hk.
  { intros s. unfold quote. rewrite !sapp_assoc, (skip_ws_sym dquote) by done. apply strip_prefix_app. }
  intros n Hn. simpl in Hn. destruct n as [|n]; [lia|]. cbn [members].
  destruct Hl as [|y u fs its Hy Hl].
  - cbn [join]. rewrite Hk, read_string_esc.
    rewrite (skip_ws_sym ":") by done. rewrite strip_prefix_app, value_blank by done.
    rewrite Hv; [|simpl in *; lia|by apply num_end_blank].
    rewrite skip_ws_blank by done. rewrite (skip_ws_sym "}") by done.
    change (strip_prefix "," ("}" +:+ rest)) with (@None string). by rewrite strip_prefix_app.
  - rewrite join_cons by done. rewrite (sapp_assoc (quote k +:+ _)), Hk, read_string_esc.
    rewrite (skip_ws_sym ":") by done. rewrite strip_prefix_app, value_blank by done.
    rewrite !sapp_assoc. rewrite Hv; [|simpl in *; lia|done].
    rewrite (skip_ws_sym ",") by done. rewrite strip_prefix_app, members_blank by done.
    rewrite IH; [done|done|]. simpl in *. lia.
Qed.

(** Both layouts of a non-empty container. *)
Lemma wrap_shape opn cls gap ind it its :
  blank gap = true → blank ind = true →
  ∃ sep cl, blank sep = true ∧ blank cl = true ∧
    wrap opn cls gap ind (it :: its) = opn +:+ sep +:+ join ("," +:+ sep) (it :: its) +:+ cl +:+ cls.
Proof.
  intros Hg Hi. unfold wrap. destruct (String.eqb_spec gap "").
  - exists "", "". done.
  - exists (nl +:+ ind +:+ gap), (nl +:+ ind). rewrite !blank_app, Hg, Hi. split_and!; [done|done|].
    by rewrite !sapp_assoc.
Qed.

Lemma sum_join_bound {A} (f : A → nat) (l : list A) its sep :
  l ≠ [] → Forall2 (λ x t, f x ≤ 2 * String.length t + 1)%nat l its →
  (foldr (λ x n, S (f x) + n) 0 l ≤ 2 * String.length (join ("," +:+ sep) its) + 2)%nat.
Proof.
  intros Hne Hl. induction Hl as [|x t l its Hx Hl IH]; [done|].
  destruct Hl as [|y u l its Hy Hl]; [simpl in *; lia|].
  rewrite join_cons, !slength_app by done. simpl in *. specialize (IH ltac:(done)). lia.
Qed.

Lemma printed_leaf v t :
  head_ok t → jsize v = 1%nat →
  (∀ rest, num_end rest = true → value 1 (t +:+ rest) = Some (v, rest)) →
  (∀ n rest, value (S n) (t +:+ rest) = value 1 (t +:+ rest)) → printed v t.
Proof.
  intros Hh Hs Hv Hn. split; [done|]. split; [destruct t; simpl; [done|lia]|].
  intros [|n] rest Hle Hr; [lia|]. by rewrite Hn, Hv.
Qed.

Lemma printed_arr gap ind l its :
  blank gap = true → blank ind = true → Forall2 printed l its →
  printed (JArr l) (wrap "[" "]" gap ind its).
Proof.
  intros Hg Hi Hl. destruct Hl as [|x t l its Hx Hl].
  { split; [done|]. split; [simpl; lia|]. by intros [|n] rest Hn Hr; [simpl in Hn; lia|]. }
  destruct (wrap_shape "[" "]" gap ind t its Hg Hi) as (sep & cl & Hsep & Hcl & ->).
  assert (Forall2 printed (x :: l) (t :: its)) as Hall by (by constructor).
  set (J := join _ _). split; [done|]. split.
  - pose proof (sum_join_bound jsize (x :: l) (t :: its) sep ltac:(done)) as Hb.
    fold J in Hb. rewrite !slength_app. cbn [jsize]. simpl String.length.
    enough (foldr (λ x n, S (jsize x) + n) 0 (x :: l) ≤ 2 * String.length J + 2)%nat by lia.
    apply Hb. eapply Forall2_impl; [exact Hall|]. by intros ?? (_ & ? & _).
  - intros [|n] rest Hn Hr; [simpl in Hn; lia|].
    rewrite !sapp_assoc, value_arr. rewrite skip_ws_blank, elements_blank by done.
    assert (strip_prefix "]" (skip_ws (J +:+ cl +:+ "]" +:+ rest)) = None) as ->.
    { subst J. destruct Hx as (Hh & _). destruct its as [|t' its].
      - cbn [join]. rewrite head_ok_skip by done. by apply head_ok_bracket.
      - rewrite join_cons, !sapp_assoc, head_ok_skip by done. by apply head_ok_bracket. }
    pose proof (elements_printed (x :: l) (t :: its) sep cl n rest ltac:(done) Hall Hsep Hcl) as He.
    unfold J. rewrite He; [done|]. simpl in *. lia.
Qed.

Lemma printed_obj gap ind fs its :
  NoDup (map fst fs) → blank gap = true → blank ind = true → Forall2 item_printed fs its →
  printed (JObj fs) (wrap "{" "}" gap ind its).
Proof.
  intros Hnd Hg Hi Hl. destruct Hl as [|x t l its Hx Hl].
  { split; [done|]. split; [simpl; lia|]. by intros [|n] rest Hn Hr; [simpl in Hn; lia|]. }
  destruct (wrap_shape "{" "}" gap ind t its Hg Hi) as (sep & cl & Hsep & Hcl & ->).
  assert (Forall2 item_printed (x :: l) (t :: its)) as Hall by (by constructor).
  set (J := join _ _). split; [done|]. split.
  - pose proof (sum_join_bound (λ kv, jsize kv.2) (x :: l) (t :: its) sep ltac:(done)) as Hb.
    fold J in Hb. rewrite !slength_app. cbn [jsize]. simpl String.length.
    enough (foldr (λ kv n, S (jsize kv.2) + n) 0 (x :: l) ≤ 2 * String.length J + 2)%nat by lia.
    apply Hb. eapply Forall2_impl; [exact Hall|].
    intros ?? (sp & u & _ & -> & _ & ? & _). rewrite !slength_app. lia.
  - intros [|n] rest Hn Hr; [simpl in Hn; lia|].
    rewrite !sapp_assoc, value_obj. rewrite skip_ws_blank, members_blank by done.
    assert (∃ r, J = dquote +:+ r) as [r Hr'].
    { subst J. destruct Hx as (sp & u & _ & -> & _). unfold quote. destruct its as [|t' its].
      - cbn [join]. rewrite !sapp_assoc. eauto.
      - rewrite join_cons, !sapp_assoc by done. eauto. }
    assert (∀ s, strip_prefix "}" (skip_ws (J +:+ s)) = None) as -> by (intros s; by rewrite Hr').
    pose proof (members_printed (x :: l) (t :: its) sep cl n rest ltac:(done) Hall Hsep Hcl) as He.
    unfold J. rewrite He by (simpl in *; lia).
    rewrite (oset_rebuild (x :: l) []) by done. done.
Qed.

End roundtrip.

Section parse_stringify.

Lemma printed_num m e : (e = O ∨ (m mod 10 ≠ 0)%Z) → printed (JNum m e) (num_to_string m e).
Proof.
  intros Hc.
  assert (∃ c t, num_to_string m e = String c t ∧
            ((Ascii.N_of_ascii c = 45)%N ∨ is_Some (digit_val c))) as (c & t & Ht & Hd).
  { unfold num_to_string. destruct (m <? 0)%Z; [eexists _, _; split; [reflexivity|by left]|].
    assert (∀ n s, ∃ c t, N_to_string n +:+ s = String c t ∧ is_Some (digit_val c)) as Hn.
    { intros n s. pose proof (starts_digit_N n s) as H.
      destruct (N_to_string n +:+ s) as [|c t]; [done|]. apply bool_decide_eq_true_1 in H. eauto. }
    destruct e as [|e].
    - destruct (Hn (Z.to_N (Z.abs m)) "") as (c & t & Hs & Hd). rewrite sapp_nil_r in Hs.
      exists c, t. split; [exact Hs|by right].
    - edestruct Hn as (c & t & Hs & Hd). exists c, t. split; [exact Hs|by right]. }
  assert (is_ws c = false ∧ (Ascii.N_of_ascii c =? 34)%N = false ∧
          (Ascii.N_of_ascii c =? 91)%N = false ∧ (Ascii.N_of_ascii c =? 93)%N = false ∧
          (Ascii.N_of_ascii c =? 123)%N = false ∧
          ∀ s, read_literal (String c s) = read_number (String c s)) as (Hw & H1 & H2 & H3 & H4 & H5).
  { clear Ht. destruct c as [[] [] [] [] [] [] [] []];
      (destruct Hd as [Hd|[d Hd]]; [discriminate Hd || done|discriminate Hd || done]). }
  apply printed_leaf; [by rewrite Ht|done| |].
  - intros rest Hr. rewrite <- (read_number_to_string m e rest) by done.
    rewrite Ht. cbn [value String.append skip_ws]. rewrite Hw, H1, H2, H4. apply H5.
  - intros n rest. rewrite Ht. cbn [value String.append skip_ws]. by rewrite Hw, H1, H2, H4.
Qed.

Lemma value_dquote n r : value (S n) (dquote +:+ r) =
  match read_string r with Some (t, r') => Some (JStr t, r') | None => None end.
Proof. done. Qed.

Lemma printed_str s : printed (JStr s) (quote s).
Proof.
  apply printed_leaf; [done|done| |]; intros; unfold quote; rewrite !sapp_assoc, !value_dquote.
  - by rewrite read_string_esc.
  - done.
Qed.

(** Printing a JSON value in any indentation gives text that parses back to it. *)
Lemma ser_printed v : json_ok v → ∀ gap ind, blank gap = true → blank ind = true →
  ∃ t, ser gap ind v = Some t ∧ printed v t.
Proof.
  induction v as [| |b|m e| |s|l IH|fs IH|] using jsval_ind; intros Hok gap ind Hg Hi; try done.
  - eexists; split; [reflexivity|]. by apply printed_leaf.
  - eexists; split; [reflexivity|]. by destruct b; apply printed_leaf.
  - eexists; split; [reflexivity|]. by apply printed_num.
  - eexists; split; [reflexivity|]. apply printed_str.
  - cbn [ser]. eexists; split; [reflexivity|]. apply printed_arr; [done|done|].
    assert (blank (ind +:+ gap) = true) as Hb by (by rewrite blank_app, Hg, Hi).
    induction IH as [|x l Hx _ IHl]; [constructor|]. destruct Hok as [Hx' Hl].
    destruct (Hx Hx' gap (ind +:+ gap) Hg Hb) as (t & Ht & Hp).
    simpl. rewrite Ht. constructor; [done|]. by apply IHl.
  - cbn [ser]. eexists; split; [reflexivity|]. destruct Hok as [Hnd Hok].
    apply printed_obj; [done|done|done|]. clear Hnd.
    assert (blank (ind +:+ gap) = true) as Hb by (by rewrite blank_app, Hg, Hi).
    induction IH as [|[k x] l Hx _ IHl]; [constructor|]. destruct Hok as [Hx' Hl].
    destruct (Hx Hx' gap (ind +:+ gap) Hg Hb) as (t & Ht & Hp). simpl in *.
    rewrite Ht. constructor; [|by apply IHl].
    exists (if String.eqb gap "" then "" else " "), t. split_and!; [|done|done].
    by destruct (String.eqb gap "").
Qed.

Lemma parse_text_printed v t : printed v t → parse_text t = Ok v.
Proof.
  intros (_ & Hs & Hv). unfold parse_text, parse_fuel.
  rewrite <- (sapp_nil_r t) at 2. rewrite Hv; [done|lia|done].
Qed.

Lemma parse_stringify gap v :
  json_ok v → blank gap = true → parse (stringify gap v) = Ok v.
Proof.
  intros Hok Hg. destruct (ser_printed v Hok gap "" Hg) as (t & Ht & Hp); [done|].
  unfold parse, stringify. rewrite Ht. by apply parse_text_printed.
Qed.

(** ** What [JSON.parse] returns is a JSON value *)

Definition fields_ok (fs : list (string * jsval)) : Prop := Forall (λ kv, json_ok kv.2) fs.

Lemma json_ok_arr l : json_ok (JArr l) ↔ Forall json_ok l.
Proof.
  induction l as [|x l IH]; [by split; [constructor|]|]. rewrite Forall_cons, <- IH. done.
Qed.

Lemma json_ok_obj fs : json_ok (JObj fs) ↔ NoDup (map fst fs) ∧ fields_ok fs.
Proof.
  cbn [json_ok]. f_equiv. induction fs as [|[k x] l IH]; [by split; [constructor|]|].
  unfold fields_ok in *. rewrite Forall_cons, <- IH. done.
Qed.

Lemma json_ok_mknum m e : json_ok (mknum m e).
Proof.
  revert m. induction e as [|e IH]; intros m; [by left|]. cbn [mknum].
  destruct (Z.eqb_spec (m mod 10) 0); [apply IH|by right].
Qed.

Lemma fields_ok_oset fs k v : json_ok v → fields_ok fs → fields_ok (oset fs k v).
Proof.
  intros Hv. induction fs as [|[k' v'] fs IH]; intros H; cbn [oset]; [by repeat constructor|].
  apply Forall_cons in H as [H1 H2]. destruct (String.eqb k' k); constructor; try done. by apply IH.
Qed.

Lemma nodup_oset fs k v : NoDup (map fst fs) → NoDup (map fst (oset fs k v)).
Proof.
  intros H. rewrite oset_keys. case_bool_decide as Hin; [done|].
  apply NoDup_app. split_and!; [done|set_solver|apply NoDup_singleton].
Qed.

Lemma json_ok_rebuild gs fs : fields_ok gs → fields_ok fs → NoDup (map fst fs) →
  json_ok (JObj (foldl (λ acc kv, oset acc kv.1 kv.2) fs gs)).
Proof.
  revert fs. induction gs as [|[k v] gs IH]; intros fs Hg Hf Hn; [by apply json_ok_obj|].
  apply Forall_cons in Hg as [H1 H2]. apply IH; [done|by apply fields_ok_oset|by apply nodup_oset].
Qed.

Lemma read_literal_ok s v r : read_literal s = Some (v, r) → json_ok v.
Proof.
  unfold read_literal, read_number, scale10. intros H.
  repeat case_hyp; simplify_eq; try done; apply json_ok_mknum.
Qed.

Lemma value_ok n :
  (∀ s v r, value n s = Some (v, r) → json_ok v) ∧
  (∀ s l r, elements n s = Some (l, r) → Forall json_ok l) ∧
  (∀ s fs r, members n s = Some (fs, r) → fields_ok fs).
Proof.
  induction n as [|n (IHv & IHe & IHm)]; [done|]. split_and!; intros s x r H.
  - cbn [value] in H. repeat case_hyp; simplify_eq; try done.
    + apply json_ok_arr. by eapply IHe.
    + apply json_ok_obj. split; [apply NoDup_nil_2|constructor].
    + apply json_ok_rebuild; [by eapply IHm|constructor|apply NoDup_nil_2].
    + by eapply read_literal_ok.
  - cbn [elements] in H. repeat case_hyp; simplify_eq;
      (constructor; [by eapply IHv|first [by eapply IHe|constructor]]).
  - cbn [members] in H. repeat case_hyp; simplify_eq;
      (constructor; [by eapply IHv|first [by eapply IHm|constructor]]).
Qed.

Lemma parse_text_ok s v : parse_text s = Ok v → json_ok v.
Proof.
  unfold parse_text. intros H. repeat case_hyp; simplify_eq. by eapply value_ok.
Qed.

(** Reformatting a parsed document does not change what a second parse sees. *)
Lemma parse_reformat gap s v : blank gap = true →
  parse s = Ok v → parse (stringify gap v) = Ok v.
Proof. intros Hg H. apply parse_stringify; [|done]. by eapply parse_text_ok. Qed.

Lemma parse_not_hang s : parse s ≠ Hang.
Proof. unfold parse, parse_text. repeat case_goal; done. Qed.

End parse_stringify.

(** ** The fuel never runs out *)

Section fuel.

Lemma strip_prefix_length p s r : strip_prefix p s = Some r →
  String.length s = (String.length p + String.length r)%nat.
Proof. intros ->%strip_prefix_Some. apply slength_app. Qed.

Lemma read_digits_length a s n r : read_digits a s = (n, r) → (String.length r ≤ String.length s)%nat.
Proof.
  revert a. induction s as [|c s IH]; intros a; simpl; [by intros [= _ <-]|].
  destruct (digit_val c); [intros H%IH; lia|by intros [= _ <-]].
Qed.

Lemma read_digits_shorter a s n r : starts_digit s = true → read_digits a s = (n, r) →
  (String.length r < String.length s)%nat.
Proof.
  destruct s as [|c s]; simpl; [done|]. intros [d Hd]%bool_decide_eq_true_1. rewrite Hd.
  intros H%read_digits_length. lia.
Qed.

Lemma str_body_shorter L s us r : (String.length s ≤ L)%nat → str_body s = Some (us, r) →
  (String.length r < String.length s)%nat.
Proof.
  revert s us. induction L as [|L IH]; intros [|c s] us HL H; try done; simpl in HL; [lia|].
  cbn [str_body] in H. unfold push in H. repeat case_hyp; simplify_eq/=;
    repeat match goal with E : str_body _ = Some _ |- _ => apply IH in E; [|simpl in *; lia] end;
    simpl in *; lia.
Qed.

Lemma read_string_shorter s t r : read_string s = Some (t, r) →
  (String.length r < String.length s)%nat.
Proof.
  unfold read_string. destruct (str_body s) as [[us r']|] eqn:E; [|done].
  intros [= _ <-]. by eapply str_body_shorter.
Qed.

Lemma read_frac_le s d k r : read_frac s = Some (d, k, r) → (String.length r ≤ String.length s)%nat.
Proof.
  unfold read_frac. destruct (strip_prefix "." s) as [f|] eqn:E; [|intros; simplify_eq; lia].
  apply strip_prefix_length in E. destruct (starts_digit f); [|done].
  destruct (read_digits 0 f) as [d' r'] eqn:E'. apply read_digits_length in E'.
  intros; simplify_eq; lia.
Qed.

Lemma sign_length p q s (neg : bool) (r : string) :
  match strip_prefix p s with Some r' => (true, r') | None => (false, default s (strip_prefix q s)) end
    = (neg, r) → (String.length r ≤ String.length s)%nat.
Proof.
  destruct (strip_prefix p s) eqn:E; [apply strip_prefix_length in E; intros; simplify_eq; lia|].
  destruct (strip_prefix q s) eqn:E'; simpl; intros; simplify_eq; [|lia].
  apply strip_prefix_length in E'. lia.
Qed.

Lemma read_exp_le s x r : read_exp s = Some (x, r) → (String.length r ≤ String.length s)%nat.
Proof.
  destruct s as [|c s]; unfold read_exp; [intros; simplify_eq; done|].
  destruct (_ || _); [|intros; simplify_eq; done].
  destruct (match strip_prefix "-" s with
            | Some r' => (true, r') | None => (false, default s (strip_prefix "+" s)) end)
    as [neg r1] eqn:E.
  apply sign_length in E. destruct (starts_digit r1); [|done].
  destruct (read_digits 0 r1) as [d r2] eqn:E'. apply read_digits_length in E'.
  intros; simplify_eq/=; lia.
Qed.

Lemma read_number_shorter s v r : read_number s = Some (v, r) →
  (String.length r < String.length s)%nat.
Proof.
  unfold read_number.
  destruct (match strip_prefix "-" s with Some r' => (true, r') | None => (false, s) end)
    as [neg s1] eqn:E.
  assert (String.length s1 ≤ String.length s)%nat.
  { destruct (strip_prefix "-" s) eqn:E'; [apply strip_prefix_length in E'|]; simplify_eq; lia. }
  destruct (negb _ || _) eqn:Hd; [done|]. apply orb_false_iff in Hd as [Hd%negb_false_iff _].
  destruct (read_digits 0 s1) as [i s2] eqn:E2. apply read_digits_shorter in E2; [|done].
  destruct (read_frac s2) as [[[d k] s3]|] eqn:E3; [|done]. apply read_frac_le in E3.
  destruct (read_exp s3) as [[x s4]|] eqn:E4; [|done]. apply read_exp_le in E4.
  intros [= _ <-]. lia.
Qed.

Lemma read_literal_shorter s v r : read_literal s = Some (v, r) →
  (String.length r < String.length s)%nat.
Proof.
  unfold read_literal. intros H. repeat case_hyp; simplify_eq;
    try (match goal with E : strip_prefix _ _ = Some _ |- _ => apply strip_prefix_length in E end;
         simpl in *; lia).
  by eapply read_number_shorter.
Qed.

Ltac shorter :=
  repeat match goal with
  | E : strip_prefix _ _ = Some _ |- _ => apply strip_prefix_length in E
  | E : read_string _ = Some _ |- _ => apply read_string_shorter in E
  | E : read_literal _ = Some _ |- _ => apply read_literal_shorter in E
  end;
  repeat match goal with
  | H : context [String.length (skip_ws ?s)] |- _ =>
      lazymatch goal with
      | _ : (String.length (skip_ws s) ≤ String.length s)%nat |- _ => fail
      | _ => pose proof (skip_ws_length s)
      end
  end; simpl in * |-; try lia.

Lemma value_shorter n :
  (∀ s v r, value n s = Some (v, r) → (String.length r < String.length s)%nat) ∧
  (∀ s l r, elements n s = Some (l, r) → (String.length r < String.length s)%nat) ∧
  (∀ s l r, members n s = Some (l, r) → (String.length r < String.length s)%nat).
Proof.
  induction n as [|n (IHv & IHe & IHm)]; [done|]. split_and!; intros s x r H.
  - cbn [value] in H. pose proof (skip_ws_length s).
    repeat case_hyp; simplify_eq; try done; shorter.
    all: match goal with
         | E : elements _ _ = Some _ |- _ => apply IHe in E; simpl in *; lia
         | E : members _ _ = Some _ |- _ => apply IHm in E; simpl in *; lia
         end.
  - cbn [elements] in H. repeat case_hyp; simplify_eq;
      (match goal with E : value _ _ = Some _ |- _ => apply IHv in E end); shorter.
    match goal with E : elements _ _ = Some _ |- _ => apply IHe in E; lia end.
  - cbn [members] in H. repeat case_hyp; simplify_eq;
      (match goal with E : value _ _ = Some _ |- _ => apply IHv in E end); shorter.
    match goal with E : members _ _ = Some _ |- _ => apply IHm in E; lia end.
Qed.

(** Any two amounts of fuel above the bound agree. *)
Lemma value_fuel L :
  (∀ s n m, String.length s ≤ L → 2 * String.length s + 1 ≤ n → 2 * String.length s + 1 ≤ m →
     value n s = value m s) ∧
  (∀ s n m, String.length s ≤ L → 2 * String.length s + 2 ≤ n → 2 * String.length s + 2 ≤ m →
     elements n s = elements m s) ∧
  (∀ s n m, String.length s ≤ L → 2 * String.length s + 2 ≤ n → 2 * String.length s + 2 ≤ m →
     members n s = members m s).
Proof.
  induction L as [L IH] using lt_wf_ind.
  assert (∀ s n m, String.length s ≤ L → 2 * String.length s + 1 ≤ n →
            2 * String.length s + 1 ≤ m → value n s = value m s) as HV.
  { intros s [|n] [|m] HL Hn Hm; try lia. cbn [value]. pose proof (skip_ws_length s) as Hs.
    destruct (skip_ws s) as [|c r]; [done|]. simpl in Hs.
    destruct (IH (String.length r) ltac:(lia)) as (_ & He & Hmm).
    by rewrite (He r n m), (Hmm r n m) by lia. }
  split; [exact HV|]. split; intros s [|n] [|m] HL Hn Hm; try lia.
  - cbn [elements]. rewrite (HV s n m) by lia.
    destruct (value m s) as [[x r]|] eqn:Ev; [|done]. apply value_shorter in Ev.
    destruct (strip_prefix "," (skip_ws r)) as [r'|] eqn:Es; [|done]. shorter.
    destruct (IH (String.length r') ltac:(lia)) as (_ & He & _). by rewrite (He r' n m) by lia.
  - cbn [members]. destruct (strip_prefix dquote (skip_ws s)) as [r|] eqn:E1; [|done].
    destruct (read_string r) as [[k r1]|] eqn:E2; [|done].
    destruct (strip_prefix ":" (skip_ws r1)) as [r2|] eqn:E3; [|done]. shorter.
    destruct (IH (String.length r2) ltac:(lia)) as (Hv & _ & _). rewrite (Hv r2 n m) by lia.
    destruct (value m r2) as [[x r3]|] eqn:Ev; [|done]. apply value_shorter in Ev.
    destruct (strip_prefix "," (skip_ws r3)) as [r4|] eqn:Es; [|done]. shorter.
    destruct (IH (String.length r4) ltac:(lia)) as (_ & _ & Hm'). by rewrite (Hm' r4 n m) by lia.
Qed.

(** More fuel than [parse_fuel] never changes the outcome of a parse. *)
Lemma parse_fuel_enough n s : (parse_fuel s ≤ n)%nat → value n s = value (parse_fuel s) s.
Proof.
  unfold parse_fuel. intros H. destruct (value_fuel (String.length s)) as (Hv & _). apply Hv; lia.
Qed.

End fuel.
