(* ===== verification/RegExp.v ===== *)
(** Regular expressions of JavaScript, as far as the harness uses them: patterns made of literal
    characters, dots and word boundaries, tried on ASCII text. Every other pattern or text is left
    to a parameter. *)

From S2P Require Import Prelude JsValue.

(** * Patterns *)

Inductive item := ILit (c : Ascii.ascii) | IAny | IBound.

Definition ascii_code (c : Ascii.ascii) : N := Ascii.N_of_ascii c.

(** The characters with a meaning of their own in a pattern, the dot apart: the backslash and
    $ ( ) * + ? [ ] ^ { | }. *)
Definition syntax_char (c : Ascii.ascii) : bool :=
  existsb (N.eqb (ascii_code c)) [36; 40; 41; 42; 43; 63; 91; 92; 93; 94; 123; 124; 125]%N.

Definition is_dot (c : Ascii.ascii) : bool := (ascii_code c =? 46)%N.
Definition backslash : Ascii.ascii := Ascii.ascii_of_N 92.
Definition letter_b : Ascii.ascii := Ascii.ascii_of_N 98.
Definition plain (c : Ascii.ascii) : bool := negb (syntax_char c) && (ascii_code c <? 128)%N.

(** The pattern a string denotes, when it lies in the fragment. *)
Fixpoint compile (p : string) : option (list item) :=
  match p with
  | EmptyString => Some []
  | String c r =>
      if Ascii.eqb c backslash then
        match r with
        | String d r' => if Ascii.eqb d letter_b then items ← compile r'; Some (IBound :: items) else None
        | EmptyString => None
        end
      else if plain c then
        items ← compile r; Some ((if is_dot c then IAny else ILit c) :: items)
      else None
  end.

(** * Matching *)

(** [\w]: letters, digits and the underscore. *)
Definition word_char (c : Ascii.ascii) : bool :=
  let n := ascii_code c in
  ((48 <=? n) && (n <=? 57) || (65 <=? n) && (n <=? 90) || (97 <=? n) && (n <=? 122) || (n =? 95))%N.

Definition word_at (o : option Ascii.ascii) : bool := match o with Some c => word_char c | None => false end.

Definition first_char (s : string) : option Ascii.ascii :=
  match s with String c _ => Some c | EmptyString => None end.

(** A position between a word character and another one, or the end of the text. *)
Definition boundary (prev : option Ascii.ascii) (s : string) : bool :=
  xorb (word_at prev) (word_at (first_char s)).

(** The dot does not match a line terminator. *)
Definition any_char (c : Ascii.ascii) : bool :=
  negb ((ascii_code c =? 10)%N || (ascii_code c =? 13)%N).

Fixpoint match_here (items : list item) (prev : option Ascii.ascii) (s : string) : bool :=
  match items with
  | [] => true
  | IBound :: r => boundary prev s && match_here r prev s
  | ILit c :: r => match s with String d s' => Ascii.eqb c d && match_here r (Some d) s' | EmptyString => false end
  | IAny :: r => match s with String d s' => any_char d && match_here r (Some d) s' | EmptyString => false end
  end.

Fixpoint search (items : list item) (prev : option Ascii.ascii) (s : string) : bool :=
  match_here items prev s ||
  match s with String c r => search items (Some c) r | EmptyString => false end.

Fixpoint is_ascii (s : string) : bool :=
  match s with String c r => (ascii_code c <? 128)%N && is_ascii r | EmptyString => true end.

(** Patterns and texts outside the fragment: what the engine of the platform does with them. *)
Class RegExpRest := regexp_rest : string → string → result bool.

(** [new RegExp(p, 'g').exec(s) !== null]. *)
Definition regexp_test `{RegExpRest} (p s : string) : result bool :=
  match compile p with
  | Some items => if is_ascii s then Ok (search items None s) else regexp_rest p s
  | None => regexp_rest p s
  end.

(** An engine that refuses everything else. *)
#[export] Instance regexp_none : RegExpRest := λ _ _, Throw (JErr "SyntaxError" "Invalid regular expression" []).

(** * What a delimited pattern matches *)

Definition last_char (prev : option Ascii.ascii) (s : string) : option Ascii.ascii :=
  (fix go prev s := match s with EmptyString => prev | String c r => go (Some c) r end) prev s.

(** [x] and [y] have the same length and the same characters, except that a dot of [x] stands for
    any character that does not end a line. *)
Fixpoint like (x y : string) : Prop :=
  match x, y with
  | EmptyString, EmptyString => True
  | String c x', String d y' => (if is_dot c then any_char d = true else c = d) ∧ like x' y'
  | _, _ => False
  end.

(** Some part of [s] is like [x] and starts and ends at word boundaries. *)
Definition delimited (x s : string) : Prop :=
  ∃ a y b, s = a +:+ y +:+ b ∧ like x y ∧
    boundary (last_char None a) (y +:+ b) = true ∧ boundary (last_char None (a +:+ y)) b = true.

Fixpoint plain_text (x : string) : bool :=
  match x with String c r => plain c && plain_text r | EmptyString => true end.

Definition word_pattern (x : string) : string :=
  String backslash (String letter_b "") +:+ x +:+ String backslash (String letter_b "").

Fixpoint literal (x : string) : list item :=
  match x with
  | EmptyString => []
  | String c r => (if is_dot c then IAny else ILit c) :: literal r
  end.

Lemma plain_no_backslash c : plain c = true → Ascii.eqb c backslash = false.
Proof.
  intros Hp. destruct (Ascii.eqb_spec c backslash) as [->|]; [|done]. by vm_compute in Hp.
Qed.

Lemma compile_literal x p items : plain_text x = true → compile p = Some items →
  compile (x +:+ p) = Some (literal x ++ items).
Proof.
  intros Hx Hp. induction x as [|c x IH]; [done|]. simpl in Hx. apply andb_true_iff in Hx as [Hc Hx].
  change (String c x +:+ p) with (String c (x +:+ p)). cbn [compile].
  by rewrite plain_no_backslash, Hc, (IH Hx).
Qed.

Lemma compile_word x : plain_text x = true → compile (word_pattern x) = Some (IBound :: literal x ++ [IBound]).
Proof.
  intros Hx. unfold word_pattern.
  change (String backslash (String letter_b "") +:+ ?r) with (String backslash (String letter_b r)).
  cbn [compile]. rewrite !Ascii.eqb_refl.
  change (String backslash (String letter_b "" +:+ ?r)) with (String backslash (String letter_b r)).
  rewrite (compile_literal x (String backslash (String letter_b "")) [IBound] Hx eq_refl). done.
Qed.

Lemma last_char_app prev a b : last_char prev (a +:+ b) = last_char (last_char prev a) b.
Proof. revert prev. induction a as [|c a IH]; intros prev; [done|]. apply IH. Qed.

Lemma match_literal x items prev s :
  match_here (literal x ++ items) prev s = true ↔
  ∃ y b, s = y +:+ b ∧ like x y ∧ match_here items (last_char prev y) b = true.
Proof.
  revert prev s. induction x as [|c x IH]; intros prev s.
  - simpl. split; [intros Hm; by exists "", s|]. intros ([|d y] & b & -> & Hl & Hm); done.
  - cbn [literal app]. destruct s as [|d s].
    + split; [by destruct (is_dot c)|]. intros ([|d y] & b & Hs & Hl & _); done.
    + assert (match_here ((if is_dot c then IAny else ILit c) :: literal x ++ items) prev (String d s) =
        ((if is_dot c then any_char d else Ascii.eqb c d) && match_here (literal x ++ items) (Some d) s)) as ->.
      { by destruct (is_dot c). }
      rewrite andb_true_iff, IH. split.
      * intros [Hc (y & b & -> & Hl & Hm)]. exists (String d y), b. split_and!; try done. cbn [like].
        split; [|done]. destruct (is_dot c); [done|]. by apply Ascii.eqb_eq.
      * intros ([|d' y] & b & Hs & Hl & Hm); [done|]. injection Hs as -> ->. destruct Hl as [Hc Hl].
        split; [|by exists y, b]. destruct (is_dot c); [done|]. by apply Ascii.eqb_eq.
Qed.

Lemma search_spec items prev s :
  search items prev s = true ↔ ∃ a r, s = a +:+ r ∧ match_here items (last_char prev a) r = true.
Proof.
  revert prev. induction s as [|c s IH]; intros prev; cbn [search]; rewrite orb_true_iff.
  - split; [intros [Hm|]; [by exists "", ""|done]|]. intros ([|] & r & Hs & Hm); [|done].
    left. change ("" +:+ r) with r in Hs. by subst.
  - rewrite IH. split.
    + intros [Hm|(a & r & -> & Hm)]; [by exists "", (String c s)|by exists (String c a), r].
    + intros ([|c' a] & r & Hs & Hm).
      * left. change ("" +:+ r) with r in Hs. by subst.
      * right. injection Hs as -> ->. by exists a, r.
Qed.

(** On ASCII text, the pattern of a word made of plain characters matches exactly where the word
    occurs between word boundaries, its dots standing for any character. *)
Lemma word_pattern_spec `{RegExpRest} x s : plain_text x = true → is_ascii s = true →
  ∃ b, regexp_test (word_pattern x) s = Ok b ∧ (b = true ↔ delimited x s).
Proof.
  intros Hx Hs. unfold regexp_test. rewrite (compile_word x Hx), Hs. eexists. split; [done|].
  rewrite search_spec. unfold delimited. split.
  - intros (a & r & -> & Hm). cbn [match_here] in Hm. apply andb_true_iff in Hm as [Hb Hm].
    apply match_literal in Hm as (y & b & -> & Hl & Hm). exists a, y, b. split_and!; try done.
    rewrite last_char_app. cbn [match_here] in Hm. by rewrite andb_true_r in Hm.
  - intros (a & y & b & -> & Hl & Hb & He). exists a, (y +:+ b). split; [done|]. cbn [match_here].
    rewrite Hb. simpl. apply match_literal. exists y, b. split_and!; try done.
    cbn [match_here]. by rewrite <- last_char_app, He.
Qed.
