(* ===== verification/Buffer.v ===== *)
(** Node's [Buffer] as the harness uses it: base64 in both directions, and decoding of bytes
    as UTF-8 and as ASCII. Bytes and strings are both byte sequences (a JavaScript string is
    represented by its UTF-8 bytes), so [Buffer.from(s)] is the identity. *)

From S2P Require Import Prelude JsValue Json.

(** * base64 *)

Definition b64_char (n : N) : Ascii.ascii :=
  Ascii.ascii_of_N
    (if (n <? 26)%N then 65 + n
     else if (n <? 52)%N then 71 + n
     else if (n <? 62)%N then n - 4
     else if (n =? 62)%N then 43 else 47)%N.

(** The value of a character of either base64 alphabet; other characters are skipped. *)
Definition b64_val (c : Ascii.ascii) : option N :=
  let n := Ascii.N_of_ascii c in
  if ((65 <=? n) && (n <=? 90))%N then Some (n - 65)%N
  else if ((97 <=? n) && (n <=? 122))%N then Some (n - 71)%N
  else if ((48 <=? n) && (n <=? 57))%N then Some (n + 4)%N
  else if ((n =? 43) || (n =? 45))%N then Some 62%N
  else if ((n =? 47) || (n =? 95))%N then Some 63%N
  else None.

Definition byte (c : Ascii.ascii) : N := Ascii.N_of_ascii c.

(** [buf.toString('base64')]. *)
Fixpoint b64_encode (s : string) : string :=
  match s with
  | EmptyString => ""
  | String a EmptyString =>
      String (b64_char (byte a / 4)) (String (b64_char (byte a mod 4 * 16)) "==")
  | String a (String b EmptyString) =>
      String (b64_char (byte a / 4))
        (String (b64_char (byte a mod 4 * 16 + byte b / 16))
          (String (b64_char (byte b mod 16 * 4)) "="))
  | String a (String b (String c r)) =>
      String (b64_char (byte a / 4))
        (String (b64_char (byte a mod 4 * 16 + byte b / 16))
          (String (b64_char (byte b mod 16 * 4 + byte c / 64))
            (String (b64_char (byte c mod 64)) (b64_encode r))))
  end.

Fixpoint sextets (s : string) : list N :=
  match s with
  | EmptyString => []
  | String c r => match b64_val c with Some n => n :: sextets r | None => sextets r end
  end.

Fixpoint pack (l : list N) : string :=
  match l with
  | a :: b :: c :: d :: r =>
      byte_str (a * 4 + b / 16) +:+ byte_str (b mod 16 * 16 + c / 4) +:+
      byte_str (c mod 4 * 64 + d) +:+ pack r
  | [a; b; c] => byte_str (a * 4 + b / 16) +:+ byte_str (b mod 16 * 16 + c / 4)
  | [a; b] => byte_str (a * 4 + b / 16)
  | _ => ""
  end.

(** [Buffer.from(s, 'base64')]. *)
Definition b64_decode (s : string) : string := pack (sextets s).

(** * Decoding bytes as text *)

(** The replacement character U+FFFD. *)
Definition replacement : string := utf8_encode 65533.

(** What a byte that starts a sequence expects: continuation bytes still needed and the range
    of the next one; [None] for a byte that starts no sequence. *)
Definition utf8_start (n : N) : option (nat * N * N) :=
  if (n <? 128)%N then Some (0%nat, 0%N, 0%N)
  else if ((194 <=? n) && (n <=? 223))%N then Some (1%nat, 128%N, 191%N)
  else if (n =? 224)%N then Some (2%nat, 160%N, 191%N)
  else if (n =? 237)%N then Some (2%nat, 128%N, 159%N)
  else if ((225 <=? n) && (n <=? 239))%N then Some (2%nat, 128%N, 191%N)
  else if (n =? 240)%N then Some (3%nat, 144%N, 191%N)
  else if ((241 <=? n) && (n <=? 243))%N then Some (3%nat, 128%N, 191%N)
  else if (n =? 244)%N then Some (3%nat, 128%N, 143%N)
  else None.

(** [buf.toString('utf8')]: [need] continuation bytes are expected, the next in [lo..hi];
    [pend] holds the bytes of the sequence read so far. *)
Fixpoint utf8_go (s : string) (need : nat) (lo hi : N) (pend : string) : string :=
  match s with
  | EmptyString => match need with O => "" | S _ => replacement end
  | String c r =>
      let start :=
        match utf8_start (byte c) with
        | None => replacement +:+ utf8_go r 0 0 0 ""
        | Some (O, _, _) => String c (utf8_go r 0 0 0 "")
        | Some (S k, l, h) => utf8_go r (S k) l h (String c "")
        end in
      match need with
      | O => start
      | S k =>
          if ((lo <=? byte c) && (byte c <=? hi))%N then
            match k with
            | O => pend +:+ String c (utf8_go r 0 0 0 "")
            | S _ => utf8_go r k 128 191 (pend +:+ String c "")
            end
          else replacement +:+ start
      end
  end.

Definition utf8_decode (s : string) : string := utf8_go s 0 0 0 "".

(** [buf.toString('ascii')]: the high bit of every byte is dropped. *)
Fixpoint ascii_decode (s : string) : string :=
  match s with
  | EmptyString => ""
  | String c r => String (Ascii.ascii_of_N (byte c mod 128)) (ascii_decode r)
  end.

(** * Lemmas *)

Lemma byte_bound c : (byte c < 256)%N.
Proof. apply Ascii.N_ascii_bounded. Qed.

Lemma byte_str_byte c : byte_str (byte c) = String c "".
Proof. unfold byte_str, byte. by rewrite Ascii.ascii_N_embedding. Qed.

Lemma byte_ascii n : (n < 256)%N → byte (Ascii.ascii_of_N n) = n.
Proof. apply Ascii.N_ascii_embedding. Qed.

Lemma b64_val_char n : (n < 64)%N → b64_val (b64_char n) = Some n.
Proof.
  intros H. unfold b64_val, b64_char.
  destruct (N.ltb_spec n 26); [|destruct (N.ltb_spec n 52); [|destruct (N.ltb_spec n 62);
    [|destruct (N.eqb_spec n 62)]]]; rewrite Ascii.N_ascii_embedding by lia;
  repeat match goal with
  | |- context [(?a <=? ?b)%N] => destruct (N.leb_spec a b); simpl; try lia
  | |- context [(?a =? ?b)%N] => destruct (N.eqb_spec a b); simpl; try lia
  end; f_equal; lia.
Qed.

Ltac solve_sextet :=
  match goal with
  | |- (?x < 64)%N =>
      repeat match goal with
      | |- context [byte ?c] =>
          lazymatch goal with
          | _ : (byte c < 256)%N |- _ => fail
          | _ => pose proof (byte_bound c)
          end
      end; zify; Z.to_euclidean_division_equations; lia
  end.

Ltac solve_bytes := rewrite <- byte_str_byte; f_equal; zify; Z.to_euclidean_division_equations; lia.

(** Decoding undoes encoding, for every byte sequence. *)
Lemma b64_decode_encode s : b64_decode (b64_encode s) = s.
Proof.
  unfold b64_decode. induction s as [s IH] using (induction_ltof1 _ String.length).
  destruct s as [|a [|b [|c r]]]; cbn [b64_encode sextets]; [done| | |];
    rewrite !b64_val_char by solve_sextet; pose proof (byte_bound a).
  - change (b64_val (Ascii.Ascii true false true true true true false false)) with (@None N).
    cbn [pack]. solve_bytes.
  - pose proof (byte_bound b).
    change (b64_val (Ascii.Ascii true false true true true true false false)) with (@None N).
    cbn [pack]. change (String a (String b "")) with (String a "" +:+ String b ""). f_equal; solve_bytes.
  - pose proof (byte_bound b). pose proof (byte_bound c). cbn [pack]. rewrite IH by (unfold ltof; simpl; lia).
    change (String a (String b (String c r))) with (String a "" +:+ String b "" +:+ String c "" +:+ r).
    f_equal; [solve_bytes|]. f_equal; [solve_bytes|]. f_equal. solve_bytes.
Qed.

(** Unicode scalar values: code points that are not surrogates. *)
Definition scalar (n : N) : Prop := (n < 55296)%N ∨ (57344 ≤ n < 1114112)%N.

(** The UTF-8 text of a sequence of code points. *)
Fixpoint utf8_text (l : list N) : string :=
  match l with [] => "" | n :: r => utf8_encode n +:+ utf8_text r end.

Lemma utf8_go_start c r k l h : utf8_start (byte c) = Some (S k, l, h) →
  utf8_go (String c r) 0 0 0 "" = utf8_go r (S k) l h (String c "").
Proof. simpl. by intros ->. Qed.

Lemma utf8_go_cont c r k lo hi p : (lo ≤ byte c ≤ hi)%N →
  utf8_go (String c r) (S (S k)) lo hi p = utf8_go r (S k) 128 191 (p +:+ String c "").
Proof.
  intros [H1 H2]. cbn [utf8_go]. apply N.leb_le in H1, H2. by rewrite H1, H2.
Qed.

Lemma utf8_go_last c r lo hi p : (lo ≤ byte c ≤ hi)%N →
  utf8_go (String c r) 1 lo hi p = p +:+ String c (utf8_go r 0 0 0 "").
Proof.
  intros [H1 H2]. cbn [utf8_go]. apply N.leb_le in H1, H2. by rewrite H1, H2.
Qed.

Ltac nsolve := zify; Z.to_euclidean_division_equations; lia.

(** Resolves the comparisons of a chain of byte tests. *)
Ltac ntests :=
  repeat match goal with
  | |- context [(?a <=? ?b)%N] => destruct (N.leb_spec a b); cbv beta iota delta [andb orb]; try nsolve
  | |- context [(?a <? ?b)%N] => destruct (N.ltb_spec a b); cbv beta iota delta [andb orb]; try nsolve
  | |- context [(?a =? ?b)%N] => destruct (N.eqb_spec a b); cbv beta iota delta [andb orb]; try nsolve
  end.

Lemma utf8_go_encode1 n r : (n < 128)%N →
  utf8_go (utf8_encode n +:+ r) 0 0 0 "" = utf8_encode n +:+ utf8_go r 0 0 0 "".
Proof.
  intros Hn. unfold utf8_encode. destruct (N.ltb_spec n 128); [|lia].
  unfold byte_str. cbn [String.append utf8_go]. rewrite byte_ascii by lia.
  unfold utf8_start. by destruct (N.ltb_spec n 128); [|lia].
Qed.

Lemma utf8_go_encode2 n r : (128 ≤ n < 2048)%N →
  utf8_go (utf8_encode n +:+ r) 0 0 0 "" = utf8_encode n +:+ utf8_go r 0 0 0 "".
Proof.
  intros Hn. unfold utf8_encode. ntests. unfold byte_str. cbn [String.append].
  rewrite (utf8_go_start _ _ 0 128 191).
  - rewrite utf8_go_last; [done|]. rewrite byte_ascii by nsolve. nsolve.
  - rewrite byte_ascii by nsolve. unfold utf8_start. ntests. done.
Qed.

Lemma utf8_go_encode3 n r : (2048 ≤ n < 65536)%N → scalar n →
  utf8_go (utf8_encode n +:+ r) 0 0 0 "" = utf8_encode n +:+ utf8_go r 0 0 0 "".
Proof.
  unfold scalar. intros Hn Hs. unfold utf8_encode. ntests. unfold byte_str. cbn [String.append].
  assert (∃ lo hi, utf8_start (224 + n / 4096) = Some (2%nat, lo, hi) ∧
            (lo ≤ 128 + (n / 64) mod 64 ≤ hi)%N) as (lo & hi & Hst & Hr).
  { unfold utf8_start. ntests; eexists _, _; (split; [reflexivity|nsolve]). }
  rewrite (utf8_go_start _ _ 1 lo hi) by (by rewrite byte_ascii by nsolve).
  rewrite utf8_go_cont by (by rewrite byte_ascii by nsolve).
  rewrite utf8_go_last; [done|]. rewrite byte_ascii by nsolve. nsolve.
Qed.

Lemma utf8_go_encode4 n r : (65536 ≤ n)%N → scalar n →
  utf8_go (utf8_encode n +:+ r) 0 0 0 "" = utf8_encode n +:+ utf8_go r 0 0 0 "".
Proof.
  unfold scalar. intros Hn Hs. unfold utf8_encode. ntests. unfold byte_str. cbn [String.append].
  assert (∃ lo hi, utf8_start (240 + n / 262144) = Some (3%nat, lo, hi) ∧
            (lo ≤ 128 + (n / 4096) mod 64 ≤ hi)%N) as (lo & hi & Hst & Hr).
  { unfold utf8_start. ntests; eexists _, _; (split; [reflexivity|nsolve]). }
  rewrite (utf8_go_start _ _ 2 lo hi) by (by rewrite byte_ascii by nsolve).
  rewrite utf8_go_cont by (by rewrite byte_ascii by nsolve).
  rewrite utf8_go_cont by (rewrite byte_ascii by nsolve; nsolve).
  rewrite utf8_go_last; [done|]. rewrite byte_ascii by nsolve. nsolve.
Qed.

(** Well-formed text is left as it is by the decoder. *)
Lemma utf8_decode_text l : Forall scalar l → utf8_decode (utf8_text l) = utf8_text l.
Proof.
  unfold utf8_decode. induction 1 as [|n l Hn Hl IH]; [done|]. cbn [utf8_text].
  destruct (N.lt_ge_cases n 128); [by rewrite utf8_go_encode1, IH|].
  destruct (N.lt_ge_cases n 2048); [by rewrite utf8_go_encode2, IH|].
  destruct (N.lt_ge_cases n 65536); [by rewrite utf8_go_encode3, IH|].
  by rewrite utf8_go_encode4, IH.
Qed.

(** Seven-bit text is left as it is by the ASCII decoder. *)
Fixpoint is_ascii7 (s : string) : bool :=
  match s with EmptyString => true | String c r => (byte c <? 128)%N && is_ascii7 r end.

Lemma ascii_decode_id s : is_ascii7 s = true → ascii_decode s = s.
Proof.
  induction s as [|c s IH]; simpl; [done|]. intros [H%N.ltb_lt Hs]%andb_true_iff.
  rewrite IH by done. rewrite N.mod_small by done. unfold byte. by rewrite Ascii.ascii_N_embedding.
Qed.

(** ** Text is closed under concatenation *)

Lemma replacement_head x c y : replacement +:+ x = String c y →
  utf8_start (byte c) = Some (2%nat, 128%N, 191%N) ∧
  ∃ y', y = String (Ascii.ascii_of_N 191) (String (Ascii.ascii_of_N 189) y') ∧ x = y'.
Proof. intros [= <- <-]. split; [done|]. by exists x. Qed.

Ltac out_of_range H :=
  first [apply replacement_head in H as (Hs & y' & Hy & _); simplify_eq
        |injection H as H].

Lemma utf8_go_app s t : utf8_go s 0 0 0 "" = s → utf8_go (s +:+ t) 0 0 0 "" = s +:+ utf8_go t 0 0 0 "".
Proof.
  induction s as [s IH] using (induction_ltof1 _ String.length). unfold ltof in IH.
  destruct s as [|c s]; [done|]. change (String c s +:+ t) with (String c (s +:+ t)). cbn [utf8_go].
  destruct (utf8_start (byte c)) as [[[[|[|[|k]]] lo] hi]|] eqn:Es; intros H.
  - injection H as H. rewrite IH by (done || simpl; lia). done.
  - destruct s as [|d s]; [done|]. change (String d s +:+ t) with (String d (s +:+ t)). cbn [utf8_go] in *.
    destruct (_ && _) eqn:E1; [|out_of_range H].
    injection H as H. rewrite IH by (done || simpl; lia). done.
  - destruct s as [|d s]; [done|]. change (String d s +:+ t) with (String d (s +:+ t)). cbn [utf8_go] in *.
    destruct (_ && _) eqn:E1.
    + destruct s as [|e s]; [done|]. change (String e s +:+ t) with (String e (s +:+ t)). cbn [utf8_go] in *.
      destruct ((128 <=? byte e)%N && _) eqn:E2; [|out_of_range H].
      injection H as H. rewrite IH by (done || simpl; lia). done.
    + out_of_range H.
  - destruct s as [|d s]; [done|]. change (String d s +:+ t) with (String d (s +:+ t)). cbn [utf8_go] in *.
    assert (∀ x y, replacement +:+ x ≠ String c y) as Hr.
    { intros x y Hxy. apply replacement_head in Hxy as [Hs _]. congruence. }
    destruct (_ && _); [|by apply Hr in H].
    destruct s as [|e s]; [done|]. change (String e s +:+ t) with (String e (s +:+ t)). cbn [utf8_go] in *.
    destruct (_ && _); [|by apply Hr in H].
    assert (k = 0%nat) as -> by (unfold utf8_start in Es; repeat case_match; by simplify_eq).
    destruct s as [|f s]; [by apply (Hr "") in H|]. change (String f s +:+ t) with (String f (s +:+ t)). cbn [utf8_go] in *.
    destruct (_ && _); [|by apply Hr in H].
    injection H as H. rewrite IH by (done || simpl; lia). done.
  - apply replacement_head in H as (Hs & _). congruence.
Qed.
