(* ===== verification/Effects.v ===== *)
(** The effects of the harness: the process state its modules share (environment, clock,
    console, module-level variables, files), the third-party services it calls, and the
    monad in which an [async] function is a computation that returns, throws or never settles. *)

From S2P Require Import Prelude JsValue Json.

(** * Calls to third-party code *)

(** Where a Kubernetes client was configured from. *)
Inductive kubesrc :=
| KDefault
| KFile (path : string)
| KString (content : string).

(** The calls of axios, execa, the Kubernetes client, YAML and uuid packages. *)
Inductive call :=
| CAxios (config : jsval)                                  (* axios.request(config) *)
| CAxiosPost (url body : string) (params : jsval)          (* axios.post(url, body, params) *)
| CExeca (file : string) (args : list string) (stdin : option string)
| CKubeLoad (src : kubesrc)                                (* kc.loadFrom...() *)
| CKubeClient (src : kubesrc) (api : string)               (* kc.makeApiClient(k8s.api) *)
| CKubeReq (src : kubesrc) (opts : jsval)                  (* requestPromise(opts) *)
| CKubeObj (src : kubesrc) (verb : string) (obj : jsval)   (* KubernetesObjectApi *)
| CKubeList (src : kubesrc)                                (* listClusterRoleBinding() *)
| CKubeSecret (src : kubesrc) (name ns : string)           (* readNamespacedSecret *)
| CPipe (stream : jsval) (path : string)                   (* stream.pipe(fs.createWriteStream(path)) *)
| CYaml (text : string)                                    (* loadYaml(text) *)
| CUuid.                                                   (* uuid.v4() *)

(** The answer to a call: what it threw or returned, and how long it took in milliseconds. *)
Record reply := Reply { r_out : jsval + jsval; r_latency : N }.

(** What a watch delivers: how long [watch()] takes to hand out the request object, or the error
    its promise is rejected with, and the events, each with its delay after the previous one and
    the [type], [apiObj] and [watchObj] arguments of the callback. *)
Record watch_script := WatchScript {
  ws_open : jsval + N;
  ws_events : list (N * (jsval * jsval * jsval))
}.

(** Everything outside the process, with state [X]. [basePath] is the API server address of a
    client, [draw] the source of [Math.random()], [stack_frames] the text V8 appends to an
    error's header line in its [stack] property, [inspect] the rendering of [util.inspect],
    [homedir] the result of [os.homedir()]. *)
Class Services (X : Type) := {
  perform : call → X → reply * X;
  watch_of : kubesrc → string → jsval → X → watch_script * X;
  basePath : kubesrc → string;
  draw : X → N * X;
  stack_frames : string;
  inspect : jsval → string;
  homedir : string
}.

(** * The process state *)

Record world (X : Type) := World {
  w_env : gmap string string;        (* process.env *)
  w_now : Z;                         (* Date.now() *)
  w_ext : X;                         (* the outside *)
  w_trace : list call;               (* calls made so far *)
  w_log : list (list jsval);         (* arguments of console.log, oldest first *)
  w_debug : bool;                    (* DEBUG of utils/index.js *)
  w_kube : kubesrc;                  (* configuration of the clients of utils/index.js *)
  w_tokens : gmap nat jsval;         (* _token of each OAuthToken object *)
  w_files : gmap string string;      (* files written *)
  w_dirs : gset string;              (* directories that exist *)
  w_unhandled : list jsval           (* unhandled promise rejections *)
}.
Arguments World {X}.
Arguments w_env {X}. Arguments w_now {X}. Arguments w_ext {X}. Arguments w_trace {X}.
Arguments w_log {X}. Arguments w_debug {X}. Arguments w_kube {X}. Arguments w_tokens {X}.
Arguments w_files {X}. Arguments w_dirs {X}. Arguments w_unhandled {X}.

Section setters.
Context {X : Type}.
Implicit Types w : world X.

Definition set_now (t : Z) w := World (w_env w) t (w_ext w) (w_trace w) (w_log w) (w_debug w)
  (w_kube w) (w_tokens w) (w_files w) (w_dirs w) (w_unhandled w).
Definition set_ext (x : X) w := World (w_env w) (w_now w) x (w_trace w) (w_log w) (w_debug w)
  (w_kube w) (w_tokens w) (w_files w) (w_dirs w) (w_unhandled w).
Definition add_call (c : call) w := World (w_env w) (w_now w) (w_ext w) (w_trace w ++ [c]) (w_log w)
  (w_debug w) (w_kube w) (w_tokens w) (w_files w) (w_dirs w) (w_unhandled w).
Definition add_log (l : list jsval) w := World (w_env w) (w_now w) (w_ext w) (w_trace w)
  (w_log w ++ [l]) (w_debug w) (w_kube w) (w_tokens w) (w_files w) (w_dirs w) (w_unhandled w).
Definition set_debug (b : bool) w := World (w_env w) (w_now w) (w_ext w) (w_trace w) (w_log w) b
  (w_kube w) (w_tokens w) (w_files w) (w_dirs w) (w_unhandled w).
Definition set_kube (k : kubesrc) w := World (w_env w) (w_now w) (w_ext w) (w_trace w) (w_log w)
  (w_debug w) k (w_tokens w) (w_files w) (w_dirs w) (w_unhandled w).
Definition set_token (i : nat) (v : jsval) w := World (w_env w) (w_now w) (w_ext w) (w_trace w)
  (w_log w) (w_debug w) (w_kube w) (<[i:=v]> (w_tokens w)) (w_files w) (w_dirs w) (w_unhandled w).
Definition set_files (f : gmap string string) w := World (w_env w) (w_now w) (w_ext w) (w_trace w)
  (w_log w) (w_debug w) (w_kube w) (w_tokens w) f (w_dirs w) (w_unhandled w).
Definition set_dirs (d : gset string) w := World (w_env w) (w_now w) (w_ext w) (w_trace w) (w_log w)
  (w_debug w) (w_kube w) (w_tokens w) (w_files w) d (w_unhandled w).
Definition add_unhandled (e : jsval) w := World (w_env w) (w_now w) (w_ext w) (w_trace w) (w_log w)
  (w_debug w) (w_kube w) (w_tokens w) (w_files w) (w_dirs w) (w_unhandled w ++ [e]).
End setters.

(** * The monad *)

Definition M (X A : Type) : Type := world X → result A * world X.

#[export] Instance M_ret {X} : MRet (M X) := λ A a w, (Ok a, w).
#[export] Instance M_bind {X} : MBind (M X) := λ A B k m w,
  match m w with
  | (Ok a, w') => k a w'
  | (Throw e, w') => (Throw e, w')
  | (Hang, w') => (Hang, w')
  end.

Section monad.
Context {X : Type}.

Definition throw {A} (e : jsval) : M X A := λ w, (Throw e, w).

(** An expression that may throw. *)
Definition lift {A} (r : result A) : M X A := λ w, (r, w).

(** [try { m } catch (e) { h(e) }]. *)
Definition try_catch {A} (m : M X A) (h : jsval → M X A) : M X A := λ w,
  match m w with
  | (Throw e, w') => h e w'
  | p => p
  end.

(** [try { m } finally { f }]: an exception of [f] replaces the outcome of [m]. *)
Definition try_finally {A} (m : M X A) (f : M X unit) : M X A := λ w,
  match m w with
  | (Hang, w') => (Hang, w')
  | (r, w') =>
      match f w' with
      | (Ok _, w'') => (r, w'')
      | (Throw e, w'') => (Throw e, w'')
      | (Hang, w'') => (Hang, w'')
      end
  end.

Definition get_world {A} (f : world X → A) : M X A := λ w, (Ok (f w), w).
Definition modify (f : world X → world X) : M X unit := λ w, (Ok tt, f w).

(** A promise that nothing settles. *)
Definition never {A} : M X A := λ w, (Hang, w).

(** Writing and removing a file. *)
Definition write_file (path content : string) : M X unit :=
  modify (λ w, set_files (<[path:=content]> (w_files w)) w).
Definition unlink_file (path : string) : M X unit :=
  modify (λ w, set_files (delete path (w_files w)) w).

(** [console.log(...args)]. *)
Definition console_log (args : list jsval) : M X unit := modify (add_log args).

(** [process.env[k]]. *)
Definition getenv (k : string) : M X (option string) := get_world (λ w, w_env w !! k).

(** An environment variable as a value: [undefined] when it is not set. *)
Definition env_val (o : option string) : jsval :=
  match o with Some s => JStr s | None => JUndef end.

(** [for (const x of l) { f(x) }]. *)
Fixpoint for_each {A} (f : A → M X unit) (l : list A) : M X unit :=
  match l with
  | [] => mret tt
  | x :: r => f x ;; for_each f r
  end.

(** A call to third-party code. *)
Definition invoke `{Services X} (c : call) : M X jsval := λ w,
  let '(r, x) := perform c (w_ext w) in
  let w' := set_now (w_now w + Z.of_N (r_latency r))%Z (set_ext x (add_call c w)) in
  match r_out r with
  | inl e => (Throw e, w')
  | inr v => (Ok v, w')
  end.

(** * Postconditions *)

Definition wp {A} (m : M X A) (Q : result A → world X → Prop) (w : world X) : Prop :=
  Q (m w).1 (m w).2.

Lemma wp_mono {A} (m : M X A) (Q Q' : result A → world X → Prop) w :
  wp m Q w → (∀ r w', Q r w' → Q' r w') → wp m Q' w.
Proof. unfold wp. auto. Qed.

Lemma wp_ret {A} (a : A) Q w : Q (Ok a) w → wp (mret a) Q w.
Proof. done. Qed.

Lemma wp_throw {A} e Q w : Q (Throw e) w → wp (A := A) (throw e) Q w.
Proof. done. Qed.

Lemma wp_lift {A} (r : result A) Q w : Q r w → wp (lift r) Q w.
Proof. done. Qed.

Lemma wp_bind {A B} (m : M X A) (k : A → M X B) Q w :
  wp m (λ r w', match r with
                | Ok a => wp (k a) Q w'
                | Throw e => Q (Throw e) w'
                | Hang => Q Hang w'
                end) w → wp (m ≫= k) Q w.
Proof. unfold wp, mbind, M_bind. by destruct (m w) as [[a|e|] w']. Qed.

Lemma wp_try {A} (m : M X A) h Q w :
  wp m (λ r w', match r with
                | Throw e => wp (h e) Q w'
                | _ => Q r w'
                end) w → wp (try_catch m h) Q w.
Proof. unfold wp, try_catch. by destruct (m w) as [[a|e|] w']. Qed.

Lemma wp_finally {A} (m : M X A) f Q w :
  wp m (λ r w', match r with
                | Hang => Q Hang w'
                | _ => wp f (λ r' w'', match r' with
                                      | Ok _ => Q r w''
                                      | Throw e => Q (Throw e) w''
                                      | Hang => Q Hang w''
                                      end) w'
                end) w → wp (try_finally m f) Q w.
Proof.
  unfold wp, try_finally. destruct (m w) as [[a|e|] w']; simpl; try done;
    destruct (f w') as [[[]|e'|] w'']; done.
Qed.

Lemma wp_modify f Q w : Q (Ok tt) (f w) → wp (modify f) Q w.
Proof. done. Qed.

Lemma wp_get {A} (f : world X → A) Q w : Q (Ok (f w)) w → wp (get_world f) Q w.
Proof. done. Qed.

(** A loop keeps an invariant that each iteration keeps. *)
Lemma wp_for_each {A} (f : A → M X unit) (I : world X → Prop) l w :
  I w →
  (∀ x w', x ∈ l → I w' → wp (f x) (λ r w'', r = Ok tt ∧ I w'') w') →
  wp (for_each f l) (λ r w', r = Ok tt ∧ I w') w.
Proof.
  revert w. induction l as [|x l IH]; intros w HI Hf; [done|]. apply wp_bind.
  eapply wp_mono; [apply Hf; [by left|done]|]. intros r w' [-> HI'].
  apply IH; [done|]. intros y w'' Hy. apply Hf. by right.
Qed.

(** A sequence of checks that leave the state alone passes when each of them does. *)
Lemma for_each_check {A} (f : A → M X unit) (P : A → Prop) l w :
  (∀ k, ∃ r, f k w = (r, w) ∧ (r = Ok tt ↔ P k)) →
  ∃ r, for_each f l w = (r, w) ∧ (r = Ok tt ↔ ∀ k, k ∈ l → P k).
Proof.
  intros Hf. induction l as [|k l (r & Hr & HP)].
  { exists (Ok tt). split; [done|]. split; [intros _ k Hk; by apply elem_of_nil in Hk|done]. }
  destruct (Hf k) as (r1 & Hk & HPk). cbn [for_each]. unfold mbind, M_bind. rewrite Hk.
  assert (r1 ≠ Ok tt → ¬ ∀ k', k' ∈ k :: l → P k') as Hno.
  { intros Hne Ha. apply Hne, HPk, Ha. by left. }
  destruct r1 as [[]|e|].
  - rewrite Hr. exists r. split; [done|]. rewrite HP. split.
    + intros Ha k' Hk'. apply elem_of_cons in Hk' as [->|Hk']; [by apply HPk|by apply Ha].
    + intros Ha k' Hk'. apply Ha. by right.
  - exists (Throw e). split; [done|]. split; [done|]. intros Ha. by destruct Hno.
  - exists Hang. split; [done|]. split; [done|]. intros Ha. by destruct Hno.
Qed.

(** Monad laws, pointwise. *)
Lemma bind_assoc {A B C} (m : M X A) (k : A → M X B) (l : B → M X C) w :
  ((m ≫= k) ≫= l) w = (m ≫= (λ a, k a ≫= l)) w.
Proof. unfold mbind, M_bind. by destruct (m w) as [[a|e|] w']. Qed.

Lemma bind_Ok {A B} (m : M X A) (k : A → M X B) w a w' :
  m w = (Ok a, w') → (m ≫= k) w = k a w'.
Proof. unfold mbind, M_bind. by intros ->. Qed.

Lemma bind_Throw {A B} (m : M X A) (k : A → M X B) w e w' :
  m w = (Throw e, w') → (m ≫= k) w = (Throw e, w').
Proof. unfold mbind, M_bind. by intros ->. Qed.

(** What a computation that returned went through. *)
Lemma bind_Ok_inv {A B} (m : M X A) (k : A → M X B) w b w' :
  (m ≫= k) w = (Ok b, w') → ∃ a w1, m w = (Ok a, w1) ∧ k a w1 = (Ok b, w').
Proof. unfold mbind, M_bind. destruct (m w) as [[a|e|] w1]; [|done..]. by exists a, w1. Qed.

Lemma lift_Ok_inv {A} (r : result A) w a w' : lift r w = (Ok a, w') → r = Ok a ∧ w' = w.
Proof. unfold lift. by intros [= -> ->]. Qed.

Lemma try_Ok_inv {A} (m : M X A) h w a w' :
  try_catch m h w = (Ok a, w') →
  m w = (Ok a, w') ∨ ∃ e w1, m w = (Throw e, w1) ∧ h e w1 = (Ok a, w').
Proof. unfold try_catch. destruct (m w) as [[b|e|] w1]; [by left|by right; exists e, w1|done]. Qed.

(** ** Running a computation *)

(** The outcome of a call, and the world after it. *)
Definition answer `{Services X} (c : call) (w : world X) : result jsval :=
  match r_out (perform c (w_ext w)).1 with inl e => Throw e | inr v => Ok v end.

Definition after `{Services X} (c : call) (w : world X) : world X :=
  set_now (w_now w + Z.of_N (r_latency (perform c (w_ext w)).1))%Z
    (set_ext (perform c (w_ext w)).2 (add_call c w)).

Lemma run_invoke `{Services X} c w : invoke c w = (answer c w, after c w).
Proof. unfold invoke, answer, after. destruct (perform c (w_ext w)) as [r x]. simpl. by destruct (r_out r). Qed.

Lemma run_bind_invoke `{Services X} {B} c (k : jsval → M X B) w :
  (invoke c ≫= k) w = match answer c w with
                      | Ok v => k v (after c w)
                      | Throw e => (Throw e, after c w)
                      | Hang => (Hang, after c w) end.
Proof. unfold mbind, M_bind. rewrite run_invoke. by destruct (answer c w). Qed.

Lemma run_ret {A} (a : A) w : (mret a : M X A) w = (Ok a, w).
Proof. done. Qed.
Lemma run_throw {A} e w : throw (A := A) e w = (Throw e, w).
Proof. done. Qed.
Lemma run_lift {A} (r : result A) w : lift r w = (r, w).
Proof. done. Qed.
Lemma run_get {A} (f : world X → A) w : get_world f w = (Ok (f w), w).
Proof. done. Qed.
Lemma run_log l w : console_log l w = (Ok tt, add_log l w).
Proof. done. Qed.
Lemma run_bind_ret {A B} (a : A) (k : A → M X B) w : (mret a ≫= k) w = k a w.
Proof. done. Qed.
Lemma run_bind_throw {A B} e (k : A → M X B) w : (throw e ≫= k) w = (Throw e, w).
Proof. done. Qed.
Lemma run_bind_lift {A B} (r : result A) (k : A → M X B) w :
  (lift r ≫= k) w = match r with Ok a => k a w | Throw e => (Throw e, w) | Hang => (Hang, w) end.
Proof. done. Qed.
Lemma run_bind_get {A B} (f : world X → A) (k : A → M X B) w :
  (get_world f ≫= k) w = k (f w) w.
Proof. done. Qed.
Lemma run_bind_modify {B} f (k : unit → M X B) w : (modify f ≫= k) w = k tt (f w).
Proof. done. Qed.
Lemma run_bind_log {B} l (k : unit → M X B) w : (console_log l ≫= k) w = k tt (add_log l w).
Proof. done. Qed.
Lemma run_bind_bind {A B C} (m : M X A) (k : A → M X B) (l : B → M X C) w :
  ((m ≫= k) ≫= l) w = (m ≫= (λ a, k a ≫= l)) w.
Proof. apply bind_assoc. Qed.
Lemma run_try {A} (m : M X A) h w :
  try_catch m h w = match m w with (Throw e, w') => h e w' | p => p end.
Proof. done. Qed.
Lemma run_bind_try {A B} (m : M X A) h (k : A → M X B) w :
  (try_catch m h ≫= k) w = match m w with
                           | (Ok a, w') => k a w'
                           | (Throw e, w') => (h e ≫= k) w'
                           | (Hang, w') => (Hang, w') end.
Proof. unfold mbind, M_bind, try_catch. destruct (m w) as [[a|e|] w']; simpl; try done. Qed.
Lemma run_finally {A} (m : M X A) f w :
  try_finally m f w = match m w with
                      | (Hang, w') => (Hang, w')
                      | (r, w') => match f w' with
                                   | (Ok _, w'') => (r, w'')
                                   | (Throw e, w'') => (Throw e, w'')
                                   | (Hang, w'') => (Hang, w'') end end.
Proof. done. Qed.

Lemma answer_not_hang `{Services X} c w : answer c w ≠ Hang.
Proof. unfold answer. by destruct (r_out _). Qed.

Lemma trace_after `{Services X} c w : w_trace (after c w) = w_trace w ++ [c].
Proof. done. Qed.
Lemma kube_after `{Services X} c w : w_kube (after c w) = w_kube w.
Proof. done. Qed.
Lemma env_after `{Services X} c w : w_env (after c w) = w_env w.
Proof. done. Qed.
Lemma debug_after `{Services X} c w : w_debug (after c w) = w_debug w.
Proof. done. Qed.
Lemma tokens_after `{Services X} c w : w_tokens (after c w) = w_tokens w.
Proof. done. Qed.

(** ** Frame of a computation: what it leaves alone *)

(** [m] never throws and always settles. *)
Definition total {A} (m : M X A) : Prop := ∀ w, ∃ a w', m w = (Ok a, w').

(** Calls made by [m] from [w]. *)
Definition calls {A} (m : M X A) (w : world X) : list call :=
  drop (length (w_trace w)) (w_trace (m w).2).

Lemma calls_intro {A} (m : M X A) w r w' cs :
  m w = (r, w') → w_trace w' = w_trace w ++ cs → calls m w = cs.
Proof. intros Hm Ht. unfold calls. rewrite Hm. simpl. by rewrite Ht, drop_app_length. Qed.

Lemma total_ret {A} (a : A) : total (mret a).
Proof. intros w. eexists _, _. done. Qed.

Lemma total_log l : total (console_log l).
Proof. intros w. eexists _, _. done. Qed.

Lemma total_bind {A B} (m : M X A) (k : A → M X B) :
  total m → (∀ a, total (k a)) → total (m ≫= k).
Proof.
  intros Hm Hk w. destruct (Hm w) as (a & w' & Ha). destruct (Hk a w') as (b & w'' & Hb).
  exists b, w''. by rewrite (bind_Ok _ _ _ _ _ Ha).
Qed.

(** [m] settles: it may throw but does not wait for ever. *)
Definition settles {A} (m : M X A) : Prop := ∀ w, (m w).1 ≠ Hang.

Lemma settles_ret {A} (a : A) : settles (mret a).
Proof. done. Qed.

Lemma settles_throw {A} e : settles (A := A) (throw e).
Proof. done. Qed.

Lemma settles_lift {A} (r : result A) : r ≠ Hang → settles (lift r).
Proof. by intros H w. Qed.

Lemma settles_get {A} (f : world X → A) : settles (get_world f).
Proof. done. Qed.

Lemma settles_log l : settles (console_log l).
Proof. done. Qed.

Lemma settles_modify f : settles (modify f).
Proof. done. Qed.

Lemma settles_invoke `{Services X} c : settles (invoke c).
Proof. intros w. unfold invoke. destruct (perform c (w_ext w)) as [r x]. simpl. by destruct (r_out r). Qed.

Lemma settles_bind {A B} (m : M X A) (k : A → M X B) :
  settles m → (∀ a, settles (k a)) → settles (m ≫= k).
Proof.
  intros Hm Hk w. specialize (Hm w). unfold mbind, M_bind.
  destruct (m w) as [[a|e|] w']; try done. apply Hk.
Qed.

Lemma settles_try {A} (m : M X A) h :
  settles m → (∀ e, settles (h e)) → settles (try_catch m h).
Proof.
  intros Hm Hh w. specialize (Hm w). unfold try_catch.
  destruct (m w) as [[a|e|] w']; try done. apply Hh.
Qed.

Lemma settles_finally {A} (m : M X A) f : settles m → settles f → settles (try_finally m f).
Proof.
  intros Hm Hf w. specialize (Hm w). unfold try_finally.
  destruct (m w) as [[a|e|] w'] eqn:E; simpl in *; try done;
    specialize (Hf w'); by destruct (f w') as [[u|e'|] w''].
Qed.

(** A handler that never throws makes the whole statement total. *)
Lemma total_try {A} (m : M X A) h :
  settles m → (∀ e, total (h e)) → total (try_catch m h).
Proof.
  intros Hm Hh w. specialize (Hm w). unfold try_catch.
  destruct (m w) as [[a|e|] w']; simpl in *; try done; [by eexists _, _|]. apply Hh.
Qed.

Lemma total_settles {A} (m : M X A) : total m → settles m.
Proof. intros H w. destruct (H w) as (a & w' & ->). done. Qed.

End monad.

(** ** How the outside develops *)

(** One interaction with the outside, on its state and the calls made so far. *)
Inductive outside_step {X} `{Services X} : X * list call → X * list call → Prop :=
| outside_call c x t : outside_step (x, t) ((perform c x).2, t ++ [c])
| outside_draw x t : outside_step (x, t) ((draw x).2, t)
| outside_watch src path query x t : outside_step (x, t) ((watch_of src path query x).2, t).

Definition outside {X} (w : world X) : X * list call := (w_ext w, w_trace w).

(** [w'] can come after [w]: the outside developed by interactions only. *)
Definition follows {X} `{Services X} (w w' : world X) : Prop := rtc outside_step (outside w) (outside w').

(** The outside only develops by the interactions of [m]. *)
Definition appends {X} `{Services X} {A} (m : M X A) : Prop := ∀ w, follows w (m w).2.

Section follows.
Context {X : Type} `{Services X}.
Implicit Types w : world X.

#[export] Instance follows_preorder : PreOrder (follows (X := X)).
Proof.
  split; [intros w; apply rtc_refl|]. unfold follows. intros w1 w2 w3 H1 H2.
  exact (transitivity H1 H2).
Qed.

(** Worlds that differ in what belongs to the process alone. *)
Lemma follows_inside w w' : w_ext w' = w_ext w → w_trace w' = w_trace w → follows w w'.
Proof. intros He Ht. unfold follows, outside. rewrite He, Ht. apply rtc_refl. Qed.

Lemma follows_after c w : follows w (after c w).
Proof. apply rtc_once. apply outside_call. Qed.

Lemma follows_trace w w' : follows w w' → ∃ cs, w_trace w' = w_trace w ++ cs.
Proof.
  unfold follows, outside. intros Hr. remember (w_ext w, w_trace w) as p. remember (w_ext w', w_trace w') as q.
  assert (∃ cs, q.2 = p.2 ++ cs) as [cs Hcs].
  { clear Heqp Heqq. induction Hr as [p|p p1 q Hs _ [cs IH]]; [exists []; by rewrite app_nil_r|].
    destruct Hs; simpl in *; [exists (c :: cs); by rewrite IH, <- app_assoc|by exists cs..]. }
  subst. by exists cs.
Qed.

Lemma appends_inside {A} (m : M X A) :
  (∀ w, w_ext (m w).2 = w_ext w ∧ w_trace (m w).2 = w_trace w) → appends m.
Proof. intros Hm w. destruct (Hm w). by apply follows_inside. Qed.

Lemma appends_ret {A} (a : A) : appends (X := X) (mret a).
Proof. by apply appends_inside. Qed.

Lemma appends_throw {A} e : appends (X := X) (A := A) (throw e).
Proof. by apply appends_inside. Qed.

Lemma appends_lift {A} (r : result A) : appends (X := X) (lift r).
Proof. by apply appends_inside. Qed.

Lemma appends_get {A} (f : world X → A) : appends (get_world f).
Proof. by apply appends_inside. Qed.

Lemma appends_log l : appends (X := X) (console_log l).
Proof. by apply appends_inside. Qed.

Lemma appends_write p c : appends (X := X) (write_file p c).
Proof. by apply appends_inside. Qed.

Lemma appends_unlink p : appends (X := X) (unlink_file p).
Proof. by apply appends_inside. Qed.

Lemma appends_unhandled e : appends (X := X) (modify (add_unhandled e)).
Proof. by apply appends_inside. Qed.

Lemma appends_never {A} : appends (X := X) (A := A) never.
Proof. by apply appends_inside. Qed.

Lemma appends_bind {A B} (m : M X A) (k : A → M X B) :
  appends m → (∀ a, appends (k a)) → appends (m ≫= k).
Proof.
  intros Hm Hk w. specialize (Hm w). unfold mbind, M_bind.
  destruct (m w) as [[a|e|] w']; simpl in *; try done. etrans; [exact Hm|apply Hk].
Qed.

Lemma appends_try {A} (m : M X A) h :
  appends m → (∀ e, appends (h e)) → appends (try_catch m h).
Proof.
  intros Hm Hh w. specialize (Hm w). unfold try_catch.
  destruct (m w) as [[a|e|] w']; simpl in *; try done. etrans; [exact Hm|apply Hh].
Qed.

Lemma appends_finally {A} (m : M X A) f : appends m → appends f → appends (try_finally m f).
Proof.
  intros Hm Hf w. specialize (Hm w). unfold try_finally.
  destruct (m w) as [[a|e|] w'] eqn:Em; simpl in *; try done;
    specialize (Hf w'); destruct (f w') as [[u|e'|] w'']; simpl in *; by etrans.
Qed.

Lemma appends_for_each {A} (f : A → M X unit) l :
  (∀ x, appends (f x)) → appends (for_each f l).
Proof.
  intros Hf. induction l as [|x l IH]; [apply appends_ret|]. by apply appends_bind.
Qed.

Lemma appends_invoke c : appends (invoke c).
Proof. intros w. rewrite run_invoke. apply follows_after. Qed.

(** What a run that is over went through lies behind its final world. *)
Lemma appends_run {A} (m : M X A) w r w' : appends m → m w = (r, w') → follows w w'.
Proof. intros Hm E. specialize (Hm w). by rewrite E in Hm. Qed.

End follows.

(** The packages reject with an error value, never with [undefined] or [null], as their
    documentation says of their errors. *)
Definition rejects_with_value (X : Type) `{Services X} : Prop :=
  ∀ c (x : X) e, r_out (perform c x).1 = inl e → nullish e = false.

Lemma answer_value {X} `{Services X} c (w : world X) e :
  rejects_with_value X → answer c w = Throw e → nullish e = false.
Proof.
  intros Hrej Ha. unfold answer in Ha. destruct (r_out _) eqn:Er; [|done]. injection Ha as ->. by eapply Hrej.
Qed.

Create Rewrite HintDb run.
Create Rewrite HintDb frame.
#[export] Hint Rewrite @run_invoke @run_bind_invoke @run_ret @run_throw @run_lift @run_get @run_log
  @run_bind_ret @run_bind_throw @run_bind_lift @run_bind_get @run_bind_modify @run_bind_log
  @run_bind_bind @run_try @run_bind_try @run_finally : run.
#[export] Hint Rewrite @trace_after @kube_after @env_after @debug_after @tokens_after : frame.

(** ** Exceptions that are Error objects *)

(** An Error object with no property besides its name and message, as [new Error(...)] and the
    language itself create them. *)
Definition is_error (e : jsval) : bool := match e with JErr _ _ [] => true | _ => false end.

Definition errs {A} (r : result A) : Prop := ∀ e, r = Throw e → is_error e = true.

(** Whatever [m] throws is an Error object. *)
Definition raises {X A} (m : M X A) : Prop := ∀ w, errs (m w).1.

Lemma raises_inv {X A} (m : M X A) w e w' : raises m → m w = (Throw e, w') → is_error e = true.
Proof. intros Hr Hm. apply (Hr w). by rewrite Hm. Qed.

Lemma errs_Ok {A} (a : A) : errs (Ok a).
Proof. by intros e. Qed.
Lemma errs_ret {A} (a : A) : errs (mret a).
Proof. by intros e. Qed.
Lemma errs_Throw {A} n m : errs (A := A) (Throw (JErr n m [])).
Proof. by intros e [= <-]. Qed.
Lemma errs_bind {A B} (r : result A) (k : A → result B) :
  errs r → (∀ a, errs (k a)) → errs (r ≫= k).
Proof. intros Hr Hk. destruct r as [a|e|]; simpl; [apply Hk| |done]. intros e' [= <-]. by apply Hr. Qed.
Lemma errs_getp v k : errs (getp v k).
Proof. intros e. unfold getp. destruct (nullish v); by intros [= <-]. Qed.
Lemma errs_setp v k x : errs (setp v k x).
Proof. intros e. by destruct v; intros [= <-]. Qed.
Lemma errs_parse v : errs (parse v).
Proof. intros e. unfold parse, parse_text. repeat case_goal; by intros [= <-]. Qed.
Lemma errs_toString v : errs (toString_call v).
Proof. intros e. unfold toString_call. destruct (nullish v); by intros [= <-]. Qed.

Lemma raises_ret {X A} (a : A) : raises (X := X) (mret a).
Proof. by intros w e. Qed.
Lemma raises_throw {X A} n m : raises (X := X) (A := A) (throw (JErr n m [])).
Proof. by intros w e [= <-]. Qed.
Lemma raises_lift {X A} (r : result A) : errs r → raises (X := X) (lift r).
Proof. by intros Hr w. Qed.
Lemma raises_get {X A} (f : world X → A) : raises (get_world f).
Proof. by intros w e. Qed.
Lemma raises_modify {X} (f : world X → world X) : raises (modify f).
Proof. by intros w e. Qed.
Lemma raises_total {X A} (m : M X A) : total m → raises m.
Proof. intros Hm w e. destruct (Hm w) as (a & w' & ->). done. Qed.
Lemma raises_bind {X A B} (m : M X A) (k : A → M X B) :
  raises m → (∀ a, raises (k a)) → raises (m ≫= k).
Proof.
  intros Hm Hk w. specialize (Hm w). unfold mbind, M_bind.
  destruct (m w) as [[a|e|] w']; [apply Hk| |done]. intros e' [= <-]. by apply Hm.
Qed.
Lemma raises_try {X A} (m : M X A) h : (∀ e, raises (h e)) → raises (try_catch m h).
Proof. intros Hh w. unfold try_catch. destruct (m w) as [[a|e|] w']; [done|apply Hh|done]. Qed.

(** A handler that copes with every Error object makes the whole statement total. *)
Lemma total_try_raises {X A} (m : M X A) h :
  settles m → raises m → (∀ n msg, total (h (JErr n msg []))) → total (try_catch m h).
Proof.
  intros Hs Hr Hh w. specialize (Hs w). specialize (Hr w). unfold try_catch.
  destruct (m w) as [[a|e|] w']; simpl in *; try done; [by eexists _, _|].
  specialize (Hr e eq_refl). destruct e as [| | | | | | | |n msg [|]]; try done. apply Hh.
Qed.

Create HintDb raises discriminated.
#[export] Hint Resolve errs_Ok errs_ret errs_Throw errs_getp errs_setp errs_toString errs_parse raises_ret raises_throw
  raises_get raises_modify : raises.

Ltac walk_errs :=
  repeat first
    [ solve [eauto 3 with raises]
    | match goal with
      | |- errs (_ ≫= _) => apply errs_bind; [|intros]
      | |- errs (match ?x with _ => _ end) => destruct x
      end ].

Ltac walk_raises :=
  repeat first
    [ solve [eauto 3 with raises]
    | match goal with
      | |- raises (_ ≫= _) => apply raises_bind; [|intros]
      | |- raises (try_catch _ _) => apply raises_try; intros
      | |- raises (lift _) => apply raises_lift; walk_errs
      | |- raises (match ?x with _ => _ end) => destruct x
      end ].

(** ** Results that are a value or an exception *)

Definition nohang {A} (r : result A) : Prop := r ≠ Hang.

Lemma nohang_Ok {A} (a : A) : nohang (Ok a).
Proof. done. Qed.
Lemma nohang_Throw {A} e : nohang (A := A) (Throw e).
Proof. done. Qed.
Lemma nohang_ret {A} (a : A) : nohang (mret a).
Proof. done. Qed.
Lemma nohang_bind {A B} (r : result A) (k : A → result B) :
  nohang r → (∀ a, nohang (k a)) → nohang (r ≫= k).
Proof. intros Hr Hk. destruct r; [apply Hk|done|by destruct Hr]. Qed.
Lemma nohang_getp v k : nohang (getp v k).
Proof. apply getp_not_hang. Qed.
Lemma nohang_geti v i : nohang (geti v i).
Proof. unfold geti. repeat case_goal; done. Qed.
Lemma nohang_getpath v ks : nohang (getpath v ks).
Proof.
  revert v. induction ks as [|k ks IH]; intros v; [done|].
  apply nohang_bind; [apply nohang_getp|done].
Qed.
Lemma nohang_setp v k x : nohang (setp v k x).
Proof. by destruct v. Qed.
Lemma nohang_setp_sloppy v k x : nohang (setp_sloppy v k x).
Proof. by destruct v. Qed.
Lemma nohang_parse v : nohang (parse v).
Proof. apply parse_not_hang. Qed.
Lemma nohang_toString v : nohang (toString_call v).
Proof. unfold toString_call. by destruct (nullish v). Qed.
Lemma nohang_includes v t : nohang (includes_call v t).
Proof. by destruct v. Qed.
Lemma nohang_split v t : nohang (split_call v t).
Proof. by destruct v. Qed.
Lemma nohang_mapM {A B} (f : A → result B) l : (∀ x, nohang (f x)) → nohang (mapM f l).
Proof.
  intros Hf. induction l as [|x l IH]; [done|]. simpl.
  apply nohang_bind; [apply Hf|]. intros b. by apply nohang_bind.
Qed.

Lemma settles_lift_nohang {X A} (r : result A) : nohang r → settles (X := X) (lift r).
Proof. apply settles_lift. Qed.

Create HintDb nohang discriminated.
#[export] Hint Resolve nohang_Ok nohang_Throw nohang_ret nohang_bind nohang_getp nohang_geti nohang_getpath
  nohang_setp nohang_setp_sloppy nohang_parse nohang_mapM nohang_toString nohang_includes nohang_split : nohang.
Create HintDb settles discriminated.
Create HintDb appends discriminated.

(** Follows the structure of a computation, leaving the calls it cannot resolve. *)
Ltac walk_nohang :=
  repeat first
    [ solve [eauto 3 with nohang]
    | match goal with
      | |- nohang (_ ≫= _) => apply nohang_bind; [|intros]
      | |- nohang (mapM _ _) => apply nohang_mapM; intros
      | |- nohang (match ?x with _ => _ end) => destruct x
      end ].

Ltac walk_settles :=
  repeat first
    [ solve [eauto 3 with settles]
    | match goal with
      | |- settles (_ ≫= _) => apply settles_bind; [|intros]
      | |- settles (try_catch _ _) => apply settles_try; [|intros]
      | |- settles (try_finally _ _) => apply settles_finally
      | |- settles (lift _) => apply settles_lift_nohang; walk_nohang
      | |- settles (match ?x with _ => _ end) => destruct x
      | |- settles (λ _, _) => fail 1
      end ].

Ltac walk_appends :=
  repeat first
    [ solve [eauto 3 with appends]
    | match goal with
      | |- appends (_ ≫= _) => apply appends_bind; [|intros]
      | |- appends (try_catch _ _) => apply appends_try; [|intros]
      | |- appends (try_finally _ _) => apply appends_finally
      | |- appends (match ?x with _ => _ end) => destruct x
      end ].

Lemma settles_for_each {X A} (f : A → M X unit) l :
  (∀ x, settles (f x)) → settles (for_each f l).
Proof. intros Hf. induction l as [|x l IH]; [done|]. by apply settles_bind. Qed.

#[export] Hint Resolve appends_ret appends_throw appends_lift appends_get appends_log
  appends_invoke appends_for_each appends_write appends_unlink appends_unhandled appends_never : appends.
#[export] Hint Resolve settles_ret settles_throw settles_get settles_log settles_modify
  settles_invoke settles_for_each : settles.

#[export] Hint Resolve appends_ret appends_throw appends_lift appends_get appends_log
  appends_invoke appends_bind appends_try appends_finally appends_for_each : js.
#[export] Hint Resolve settles_ret settles_throw settles_get settles_log settles_modify
  settles_invoke settles_bind settles_try settles_finally : js.
#[export] Hint Resolve total_ret total_log total_bind total_settles : js.

(** ** The calls a computation can make *)

(** Every call made by [m] satisfies [P]. *)
Definition makes {X A} (P : call → Prop) (m : M X A) : Prop :=
  ∀ w, ∃ cs, w_trace (m w).2 = w_trace w ++ cs ∧ Forall P cs.

Section makes.
Context {X : Type} (P : call → Prop).

(** A computation that leaves the trace alone. *)
Lemma makes_none {A} (m : M X A) : (∀ w, w_trace (m w).2 = w_trace w) → makes P m.
Proof. intros Hm w. exists []. by rewrite Hm, app_nil_r. Qed.

Lemma makes_ret {A} (a : A) : makes (X := X) P (mret a).
Proof. by apply makes_none. Qed.
Lemma makes_throw {A} e : makes (X := X) (A := A) P (throw e).
Proof. by apply makes_none. Qed.
Lemma makes_lift {A} (r : result A) : makes (X := X) P (lift r).
Proof. by apply makes_none. Qed.
Lemma makes_get {A} (f : world X → A) : makes P (get_world f).
Proof. by apply makes_none. Qed.
Lemma makes_log l : makes (X := X) P (console_log l).
Proof. by apply makes_none. Qed.

Lemma makes_invoke `{Services X} c : P c → makes P (invoke c).
Proof. intros Hc w. exists [c]. rewrite run_invoke. split; [apply trace_after|by constructor]. Qed.

Lemma makes_bind {A B} (m : M X A) (k : A → M X B) :
  makes P m → (∀ a, makes P (k a)) → makes P (m ≫= k).
Proof.
  intros Hm Hk w. destruct (Hm w) as (cs & Hcs & HP). unfold mbind, M_bind.
  destruct (m w) as [[a|e|] w']; simpl in *; eauto.
  destruct (Hk a w') as (cs' & Hcs' & HP'). exists (cs ++ cs').
  split; [by rewrite Hcs', Hcs, app_assoc|by apply Forall_app].
Qed.

Lemma makes_try {A} (m : M X A) h :
  makes P m → (∀ e, makes P (h e)) → makes P (try_catch m h).
Proof.
  intros Hm Hh w. destruct (Hm w) as (cs & Hcs & HP). unfold try_catch.
  destruct (m w) as [[a|e|] w']; simpl in *; eauto.
  destruct (Hh e w') as (cs' & Hcs' & HP'). exists (cs ++ cs').
  split; [by rewrite Hcs', Hcs, app_assoc|by apply Forall_app].
Qed.

Lemma makes_for_each {A} (f : A → M X unit) l : (∀ x, makes P (f x)) → makes P (for_each f l).
Proof. intros Hf. induction l as [|x l IH]; [apply makes_ret|]. by apply makes_bind. Qed.

Lemma makes_calls {A} (m : M X A) w : makes P m → Forall P (calls m w).
Proof.
  intros Hm. destruct (Hm w) as (cs & Hcs & HP). unfold calls. by rewrite Hcs, drop_app_length.
Qed.

End makes.

(** [m] makes at most [n] calls. *)
Definition bounded {X A} (n : nat) (m : M X A) : Prop :=
  ∀ w, ∃ cs, w_trace (m w).2 = w_trace w ++ cs ∧ length cs ≤ n.

Section bounded.
Context {X : Type}.

Lemma bounded_makes {A} (m : M X A) n : makes (λ _, False) m → bounded n m.
Proof.
  intros Hm w. destruct (Hm w) as (cs & Hcs & HP). exists cs. split; [done|].
  destruct HP; [simpl; lia|done].
Qed.

Lemma bounded_invoke `{Services X} c : bounded 1 (invoke c).
Proof. intros w. exists [c]. rewrite run_invoke. split; [apply trace_after|done]. Qed.

Lemma bounded_bind {A B} n1 n2 (m : M X A) (k : A → M X B) :
  bounded n1 m → (∀ a, bounded n2 (k a)) → bounded (n1 + n2) (m ≫= k).
Proof.
  intros Hm Hk w. destruct (Hm w) as (cs & Hcs & HP). unfold mbind, M_bind.
  destruct (m w) as [[a|e|] w']; simpl in *; [|exists cs; split; [done|lia]..].
  destruct (Hk a w') as (cs' & Hcs' & HP'). exists (cs ++ cs').
  split; [by rewrite Hcs', Hcs, app_assoc|rewrite length_app; lia].
Qed.

Lemma bounded_try {A} n1 n2 (m : M X A) h :
  bounded n1 m → (∀ e, bounded n2 (h e)) → bounded (n1 + n2) (try_catch m h).
Proof.
  intros Hm Hh w. destruct (Hm w) as (cs & Hcs & HP). unfold try_catch.
  destruct (m w) as [[a|e|] w']; simpl in *; [exists cs; split; [done|lia]| |exists cs; split; [done|lia]].
  destruct (Hh e w') as (cs' & Hcs' & HP'). exists (cs ++ cs').
  split; [by rewrite Hcs', Hcs, app_assoc|rewrite length_app; lia].
Qed.

Lemma bounded_le {A} n1 n2 (m : M X A) : n1 ≤ n2 → bounded n1 m → bounded n2 m.
Proof. intros Hle Hm w. destruct (Hm w) as (cs & ? & ?). exists cs. split; [done|lia]. Qed.

Lemma bounded_for_each {A} n k (f : A → M X unit) l :
  length l ≤ k → (∀ x, bounded n (f x)) → bounded (k * n) (for_each f l).
Proof.
  intros Hl Hf. revert k Hl. induction l as [|x l IH]; intros k Hl.
  - apply bounded_makes, makes_ret.
  - simpl in Hl. destruct k as [|k]; [lia|]. apply bounded_bind; [apply Hf|]. intros _. apply IH. lia.
Qed.

Lemma bounded_calls {A} n (m : M X A) w : bounded n m → length (calls m w) ≤ n.
Proof.
  intros Hm. destruct (Hm w) as (cs & Hcs & HP). unfold calls. by rewrite Hcs, drop_app_length.
Qed.

End bounded.

Create HintDb makes discriminated.
#[export] Hint Resolve makes_ret makes_throw makes_lift makes_get makes_log makes_invoke
  makes_for_each : makes.

Ltac walk_makes :=
  repeat first
    [ solve [eauto 3 with makes]
    | match goal with
      | |- makes _ (_ ≫= _) => apply makes_bind; [|intros]
      | |- makes _ (try_catch _ _) => apply makes_try; [|intros]
      | |- makes _ (match ?x with _ => _ end) => destruct x
      end ].
