(* ===== verification/Script.v ===== *)
(** A concrete outside world: a list of prepared answers, one per call, used to run the harness
    on examples. *)

From S2P Require Import Prelude JsValue Json Effects.

Record script := Script {
  sc_replies : list reply;
  sc_draws : list N;
  sc_watches : list watch_script
}.

Definition no_reply : jsval := mkError "connect ECONNREFUSED".

#[export] Instance script_services : Services script := {|
  perform _ s :=
    match sc_replies s with
    | [] => (Reply (inl no_reply) 0, s)
    | r :: rs => (r, Script rs (sc_draws s) (sc_watches s))
    end;
  watch_of _ _ _ s :=
    match sc_watches s with
    | [] => (WatchScript (inl no_reply) [], s)
    | x :: xs => (x, Script (sc_replies s) (sc_draws s) xs)
    end;
  basePath _ := "https://api.example";
  draw s :=
    match sc_draws s with
    | [] => (0%N, s)
    | n :: ns => (n, Script (sc_replies s) ns (sc_watches s))
    end;
  stack_frames := nl +:+ "    at run (index.js:1:1)";
  inspect v := to_string v;
  homedir := "/root"
|}.

(** The process at time 0 with the given environment, debug output off. *)
Definition start (env : list (string * string)) (s : script) : world script :=
  World (list_to_map env) 0 s [] [] false KDefault ∅ ∅ ∅ [].

(** A world that answers the calls with the given values, each after 5 ms. *)
Definition answering (vs : list (jsval + jsval)) : world script :=
  start [] (Script (map (λ v, Reply v 5) vs) [] []).

(** An outside world without state in which every call succeeds with the same output. *)
#[export] Instance steady_services : Services unit := {|
  perform _ s := (Reply (inr (JObj [("stdout", JStr "done")])) 5, s);
  watch_of _ _ _ s := (WatchScript (inr 5%N) [], s);
  basePath _ := "https://api.example";
  draw s := (0%N, s);
  stack_frames := "";
  inspect v := to_string v;
  homedir := "/root"
|}.

Definition steady : world unit := World ∅ 0 tt [] [] false KDefault ∅ ∅ ∅ [].

Lemma steady_rejects : rejects_with_value unit.
Proof. by intros c x e [=]. Qed.
