(* ===== verification/Chai.v ===== *)
(** The assertions of the chai package that the harness uses, as an interface: chai is not part
    of the repository, so its functions are parameters and its documented behaviour is the set
    of laws the theorems rely on. *)

From S2P Require Import Prelude JsValue Json Effects.

(** A step of a nested property path such as [data[0].shootName]. *)
Inductive pathseg := PKey (k : string) | PIdx (i : nat).

(** The value at a path, when every step exists. *)
Fixpoint at_path (v : jsval) (p : list pathseg) : option jsval :=
  match p with
  | [] => Some v
  | PKey k :: r => x ← own v k; at_path x r
  | PIdx i :: r => match v with JArr l => x ← l !! i; at_path x r | _ => None end
  end.

(** [expect(v).empty] for the values that have a length or a size. *)
Definition is_empty (v : jsval) : bool :=
  match v with
  | JStr s => String.eqb s ""
  | JArr l => match l with [] => true | _ => false end
  | JObj fs => match fs with [] => true | _ => false end
  | _ => false
  end.

(** Values on which chai's [empty] assertion is defined. *)
Definition sized (v : jsval) : bool :=
  match v with JStr _ | JArr _ | JObj _ => true | _ => false end.

(** Names every object inherits from [Object.prototype]. *)
Definition proto_names : list string :=
  ["constructor"; "hasOwnProperty"; "isPrototypeOf"; "propertyIsEnumerable"; "toLocaleString";
   "toString"; "valueOf"; "__proto__"; "__defineGetter__"; "__defineSetter__";
   "__lookupGetter__"; "__lookupSetter__"].

(** Each assertion is [None] when it passes and the thrown [AssertionError] otherwise. *)
Class Chai := {
  has_property : jsval → string → option jsval;            (* to.have.property(k) *)
  has_nested : jsval → list pathseg → option jsval;        (* to.have.nested.property(p) *)
  has_nested_value : jsval → list pathseg → jsval → option jsval;
  not_empty : jsval → option jsval;                        (* not.empty, to.not.be.empty *)
  is_undefined : jsval → option jsval;                     (* to.be.undefined *)
  not_undefined : jsval → option jsval;                    (* not.to.be.undefined *)
  includes_value : list jsval → jsval → option jsval;      (* to.include(x) on an array *)
  includes_text : jsval → string → option jsval;           (* to.include(s) on a string *)
  equals : jsval → jsval → option jsval;                   (* to.equal(x) *)
  eql : jsval → jsval → option jsval;                      (* to.eql(x) *)
  length_of : jsval → nat → option jsval;                  (* to.be.lengthOf(n) *)
  matched : bool → option jsval       (* to.match(re), by whether [re.exec] of the target found a match *)
}.

(** The documented behaviour. *)
Class ChaiLaws (C : Chai) := {
  has_property_law v k : k ∉ proto_names → has_property v k = None ↔ is_Some (own v k);
  has_nested_law v p : has_nested v p = None ↔ is_Some (at_path v p);
  has_nested_value_law v p x :
    has_nested_value v p x = None ↔ ∃ y, at_path v p = Some y ∧ strict_eq y x = true;
  not_empty_law v : not_empty v = None ↔ sized v = true ∧ is_empty v = false;
  is_undefined_law v : is_undefined v = None ↔ v = JUndef;
  not_undefined_law v : not_undefined v = None ↔ v ≠ JUndef;
  includes_law l x : includes_value l x = None ↔ ∃ y, y ∈ l ∧ strict_eq y x = true;
  includes_text_law s t : includes_text (JStr s) t = None ↔ includes s t = true;
  equals_law v x : equals v x = None ↔ strict_eq v x = true;
  length_of_law v n : length_of v n = None ↔ own v "length" = Some (JInt (Z.of_nat n));
  matched_law b : matched b = None ↔ b = true;
  eql_refl_law v : eql v v = None
}.

(** [expect(...)] in a computation. *)
Definition expect {X} (o : option jsval) : M X unit :=
  match o with None => mret tt | Some e => throw e end.

Lemma expect_appends {X} `{Services X} o : appends (X := X) (expect o).
Proof. destruct o; [apply appends_throw|apply appends_ret]. Qed.

Lemma expect_settles {X} o : settles (X := X) (expect o).
Proof. by destruct o. Qed.

#[export] Hint Resolve expect_appends : appends.
#[export] Hint Resolve expect_settles : settles.

(** ** A concrete instance: the laws can be met *)

Definition assertion (b : bool) : option jsval :=
  if b then None else Some (JErr "AssertionError" "assertion failed" []).

Definition isSome {A} (o : option A) : bool := match o with Some _ => true | None => false end.

#[export] Instance chai_ref : Chai := {|
  has_property v k := assertion (isSome (own v k));
  has_nested v p := assertion (isSome (at_path v p));
  has_nested_value v p x :=
    assertion (match at_path v p with Some y => strict_eq y x | None => false end);
  not_empty v := assertion (sized v && negb (is_empty v));
  is_undefined v := assertion (match v with JUndef => true | _ => false end);
  not_undefined v := assertion (match v with JUndef => false | _ => true end);
  includes_value l x := assertion (existsb (λ y, strict_eq y x) l);
  includes_text v t := assertion (match v with JStr s => includes s t | _ => false end);
  equals v x := assertion (strict_eq v x);
  eql v x := assertion (match ser "" "" v, ser "" "" x with
                        | Some s, Some t => String.eqb s t
                        | None, None => true
                        | _, _ => false end);
  length_of v n := assertion (match own v "length" with
                              | Some (JNum m O) => (m =? Z.of_nat n)%Z
                              | _ => false end);
  matched b := assertion b
|}.

Lemma assertion_None b : assertion b = None ↔ b = true.
Proof. by destruct b. Qed.

Lemma isSome_true {A} (o : option A) : isSome o = true ↔ is_Some o.
Proof. destruct o; simpl; split; naive_solver. Qed.

#[export] Instance chai_ref_laws : ChaiLaws chai_ref.
Proof.
  split; intros; simpl; rewrite assertion_None, ?isSome_true; try done.
  - destruct (at_path v p); naive_solver.
  - rewrite andb_true_iff, negb_true_iff. done.
  - destruct v; naive_solver.
  - destruct v; naive_solver.
  - rewrite existsb_exists. setoid_rewrite <- list_elem_of_In. done.
  - destruct (own v "length") as [[| | |m [|e]| | | | |]|]; try naive_solver.
    rewrite Z.eqb_eq. naive_solver.
  - destruct (ser "" "" v); [apply String.eqb_refl|done].
Qed.
