(* ===== verification/UtilsCore.v ===== *)
(** The part of utils/index.js that needs no Kubernetes client: logging, base64 wrappers,
    random suffixes and environment lookup. *)

From S2P Require Import Prelude JsValue Json Buffer Effects.

Section core.
Context {X : Type} `{Services X}.

(** * Logging *)

(** [let DEBUG = process.env.DEBUG === 'true']: the initial value of the module variable. *)
Definition initial_debug (env : gmap string string) : bool :=
  match env !! "DEBUG" with Some s => String.eqb s "true" | None => false end.

Definition log (prefix : string) (args : list jsval) : M X unit :=
  match args with
  | [] => mret tt
  | a :: rest => console_log (JStr ("[" +:+ prefix +:+ "] " +:+ to_string a) :: rest)
  end.

Definition isDebugEnabled : M X bool := get_world w_debug.

Definition switchDebug (on : bool) : M X unit := modify (set_debug on).

Definition debug (args : list jsval) : M X unit :=
  on ← isDebugEnabled;
  if (on : bool) then log "DEBUG" args else mret tt.

Definition info (args : list jsval) : M X unit := log "INFO" args.

Definition error (args : list jsval) : M X unit := log "ERROR" args.

(** * base64 *)

Definition fromBase64 (s : string) : string := utf8_decode (b64_decode s).

Definition toBase64 (s : string) : string := b64_encode s.

(** * Random suffixes *)

Definition chrs : string := "abcdefghijklmnopqrstuvwxyz0123456789".

(** [Math.random()] is [k / 2^53]; [Math.floor(Math.random() * n)] for the draw [k]. *)
Definition random_below (n k : N) : N := ((k mod 2 ^ 53) * n / 2 ^ 53)%N.

Definition math_random : M X N := λ w,
  let '(k, x) := draw (w_ext w) in (Ok k, set_ext x w).

(** [s.charAt(i)]: the empty string out of range. *)
Definition charAt (s : string) (i : nat) : string :=
  match String.get i s with Some c => String c "" | None => "" end.

Fixpoint genRandom_loop (n : nat) (res : string) : M X string :=
  match n with
  | O => mret res
  | S n' =>
      k ← math_random;
      genRandom_loop n' (res +:+ charAt chrs (N.to_nat (random_below (N.of_nat (String.length chrs)) k)))
  end.

Definition genRandom (len : nat) : M X string := genRandom_loop len "".

(** * Environment *)

Definition getEnvOrThrow (key : string) : M X string :=
  o ← getenv key;
  match o with
  | Some s => if truthy (JStr s) then mret s
              else throw (mkError ("Env " +:+ key +:+ " not present"))
  | None => throw (mkError ("Env " +:+ key +:+ " not present"))
  end.

(** * Lemmas *)

Lemma log_spec prefix args w : ∃ l, log prefix args w = (Ok tt, foldr add_log w l).
Proof. destruct args as [|a r]; [by exists []|]. eexists [_]. done. Qed.

(** Logging only writes to the console. *)
Lemma debug_run args w : ∃ l, debug args w = (Ok tt, foldr add_log w l).
Proof.
  unfold debug, isDebugEnabled, mbind, M_bind, get_world. destruct (w_debug w); [apply log_spec|].
  by exists [].
Qed.

(** The world after a debug message. *)
Definition after_debug (args : list jsval) (w : world X) : world X := (debug args w).2.

Lemma run_debug args w : debug args w = (Ok tt, after_debug args w).
Proof. unfold after_debug. by destruct (debug_run args w) as [l ->]. Qed.

Lemma run_bind_debug {B} args (k : unit → M X B) w : (debug args ≫= k) w = k tt (after_debug args w).
Proof. by rewrite (bind_Ok _ _ _ _ _ (run_debug args w)). Qed.

Lemma frame_debug {A} (f : world X → A) args w :
  (∀ l w, f (add_log l w) = f w) → f (after_debug args w) = f w.
Proof.
  intros Hf. unfold after_debug. destruct (debug_run args w) as [l ->]. simpl.
  induction l as [|a l IH]; simpl; [done|]. by rewrite Hf.
Qed.

Lemma trace_debug args w : w_trace (after_debug args w) = w_trace w.
Proof. by apply frame_debug. Qed.
Lemma kube_debug args w : w_kube (after_debug args w) = w_kube w.
Proof. by apply frame_debug. Qed.
Lemma env_debug args w : w_env (after_debug args w) = w_env w.
Proof. by apply frame_debug. Qed.
Lemma now_debug args w : w_now (after_debug args w) = w_now w.
Proof. by apply frame_debug. Qed.
Lemma ext_debug args w : w_ext (after_debug args w) = w_ext w.
Proof. by apply frame_debug. Qed.
Lemma tokens_debug args w : w_tokens (after_debug args w) = w_tokens w.
Proof. by apply frame_debug. Qed.

Lemma answer_debug c args w : answer c (after_debug args w) = answer c w.
Proof. unfold answer. by rewrite ext_debug. Qed.

Lemma debug_total args : total (debug args).
Proof. intros w. destruct (debug_run args w) as [l ->]. by eexists _, _. Qed.

Lemma debug_appends args : appends (debug args).
Proof.
  apply appends_inside. intros w. destruct (debug_run args w) as [l ->]. simpl.
  by induction l.
Qed.

Lemma wp_debug args Q w :
  (∀ l, Q (Ok tt) (foldr add_log w l)) → wp (debug args) Q w.
Proof. intros HQ. unfold wp. destruct (debug_run args w) as [l ->]. apply HQ. Qed.

Lemma getEnvOrThrow_run key w :
  getEnvOrThrow key w =
  (match w_env w !! key with
   | Some s => if String.eqb s "" then Throw (mkError ("Env " +:+ key +:+ " not present")) else Ok s
   | None => Throw (mkError ("Env " +:+ key +:+ " not present"))
   end, w).
Proof.
  unfold getEnvOrThrow, getenv, get_world, mbind, M_bind. simpl.
  destruct (w_env w !! key) as [s|]; [|done]. by destruct (String.eqb s "").
Qed.

Lemma getEnvOrThrow_Ok key w s w' :
  getEnvOrThrow key w = (Ok s, w') → w' = w ∧ w_env w !! key = Some s ∧ s ≠ "".
Proof.
  rewrite getEnvOrThrow_run. destruct (w_env w !! key) as [t|]; [|done].
  destruct (String.eqb_spec t ""); [done|]. by intros [= -> ->].
Qed.

Lemma getEnvOrThrow_settles key : settles (getEnvOrThrow key).
Proof. intros w. rewrite getEnvOrThrow_run. simpl. destruct (w_env w !! key); [|done]. by destruct (String.eqb _ _). Qed.

Lemma getEnvOrThrow_appends key : appends (getEnvOrThrow key).
Proof. apply appends_inside. intros w. by rewrite getEnvOrThrow_run. Qed.

(** The draw always names a character of the alphabet. *)
Lemma random_below_lt n k : (0 < n)%N → (random_below n k < n)%N.
Proof.
  intros Hn. unfold random_below. apply N.Div0.div_lt_upper_bound.
  apply N.mul_lt_mono_pos_r; [done|]. by apply N.mod_lt.
Qed.

Lemma string_get_lt i s : (i < String.length s)%nat → ∃ c, String.get i s = Some c.
Proof.
  revert i. induction s as [|c s IH]; intros [|i]; simpl; intros Hi; try lia; [eauto|].
  apply IH. lia.
Qed.

(** All characters of [s] occur in the alphabet. *)
Fixpoint chars_in (alphabet s : string) : bool :=
  match s with
  | EmptyString => true
  | String c r => includes alphabet (String c "") && chars_in alphabet r
  end.

Lemma chars_in_app a s t : chars_in a (s +:+ t) = chars_in a s && chars_in a t.
Proof. induction s as [|c s IH]; simpl; [done|]. by rewrite IH, andb_assoc. Qed.

Lemma includes_get i s c : String.get i s = Some c → includes s (String c "") = true.
Proof.
  revert i. induction s as [|d s IH]; intros [|i] Hg; simpl in Hg; simplify_eq.
  - simpl. by rewrite Ascii.eqb_refl.
  - cbn [includes]. destruct (strip_prefix _ _); [done|]. by eapply IH.
Qed.

Lemma genRandom_loop_spec n res w :
  chars_in chrs res = true →
  ∃ s x, genRandom_loop n res w = (Ok s, set_ext x w) ∧
    String.length s = (String.length res + n)%nat ∧ chars_in chrs s = true.
Proof.
  revert res w. induction n as [|n IH]; intros res w Hres.
  - exists res, (w_ext w). rewrite Nat.add_0_r. split; [by destruct w|done].
  - cbn [genRandom_loop]. unfold mbind, M_bind, math_random. destruct (draw (w_ext w)) as [k x].
    set (i := N.to_nat _).
    assert (i < String.length chrs)%nat as Hi.
    { subst i. pose proof (random_below_lt (N.of_nat (String.length chrs)) k ltac:(done)). lia. }
    destruct (string_get_lt i chrs Hi) as [c Hc].
    assert (charAt chrs i = String c "") as -> by (unfold charAt; by rewrite Hc).
    destruct (IH (res +:+ String c "") (set_ext x w)) as (s & x' & -> & Hlen & Hin).
    { rewrite chars_in_app, Hres. cbn [chars_in]. by rewrite (includes_get i). }
    exists s, x'. split; [done|]. split; [|done]. rewrite Hlen, slength_app. simpl. lia.
Qed.

End core.

Lemma debug_settles {X} args : settles (X := X) (debug args).
Proof. apply total_settles, debug_total. Qed.

#[export] Hint Rewrite @run_debug @run_bind_debug : run.
#[export] Hint Rewrite @trace_debug @kube_debug @env_debug @now_debug @ext_debug @tokens_debug
  @answer_debug : frame.
#[export] Hint Resolve debug_total : js.
#[export] Hint Resolve debug_appends getEnvOrThrow_appends : appends.
#[export] Hint Resolve debug_settles getEnvOrThrow_settles : settles.

Lemma debug_raises {X} args : raises (X := X) (debug args).
Proof. apply raises_total, debug_total. Qed.

#[export] Hint Resolve debug_raises : raises.

Lemma debug_makes {X} P args : makes (X := X) P (debug args).
Proof. apply makes_none. intros w. rewrite run_debug. apply trace_debug. Qed.

Lemma getEnvOrThrow_makes {X} P key : makes (X := X) P (getEnvOrThrow key).
Proof. apply makes_none. intros w. by rewrite getEnvOrThrow_run. Qed.

#[export] Hint Resolve debug_makes getEnvOrThrow_makes : makes.

(** * Theorems *)

(** [genRandom] returns a string of exactly the requested length over the alphabet of lower-case
    letters and digits, whatever [Math.random] draws, and has no other effect. *)
Theorem genRandom_spec {X} `{Services X} len (w : world X) :
  ∃ s x, genRandom len w = (Ok s, set_ext x w) ∧ String.length s = len ∧ chars_in chrs s = true.
Proof. unfold genRandom. by destruct (genRandom_loop_spec len "" w) as (s & x & ? & ? & ?); [|exists s, x]. Qed.

(** [fromBase64] is a left inverse of [toBase64] on every text, given as its Unicode scalar
    values. *)
Theorem base64_roundtrip cs : Forall scalar cs → fromBase64 (toBase64 (utf8_text cs)) = utf8_text cs.
Proof. intros Hs. unfold fromBase64, toBase64. rewrite b64_decode_encode. by apply utf8_decode_text. Qed.

(** The text of a letter, an accented letter, a symbol and an emoji. *)
Lemma base64_roundtrip_witness :
  Forall scalar [107; 252; 8364; 128640]%N ∧
  fromBase64 (toBase64 (utf8_text [107; 252; 8364; 128640]%N)) = utf8_text [107; 252; 8364; 128640]%N.
Proof.
  assert (Forall scalar [107; 252; 8364; 128640]%N) as Hs by (repeat constructor; unfold scalar; lia).
  split; [exact Hs|]. exact (base64_roundtrip _ Hs).
Defined.
