(* ===== verification/Timers.v ===== *)
(** Timers and promises of utils/index.js: [sleep], the polling loop [wait] as an executable
    computation, the same loop as a transition system over timer events, and the contract that
    both meet. *)

From S2P Require Import Prelude JsValue Json Buffer Effects Script UtilsCore.

(** * The executable loop *)

(** Node runs a timer with a delay below 1 or above 2^31-1 after 1 ms. *)
Definition timer_delay (d : Z) : Z :=
  if ((1 <=? d) && (d <=? 2147483647))%Z then d else 1%Z.

(** One call of the interval callback: when it started, and when and with which value [fn()]
    settled, if it did. *)
Record poll := Poll { p_start : Z; p_end : option (Z * jsval) }.

Definition wait_timeout : jsval := mkError "wait timeout".

Section wait.
Context {X : Type} `{Services X}.

(** [new Promise((resolve) => setTimeout(resolve, ms))]. *)
Definition sleep (ms : Z) : M X unit :=
  modify (λ w, set_now (w_now w + timer_delay ms)%Z w).

(** [try { res = await fn() } catch (ex) { res = ex }], started at time [t]; then [checkFn(res)],
    whose exception is an unhandled rejection of the callback. *)
Definition poll_at (fn : M X jsval) (checkFn : jsval → result bool) (t : Z) : M X poll := λ w,
  match fn (set_now t w) with
  | (Hang, w1) => (Ok (Poll t None), w1)
  | (Ok v, w1) =>
      (Ok (Poll t (Some (w_now w1, v))),
       match checkFn v with Throw e => add_unhandled e w1 | _ => w1 end)
  | (Throw ex, w1) =>
      (Ok (Poll t (Some (w_now w1, ex))),
       match checkFn ex with Throw e => add_unhandled e w1 | _ => w1 end)
  end.

(** The poll satisfied the check, at the given time. *)
Definition success (checkFn : jsval → result bool) (p : poll) : option (Z * jsval) :=
  match p_end p with
  | Some (c, v) => match checkFn v with Ok true => Some (c, v) | _ => None end
  | None => None
  end.

(** The polls started by [setInterval]: one every [interval] until the deadline, or until an
    earlier poll has succeeded and cleared the timer. *)
Fixpoint ticks (fuel : nat) (fn : M X jsval) (checkFn : jsval → result bool)
    (deadline interval t : Z) (polls : list poll) : M X (list poll) :=
  match fuel with
  | O => mret polls
  | S fuel' =>
      if (deadline <=? t)%Z then mret polls
      else if existsb (λ p, match success checkFn p with Some (c, _) => (c <=? t)%Z | None => false end) polls
      then mret polls
      else p ← poll_at fn checkFn t;
           ticks fuel' fn checkFn deadline interval (t + interval)%Z (polls ++ [p])
  end.

(** The earliest success among the polls. *)
Fixpoint earliest (checkFn : jsval → result bool) (polls : list poll) : option (Z * jsval) :=
  match polls with
  | [] => None
  | p :: r =>
      match success checkFn p, earliest checkFn r with
      | Some (c, v), Some (c', v') => if (c <=? c')%Z then Some (c, v) else Some (c', v')
      | Some q, None => Some q
      | None, o => o
      end
  end.

(** [wait(fn, checkFn, timeout, interval)]. Ticks before the deadline: fewer than
    [timeout / interval + 1]. *)
Definition wait (fn : M X jsval) (checkFn : jsval → result bool) (timeout interval : Z) : M X jsval :=
  t0 ← get_world w_now;
  let iv := timer_delay interval in
  let to := timer_delay timeout in
  let deadline := (t0 + to)%Z in
  polls ← ticks (S (Z.to_nat (to / iv))) fn checkFn deadline iv (t0 + iv)%Z [];
  match earliest checkFn polls with
  | Some (c, v) =>
      if (c <? deadline)%Z then modify (set_now c) ;; mret v
      else modify (set_now deadline) ;; debug [JStr "wait timeout"] ;; throw wait_timeout
  | None => modify (set_now deadline) ;; debug [JStr "wait timeout"] ;; throw wait_timeout
  end.

End wait.

(** * The contract *)

(** When and how the promise returned by [wait] may settle, given the polls that were made:
    with the first value that satisfies the check, or by rejection at the deadline when no value
    satisfied the check before it. *)
Definition wait_contract (checkFn : jsval → result bool) (deadline : Z) (polls : list poll)
    (r : result jsval) (t : Z) : Prop :=
  (∃ p v, p ∈ polls ∧ r = Ok v ∧ success checkFn p = Some (t, v) ∧ (t ≤ deadline)%Z ∧
     ∀ p' c v', p' ∈ polls → success checkFn p' = Some (c, v') → (t ≤ c)%Z) ∨
  (r = Throw wait_timeout ∧ t = deadline ∧
     ∀ p c v, p ∈ polls → success checkFn p = Some (c, v) → (deadline ≤ c)%Z).

(** * The same loop over timer events *)

(** The state of the two timers and of the promise. [ws_polls] is the history of all polls. *)
Record wstate := WState {
  ws_clock : Z;
  ws_th : option Z;                        (* expiry of the timeout timer, when armed *)
  ws_ih : option Z;                        (* next run of the interval callback, when armed *)
  ws_inflight : list (Z * jsval);          (* settled values of running polls, by due time *)
  ws_polls : list poll;
  ws_promise : option (result jsval * Z)   (* settled outcome and time *)
}.

Section machine.
Variable checkFn : jsval → result bool.
Variable t0 timeout interval : Z.

Definition wait_init : wstate :=
  WState t0 (Some (t0 + timeout)%Z) (Some (t0 + interval)%Z) [] [] None.

(** [t] is not later than any event that is still to come. *)
Definition due (s : wstate) (t : Z) : Prop :=
  (ws_clock s ≤ t)%Z ∧
  (∀ d, ws_th s = Some d → t ≤ d)%Z ∧
  (∀ d, ws_ih s = Some d → t ≤ d)%Z ∧
  (∀ c v, (c, v) ∈ ws_inflight s → t ≤ c)%Z.

(** [done(settle, arg)]: clears both timers; settling a settled promise has no effect. *)
Definition done_ (s : wstate) (t : Z) (inflight : list (Z * jsval)) (r : result jsval) : wstate :=
  WState t None None inflight (ws_polls s)
    (match ws_promise s with Some q => Some q | None => Some (r, t) end).

Inductive wstep : wstate → wstate → Prop :=
| step_tick s t c v :
    ws_ih s = Some t → due s t → (t ≤ c)%Z →
    wstep s (WState t (ws_th s) (Some (t + interval)%Z) (ws_inflight s ++ [(c, v)])
               (ws_polls s ++ [Poll t (Some (c, v))]) (ws_promise s))
| step_tick_stuck s t :
    ws_ih s = Some t → due s t →
    wstep s (WState t (ws_th s) (Some (t + interval)%Z) (ws_inflight s)
               (ws_polls s ++ [Poll t None]) (ws_promise s))
| step_complete_ok s l c v r :
    ws_inflight s = l ++ (c, v) :: r → due s c → checkFn v = Ok true →
    wstep s (done_ s c (l ++ r) (Ok v))
| step_complete_no s l c v r :
    ws_inflight s = l ++ (c, v) :: r → due s c → checkFn v ≠ Ok true →
    wstep s (WState c (ws_th s) (ws_ih s) (l ++ r) (ws_polls s) (ws_promise s))
| step_timeout s d :
    ws_th s = Some d → due s d →
    wstep s (done_ s d (ws_inflight s) (Throw wait_timeout)).

(** The invariant of every reachable state. *)
Record winv (s : wstate) : Prop := {
  inv_armed : ws_promise s = None →
    ws_th s = Some (t0 + timeout)%Z ∧ is_Some (ws_ih s) ∧ (ws_clock s ≤ t0 + timeout)%Z;
  inv_cleared : ws_promise s ≠ None → ws_th s = None ∧ ws_ih s = None;
  inv_pending : ∀ c v, (c, v) ∈ ws_inflight s → (ws_clock s ≤ c)%Z;
  (* a successful poll is either still in flight or the promise has settled by its time *)
  inv_success : ∀ p c v, p ∈ ws_polls s → success checkFn p = Some (c, v) →
    (c, v) ∈ ws_inflight s ∨ ∃ r t, ws_promise s = Some (r, t) ∧ (t ≤ c)%Z;
  inv_inflight : ∀ c v, (c, v) ∈ ws_inflight s → ∃ p, p ∈ ws_polls s ∧ p_end p = Some (c, v);
  inv_time : ∀ r t, ws_promise s = Some (r, t) → (t ≤ ws_clock s)%Z;
  inv_contract : ∀ r t, ws_promise s = Some (r, t) →
    wait_contract checkFn (t0 + timeout) (ws_polls s) r t
}.

Lemma winv_init : (0 ≤ timeout)%Z → winv wait_init.
Proof.
  intros Hto. split; simpl; try done; try set_solver.
  intros _. split_and!; [done|eauto|lia].
Qed.

(** A pending promise never sees a success that is not in flight. *)
Lemma winv_all_later s t : winv s → ws_promise s = None →
  (∀ c v, (c, v) ∈ ws_inflight s → t ≤ c)%Z →
  ∀ p c v, p ∈ ws_polls s → success checkFn p = Some (c, v) → (t ≤ c)%Z.
Proof.
  intros I Hp Hl p c v Hin Hs. destruct (inv_success s I p c v Hin Hs) as [Hf|(r & t' & Hr & _)];
    [by eapply Hl|congruence].
Qed.

(** [done] on a pending promise settles it within the contract. *)
Lemma winv_done s t l r :
  winv s → ws_promise s = None → (ws_clock s ≤ t)%Z →
  (∀ c v, (c, v) ∈ ws_inflight s → t ≤ c)%Z →
  (∀ q, q ∈ l → q ∈ ws_inflight s) →
  wait_contract checkFn (t0 + timeout) (ws_polls s) r t → winv (done_ s t l r).
Proof.
  intros I Hp Hc Hdue Hsub Hct. unfold done_. rewrite Hp.
  split; simpl; try done.
  - intros c v Hin. by eapply Hdue, Hsub.
  - intros p c v Hin Hs. right. eexists _, _. split; [done|].
    by eapply (winv_all_later s t I Hp Hdue p c v).
  - intros c v Hin. by apply (inv_inflight s I), Hsub.
  - intros r' t' [= <- <-]. lia.
  - by intros r' t' [= <- <-].
Qed.

(** Dropping a completed poll whose value does not settle the promise. *)
Lemma winv_drop s l c v r th ih :
  winv s → ws_inflight s = l ++ (c, v) :: r → due s c →
  (checkFn v ≠ Ok true ∨ ws_promise s ≠ None) → th = ws_th s → ih = ws_ih s →
  winv (WState c th ih (l ++ r) (ws_polls s) (ws_promise s)).
Proof.
  intros I Hf (Hc & Hth & Hih & Hin) Hno -> ->. split; simpl.
  - intros Hp. destruct (inv_armed s I Hp) as (H1 & H2 & H3). split_and!; [done|done|by apply Hth].
  - apply (inv_cleared s I).
  - intros c' v' Hl. apply (Hin c' v'). rewrite Hf. set_solver.
  - intros p c' v' Hp Hs. destruct (inv_success s I p c' v' Hp Hs) as [Hl|Hr]; [|by right].
    rewrite Hf in Hl. apply elem_of_app in Hl as [Hl|Hl]; [left; set_solver|].
    apply elem_of_cons in Hl as [[= -> ->]|Hl]; [|left; set_solver].
    destruct Hno as [Hno|Hno].
    + exfalso. unfold success in Hs. destruct (p_end p) as [[c1 v1]|]; [|done].
      destruct (checkFn v1) as [[]| |] eqn:E; simplify_eq.
    + right. destruct (ws_promise s) as [[r' t']|] eqn:E; [|done]. exists r', t'. split; [done|].
      pose proof (inv_time s I r' t' E). lia.
  - intros c' v' Hl. apply (inv_inflight s I). rewrite Hf. set_solver.
  - intros r' t' Hp. pose proof (inv_time s I r' t' Hp). lia.
  - apply (inv_contract s I).
Qed.

(** Starting a poll; only a pending promise has an armed interval timer. *)
Lemma winv_tick s t p l :
  winv s → ws_ih s = Some t → due s t →
  (p_end p = None ∧ l = [] ∨ ∃ c v, p_end p = Some (c, v) ∧ l = [(c, v)] ∧ (t ≤ c)%Z) →
  winv (WState t (ws_th s) (Some (t + interval)%Z) (ws_inflight s ++ l)
          (ws_polls s ++ [p]) (ws_promise s)).
Proof.
  intros I Hih (Hc & Hth & _ & Hin) Hl.
  assert (ws_promise s = None) as Hp.
  { destruct (ws_promise s) eqn:E; [|done].
    destruct (inv_cleared s I) as [_ Hn]; [by rewrite E|congruence]. }
  destruct (inv_armed s I Hp) as (H1 & _ & _). rewrite Hp.
  split; simpl; try done.
  - intros _. split_and!; [done|eauto|by apply Hth].
  - intros c v [Hf|Hf]%elem_of_app; [by eapply Hin|].
    destruct Hl as [(_ & ->)|(c' & v' & _ & -> & Hle)]; set_solver.
  - intros q c v [Hq|Hq]%elem_of_app Hs.
    + destruct (inv_success s I q c v Hq Hs) as [Hf|(r & t' & Hr & _)]; [left; set_solver|congruence].
    + apply list_elem_of_singleton in Hq as ->. unfold success in Hs.
      destruct Hl as [(He & _)|(c' & v' & He & -> & _)]; rewrite He in Hs; [done|].
      destruct (checkFn v') as [[]| |]; simplify_eq. left. set_solver.
  - intros c v [Hf|Hf]%elem_of_app.
    + destruct (inv_inflight s I c v Hf) as (q & Hq & He). exists q. set_solver.
    + destruct Hl as [(_ & ->)|(c' & v' & He & -> & _)]; [set_solver|].
      apply list_elem_of_singleton in Hf as [= -> ->]. exists p. set_solver.
Qed.

Lemma winv_step s s' : winv s → wstep s s' → winv s'.
Proof.
  intros I Hst. destruct Hst as [s t c v Hih Hd Hle|s t Hih Hd|s l c v r Hf Hd Hck|s l c v r Hf Hd Hck|s d Hth Hd].
  - apply winv_tick; [done..|]. right. by exists c, v.
  - rewrite <- (app_nil_r (ws_inflight s)). apply winv_tick; [done..|]. by left.
  - destruct (ws_promise s) as [[r' t']|] eqn:Hp.
    + unfold done_. rewrite Hp.
      destruct (inv_cleared s I) as [H1 H2]; [by rewrite Hp|].
      rewrite <- Hp. eapply winv_drop; [done|done|done| |congruence|congruence]. right. by rewrite Hp.
    + destruct Hd as (Hc & Hth & _ & Hin). destruct (inv_armed s I Hp) as (H1 & _ & _).
      apply winv_done; try done; [rewrite Hf; set_solver|].
      left. destruct (inv_inflight s I c v) as (p & Hpin & He); [rewrite Hf; set_solver|].
      assert (success checkFn p = Some (c, v)) as Hs by (unfold success; by rewrite He, Hck).
      exists p, v. split_and!; try done; [by apply Hth|]. by apply winv_all_later.
  - eapply winv_drop; try done. by left.
  - assert (ws_promise s = None) as Hp.
    { destruct (ws_promise s) eqn:E; [|done]. destruct (inv_cleared s I) as [Hn _]; [by rewrite E|congruence]. }
    destruct (inv_armed s I Hp) as (H1 & _ & _). assert (d = t0 + timeout)%Z as -> by congruence.
    destruct Hd as (Hc & _ & _ & Hin). apply winv_done; try done.
    right. split_and!; [done|done|]. by apply winv_all_later.
Qed.

Lemma winv_reachable s : (0 ≤ timeout)%Z → rtc wstep wait_init s → winv s.
Proof.
  intros Hto Hr. pose proof (winv_init Hto) as I. revert I.
  induction Hr as [s|s1 s2 s3 Hst _ IH]; [done|]. intros I. apply IH. by eapply winv_step.
Qed.

(** A settled promise keeps its outcome and no further poll is started. *)
Lemma wstep_settled s s' q : winv s → ws_promise s = Some q → wstep s s' →
  ws_promise s' = Some q ∧ ws_polls s' = ws_polls s.
Proof.
  intros I Hp Hst. destruct (inv_cleared s I) as [Hth Hih]; [by rewrite Hp|].
  destruct Hst; try congruence; simpl; by rewrite ?Hp.
Qed.

Lemma wsteps_settled s s' q : winv s → ws_promise s = Some q → rtc wstep s s' →
  ws_promise s' = Some q ∧ ws_polls s' = ws_polls s.
Proof.
  intros I Hp Hr. revert I Hp. induction Hr as [s|s1 s2 s3 Hst _ IH]; [done|]. intros I Hp.
  destruct (wstep_settled _ _ _ I Hp Hst) as [Hp' Hpolls].
  destruct (IH (winv_step _ _ I Hst) Hp') as [? ->]. done.
Qed.

(** ** Every run settles *)

Lemma earliest_inflight (l : list (Z * jsval)) : l ≠ [] →
  ∃ l1 c v l2, l = l1 ++ (c, v) :: l2 ∧ ∀ c' v', (c', v') ∈ l → (c ≤ c')%Z.
Proof.
  induction l as [|[c v] l IH]; [done|]. intros _. destruct (decide (l = [])) as [->|Hne].
  { exists [], c, v, []. split; [done|]. intros c' v' Hin. set_solver. }
  destruct (IH Hne) as (l1 & c1 & v1 & l2 & -> & Hmin). destruct (Z.le_gt_cases c c1).
  - exists [], c, v, (l1 ++ (c1, v1) :: l2). split; [done|].
    intros c' v' [[= -> ->]|Hin]%elem_of_cons; [lia|]. specialize (Hmin c' v' Hin). lia.
  - exists ((c, v) :: l1), c1, v1, l2. split; [done|].
    intros c' v' [[= -> ->]|Hin]%elem_of_cons; [lia|by eapply Hmin].
Qed.

(** A pending promise always has a next event. *)
Lemma wstep_progress s : winv s → (∀ d, ws_ih s = Some d → ws_clock s ≤ d)%Z →
  ws_promise s = None → ∃ s', wstep s s'.
Proof.
  intros I Hih Hp. destruct (inv_armed s I Hp) as (Hth & [ti Hti] & Hck).
  pose proof (inv_pending s I) as Hpend.
  assert (∃ m, due s m ∧ (ws_th s = Some m ∨ ws_ih s = Some m ∨
            ∃ l1 v l2, ws_inflight s = l1 ++ (m, v) :: l2)) as (m & Hd & Hm).
  { specialize (Hih _ Hti). set (dl := (t0 + timeout)%Z) in *.
    assert (∃ m, (∀ c v, (c, v) ∈ ws_inflight s → m ≤ c)%Z ∧ (ws_clock s ≤ m ≤ Z.min dl ti)%Z ∧
      (m = Z.min dl ti ∨ ∃ l1 v l2, ws_inflight s = l1 ++ (m, v) :: l2)) as (m & H1 & H2 & H3).
    { destruct (decide (ws_inflight s = [])) as [Hn|Hn].
      - exists (Z.min dl ti). rewrite Hn. split; [set_solver|]. split; [lia|by left].
      - destruct (earliest_inflight _ Hn) as (l1 & c & v & l2 & Hl & Hmin).
        destruct (Z.le_gt_cases c (Z.min dl ti)).
        + exists c. split; [done|]. split; [|right; by eexists _, _, _].
          split; [|done]. apply (Hpend c v). rewrite Hl. set_solver.
        + exists (Z.min dl ti). split; [|split; [lia|by left]].
          intros c' v' Hin. specialize (Hmin c' v' Hin). lia. }
    exists m. split.
    - split_and!; [lia|intros d Hd; simplify_eq; lia..|done].
    - destruct H3 as [->|H3]; [|by right; right].
      destruct (Z.min_spec dl ti) as [[_ ->]|[_ ->]]; [by left|by right; left]. }
  destruct Hm as [Hm|[Hm|(l1 & v & l2 & Hm)]].
  - eexists. by eapply step_timeout.
  - eexists. by eapply step_tick_stuck.
  - destruct (checkFn v) as [[]|e|] eqn:E; eexists;
      first [by eapply step_complete_ok|eapply step_complete_no; [done|done|by rewrite E]].
Qed.

(** While no successful poll is due before [t], the completions before [t] can all happen, and
    they change nothing but the list of polls in flight. *)
Lemma drain s t : winv s → ws_promise s = None → (ws_clock s ≤ t ≤ t0 + timeout)%Z →
  (∀ d, ws_ih s = Some d → t ≤ d)%Z →
  (∀ c v, (c, v) ∈ ws_inflight s → (c < t)%Z → checkFn v ≠ Ok true) →
  ∃ s', rtc wstep s s' ∧ winv s' ∧ ws_promise s' = None ∧ ws_ih s' = ws_ih s ∧ ws_polls s' = ws_polls s ∧
    due s' t.
Proof.
  remember (length (ws_inflight s)) as n eqn:En. revert s En.
  induction n as [n IH] using lt_wf_ind; intros s -> I Hp Hclk Hih Hno.
  destruct (inv_armed s I Hp) as (Hth & _ & _).
  assert ((∀ c v, (c, v) ∈ ws_inflight s → t ≤ c)%Z ∨ ∃ l1 c v l2, ws_inflight s = l1 ++ (c, v) :: l2 ∧
    (c < t)%Z ∧ ∀ c' v', (c', v') ∈ ws_inflight s → (c ≤ c')%Z) as [Hall|(l1 & c & v & l2 & Hl & Hc & Hmin)].
  { destruct (decide (ws_inflight s = [])) as [->|Hne]; [left; set_solver|].
    destruct (earliest_inflight _ Hne) as (l1 & c & v & l2 & Hl & Hmin).
    destruct (Z.lt_ge_cases c t); [by right; exists l1, c, v, l2|].
    left. intros c' v' Hin. specialize (Hmin c' v' Hin). lia. }
  { exists s. split_and!; [apply rtc_refl|done..|]. split_and!; [lia| |done|done].
    intros d Hd. rewrite Hth in Hd. injection Hd as <-. lia. }
  assert ((c, v) ∈ ws_inflight s) as Hin by (rewrite Hl; set_solver).
  assert (due s c) as Hd.
  { split_and!; [by eapply (inv_pending s I)| | |done]; intros d Hd; [rewrite Hth in Hd; injection Hd as <-; lia|].
    specialize (Hih d Hd). lia. }
  pose proof (step_complete_no s l1 c v l2 Hl Hd (Hno c v Hin Hc)) as Hst.
  destruct (IH (length (l1 ++ l2))) with
    (s := WState c (ws_th s) (ws_ih s) (l1 ++ l2) (ws_polls s) (ws_promise s))
    as (s' & Hr & I' & Hp' & Hih' & Hpo' & Hd'); simpl; try done.
  - rewrite Hl, !length_app. simpl. lia.
  - by eapply winv_step.
  - lia.
  - intros c' v' Hin'. apply Hno. rewrite Hl. set_solver.
  - exists s'. split_and!; try done. by eapply rtc_l.
Qed.

(** Counting while the promise is pending: the [k]-th tick is at [t0 + k * interval]. *)
Definition wcount (n : nat) (s : wstate) : Prop :=
  ws_promise s = None →
  ws_ih s = Some (t0 + (Z.of_nat (length (ws_polls s)) + 1) * interval)%Z ∧
  (ws_clock s ≤ t0 + (Z.of_nat (length (ws_polls s)) + 1) * interval)%Z ∧
  (Z.of_nat (length (ws_polls s)) * interval ≤ timeout)%Z ∧
  n + length (ws_inflight s) ≤ 2 * length (ws_polls s).

Lemma wcount_step n s s' : (0 < interval)%Z → winv s → wcount n s → wstep s s' → wcount (S n) s'.
Proof.
  intros Hiv I Hc Hst. destruct Hst as [s t c v Hih Hd Hle|s t Hih Hd|s l c v r Hf Hd Hck|s l c v r Hf Hd Hck|s d Hth Hd];
    unfold wcount; simpl; intros Hp; try (unfold done_ in Hp; simpl in Hp; by destruct (ws_promise s)).
  all: destruct (Hc Hp) as (H1 & H2 & H3 & H4); destruct (inv_armed s I Hp) as (Hth & _ & _);
    destruct Hd as (_ & Hdth & Hdih & _); specialize (Hdth _ Hth).
  1, 2: assert (t = t0 + (Z.of_nat (length (ws_polls s)) + 1) * interval)%Z as -> by congruence;
    rewrite ?length_app; simpl; split_and!; [f_equal; lia|lia|lia|lia].
  rewrite H1. specialize (Hdih _ H1). rewrite Hf, length_app in H4. simpl in H4.
  rewrite length_app. split_and!; [done|lia|lia|lia].
Qed.

Lemma nsteps_inv n s s' : (0 < interval)%Z → winv s → wcount n s → ∀ k, nsteps wstep k s s' →
  winv s' ∧ wcount (n + k) s'.
Proof.
  intros Hiv I Hc k Hs. revert n I Hc. induction Hs as [s|k s1 s2 s3 Hst _ IH]; intros n I Hc.
  - by rewrite Nat.add_0_r.
  - rewrite <- Nat.add_succ_comm. apply IH; [by eapply winv_step|by eapply wcount_step].
Qed.

Lemma wcount_init : (0 ≤ timeout)%Z → (0 < interval)%Z → wcount 0 wait_init.
Proof. intros H1 H2 _. simpl. split_and!; [f_equal; lia|lia|lia|lia]. Qed.

(** A run that is still pending is short. *)
Lemma pending_short n s : (0 ≤ timeout)%Z → (0 < interval)%Z → nsteps wstep n wait_init s →
  ws_promise s = None → (Z.of_nat n ≤ 2 * (timeout / interval))%Z.
Proof.
  intros Hto Hiv Hs Hp.
  destruct (nsteps_inv 0 _ _ Hiv (winv_init Hto) (wcount_init Hto Hiv) n Hs) as [_ Hc].
  destruct (Hc Hp) as (_ & _ & H3 & H4).
  assert (Z.of_nat (length (ws_polls s)) ≤ timeout / interval)%Z by (apply Z.div_le_lower_bound; lia).
  lia.
Qed.

End machine.

(** * The executable loop meets the contract *)

Section exec.
Context {X : Type} `{Services X}.
Variable fn : M X jsval.
Variable checkFn : jsval → result bool.

(** The polls [ps] are the ones made from [w] with ticks at [t], [t + iv], ..., ending in [w']. *)
Inductive polled (iv : Z) : Z → world X → list poll → world X → Prop :=
| polled_nil t w : polled iv t w [] w
| polled_cons t w p w1 ps w2 :
    poll_at fn checkFn t w = (Ok p, w1) → polled iv (t + iv) w1 ps w2 →
    polled iv t w (p :: ps) w2.

Lemma polled_snoc iv t w ps w1 p w2 :
  polled iv t w ps w1 → poll_at fn checkFn (t + Z.of_nat (length ps) * iv) w1 = (Ok p, w2) →
  polled iv t w (ps ++ [p]) w2.
Proof.
  induction 1 as [t w|t w q w0 ps w1 Hq Hps IH]; intros Hp.
  - econstructor; [|constructor]. by rewrite Z.add_0_r in Hp.
  - simpl. econstructor; [done|]. apply IH. rewrite <- Hp. f_equal. simpl length. lia.
Qed.

Lemma poll_at_run t w : ∃ p w', poll_at fn checkFn t w = (Ok p, w') ∧ p_start p = t.
Proof. unfold poll_at. destruct (fn (set_now t w)) as [[v|e|] w1]; by eexists _, _. Qed.

(** Some poll has succeeded by time [t]. *)
Definition stopped (t : Z) (ps : list poll) : Prop :=
  ∃ p c v, p ∈ ps ∧ success checkFn p = Some (c, v) ∧ (c ≤ t)%Z.

Lemma existsb_stopped t ps :
  existsb (λ p, match success checkFn p with Some (c, _) => (c <=? t)%Z | None => false end) ps = true
    ↔ stopped t ps.
Proof.
  rewrite existsb_exists. unfold stopped. setoid_rewrite <- list_elem_of_In. split.
  - intros (p & Hp & Hs). destruct (success checkFn p) as [[c v]|] eqn:E; [|done].
    apply Z.leb_le in Hs. by exists p, c, v.
  - intros (p & c & v & Hp & Hs & Hle). exists p. rewrite Hs. split; [done|]. by apply Z.leb_le.
Qed.

(** Each poll was started by a tick before the deadline, when no earlier poll had succeeded. *)
Inductive orderly (deadline iv t0 : Z) : list poll → Prop :=
| orderly_nil : orderly deadline iv t0 []
| orderly_snoc ps p :
    orderly deadline iv t0 ps → p_start p = (t0 + Z.of_nat (length ps) * iv)%Z →
    (p_start p < deadline)%Z → ¬ stopped (p_start p) ps → orderly deadline iv t0 (ps ++ [p]).

(** [ticks] polls until the deadline, or stops early because a poll has succeeded. *)
Lemma ticks_spec fuel deadline iv t0 w w0 ps :
  (0 < iv)%Z →
  (deadline ≤ t0 + (Z.of_nat (length ps) + Z.of_nat fuel) * iv)%Z →
  polled iv t0 w0 ps w → orderly deadline iv t0 ps →
  ∃ qs w', ticks fuel fn checkFn deadline iv (t0 + Z.of_nat (length ps) * iv) ps w = (Ok qs, w') ∧
    polled iv t0 w0 qs w' ∧ orderly deadline iv t0 qs ∧
    (deadline ≤ t0 + Z.of_nat (length qs) * iv ∨ stopped (t0 + Z.of_nat (length qs) * iv) qs)%Z ∧
    (length ps ≤ length qs) ∧
    (length qs = length ps ∨ t0 + (Z.of_nat (length qs) - 1) * iv < deadline)%Z.
Proof.
  intros Hiv. revert w ps. induction fuel as [|fuel IH]; intros w ps Hfuel Hps Hord.
  { exists ps, w. split_and!; [done|done|done|left; lia|lia|by left]. }
  cbn [ticks]. destruct (Z.leb_spec deadline (t0 + Z.of_nat (length ps) * iv)) as [Hdl|Hdl].
  { exists ps, w. split_and!; [done|done|done|by left|lia|by left]. }
  destruct (existsb _ ps) eqn:Es.
  { apply existsb_stopped in Es. exists ps, w. split_and!; [done|done|done|by right|lia|by left]. }
  destruct (poll_at_run (t0 + Z.of_nat (length ps) * iv) w) as (p & w1 & Hp & Hst).
  rewrite (bind_Ok _ _ _ _ _ Hp).
  assert (length (ps ++ [p]) = S (length ps)) as Hlen by (rewrite length_app; simpl; lia).
  destruct (IH w1 (ps ++ [p])) as (qs & w' & Hrun & Hqs & Hoq & Hend & Hge & Hlast).
  { rewrite Hlen. lia. }
  { by eapply polled_snoc. }
  { constructor; [done|done|lia|]. rewrite Hst. intros Hs%existsb_stopped. congruence. }
  replace (t0 + Z.of_nat (length ps) * iv + iv)%Z with (t0 + Z.of_nat (length (ps ++ [p])) * iv)%Z
    by (rewrite Hlen; lia).
  exists qs, w'. rewrite Hlen in Hge. split_and!; [done|done|done|done|lia|].
  right. destruct Hlast as [Hl|Hl]; [|done]. rewrite Hl, Hlen. lia.
Qed.

Lemma earliest_spec ps :
  match earliest checkFn ps with
  | Some (c, v) => (∃ p, p ∈ ps ∧ success checkFn p = Some (c, v)) ∧
                   ∀ p c' v', p ∈ ps → success checkFn p = Some (c', v') → (c ≤ c')%Z
  | None => ∀ p, p ∈ ps → success checkFn p = None
  end.
Proof.
  induction ps as [|p ps IH]; simpl; [set_solver|].
  destruct (success checkFn p) as [[c v]|] eqn:E; destruct (earliest checkFn ps) as [[c' v']|].
  - destruct IH as [(q & Hq & Hs) Hmin]. destruct (Z.leb_spec c c').
    + split; [exists p; set_solver|]. intros q' c1 v1 [->|Hq']%elem_of_cons Hs'; [simplify_eq; lia|].
      specialize (Hmin q' c1 v1 Hq' Hs'). lia.
    + split; [exists q; set_solver|]. intros q' c1 v1 [->|Hq']%elem_of_cons Hs'; [simplify_eq; lia|].
      by eapply Hmin.
  - split; [exists p; set_solver|]. intros q' c1 v1 [->|Hq']%elem_of_cons Hs'; [simplify_eq; lia|].
    rewrite IH in Hs' by done. done.
  - destruct IH as [(q & Hq & Hs) Hmin]. split; [exists q; set_solver|].
    intros q' c1 v1 [->|Hq']%elem_of_cons Hs'; [congruence|]. by eapply Hmin.
  - intros q [->|Hq]%elem_of_cons; [done|by apply IH].
Qed.

Lemma timer_delay_pos d : (1 ≤ timer_delay d ≤ 2147483647)%Z.
Proof.
  unfold timer_delay. destruct (Z.leb_spec 1 d), (Z.leb_spec d 2147483647); simpl; lia.
Qed.

(** The end of [wait], once the polls are known. *)
Definition wait_end (deadline : Z) (ps : list poll) : M X jsval :=
  match earliest checkFn ps with
  | Some (c, v) =>
      if (c <? deadline)%Z then modify (set_now c) ;; mret v
      else modify (set_now deadline) ;; debug [JStr "wait timeout"] ;; throw wait_timeout
  | None => modify (set_now deadline) ;; debug [JStr "wait timeout"] ;; throw wait_timeout
  end.

(** The polls of [wait], and what is left to do after them. *)
Lemma wait_polls timeout interval w :
  let iv := timer_delay interval in
  let deadline := (w_now w + timer_delay timeout)%Z in
  ∃ ps w1, wait fn checkFn timeout interval w = wait_end deadline ps w1 ∧
    polled iv (w_now w + iv) w ps w1 ∧ orderly deadline iv (w_now w + iv) ps ∧
    (Z.of_nat (length ps) * iv < timer_delay timeout)%Z ∧
    (deadline ≤ w_now w + (Z.of_nat (length ps) + 1) * iv ∨
     stopped (w_now w + (Z.of_nat (length ps) + 1) * iv) ps)%Z.
Proof.
  intros iv deadline. pose proof (timer_delay_pos interval) as Hiv. pose proof (timer_delay_pos timeout) as Hto.
  fold iv in Hiv.
  destruct (ticks_spec (S (Z.to_nat (timer_delay timeout / iv))) deadline iv (w_now w + iv) w w [])
    as (ps & w1 & Hrun & Hps & Hord & Hend & _ & Hlast); [lia| |constructor|constructor|].
  { simpl length. unfold deadline.
    pose proof (Z.mul_succ_div_gt (timer_delay timeout) iv ltac:(lia)).
    rewrite Nat2Z.inj_succ, Z2Nat.id by (apply Z.div_pos; lia). lia. }
  rewrite Z.mul_0_l, Z.add_0_r in Hrun.
  replace (w_now w + iv + Z.of_nat (length ps) * iv)%Z with (w_now w + (Z.of_nat (length ps) + 1) * iv)%Z
    in Hend by lia.
  exists ps, w1. split_and!; try done.
  - unfold wait. rewrite (bind_Ok _ _ _ (w_now w) w) by done.
    fold iv. fold deadline. by rewrite (bind_Ok _ _ _ _ _ Hrun).
  - destruct Hlast as [->|Hl]; [simpl; lia|]. unfold deadline in Hl. lia.
Qed.

Lemma now_logged (l : list (list jsval)) (w : world X) : w_now (foldr add_log w l) = w_now w.
Proof. by induction l. Qed.

(** [wait_end] settles as the contract says. *)
Lemma wait_end_contract deadline ps w1 : ∃ r w2, wait_end deadline ps w1 = (r, w2) ∧
  wait_contract checkFn deadline ps r (w_now w2) ∧ ∃ l, w2 = foldr add_log (set_now (w_now w2) w1) l.
Proof.
  pose proof (earliest_spec ps) as He. unfold wait_end.
  destruct (debug_run [JStr "wait timeout"] (set_now deadline w1)) as [l Hl].
  assert ((∀ p c v, p ∈ ps → success checkFn p = Some (c, v) → (deadline ≤ c)%Z) → ∃ r w2,
    (modify (set_now deadline) ;; debug [JStr "wait timeout"] ;; throw (A := jsval) wait_timeout) w1 = (r, w2) ∧
    wait_contract checkFn deadline ps r (w_now w2) ∧ ∃ l, w2 = foldr add_log (set_now (w_now w2) w1) l) as Hto.
  { intros Hno. exists (Throw wait_timeout), (foldr add_log (set_now deadline w1) l).
    rewrite run_bind_modify, (bind_Ok _ _ _ _ _ Hl), now_logged.
    split_and!; [done|right; by split_and!|by exists l]. }
  destruct (earliest checkFn ps) as [[c v]|].
  - destruct He as [(p & Hp & Hs) Hmin]. destruct (Z.ltb_spec c deadline) as [Hc|Hc].
    + exists (Ok v), (set_now c w1). split_and!; [done| |by exists []].
      left. exists p, v. split_and!; try done. simpl. lia.
    + apply Hto. intros q c' v' Hq Hs'. specialize (Hmin q c' v' Hq Hs'). lia.
  - apply Hto. intros q c' v' Hq Hs'. rewrite He in Hs' by done. done.
Qed.

(** The whole behaviour of [wait]: it makes the polls [ps], one per interval, and settles as the
    contract says; a rejection comes only after a poll at every tick before the deadline. *)
Lemma wait_spec timeout interval w :
  let iv := timer_delay interval in
  let deadline := (w_now w + timer_delay timeout)%Z in
  ∃ ps w1 r w2,
    wait fn checkFn timeout interval w = (r, w2) ∧
    polled iv (w_now w + iv) w ps w1 ∧
    wait_contract checkFn deadline ps r (w_now w2) ∧
    (Z.of_nat (length ps) * iv < timer_delay timeout)%Z ∧
    (r = Throw wait_timeout → (deadline ≤ w_now w + (Z.of_nat (length ps) + 1) * iv)%Z) ∧
    (∃ l, w2 = foldr add_log (set_now (w_now w2) w1) l).
Proof.
  intros iv deadline.
  destruct (wait_polls timeout interval w) as (ps & w1 & Hw & Hps & _ & Hlen & Hend).
  destruct (wait_end_contract deadline ps w1) as (r & w2 & Hr & Hct & Hl).
  exists ps, w1, r, w2. rewrite Hw. split_and!; try done. intros ->.
  destruct Hend as [Hend|(p & c & v & Hp & Hs & Hc)]; [done|].
  destruct Hct as [(? & ? & _ & Hx & _)|(_ & _ & Hno)]; [done|]. specialize (Hno p c v Hp Hs).
  subst iv. lia.
Qed.

Lemma success_end p c v : success checkFn p = Some (c, v) → p_end p = Some (c, v) ∧ checkFn v = Ok true.
Proof.
  unfold success. destruct (p_end p) as [[c' v']|]; [|done].
  destruct (checkFn v') as [[]| |] eqn:E; [|done..]. by intros [= -> ->].
Qed.

(** ** The executable loop is a run of the timer machine *)

(** A computation during which time does not run backwards. *)
Definition monotone {A} (m : M X A) : Prop := ∀ w, (w_now w ≤ w_now (m w).2)%Z.

Lemma polled_ends iv t w ps w' : monotone fn → polled iv t w ps w' →
  ∀ p c v, p ∈ ps → p_end p = Some (c, v) → (p_start p ≤ c)%Z.
Proof.
  intros Hm. induction 1 as [t w|t w q w1 ps w2 Hq _ IH]; intros p c v Hin He; [by apply elem_of_nil in Hin|].
  apply elem_of_cons in Hin as [->|Hin]; [|by eapply IH]. specialize (Hm (set_now t w)).
  unfold poll_at in Hq. destruct (fn (set_now t w)) as [[u|x|] w3]; injection Hq as <- _; simpl in *;
    [injection He as <- _..|]; done.
Qed.

(** The polls of an orderly list can be started one after the other while the promise is pending. *)
Lemma orderly_run t0 to iv ps :
  (0 ≤ to)%Z → (0 < iv)%Z → orderly (t0 + to) iv (t0 + iv) ps →
  (∀ p c v, p ∈ ps → p_end p = Some (c, v) → (p_start p ≤ c)%Z) →
  ∃ s, rtc (wstep checkFn iv) (wait_init t0 to iv) s ∧ ws_promise s = None ∧
    ws_ih s = Some (t0 + (Z.of_nat (length ps) + 1) * iv)%Z ∧ ws_polls s = ps ∧
    (ws_clock s ≤ t0 + Z.of_nat (length ps) * iv)%Z.
Proof.
  intros Hto Hiv. induction 1 as [|ps p _ IH Hst Hdl Hns]; intros Hend.
  { exists (wait_init t0 to iv). split_and!; [apply rtc_refl|done| |done|]; simpl; [f_equal|]; lia. }
  destruct IH as (s & Hr & Hp & Hih & Hpo & Hck); [intros q c v Hq; apply Hend; set_solver|].
  pose proof (winv_reachable checkFn t0 to iv s Hto Hr) as I.
  destruct (drain checkFn t0 to iv s (p_start p) I Hp) as (s' & Hr' & I' & Hp' & Hih' & Hpo' & Hd).
  { lia. }
  { intros d. rewrite Hih. intros [= <-]. lia. }
  { intros c v Hin Hc Hok. apply Hns. destruct (inv_inflight _ _ _ _ I c v Hin) as (q & Hq & He).
    rewrite Hpo in Hq. exists q, c, v. split_and!; [done| |lia]. unfold success. by rewrite He, Hok. }
  assert (ws_ih s' = Some (p_start p)) as Hih2 by (rewrite Hih', Hih; f_equal; lia).
  destruct p as [t e]. cbn [p_start] in *.
  assert (∃ l, wstep checkFn iv s' (WState t (ws_th s') (Some (t + iv)%Z) l (ws_polls s' ++ [Poll t e]) (ws_promise s')))
    as [l Hs].
  { destruct e as [[c v]|]; eexists.
    - apply step_tick; [done|done|]. apply (Hend (Poll t (Some (c, v))) c v); [set_solver|done].
    - by apply step_tick_stuck. }
  eexists. split; [eapply rtc_r; [by etrans|exact Hs]|]. simpl. rewrite Hpo', Hpo, length_app. simpl.
  split_and!; [done|f_equal; lia|done|lia].
Qed.

(** From there the promise settles as the contract says. *)
Lemma settle_run t0 to iv s r t :
  (0 ≤ to)%Z → rtc (wstep checkFn iv) (wait_init t0 to iv) s → ws_promise s = None → (ws_clock s ≤ t)%Z →
  (∀ d, ws_ih s = Some d → t ≤ d)%Z → wait_contract checkFn (t0 + to) (ws_polls s) r t →
  ∃ s', rtc (wstep checkFn iv) s s' ∧ ws_promise s' = Some (r, t) ∧ ws_polls s' = ws_polls s.
Proof.
  intros Hto Hr Hp Hck Hih Hct. pose proof (winv_reachable checkFn t0 to iv s Hto Hr) as I.
  assert (t ≤ t0 + to)%Z as Hle by (destruct Hct as [(? & ? & _ & _ & _ & ? & _)|(_ & -> & _)]; lia).
  destruct (drain checkFn t0 to iv s t I Hp) as (s' & Hr' & I' & Hp' & Hih' & Hpo' & Hd); [lia|done| |].
  { intros c v Hin Hc Hok. destruct (inv_inflight _ _ _ _ I c v Hin) as (q & Hq & He).
    assert (success checkFn q = Some (c, v)) as Hs by (unfold success; by rewrite He, Hok).
    destruct Hct as [(_ & _ & _ & _ & _ & _ & Hmin)|(_ & -> & Hno)];
      [specialize (Hmin q c v Hq Hs)|specialize (Hno q c v Hq Hs)]; lia. }
  destruct Hct as [(p & v & Hin & -> & Hs & _)|(-> & -> & _)].
  - rewrite <- Hpo' in Hin. destruct (inv_success _ _ _ _ I' p t v Hin Hs) as [Hf|(? & ? & Hx & _)]; [|congruence].
    apply list_elem_of_split in Hf as (l1 & l2 & Hf). apply success_end in Hs as [_ Hok].
    eexists. split; [eapply rtc_r; [exact Hr'|by eapply step_complete_ok]|]. unfold done_. simpl. by rewrite Hp'.
  - destruct (inv_armed _ _ _ _ I' Hp') as (Hth & _).
    eexists. split; [eapply rtc_r; [exact Hr'|by eapply step_timeout]|]. unfold done_. simpl. by rewrite Hp'.
Qed.

Lemma wait_run timeout interval w : monotone fn →
  let iv := timer_delay interval in
  ∃ ps w1 s, polled iv (w_now w + iv) w ps w1 ∧
    rtc (wstep checkFn iv) (wait_init (w_now w) (timer_delay timeout) iv) s ∧ ws_polls s = ps ∧
    ws_promise s = Some ((wait fn checkFn timeout interval w).1, w_now (wait fn checkFn timeout interval w).2).
Proof.
  intros Hm iv. pose proof (timer_delay_pos interval) as Hiv. pose proof (timer_delay_pos timeout) as Hto.
  fold iv in Hiv.
  destruct (wait_polls timeout interval w) as (ps & w1 & -> & Hps & Hord & Hlen & Hend). fold iv in Hps, Hord, Hlen, Hend.
  destruct (wait_end_contract (w_now w + timer_delay timeout) ps w1) as (r & w2 & -> & Hct & _).
  destruct (orderly_run (w_now w) (timer_delay timeout) iv ps) as (s & Hr & Hp & Hih & Hpo & Hck);
    [lia|lia|done|by eapply polled_ends|].
  rewrite <- Hpo in Hct. edestruct (settle_run (w_now w) (timer_delay timeout) iv s r (w_now w2))
    as (s' & Hr' & Hp' & Hpo'); [lia|done|done| | |done|].
  - destruct Hct as [(p & v & Hin & _ & Hs & _)|(_ & -> & _)]; [|lia].
    pose proof (winv_reachable checkFn (w_now w) (timer_delay timeout) iv s ltac:(lia) Hr) as I.
    destruct (inv_success _ _ _ _ I p _ v Hin Hs) as [Hf|(? & ? & Hx & _)]; [|congruence].
    by eapply (inv_pending _ _ _ _ I).
  - intros d. rewrite Hih. intros [= <-]. rewrite Hpo in Hct.
    destruct Hct as [(p & v & _ & _ & _ & Hle & Hmin)|(_ & Ht & Hno)],
      Hend as [Hend|(q & c & v' & Hq & Hsq & Hc)]; try lia.
    + specialize (Hmin q c v' Hq Hsq). lia.
    + specialize (Hno q c v' Hq Hsq). lia.
  - exists ps, w1, s'. split_and!; [done|by etrans|by rewrite Hpo', Hpo|done].
Qed.

(** ** What the callers of [wait] use *)

Lemma polled_value iv t w ps w' p c v :
  polled iv t w ps w' → p ∈ ps → p_end p = Some (c, v) →
  ∃ w1 w2, fn w1 = (Ok v, w2) ∨ fn w1 = (Throw v, w2).
Proof.
  induction 1 as [|t w q w0 ps w1 Hq _ IH]; [by intros Hin%elem_of_nil|].
  intros [->|Hin]%elem_of_cons He; [|by apply IH].
  unfold poll_at in Hq. destruct (fn (set_now t w)) as [[v'|e|] w2] eqn:E;
    injection Hq as <- <-; simpl in He; simplify_eq; eauto.
Qed.

(** A value returned by [wait] passes the check and came from a poll; otherwise it is the
    timeout error. *)
Lemma wait_outcome timeout interval w :
  match (wait fn checkFn timeout interval w).1 with
  | Ok v => checkFn v = Ok true ∧ ∃ w1 w2, fn w1 = (Ok v, w2) ∨ fn w1 = (Throw v, w2)
  | Throw e => e = wait_timeout
  | Hang => False
  end.
Proof.
  destruct (wait_spec timeout interval w) as (ps & w1 & r & w2 & -> & Hps & Hct & _). simpl.
  destruct Hct as [(p & v & Hp & -> & Hs & _)|(-> & _)]; [|done].
  apply success_end in Hs as [He Hc]. split; [done|]. by eapply polled_value.
Qed.

Lemma wait_returned timeout interval w v w' :
  wait fn checkFn timeout interval w = (Ok v, w') →
  checkFn v = Ok true ∧ ∃ w1 w2, fn w1 = (Ok v, w2) ∨ fn w1 = (Throw v, w2).
Proof. intros Hw. pose proof (wait_outcome timeout interval w) as Ho. by rewrite Hw in Ho. Qed.

Lemma wait_settles timeout interval : settles (wait fn checkFn timeout interval).
Proof.
  intros w Hh. pose proof (wait_outcome timeout interval w) as Ho. by rewrite Hh in Ho.
Qed.

Lemma wait_raises timeout interval : raises (wait fn checkFn timeout interval).
Proof.
  intros w e He. pose proof (wait_outcome timeout interval w) as Ho. by rewrite He in Ho; subst.
Qed.

Lemma polled_makes P iv t w ps w' :
  makes P fn → polled iv t w ps w' → ∃ cs, w_trace w' = w_trace w ++ cs ∧ Forall P cs.
Proof.
  intros Ha. induction 1 as [|t w q w0 ps w1 Hq _ (cs & IH & HP)]; [exists []; by rewrite app_nil_r|].
  destruct (Ha (set_now t w)) as (cs' & Hcs' & HP').
  assert (w_trace w0 = w_trace w ++ cs') as E.
  { unfold poll_at in Hq. destruct (fn (set_now t w)) as [[v'|e|] w2]; injection Hq as <- <-; simpl in *;
      try (destruct (checkFn _)); done. }
  exists (cs' ++ cs). split; [by rewrite IH, E, app_assoc|by apply Forall_app].
Qed.

Lemma wait_makes P timeout interval : makes P fn → makes P (wait fn checkFn timeout interval).
Proof.
  intros Ha w. destruct (wait_spec timeout interval w) as (ps & w1 & r & w2 & -> & Hps & _ & _ & _ & l & Hl).
  destruct (polled_makes P _ _ _ _ _ Ha Hps) as (cs & Hcs & HP). exists cs. split; [|done].
  simpl. rewrite Hl, <- Hcs. clear. by induction l.
Qed.

Lemma poll_follows t w p w' : appends fn → poll_at fn checkFn t w = (Ok p, w') → follows w w'.
Proof.
  intros Ha Hq. specialize (Ha (set_now t w)). etrans; [by apply (follows_inside _ (set_now t w))|].
  unfold poll_at in Hq. destruct (fn (set_now t w)) as [[v|e|] w2]; injection Hq as _ <-; simpl in *;
    try (destruct (checkFn _)); done.
Qed.

Lemma polled_follows iv t w ps w' : appends fn → polled iv t w ps w' → follows w w'.
Proof.
  intros Ha. induction 1 as [|t w q w0 ps w1 Hq _ IH]; [reflexivity|]. etrans; [by eapply poll_follows|done].
Qed.

(** The value of a poll was returned or thrown in a world the run went through. *)
Lemma polled_within iv t w ps w' p c v : appends fn →
  polled iv t w ps w' → p ∈ ps → p_end p = Some (c, v) →
  ∃ w1 w2, follows w w1 ∧ (fn w1 = (Ok v, w2) ∨ fn w1 = (Throw v, w2)) ∧ follows w2 w'.
Proof.
  intros Ha. induction 1 as [|t w q w0 ps w1 Hq Hps IH]; [by intros Hin%elem_of_nil|].
  intros [->|Hin]%elem_of_cons He.
  - unfold poll_at in Hq. destruct (fn (set_now t w)) as [[v'|e|] w2] eqn:E; injection Hq as <- <-; simpl in He;
      simplify_eq; exists (set_now t w), w2; (split; [by apply follows_inside|]); (split; [by auto|]);
      (etrans; [|by eapply polled_follows]); apply follows_inside; by destruct (checkFn _).
  - destruct (IH Hin He) as (wa & wb & Hf & Hr & Hf'). exists wa, wb. split_and!; [|done..].
    etrans; [by eapply poll_follows|done].
Qed.

Lemma wait_follows w w1 w2 l : w2 = foldr add_log (set_now (w_now w2) w1) l → follows w w1 → follows w w2.
Proof. intros Hl Hf. etrans; [exact Hf|]. apply follows_inside; rewrite Hl; clear; by induction l. Qed.

(** A value returned by [wait] was the outcome of a poll of this run. *)
Lemma wait_within timeout interval w v w' : appends fn → wait fn checkFn timeout interval w = (Ok v, w') →
  checkFn v = Ok true ∧
  ∃ w1 w2, follows w w1 ∧ (fn w1 = (Ok v, w2) ∨ fn w1 = (Throw v, w2)) ∧ follows w2 w'.
Proof.
  intros Ha E. destruct (wait_spec timeout interval w) as (ps & w1 & r & w2 & E' & Hps & Hct & _ & _ & l & Hl).
  rewrite E in E'. injection E' as <- <-.
  destruct Hct as [(p & v' & Hp & [= <-] & Hs & _)|(? & _)]; [|done].
  apply success_end in Hs as [He Hc]. split; [done|].
  destruct (polled_within _ _ _ _ _ _ _ _ Ha Hps Hp He) as (wa & wb & ? & ? & Hf). exists wa, wb.
  split_and!; [done..|]. by eapply wait_follows.
Qed.

Lemma wait_appends timeout interval : appends fn → appends (wait fn checkFn timeout interval).
Proof.
  intros Ha w. destruct (wait_spec timeout interval w) as (ps & w1 & r & w2 & -> & Hps & _ & _ & _ & l & Hl).
  simpl. eapply wait_follows; [exact Hl|by eapply polled_follows].
Qed.

End exec.

#[export] Hint Resolve wait_makes : makes.
#[export] Hint Resolve wait_settles : settles.
#[export] Hint Resolve wait_raises : raises.
#[export] Hint Resolve wait_appends : appends.

(** * Theorems *)

(** C24: [wait] always settles, within its timeout: it polls once per interval, strictly before the
    deadline; it resolves with the earliest polled value that passes the check, at the time that
    value arrived; and it rejects with the error [wait timeout] only at the deadline, after a poll at
    every tick before it and when no value passed the check in time. *)
Theorem wait_meets_contract {X} (fn : M X jsval) checkFn timeout interval w :
  let iv := timer_delay interval in
  let deadline := (w_now w + timer_delay timeout)%Z in
  ∃ ps w1 r w2,
    wait fn checkFn timeout interval w = (r, w2) ∧
    polled fn checkFn iv (w_now w + iv) w ps w1 ∧
    wait_contract checkFn deadline ps r (w_now w2) ∧
    (Z.of_nat (length ps) * iv < timer_delay timeout)%Z ∧
    (r = Throw wait_timeout → (deadline ≤ w_now w + (Z.of_nat (length ps) + 1) * iv)%Z).
Proof.
  intros iv deadline.
  destruct (wait_spec fn checkFn timeout interval w) as (ps & w1 & r & w2 & ? & ? & ? & ? & ? & _).
  by exists ps, w1, r, w2.
Qed.

(** C33: in every interleaving of timer expiries and completions of overlapping polls, a settled
    promise obeys the contract of [wait], keeps its outcome in every later state, and no further
    poll is started once it has settled. *)
Theorem wait_interleavings checkFn t0 timeout interval s s' r t :
  (0 ≤ timeout)%Z → rtc (wstep checkFn interval) (wait_init t0 timeout interval) s →
  ws_promise s = Some (r, t) → rtc (wstep checkFn interval) s s' →
  wait_contract checkFn (t0 + timeout) (ws_polls s) r t ∧
  ws_promise s' = Some (r, t) ∧ ws_polls s' = ws_polls s.
Proof.
  intros Hto Hr Hp Hr'. pose proof (winv_reachable checkFn t0 timeout interval s Hto Hr) as I.
  split; [by apply (inv_contract _ _ _ _ I)|]. by eapply wsteps_settled.
Qed.

(** C34: in every interleaving the promise of [wait] settles: a reachable state with a pending
    promise has a next event, and no run of more than [2 * (timeout / interval)] events leaves
    the promise pending, even when polls never complete. *)
Theorem wait_always_settles checkFn t0 timeout interval n s :
  (0 ≤ timeout)%Z → (0 < interval)%Z →
  nsteps (wstep checkFn interval) n (wait_init t0 timeout interval) s → ws_promise s = None →
  (Z.of_nat n ≤ 2 * (timeout / interval))%Z ∧ ∃ s', wstep checkFn interval s s'.
Proof.
  intros Hto Hiv Hs Hp. split; [by eapply pending_short|].
  destruct (nsteps_inv checkFn t0 timeout interval 0 _ s Hiv (winv_init checkFn t0 timeout interval Hto)
    (wcount_init t0 timeout interval Hto Hiv) n Hs) as [I Hc].
  eapply wstep_progress; [done| |done]. intros d Hd. destruct (Hc Hp) as (H1 & H2 & _).
  rewrite H1 in Hd. by injection Hd as <-.
Qed.

(** C32: the executable [wait] is a run of the timer machine: for a polled function during which time
    does not run backwards, the machine reaches, with the polls that [wait] made, a state whose
    promise has settled with the outcome and at the time that [wait] gives. *)
Theorem wait_refines {X} `{Services X} (fn : M X jsval) checkFn timeout interval w : monotone fn →
  let iv := timer_delay interval in
  ∃ ps w1 s, polled fn checkFn iv (w_now w + iv) w ps w1 ∧
    rtc (wstep checkFn iv) (wait_init (w_now w) (timer_delay timeout) iv) s ∧ ws_polls s = ps ∧
    ws_promise s = Some ((wait fn checkFn timeout interval w).1, w_now (wait fn checkFn timeout interval w).2).
Proof. apply wait_run. Qed.

(** A run with two polls: the first value is rejected by the check, the second accepted. *)
Definition accepts_true (v : jsval) : result bool := Ok (truthy v).

Definition demo_settled : wstate :=
  done_ (WState 20 (Some 100%Z) (Some 30%Z) [(25%Z, JBool true)]
           [Poll 10 (Some (12%Z, JBool false)); Poll 20 (Some (25%Z, JBool true))] None)
    25 [] (Ok (JBool true)).

Lemma demo_run : rtc (wstep accepts_true 10) (wait_init 0 100 10) demo_settled.
Proof.
  eapply rtc_l.
  { apply (step_tick accepts_true 10 (wait_init 0 100 10) 10 12 (JBool false)); [done| |lia].
    split_and!; simpl; try lia; [naive_solver lia..|set_solver]. }
  eapply rtc_l.
  { apply (step_complete_no accepts_true 10 _ [] 12 (JBool false) []); [done| |done].
    split_and!; simpl; try lia; [naive_solver lia..|set_solver]. }
  eapply rtc_l.
  { eapply (step_tick accepts_true 10 _ 20 25 (JBool true)); [done| |lia].
    split_and!; simpl; try lia; [naive_solver lia..|set_solver]. }
  eapply rtc_once.
  apply (step_complete_ok accepts_true 10 _ [] 25 (JBool true) []); [done| |done].
  split_and!; simpl; try lia; [naive_solver lia..|set_solver].
Qed.

Lemma wait_interleavings_witness :
  wait_contract accepts_true (0 + 100) (ws_polls demo_settled) (Ok (JBool true)) 25 ∧
  ws_promise demo_settled = Some (Ok (JBool true), 25%Z) ∧ ws_polls demo_settled = ws_polls demo_settled.
Proof.
  apply (wait_interleavings accepts_true 0 100 10 demo_settled demo_settled (Ok (JBool true)) 25).
  - lia.
  - exact demo_run.
  - reflexivity.
  - apply rtc_refl.
Defined.

Lemma wait_always_settles_witness :
  (Z.of_nat 0 ≤ 2 * (100 / 10))%Z ∧ ∃ s', wstep accepts_true 10 (wait_init 0 100 10) s'.
Proof.
  apply (wait_always_settles accepts_true 0 100 10 0 (wait_init 0 100 10)).
  - lia.
  - lia.
  - apply nsteps_O.
  - reflexivity.
Defined.

Lemma invoke_monotone {X} `{Services X} c : monotone (invoke c).
Proof.
  intros w. unfold invoke. destruct (perform c (w_ext w)) as [r x]. destruct (r_out r); simpl; lia.
Qed.

(** A poll that answers after 5 ms, at the second attempt with an accepted value. *)
Definition second_time : world script := answering [inr (JBool false); inr (JBool true)].

Lemma wait_refines_witness :
  ∃ s, rtc (wstep accepts_true 10) (wait_init 0 100 10) s ∧ ws_promise s = Some (Ok (JBool true), 25%Z).
Proof.
  destruct (wait_refines (invoke CUuid) accepts_true 100 10 second_time (invoke_monotone CUuid))
    as (ps & w1 & s & _ & Hr & _ & Hp).
  exists s. split; [exact Hr|]. vm_compute in Hp. exact Hp.
Defined.
