(* ===== verification/Watch.v ===== *)
(** Watching Kubernetes objects, utils/index.js: [waitForK8sObject] and [waitForSecret]. *)

From S2P Require Import Prelude JsValue Json Buffer Effects Script UtilsCore Timers.

(** An event handed to the watch callback: its time and the callback's three arguments. *)
Record event := Event { ev_time : Z; ev_type : jsval; ev_api : jsval; ev_obj : jsval }.

(** The events of a script that starts at [t], with absolute times. *)
Fixpoint schedule (t : Z) (es : list (N * (jsval * jsval * jsval))) : list event :=
  match es with
  | [] => []
  | (d, (ty, api, o)) :: r =>
      let c := (t + Z.of_N d)%Z in Event c ty api o :: schedule c r
  end.

(** How a watch ended: the outcome of the promise, when it settled, the exceptions thrown out of
    the callback meanwhile, and whether the request was aborted. *)
Record watch_end := WatchEnd {
  we_out : result jsval;
  we_time : Z;
  we_uncaught : list jsval;
  we_aborted : bool
}.

Definition uncaught (e : jsval) (r : watch_end) : watch_end :=
  WatchEnd (we_out r) (we_time r) (e :: we_uncaught r) (we_aborted r).

Section run.
Variable checkFn : jsval → jsval → jsval → result bool.
Variable timeoutMsg : string.
(** When [watch()] resolved, which is when [res] is set and the timer armed; [None] when it
    never does. *)
Variable opened : option Z.
(** The expiry of the timer. *)
Variable deadline : option Z.

(** The timer fires: [res.abort(); reject(new Error(timeoutMsg))]. Without a timer the promise
    stays pending. *)
Definition watch_expire (now : Z) : watch_end :=
  match deadline with
  | Some d => WatchEnd (Throw (mkError timeoutMsg)) d [] true
  | None => WatchEnd Hang now [] false
  end.

Definition expired (c : Z) : bool :=
  match deadline with Some d => (d <=? c)%Z | None => false end.

Definition is_open (c : Z) : bool :=
  match opened with Some o => (o <=? c)%Z | None => false end.

(** The event loop. Timers run before the callbacks of the network, so an event at the very
    time of the deadline comes too late. When [watchObj.object] throws, the timer was already
    cleared and the request aborted, if there was one. *)
Fixpoint watch_run (now : Z) (es : list event) : watch_end :=
  match es with
  | [] => watch_expire now
  | e :: r =>
      let c := ev_time e in
      if expired c then watch_expire now
      else match checkFn (ev_type e) (ev_api e) (ev_obj e) with
           | Ok true =>
               match getp (ev_obj e) "object" with
               | Ok v => WatchEnd (Ok v) c [] (is_open c)
               | Throw ex => uncaught ex (if is_open c then WatchEnd Hang c [] true else watch_run c r)
               | Hang => WatchEnd Hang c [] (is_open c)
               end
           | Throw ex => uncaught ex (watch_run c r)
           | _ => watch_run c r
           end
  end.

End run.

Section watch.
Context {X : Type} `{Services X}.

Definition waitForK8sObject (src : kubesrc) (path : string) (query : jsval)
    (checkFn : jsval → jsval → jsval → result bool) (timeout : Z) (timeoutMsg : string) : M X jsval :=
  debug [JStr "waiting for"; JStr path] ;;
  t0 ← get_world w_now;
  script ← (λ w, let '(s, x) := watch_of src path query (w_ext w) in (Ok s, set_ext x w));
  (match ws_open script with inl ex => modify (add_unhandled ex) | inr _ => mret tt end) ;;
  let opened := match ws_open script with inr d => Some (t0 + Z.of_N d)%Z | inl _ => None end in
  let deadline := option_map (λ o, (o + timer_delay timeout)%Z) opened in
  let e := watch_run checkFn timeoutMsg opened deadline t0 (schedule t0 (ws_events script)) in
  modify (set_now (we_time e)) ;;
  modify (λ w, foldl (λ w ex, add_unhandled ex w) w (we_uncaught e)) ;;
  (match we_out e with
   | Ok _ => debug [JStr "finished waiting for "; JStr path]
   | _ => mret tt
   end) ;;
  lift (we_out e).

Definition secret_check (secretName : string) (_type _apiObj watchObj : jsval) : result bool :=
  name ← getpath watchObj ["object"; "metadata"; "name"];
  includes_call name secretName.

Definition waitForSecret (secretName namespace : string) (timeout : Z) : M X jsval :=
  src ← get_world w_kube;
  waitForK8sObject src ("/api/v1/namespaces/" +:+ namespace +:+ "/secrets") (JObj [])
    (secret_check secretName) timeout
    ("Waiting for " +:+ secretName +:+ " Secret timeout (" +:+ Z_to_string timeout +:+ " ms)").

End watch.

(** * What a watch promises *)

Section contract.
Variable checkFn : jsval → jsval → jsval → result bool.

(** The event satisfies the check and carries an object. *)
Definition matches (e : event) (v : jsval) : Prop :=
  checkFn (ev_type e) (ev_api e) (ev_obj e) = Ok true ∧ getp (ev_obj e) "object" = Ok v.

(** The contract of a watch that was opened: the object of the first matching event if one comes
    before the deadline, else the timeout error at the deadline. *)
Definition watch_contract (msg : string) (deadline : Z) (es : list event) (r : watch_end) : Prop :=
  (∃ l e l' v, es = l ++ e :: l' ∧ matches e v ∧ (ev_time e < deadline)%Z ∧
     (∀ e' v', e' ∈ l → ¬ matches e' v') ∧ we_out r = Ok v ∧ we_time r = ev_time e) ∨
  ((∀ e v, e ∈ es → matches e v → (deadline ≤ ev_time e)%Z) ∧
     we_out r = Throw (mkError msg) ∧ we_time r = deadline ∧ we_aborted r = true).

(** Event times never decrease. *)
Fixpoint ordered (t : Z) (es : list event) : Prop :=
  match es with
  | [] => True
  | e :: r => (t ≤ ev_time e)%Z ∧ ordered (ev_time e) r
  end.

Lemma ordered_le t es e : ordered t es → e ∈ es → (t ≤ ev_time e)%Z.
Proof.
  revert t. induction es as [|a es IH]; intros t Ho Hin; [by apply elem_of_nil in Hin|].
  destruct Ho as [Ht Ho]. apply elem_of_cons in Hin as [->|Hin]; [done|].
  specialize (IH _ Ho Hin). lia.
Qed.

Lemma ordered_schedule t es : ordered t (schedule t es).
Proof.
  revert t. induction es as [|[d [[ty api] o]] es IH]; intros t; simpl; [done|].
  split; [lia|apply IH].
Qed.

(** Events with an accepted check always carry an object: what the watch API documents. *)
Definition carries_object (es : list event) : Prop :=
  ∀ e, e ∈ es → checkFn (ev_type e) (ev_api e) (ev_obj e) = Ok true → nullish (ev_obj e) = false.

Lemma watch_run_contract msg opened deadline now es :
  ordered now es → carries_object es →
  watch_contract msg deadline es (watch_run checkFn msg opened (Some deadline) now es).
Proof.
  revert now. induction es as [|e es IH]; intros now Ho Hc; cbn [watch_run].
  { right. split_and!; try done. by intros e v Hin%elem_of_nil. }
  destruct Ho as [Hle Ho]. cbn [expired]. destruct (Z.leb_spec deadline (ev_time e)) as [Hd|Hd].
  { right. split_and!; try done. intros e' v [->|Hin]%elem_of_cons _; [done|].
    pose proof (ordered_le _ _ _ Ho Hin). lia. }
  assert (carries_object es) as Hc' by (intros e' Hin; apply Hc; by right).
  assert ((∀ v, ¬ matches e v) → ∀ r, watch_contract msg deadline es r →
          watch_contract msg deadline (e :: es) r) as Hskip.
  { intros Hno r [(l & e' & l' & v & -> & Hm & ? & Hl & Hr)|(Hall & Hr)]; [left|right].
    - exists (e :: l), e', l', v. split_and!; try done; try apply Hr.
      intros e'' v'' [->|Hin]%elem_of_cons; [apply Hno|by apply Hl].
    - split; [|done]. intros e' v [->|Hin]%elem_of_cons Hm; [by destruct (Hno v)|by eapply Hall]. }
  destruct (checkFn _ _ _) as [[]|ex|] eqn:Ec.
  - rewrite getp_Ok by (apply Hc; [by left|done]). left.
    exists [], e, es, (default JUndef (own (ev_obj e) "object")). split_and!; try done.
    + split; [done|]. apply getp_Ok. apply Hc; [by left|done].
    + by intros e' v' Hin%elem_of_nil.
  - apply Hskip; [intros v [? _]; congruence|]. by apply IH.
  - change (watch_contract msg deadline (e :: es)
      (watch_run checkFn msg opened (Some deadline) (ev_time e) es)).
    apply Hskip; [intros v [? _]; congruence|]. by apply IH.
  - apply Hskip; [intros v [? _]; congruence|]. by apply IH.
Qed.

(** A watch whose request was rejected has no timer. *)
Lemma watch_run_rejected msg now es :
  (∀ e v, e ∈ es → ¬ matches e v) → we_out (watch_run checkFn msg None None now es) = Hang.
Proof.
  revert now. induction es as [|e es IH]; intros now Hno; [done|]. cbn [watch_run expired is_open].
  assert (∀ t, we_out (watch_run checkFn msg None None t es) = Hang) as IH'.
  { intros t. apply IH. intros e' v Hin. apply Hno. by right. }
  destruct (checkFn _ _ _) as [[]|ex|] eqn:Ec; simpl; auto.
  destruct (getp _ _) as [v|ex|] eqn:Eg; simpl; auto.
  destruct (Hno e v); [by left|done].
Qed.

End contract.

Section theorems.
Context {X : Type} `{Services X}.

Lemma waitForK8sObject_run src path query checkFn timeout msg (w : world X) script x :
  watch_of src path query (w_ext w) = (script, x) →
  let opened := match ws_open script with inr d => Some (w_now w + Z.of_N d)%Z | inl _ => None end in
  let e := watch_run checkFn msg opened (option_map (λ o, (o + timer_delay timeout)%Z) opened)
             (w_now w) (schedule (w_now w) (ws_events script)) in
  let run := waitForK8sObject src path query checkFn timeout msg w in
  run.1 = we_out e ∧ w_now run.2 = we_time e.
Proof.
  intros Hw opened e. cbv zeta. unfold waitForK8sObject. autorewrite with run.
  rewrite (bind_Ok _ _ _ script (set_ext x (after_debug [JStr "waiting for"; JStr path] w)))
    by (autorewrite with frame; by rewrite Hw).
  rewrite now_debug. fold opened. fold e.
  assert (∀ l (u : world X), w_now (foldl (λ u ex, add_unhandled ex u) u l) = w_now u) as Hnow.
  { intros l. induction l as [|a l IH]; intros u; simpl; [done|]. by rewrite IH. }
  destruct (ws_open script); autorewrite with run;
    destruct (we_out e) eqn:Eo; autorewrite with run; simpl; autorewrite with frame;
    rewrite Hnow; done.
Qed.

(** An accepted secret event has an object, since the check reads its name. *)
Lemma secret_carries_object name es : carries_object (secret_check name) es.
Proof.
  intros e _ Hc. unfold secret_check in Hc. apply result_bind_Ok in Hc as (n & Hn & _).
  apply result_bind_Ok in Hn as (o & Ho & _). unfold getp in Ho. by destruct (nullish (ev_obj e)).
Qed.

(** Once its watch is open, [waitForSecret] settles: it resolves with the object of the first
    event before the deadline whose object's name contains the secret name, at the time of that
    event, and otherwise aborts the request and rejects with the timeout message exactly when the
    timer expires. *)
Theorem waitForSecret_contract name ns timeout (w : world X) d es x :
  watch_of (w_kube w) ("/api/v1/namespaces/" +:+ ns +:+ "/secrets") (JObj []) (w_ext w)
    = (WatchScript (inr d) es, x) →
  let msg := "Waiting for " +:+ name +:+ " Secret timeout (" +:+ Z_to_string timeout +:+ " ms)" in
  let run := waitForSecret name ns timeout w in
  ∃ e, watch_contract (secret_check name) msg (w_now w + Z.of_N d + timer_delay timeout)
         (schedule (w_now w) es) e ∧
    run.1 = we_out e ∧ w_now run.2 = we_time e.
Proof.
  intros Hw. cbv zeta. eexists. split; [|exact (waitForK8sObject_run _ _ _ _ timeout _ _ _ _ Hw)].
  apply watch_run_contract; [apply ordered_schedule|apply secret_carries_object].
Qed.

(** When the watch request itself is rejected no timer is ever armed: without a matching event
    the promise of [waitForK8sObject] stays pending for ever, whatever the timeout. *)
Theorem waitForK8sObject_rejected src path query checkFn timeout msg (w : world X) ex es x :
  watch_of src path query (w_ext w) = (WatchScript (inl ex) es, x) →
  (∀ e v, e ∈ schedule (w_now w) es → ¬ matches checkFn e v) →
  (waitForK8sObject src path query checkFn timeout msg w).1 = Hang.
Proof.
  intros Hw Hno. rewrite (proj1 (waitForK8sObject_run _ _ _ _ timeout _ _ _ _ Hw)).
  by apply watch_run_rejected.
Qed.

End theorems.

(** A cluster that sends another secret after 10 ms and the awaited one after 30 ms. *)
Definition named_event (d : N) (name : string) : N * (jsval * jsval * jsval) :=
  (d, (JStr "ADDED", JUndef, JObj [("object", JObj [("metadata", JObj [("name", JStr name)])])])).

Definition secret_events : list (N * (jsval * jsval * jsval)) :=
  [named_event 10 "other"; named_event 20 "sap-btp-manager"].

Definition watching (s : watch_script) : world script := start [] (Script [] [] [s]).

Lemma waitForSecret_contract_witness :
  ∃ e, watch_contract (secret_check "sap-btp-manager")
         "Waiting for sap-btp-manager Secret timeout (70000 ms)" (0 + 5 + 70000)
         (schedule 0 secret_events) e ∧
    (waitForSecret "sap-btp-manager" "kyma-system" 70000 (watching (WatchScript (inr 5%N) secret_events))).1 = we_out e ∧
    w_now (waitForSecret "sap-btp-manager" "kyma-system" 70000
             (watching (WatchScript (inr 5%N) secret_events))).2 = we_time e.
Proof.
  exact (waitForSecret_contract "sap-btp-manager" "kyma-system" 70000
           (watching (WatchScript (inr 5%N) secret_events)) 5 secret_events (Script [] [] []) eq_refl).
Defined.

Lemma waitForK8sObject_rejected_witness :
  (waitForK8sObject KDefault "/p" (JObj []) (secret_check "s") 1000 "timeout"
     (watching (WatchScript (inl no_reply) []))).1 = Hang.
Proof.
  apply (waitForK8sObject_rejected KDefault "/p" (JObj []) (secret_check "s") 1000 "timeout"
           (watching (WatchScript (inl no_reply) [])) no_reply [] (Script [] [] [])).
  - reflexivity.
  - intros e v Hin. by apply elem_of_nil in Hin.
Defined.
