(* ===== verification/Utils.v ===== *)
(** The Kubernetes part of utils/index.js: client initialisation, applying, deleting and
    watching objects, secrets and cluster-admin bindings. *)

From S2P Require Import Prelude JsValue Json Buffer Effects Script Chai UtilsCore Timers.

Section utils.
Context {X : Type} `{Services X} `{Chai}.

(** * Client initialisation *)

Definition initializeK8sClient (opts : jsval) : M X unit :=
  let opts := if truthy opts then opts else JObj [] in
  try_catch
    (console_log [JStr "Trying to initialize a K8S client"] ;;
     path ← lift (getp opts "kubeconfigPath");
     cfg ← lift (getp opts "kubeconfig");
     src ← (if truthy path then
              console_log [JStr "Path initialization"] ;; mret (KFile (to_string path))
            else if truthy cfg then
              console_log [JStr "Kubeconfig initialization"] ;; mret (KString (to_string cfg))
            else console_log [JStr "Default initialization"] ;; mret KDefault);
     invoke (CKubeLoad src) ;;
     console_log [JStr "Clients creation"] ;;
     invoke (CKubeClient src "KubernetesObjectApi") ;;
     modify (set_kube src) ;;
     console_log [JStr "Making Api client - Apps"] ;;
     invoke (CKubeClient src "AppsV1Api") ;;
     console_log [JStr "Making Api client - Core"] ;;
     invoke (CKubeClient src "CoreV1Api") ;;
     console_log [JStr "Making Api client - Auth"] ;;
     invoke (CKubeClient src "RbacAuthorizationV1Api") ;;
     console_log [JStr "Making Api client - Logs"] ;;
     console_log [JStr "Making Api client - Watch"])
    (λ err, m ← lift (getp err "message"); console_log [m]).

(** The calls made through the module's [k8sDynamicApi]. *)
Definition dyn_request (path : string) (rest : list (string * jsval)) : M X jsval :=
  src ← get_world w_kube;
  invoke (CKubeReq src (JObj (("url", JStr (basePath src +:+ path)) :: rest))).

Definition dyn_object (verb : string) (obj : jsval) : M X jsval :=
  src ← get_world w_kube; invoke (CKubeObj src verb obj).

(** [for (const x of v)]: the elements of an iterable. *)
Definition iterate (v : jsval) : result (list jsval) :=
  match v with
  | JArr l => Ok l
  | JStr s => Ok (string_chars s)
  | _ => Throw (typeError (to_string v +:+ " is not iterable"))
  end.

(** * Ignoring 404 *)

(** The condition of [ignore404]. *)
Definition is_404 (e : jsval) : result bool :=
  sc ← getp e "statusCode";
  if truthy sc && strict_eq sc (JInt 404) then mret true
  else
    resp ← getp e "response";
    if truthy resp then
      rsc ← getp resp "statusCode";
      mret (truthy rsc && strict_eq rsc (JInt 404))
    else mret false.

Definition ignore404 (e : jsval) : M X unit :=
  b ← lift (is_404 e);
  if (b : bool) then debug [JStr "Warning: Ignoring NotFound error"] else throw e.

(** * Secrets *)

Definition getSecret (name namespace : string) : M X jsval :=
  let path := "/api/v1/namespaces/" +:+ namespace +:+ "/secrets/" +:+ name in
  response ← dyn_request path [];
  body ← lift (getp response "body");
  lift (parse body).

(** [Object.entries(v)]. *)
Definition entries (v : jsval) : result (list (string * jsval)) :=
  match v with
  | JUndef | JNull => Throw (typeError "Cannot convert undefined or null to object")
  | JObj fs | JErr _ _ fs => Ok fs
  | JArr l => Ok (indexed l)
  | JStr s => Ok (indexed (string_chars s))
  | _ => Ok []
  end.

(** [Buffer.from(value, 'base64').toString('ascii')]. *)
Definition decode_value (v : jsval) : result jsval :=
  match v with
  | JStr s => Ok (JStr (ascii_decode (b64_decode s)))
  | _ => Throw (typeError "The first argument must be of type string or an instance of Buffer")
  end.

(** [Object.fromEntries(Object.entries(encodedData).map(decode))]. *)
Definition decode_data (data : jsval) : result jsval :=
  es ← entries data;
  ds ← mapM (λ kv, v ← decode_value kv.2; mret (kv.1, v)) es;
  mret (JObj (foldl (λ acc kv, oset acc kv.1 kv.2) [] ds)).

Definition getSecretData (name namespace : string) : M X jsval :=
  try_catch
    (secret ← getSecret name namespace;
     encodedData ← lift (getp secret "data");
     lift (decode_data encodedData))
    (λ e, console_log [JStr "Error:"; e] ;; throw e).

(** * Deleting *)

Definition merge_patch : jsval :=
  JObj [("headers", JObj [("Content-type", JStr "application/merge-patch+json")])].

(** [a || b] on values. *)
Definition js_or (a b : jsval) : jsval := if truthy a then a else b.

Definition deleteK8sResource (o : jsval) (path : string) (keepFinalizer : bool) : M X unit :=
  meta ← lift (getp o "metadata");
  fins ← lift (getp meta "finalizers");
  len ← (if truthy fins then lift (getp fins "length") else mret JUndef);
  (if truthy fins && truthy len && negb keepFinalizer then
     kind ← lift (getp o "kind");
     apiVersion ← lift (getp o "apiVersion");
     name ← lift (getp meta "name");
     ns ← lift (getp meta "namespace");
     let obj := JObj [("kind", js_or kind (JStr "Secret"));
                      ("apiVersion", js_or apiVersion (JStr "v1"));
                      ("metadata", JObj [("name", name); ("namespace", ns); ("finalizers", JArr [])])] in
     debug [JStr "Removing finalizers from"; obj] ;;
     try_catch (dyn_object "patch" obj ;; mret tt) ignore404
   else mret tt) ;;
  name ← lift (getp meta "name");
  try_catch
    (selfLink ← lift (getp meta "selfLink");
     objectPath ← (if truthy selfLink then
                     debug [JStr "using selfLink for deleting object"] ;; mret (to_string selfLink)
                   else mret (path +:+ "/" +:+ to_string name));
     base ← get_world (λ w, basePath (w_kube w));
     debug [JStr "Deleting resource: "; JStr (base +:+ objectPath)] ;;
     dyn_request objectPath [("method", JStr "DELETE")] ;; mret tt)
    ignore404 ;;
  ns ← lift (getp meta "namespace");
  debug [JStr "Deleted resource:"; name; JStr "namespace:"; ns].

(** The body of the retry loop. *)
Definition delete_round (path : string) (query : jsval) (keepFinalizer : bool) : M X unit :=
  response ← dyn_request path [("qs", query)];
  text ← lift (getp response "body");
  body ← lift (parse text);
  items ← lift (getp body "items");
  len ← (if truthy items then lift (getp items "length") else mret JUndef);
  if truthy items && truthy len then
    l ← lift (iterate items);
    for_each (λ o, deleteK8sResource o path keepFinalizer) l
  else if negb (truthy items) then deleteK8sResource body path keepFinalizer
  else mret tt.

(** [while (i < retries) { if (i++) await sleep(interval); ... }], from iteration [i]. *)
Fixpoint delete_rounds (n i : nat) (path : string) (query : jsval) (interval : Z)
    (keepFinalizer : bool) : M X unit :=
  match n with
  | O => mret tt
  | S n' =>
      (if (0 <? i)%nat then sleep interval else mret tt) ;;
      delete_round path query keepFinalizer ;;
      delete_rounds n' (S i) path query interval keepFinalizer
  end.

Definition deleteAllK8sResources (path : string) (query : jsval) (retries : nat) (interval : Z)
    (keepFinalizer : bool) : M X unit :=
  try_catch (delete_rounds retries 0 path query interval keepFinalizer)
    (λ e, debug [JStr "Error during delete "; JStr path; JStr (String.substring 0 1000 (to_string e))] ;;
          debug [e]).

(** One object of [k8sDelete]; [namespace] is [""] when the argument is left out. *)
Definition k8sDelete_one (namespace : string) (res : jsval) : M X unit :=
  res ← (if String.eqb namespace "" then mret res
         else meta ← lift (getp res "metadata");
              meta' ← lift (setp_sloppy meta "namespace" (JStr namespace));
              lift (setp_sloppy res "metadata" meta'));
  meta ← lift (getp res "metadata");
  name ← lift (getp meta "name");
  debug [JStr ("Delete " +:+ to_string name)] ;;
  try_catch
    (kind ← lift (getp res "kind");
     selfLink ← lift (getp meta "selfLink");
     (if truthy kind then dyn_object "delete" res ;; mret tt
      else if truthy selfLink then
        dyn_request (to_string selfLink) [("method", JStr "DELETE")] ;; mret tt
      else throw (mkError "Object kind or metadata.selfLink is required to delete the resource")) ;;
     if strict_eq kind (JStr "CustomResourceDefinition") then
       spec ← lift (getp res "spec");
       v ← lift (getp spec "version");
       version ← (if truthy v then mret v
                  else vs ← lift (getp spec "versions"); v0 ← lift (geti vs 0); lift (getp v0 "name"));
       group ← lift (getp spec "group");
       plural ← lift (getpath spec ["names"; "plural"]);
       deleteAllK8sResources
         ("/apis/" +:+ to_string group +:+ "/" +:+ to_string version +:+ "/" +:+ to_string plural)
         (JObj []) 2 1000 false
     else mret tt)
    ignore404.

Definition k8sDelete (listOfSpecs : list jsval) (namespace : string) : M X unit :=
  for_each (k8sDelete_one namespace) listOfSpecs.

(** * Applying *)

(** [!resource || !resource.kind || !resource.metadata.name]. *)
Definition invalid_resource (resource : jsval) : result bool :=
  if negb (truthy resource) then mret true
  else
    kind ← getp resource "kind";
    if negb (truthy kind) then mret true
    else name ← getpath resource ["metadata"; "name"]; mret (negb (truthy name)).

(** The defaulted namespace and the labels of a Namespace object. *)
Definition prepare_resource (resource : jsval) (namespace : jsval) : result jsval :=
  meta ← getp resource "metadata";
  ns ← getp meta "namespace";
  meta1 ← (if truthy ns then mret meta else setp_sloppy meta "namespace" namespace);
  kind ← getp resource "kind";
  meta2 ← (if loose_eq_str kind "Namespace"
           then setp_sloppy meta1 "labels" (JObj [("istio-injection", JStr "enabled")]) else mret meta1);
  setp_sloppy resource "metadata" meta2.

(** [e.body && e.body.reason === 'NotFound']. *)
Definition is_not_found (e : jsval) : result bool :=
  body ← getp e "body";
  if truthy body then reason ← getp body "reason"; mret (strict_eq reason (JStr "NotFound"))
  else mret false.

Definition k8sApply_one (namespace : jsval) (resource : jsval) : M X unit :=
  bad ← lift (invalid_resource resource);
  if (bad : bool) then debug [JStr "Skipping invalid resource:"; resource]
  else
    resource ← lift (prepare_resource resource namespace);
    kind ← lift (getp resource "kind");
    name ← lift (getpath resource ["metadata"; "name"]);
    try_catch
      (dyn_object "patch" resource ;; debug [kind; name; JStr "reconfigured"])
      (λ e,
        missing ← lift (is_not_found e);
        if (missing : bool) then
          try_catch
            (dyn_object "create" resource ;; debug [kind; name; JStr "created"])
            (λ createError,
              debug [kind; name; JStr "failed to create"] ;;
              debug [stringify "    " createError] ;;
              throw createError)
        else throw e).

Definition k8sApply (resources : list jsval) (namespace : jsval) : M X unit :=
  for_each (k8sApply_one namespace) resources.

(** * Cluster-admin bindings *)

Record admin_binding := AdminBinding {
  b_name : jsval; b_role : jsval; b_users : list jsval; b_groups : list jsval
}.

(** [v.filter(...)]: a method of arrays only. *)
Definition as_array (v : jsval) (what : string) : result (list jsval) :=
  match v with
  | JArr l => Ok l
  | JUndef | JNull => Throw (cannot_read v what)
  | _ => Throw (typeError (what +:+ " is not a function"))
  end.

(** [subjects.filter((sub) => sub.kind === kind).map((sub) => sub.name)]. *)
Definition subject_names (kind : string) (subjects : list jsval) : result (list jsval) :=
  ks ← mapM (λ s, k ← getp s "kind"; mret (strict_eq k (JStr kind), s)) subjects;
  mapM (λ s, getp s "name") (map snd (List.filter fst ks)).

Definition to_binding (crb : jsval) : result admin_binding :=
  name ← getpath crb ["metadata"; "name"];
  role ← getpath crb ["roleRef"; "name"];
  subjects ← getp crb "subjects";
  us ← as_array subjects "filter";
  users ← subject_names "User" us;
  groups ← subject_names "Group" us;
  mret (AdminBinding name role users groups).

(** [adminRoleBindings.filter(roleRef.name === 'cluster-admin').map(...)]. *)
Definition admin_bindings (items : list jsval) : result (list admin_binding) :=
  rs ← mapM (λ b, r ← getpath b ["roleRef"; "name"]; mret (strict_eq r (JStr "cluster-admin"), b)) items;
  mapM to_binding (map snd (List.filter fst rs)).

Definition getKymaAdminBindings : M X (list admin_binding) :=
  src ← get_world w_kube;
  resp ← invoke (CKubeList src);
  body ← lift (getp resp "body");
  items ← lift (getp body "items");
  l ← lift (as_array items "filter");
  lift (admin_bindings l).

Definition has_user (targetUser : jsval) (b : admin_binding) : bool :=
  existsb (λ u, strict_eq u targetUser) (b_users b).

Definition findKymaAdminBindingForUser (targetUser : jsval) : M X (option admin_binding) :=
  bs ← getKymaAdminBindings; mret (List.find (has_user targetUser) bs).

(** A binding found by [find], as the value handed to [expect]. *)
Definition binding_val (o : option admin_binding) : jsval :=
  match o with
  | Some b => JObj [("name", b_name b); ("role", b_role b);
                    ("users", JArr (b_users b)); ("groups", JArr (b_groups b))]
  | None => JUndef
  end.

Definition ensureKymaAdminBindingExistsForUser (targetUser : jsval) : M X unit :=
  binding ← findKymaAdminBindingForUser targetUser;
  expect (not_undefined (binding_val binding)) ;;
  match binding with
  | Some b => expect (includes_value (b_users b) targetUser)
  | None => throw (cannot_read JUndef "users")
  end.

Definition ensureKymaAdminBindingDoesNotExistsForUser (targetUser : jsval) : M X unit :=
  binding ← findKymaAdminBindingForUser targetUser;
  expect (is_undefined (binding_val binding)).

(** * Lemmas *)

Lemma is_404_nohang e : nohang (is_404 e).
Proof. unfold is_404. walk_nohang. Qed.

Lemma ignore404_settles e : settles (ignore404 e).
Proof. unfold ignore404. walk_settles. apply is_404_nohang. Qed.

Lemma iterate_nohang v : nohang (iterate v).
Proof. by destruct v. Qed.

Lemma is_not_found_nohang e : nohang (is_not_found e).
Proof. unfold is_not_found. walk_nohang. Qed.

(** A prepared resource still has the kind and the name that made it valid. *)
Lemma prepare_resource_shape resource namespace resource' :
  invalid_resource resource = Ok false → prepare_resource resource namespace = Ok resource' →
  ∃ kind name, getp resource' "kind" = Ok kind ∧ getpath resource' ["metadata"; "name"] = Ok name.
Proof.
  unfold invalid_resource, prepare_resource. intros Hv Hp.
  destruct (truthy resource) eqn:Ht; [|done]. simpl in Hv.
  apply result_bind_Ok in Hp as (meta & Hm & Hp). apply result_bind_Ok in Hp as (ns & Hns & Hp).
  apply result_bind_Ok in Hp as (meta1 & Hm1 & Hp). apply result_bind_Ok in Hp as (kind & Hk & Hp).
  apply result_bind_Ok in Hp as (meta2 & Hm2 & Hp).
  rewrite Hk in Hv. simpl in Hv. destruct (truthy kind) eqn:Htk; [|done]. simpl in Hv.
  assert (∀ v k x v', setp_sloppy v k x = Ok v' → nullish v' = false) as Hset.
  { intros [] k x v' E; simpl in E; simplify_eq; done. }
  assert (∀ v k x, getp v k = Ok x → nullish v = false) as Hget.
  { intros v k x. unfold getp. by destruct (nullish v). }
  assert (nullish meta1 = false) as Hn1.
  { destruct (truthy ns); [injection Hm1 as <-; by eapply Hget|by eapply Hset]. }
  assert (nullish meta2 = false) as Hn2.
  { destruct (loose_eq_str kind "Namespace"); [by eapply Hset|by injection Hm2 as <-]. }
  assert (∃ m, getp resource' "metadata" = Ok m ∧ nullish m = false) as (m & Hgm & Hnm).
  { destruct resource; simpl in Hk, Hp; simplify_eq; try done; simpl;
      unfold getp; simpl; rewrite assoc_oset_eq; eauto. }
  exists (default JUndef (own resource' "kind")), (default JUndef (own m "name")). split.
  - apply getp_Ok. by eapply Hset.
  - cbn [getpath]. rewrite Hgm. simpl. by rewrite getp_Ok.
Qed.

Hint Resolve is_404_nohang iterate_nohang : nohang.
Hint Resolve ignore404_settles : settles.

Lemma dyn_request_settles path rest : settles (dyn_request path rest).
Proof. unfold dyn_request. walk_settles. Qed.

Lemma dyn_object_settles verb obj : settles (dyn_object verb obj).
Proof. unfold dyn_object. walk_settles. Qed.

Hint Resolve dyn_request_settles dyn_object_settles : settles.

Lemma deleteK8sResource_settles o path keep : settles (deleteK8sResource o path keep).
Proof. unfold deleteK8sResource. walk_settles. Qed.

Hint Resolve deleteK8sResource_settles : settles.

Lemma delete_rounds_settles n i path query interval keep :
  settles (delete_rounds n i path query interval keep).
Proof.
  revert i. induction n as [|n IH]; intros i; cbn [delete_rounds]; unfold delete_round, sleep; walk_settles.
Qed.

(** ** Decoding a secret *)

Lemma decode_entries fs ds :
  mapM (λ kv : string * jsval, v ← decode_value kv.2; mret (kv.1, v)) fs = Ok ds →
  map fst ds = map fst fs ∧
  ∀ k v, assoc fs k = Some v → ∃ v', decode_value v = Ok v' ∧ assoc ds k = Some v'.
Proof.
  intros Hm%result_mapM. induction Hm as [|[k0 v0] [k1 v1] fs ds Hkv _ [IHk IHa]]; [done|].
  apply result_bind_Ok in Hkv as (v' & Hv' & Hkv). simpl in Hv', Hkv. injection Hkv as -> ->. simpl.
  split; [by rewrite IHk|]. intros k v. destruct (String.eqb k1 k); [|apply IHa].
  intros [= <-]. eauto.
Qed.

(** Decoding keeps the keys of a secret's data and decodes each of its values. *)
Lemma decode_data_assoc fs d k v :
  NoDup (map fst fs) → decode_data (JObj fs) = Ok d → assoc fs k = Some v →
  ∃ gs v', d = JObj gs ∧ decode_value v = Ok v' ∧ assoc gs k = Some v'.
Proof.
  intros Hnd Hd Hk. unfold decode_data in Hd. cbn [entries mbind result_bind] in Hd.
  apply result_bind_Ok in Hd as (ds & Hds & Hd). injection Hd as <-.
  destruct (decode_entries fs ds Hds) as [Hkeys Ha]. destruct (Ha k v Hk) as (v' & Hv' & Hdk).
  eexists _, v'. split_and!; [reflexivity|done|]. rewrite oset_rebuild; [done|]. simpl. by rewrite Hkeys.
Qed.

(** ** Theorems *)

(** [deleteAllK8sResources] never throws and always settles, whatever the API server
    answers: errors of the listing and of every deletion end in the debug log. *)
Theorem deleteAllK8sResources_total path query retries interval keep :
  total (deleteAllK8sResources path query retries interval keep).
Proof.
  unfold deleteAllK8sResources. apply total_try; [apply delete_rounds_settles|].
  intros e. apply total_bind; [apply debug_total|intros _; apply debug_total].
Qed.

(** The run of [k8sApply_one] on a valid resource. *)
Lemma k8sApply_one_run (namespace resource resource' kind name : jsval) w :
  invalid_resource resource = Ok false →
  prepare_resource resource namespace = Ok resource' →
  getp resource' "kind" = Ok kind → getpath resource' ["metadata"; "name"] = Ok name →
  let patch := CKubeObj (w_kube w) "patch" resource' in
  let create := CKubeObj (w_kube w) "create" resource' in
  let w1 := after patch w in
  k8sApply_one namespace resource w = match answer patch w with
    | Ok _ => (Ok tt, after_debug [kind; name; JStr "reconfigured"] w1)
    | Throw e => match is_not_found e with
        | Ok true => match answer create w1 with
            | Ok _ => (Ok tt, after_debug [kind; name; JStr "created"] (after create w1))
            | Throw e' => (Throw e', after_debug [stringify "    " e']
                            (after_debug [kind; name; JStr "failed to create"] (after create w1)))
            | Hang => (Hang, after create w1) end
        | Ok false => (Throw e, w1)
        | Throw e' => (Throw e', w1)
        | Hang => (Hang, w1) end
    | Hang => (Hang, w1) end.
Proof.
  intros Hv Hp Hk Hn patch create w1. unfold k8sApply_one, dyn_object.
  autorewrite with run. rewrite Hv. autorewrite with run.
  rewrite Hp. autorewrite with run. rewrite Hk, Hn. autorewrite with run. fold patch. fold w1.
  destruct (answer patch w) as [v|e|]; autorewrite with run; try done.
  destruct (is_not_found e) as [[]|e'|]; autorewrite with run; try done.
  change (w_kube w1) with (w_kube w). fold create.
  destruct (answer create w1) as [v|e'|]; autorewrite with run; done.
Qed.

(** Applying one valid resource patches it, with the defaulted namespace; only when the API
    server answers that the object is missing is it created, and the outcome is then that of
    the creation. Any other failure of the patch is rethrown and nothing else is called. *)
Theorem k8sApply_one_spec (namespace resource resource' : jsval) w :
  invalid_resource resource = Ok false →
  prepare_resource resource namespace = Ok resource' →
  let patch := CKubeObj (w_kube w) "patch" resource' in
  let create := CKubeObj (w_kube w) "create" resource' in
  let missing := match answer patch w with Throw e => is_not_found e | _ => Ok false end in
  calls (k8sApply_one namespace resource) w =
    patch :: match missing with Ok true => [create] | _ => [] end ∧
  (k8sApply_one namespace resource w).1 =
    match missing with
    | Ok b => match (if b then answer create (after patch w) else answer patch w) with
              | Ok _ => Ok tt | Throw e => Throw e | Hang => Hang end
    | Throw e => Throw e
    | Hang => Hang
    end.
Proof.
  intros Hv Hp patch create missing.
  destruct (prepare_resource_shape _ _ _ Hv Hp) as (kind & name & Hk & Hn).
  pose proof (k8sApply_one_run _ _ _ _ _ w Hv Hp Hk Hn) as Hrun. cbv zeta in Hrun.
  fold patch in Hrun. fold create in Hrun. subst missing.
  destruct (answer patch w) as [v|e|]; [|destruct (is_not_found e) as [[]|e'|]|];
    [|destruct (answer create (after patch w)) as [v|e'|]| | | |];
    (split; [eapply calls_intro; [exact Hrun|]; by autorewrite with frame; rewrite <- ?app_assoc
            |by rewrite Hrun]).
Qed.

(** *** Cluster-admin bindings *)

(** The selection [l.filter(test)] computed with exceptions. *)
Lemma filter_tagged (test : jsval → result bool) l ks :
  mapM (λ s, b ← test s; mret (b, s)) l = Ok ks →
  ∀ s, s ∈ map snd (List.filter fst ks) ↔ s ∈ l ∧ test s = Ok true.
Proof.
  intros Hm%result_mapM s. induction Hm as [|x y l ks Hy Hl IH]; [simpl; rewrite elem_of_nil; naive_solver|].
  apply result_bind_Ok in Hy as (b & Hb & Hy). injection Hy as <-. simpl. destruct b; simpl.
  - rewrite !elem_of_cons, IH. split; [intros [->|[? ?]]; eauto|intros [[->|?] ?]; eauto].
  - rewrite elem_of_cons, IH. split; [intros [? ?]; eauto|intros [[->|?] ?]; [congruence|eauto]].
Qed.

Lemma subject_names_spec kind subs ns n :
  subject_names kind subs = Ok ns →
  (n ∈ ns ↔ ∃ s, s ∈ subs ∧ getp s "kind" = Ok (JStr kind) ∧ getp s "name" = Ok n).
Proof.
  unfold subject_names. intros Hs. apply result_bind_Ok in Hs as (ks & Hk & Hn).
  pose proof (filter_tagged (λ s, k ← getp s "kind"; mret (strict_eq k (JStr kind))) subs ks) as Hf.
  assert (∀ s, s ∈ map snd (List.filter fst ks) ↔ s ∈ subs ∧ getp s "kind" = Ok (JStr kind)) as Hsel.
  { intros s. rewrite Hf.
    - f_equiv. destruct (getp s "kind") as [k|e|]; simpl; split; try done.
      + intros [= ->%strict_eq_str]. done.
      + intros [= ->]. simpl. unfold mret, result_ret. by rewrite String.eqb_refl.
    - rewrite <- Hk. apply result_mapM_ext. intros x. by destruct (getp x "kind"). }
  apply result_mapM in Hn. split.
  - intros Hin. apply list_elem_of_lookup in Hin as [i Hi].
    destruct (Forall2_lookup_r _ _ _ _ _ Hn Hi) as (s & Hsi & Hg).
    exists s. split_and!; [apply Hsel; by eapply list_elem_of_lookup_2..|done].
  - intros (s & Hin & Hkd & Hg). assert (s ∈ map snd (List.filter fst ks)) as Hs by by apply Hsel.
    apply list_elem_of_lookup in Hs as [i Hi].
    destruct (Forall2_lookup_l _ _ _ _ _ Hn Hi) as (y & Hy & Hg').
    assert (n = y) as -> by congruence. by eapply list_elem_of_lookup_2.
Qed.

(** The cluster role binding [crb] makes [u] a cluster admin. *)
Definition grants_admin (u crb : jsval) : Prop :=
  ∃ subs s n, getpath crb ["roleRef"; "name"] = Ok (JStr "cluster-admin") ∧
    getp crb "subjects" = Ok (JArr subs) ∧ s ∈ subs ∧
    getp s "kind" = Ok (JStr "User") ∧ getp s "name" = Ok n ∧ strict_eq n u = true.

Lemma to_binding_users crb b u : to_binding crb = Ok b →
  getpath crb ["roleRef"; "name"] = Ok (JStr "cluster-admin") →
  (has_user u b = true ↔ grants_admin u crb).
Proof.
  unfold to_binding. intros Hb Hrole.
  repeat (apply result_bind_Ok in Hb as (? & ? & Hb)). injection Hb as <-.
  match goal with Hs : getp crb "subjects" = Ok ?s, Ha : as_array ?s _ = Ok ?l |- _ =>
    destruct s; simpl in Ha; simplify_eq end.
  unfold has_user, grants_admin. cbn [b_users]. rewrite existsb_exists.
  setoid_rewrite <- list_elem_of_In. split.
  - intros (n & Hin & Heq). eapply subject_names_spec in Hin as (s & Hin & Hk & Hg); [|done].
    by eexists _, s, n.
  - intros (subs & s & n & _ & Hsub & Hin & Hk & Hg & Heq).
    match goal with E : getp crb "subjects" = Ok (JArr ?l) |- _ =>
      assert (subs = l) as -> by congruence end.
    exists n. split; [|done]. eapply subject_names_spec; [done|]. by exists s.
Qed.

Lemma admin_bindings_spec l bs u : admin_bindings l = Ok bs →
  ((∃ b, b ∈ bs ∧ has_user u b = true) ↔ ∃ crb, crb ∈ l ∧ grants_admin u crb).
Proof.
  unfold admin_bindings. intros Hb. apply result_bind_Ok in Hb as (rs & Hr & Hb).
  pose proof (filter_tagged
    (λ b, r ← getpath b ["roleRef"; "name"]; mret (strict_eq r (JStr "cluster-admin"))) l rs) as Hf.
  assert (∀ s, s ∈ map snd (List.filter fst rs) ↔
            s ∈ l ∧ getpath s ["roleRef"; "name"] = Ok (JStr "cluster-admin")) as Hsel.
  { intros s. rewrite Hf.
    - f_equiv. destruct (getpath s _) as [k|e|]; simpl; split; try done.
      + intros [= ->%strict_eq_str]. done.
      + intros [= ->]. done.
    - rewrite <- Hr. apply result_mapM_ext. intros x. by destruct (getpath x _). }
  apply result_mapM in Hb. split.
  - intros (b & Hin & Hu). apply list_elem_of_lookup in Hin as [i Hi].
    destruct (Forall2_lookup_r _ _ _ _ _ Hb Hi) as (crb & Hci & Hc).
    apply list_elem_of_lookup_2, Hsel in Hci as [Hin Hrole]. exists crb. split; [done|].
    by eapply to_binding_users.
  - intros (crb & Hin & Hg). assert (crb ∈ map snd (List.filter fst rs)) as Hs.
    { apply Hsel. split; [done|]. by destruct Hg as (? & ? & ? & ? & _). }
    apply list_elem_of_lookup in Hs as [i Hi].
    destruct (Forall2_lookup_l _ _ _ _ _ Hb Hi) as (b & Hy & Hc).
    exists b. split; [by eapply list_elem_of_lookup_2|]. eapply to_binding_users; [done| |done].
    by destruct Hg as (? & ? & ? & ? & _).
Qed.

Lemma find_none {A} (f : A → bool) l : List.find f l = None ↔ ∀ x, x ∈ l → f x = false.
Proof.
  induction l as [|x l IH]; simpl; [by split; [intros _ x Hx%elem_of_nil|]|]. destruct (f x) eqn:E.
  - split; [done|]. intros Hl. rewrite Hl in E by (by left). done.
  - rewrite IH. split; [intros Hl y [->|Hy]%elem_of_cons; auto|].
    intros Hl y Hy. apply Hl. by right.
Qed.

Lemma find_some {A} (f : A → bool) l x : List.find f l = Some x → x ∈ l ∧ f x = true.
Proof. intros E%List.find_some. by rewrite list_elem_of_In. Qed.

(** The listing that the two checks below start from. *)
Definition listed (w : world X) (l : list jsval) : Prop :=
  ∃ resp body, answer (CKubeList (w_kube w)) w = Ok resp ∧
    getp resp "body" = Ok body ∧ getp body "items" = Ok (JArr l).

Lemma find_binding_run w l bs u : listed w l → admin_bindings l = Ok bs →
  findKymaAdminBindingForUser u w =
    (Ok (List.find (has_user u) bs), after (CKubeList (w_kube w)) w).
Proof.
  intros (resp & body & Ha & Hb & Hi) Hbs.
  unfold findKymaAdminBindingForUser, getKymaAdminBindings. autorewrite with run. rewrite Ha.
  autorewrite with run. rewrite Hb. autorewrite with run. rewrite Hi. simpl.
  autorewrite with run. by rewrite Hbs.
Qed.

(** The two cluster-admin checks decide the same question with opposite answers: the first
    passes exactly when some cluster-admin binding of the cluster lists the user as a User
    subject, the second exactly when none does. *)
Theorem admin_binding_checks `{!ChaiLaws H0} w l bs u :
  listed w l → admin_bindings l = Ok bs →
  ((ensureKymaAdminBindingExistsForUser u w).1 = Ok tt ↔ ∃ crb, crb ∈ l ∧ grants_admin u crb) ∧
  ((ensureKymaAdminBindingDoesNotExistsForUser u w).1 = Ok tt ↔
     ¬ ∃ crb, crb ∈ l ∧ grants_admin u crb).
Proof.
  intros Hl Hbs. rewrite <- !(admin_bindings_spec l bs u Hbs).
  unfold ensureKymaAdminBindingExistsForUser, ensureKymaAdminBindingDoesNotExistsForUser.
  rewrite !(bind_Ok _ _ _ _ _ (find_binding_run w l bs u Hl Hbs)).
  destruct (List.find (has_user u) bs) as [b|] eqn:E.
  - apply find_some in E as [Hin Hu].
    assert (not_undefined (binding_val (Some b)) = None) as -> by by apply not_undefined_law.
    assert (includes_value (b_users b) u = None) as Hinc.
    { apply includes_law. unfold has_user in Hu. apply existsb_exists in Hu.
      setoid_rewrite <- list_elem_of_In in Hu. done. }
    destruct (is_undefined (binding_val (Some b))) eqn:Eu; [|by apply is_undefined_law in Eu].
    simpl. autorewrite with run. rewrite Hinc. simpl. split; [by split; eauto|]. split; [done|].
    intros Hno. destruct Hno. eauto.
  - rewrite find_none in E.
    assert (is_undefined (binding_val None) = None) as -> by by apply is_undefined_law.
    destruct (not_undefined (binding_val None)) eqn:Eu; [|by apply not_undefined_law in Eu].
    simpl. autorewrite with run. simpl.
    assert (¬ ∃ b, b ∈ bs ∧ has_user u b = true) as Hno.
    { intros (b & Hin & Hu). rewrite E in Hu by done. done. }
    by split; [split; [|intros ?]|].
Qed.

(** The cluster that answers in [w] lists a cluster-admin binding for the user, or none. *)
Definition admin_in (w : world X) (u : jsval) : Prop :=
  ∃ l crb, listed w l ∧ crb ∈ l ∧ grants_admin u crb.
Definition no_admin_in (w : world X) (u : jsval) : Prop :=
  ∃ l, listed w l ∧ ¬ ∃ crb, crb ∈ l ∧ grants_admin u crb.

(** A search that returned has read a listing. *)
Lemma find_binding_Ok u w o w' : findKymaAdminBindingForUser u w = (Ok o, w') →
  ∃ l bs, listed w l ∧ admin_bindings l = Ok bs.
Proof.
  intros E. apply bind_Ok_inv in E as (bs & w1 & E & _). unfold getKymaAdminBindings in E. rewrite run_bind_get in E.
  apply bind_Ok_inv in E as (resp & w2 & Hr & E). rewrite run_invoke in Hr. injection Hr as Hr <-.
  apply bind_Ok_inv in E as (body & ? & [Hb ->]%lift_Ok_inv & E).
  apply bind_Ok_inv in E as (items & ? & [Hi ->]%lift_Ok_inv & E).
  apply bind_Ok_inv in E as (l & ? & [Hl ->]%lift_Ok_inv & [E _]%lift_Ok_inv).
  exists l, bs. split; [|done]. exists resp, body. split_and!; [done..|]. by destruct items; try done; injection Hl as <-.
Qed.

Lemma admin_exists_Ok `{!ChaiLaws H0} u w w' :
  ensureKymaAdminBindingExistsForUser u w = (Ok tt, w') → admin_in w u.
Proof.
  intros E. pose proof E as Hf. apply bind_Ok_inv in Hf as (o & w1 & Hf & _).
  apply find_binding_Ok in Hf as (l & bs & Hl & Hbs).
  destruct (admin_binding_checks w l bs u Hl Hbs) as [Hx _]. rewrite E in Hx.
  destruct (proj1 Hx eq_refl) as (crb & ? & ?). by exists l, crb.
Qed.

Lemma admin_absent_Ok `{!ChaiLaws H0} u w w' :
  ensureKymaAdminBindingDoesNotExistsForUser u w = (Ok tt, w') → no_admin_in w u.
Proof.
  intros E. pose proof E as Hf. apply bind_Ok_inv in Hf as (o & w1 & Hf & _).
  apply find_binding_Ok in Hf as (l & bs & Hl & Hbs).
  destruct (admin_binding_checks w l bs u Hl Hbs) as [_ Hx]. rewrite E in Hx.
  exists l. split; [done|]. by apply Hx.
Qed.

Lemma admin_exists_appends u : appends (X := X) (ensureKymaAdminBindingExistsForUser u).
Proof. unfold ensureKymaAdminBindingExistsForUser, findKymaAdminBindingForUser, getKymaAdminBindings. walk_appends. Qed.

(** The configuration that [initializeK8sClient] chooses. *)
Definition chosen_config (opts : jsval) : kubesrc :=
  let o := if truthy opts then opts else JObj [] in
  let path := default JUndef (own o "kubeconfigPath") in
  let cfg := default JUndef (own o "kubeconfig") in
  if truthy path then KFile (to_string path)
  else if truthy cfg then KString (to_string cfg) else KDefault.

(** [initializeK8sClient] never throws: when the configuration cannot be loaded, or no client can
    be made from it, the failure is only logged and the module keeps talking to the cluster it
    talked to before. *)
Theorem initializeK8sClient_swallows opts w :
  rejects_with_value X →
  let src := chosen_config opts in
  ∃ w', initializeK8sClient opts w = (Ok tt, w') ∧
    (w_kube w' = src ∨
     w_kube w' = w_kube w ∧ ∃ u e, answer (CKubeLoad src) u = Throw e ∨
       answer (CKubeClient src "KubernetesObjectApi") u = Throw e).
Proof.
  intros Hrej src. unfold initializeK8sClient.
  set (o := if truthy opts then opts else JObj []).
  assert (nullish o = false) as Ho.
  { unfold o. destruct (truthy opts) eqn:E; [by apply truthy_not_nullish|done]. }
  rewrite !(getp_Ok o) by done. autorewrite with run.
  assert (∀ u : world X, ∃ u', (if truthy (default JUndef (own o "kubeconfigPath")) then
      console_log [JStr "Path initialization"] ;; mret (KFile (to_string (default JUndef (own o "kubeconfigPath"))))
    else if truthy (default JUndef (own o "kubeconfig")) then
      console_log [JStr "Kubeconfig initialization"] ;; mret (KString (to_string (default JUndef (own o "kubeconfig"))))
    else console_log [JStr "Default initialization"] ;; mret KDefault) u = (Ok src, u') ∧ w_kube u' = w_kube u) as Hsrc.
  { intros u. unfold src, chosen_config. cbv zeta. fold o.
    destruct (truthy (default JUndef (own o "kubeconfigPath"))); [by eexists|].
    destruct (truthy (default JUndef (own o "kubeconfig"))); by eexists. }
  match goal with |- context [((if ?b then ?x else ?y) ≫= ?k) ?u] =>
    destruct (Hsrc u) as (u' & Hu' & Hk'); rewrite (bind_Ok _ k _ _ _ Hu') end.
  autorewrite with run.
  destruct (answer (CKubeLoad src) u') as [v|e|] eqn:E1; autorewrite with run.
  2: { rewrite getp_Ok by (by eapply answer_value). eexists. split; [done|]. right. split; [done|eauto]. }
  2: { by apply answer_not_hang in E1. }
  match goal with |- context [answer (CKubeClient src "KubernetesObjectApi") ?u] =>
    destruct (answer (CKubeClient src "KubernetesObjectApi") u) as [v2|e|] eqn:E2 end; autorewrite with run.
  2: { rewrite getp_Ok by (by eapply answer_value). eexists. split; [done|]. right. split; [done|eauto]. }
  2: { by apply answer_not_hang in E2. }
  repeat (match goal with |- context [answer (CKubeClient src ?a) ?u] =>
    let E := fresh "E" in destruct (answer (CKubeClient src a) u) as [?|?|] eqn:E; autorewrite with run;
      [|rewrite getp_Ok by (by eapply answer_value); by eexists; split; [|left]
       |by apply answer_not_hang in E] end).
  eexists. split; [done|]. by left.
Qed.

End utils.

(** * Concrete runs *)

Definition demo_secret : jsval :=
  JObj [("kind", JStr "Secret"); ("metadata", JObj [("name", JStr "s")])].
Definition demo_prepared : jsval :=
  JObj [("kind", JStr "Secret"); ("metadata", JObj [("name", JStr "s"); ("namespace", JStr "ns")])].
Definition not_found : jsval := JErr "HttpError" "HTTP request failed" [("body", JObj [("reason", JStr "NotFound")])].

(** The patch reports a missing object and the creation succeeds. *)
Definition missing_object : world script := answering [inl not_found; inr (JObj [])].

Lemma k8sApply_one_spec_witness :
  calls (k8sApply_one (JStr "ns") demo_secret) missing_object =
    [CKubeObj KDefault "patch" demo_prepared; CKubeObj KDefault "create" demo_prepared] ∧
  (k8sApply_one (JStr "ns") demo_secret missing_object).1 = Ok tt.
Proof.
  destruct (k8sApply_one_spec (JStr "ns") demo_secret demo_prepared missing_object eq_refl eq_refl) as [H1 H2].
  split; [exact H1|exact H2].
Defined.

Definition demo_binding (user : string) : jsval :=
  JObj [("metadata", JObj [("name", JStr "b")]); ("roleRef", JObj [("name", JStr "cluster-admin")]);
        ("subjects", JArr [JObj [("kind", JStr "User"); ("name", JStr user)]])].

Definition one_admin : world script :=
  answering [inr (JObj [("body", JObj [("items", JArr [demo_binding "ann"])])])].

Lemma admin_binding_checks_witness :
  ((ensureKymaAdminBindingExistsForUser (JStr "ann") one_admin).1 = Ok tt ↔
     ∃ crb, crb ∈ [demo_binding "ann"] ∧ grants_admin (JStr "ann") crb) ∧
  ((ensureKymaAdminBindingDoesNotExistsForUser (JStr "ann") one_admin).1 = Ok tt ↔
     ¬ ∃ crb, crb ∈ [demo_binding "ann"] ∧ grants_admin (JStr "ann") crb).
Proof.
  apply (admin_binding_checks one_admin [demo_binding "ann"]
           [AdminBinding (JStr "b") (JStr "cluster-admin") [JStr "ann"] []] (JStr "ann")).
  - eexists _, _. split; [reflexivity|]. split; reflexivity.
  - reflexivity.
Defined.

Lemma initializeK8sClient_swallows_witness :
  ∃ w', initializeK8sClient (JObj [("kubeconfig", JStr "cfg")]) steady = (Ok tt, w') ∧
    (w_kube w' = KString "cfg" ∨
     w_kube w' = w_kube steady ∧ ∃ u e, answer (X := unit) (CKubeLoad (KString "cfg")) u = Throw e ∨
       answer (CKubeClient (KString "cfg") "KubernetesObjectApi") u = Throw e).
Proof.
  exact (initializeK8sClient_swallows (JObj [("kubeconfig", JStr "cfg")]) steady steady_rejects).
Defined.
