(* ===== verification/OAuth.v ===== *)
(** lib/oauth.js: OAuth2 client credentials and the cached bearer token. *)

From S2P Require Import Prelude JsValue Json Effects Script UtilsCore.

Record OAuthCredentials := mkOAuthCredentials { clientID : string; clientSecret : string }.

(** An [OAuthToken] object: its identity, under which the process state holds its mutable
    [_token] field, and its two constant fields. *)
Record OAuthToken := mkOAuthToken { tk_id : nat; tk_url : string; tk_credentials : OAuthCredentials }.

Section oauth.
Context {X : Type} `{Services X}.

Definition OAuthCredentials_fromEnv (clientIDEnv clientSecretEnv : string) : M X OAuthCredentials :=
  i ← getEnvOrThrow clientIDEnv;
  s ← getEnvOrThrow clientSecretEnv;
  mret (mkOAuthCredentials i s).

(** [this._token], [undefined] until the first token was obtained. *)
Definition cached (tk : OAuthToken) (w : world X) : jsval := default JUndef (w_tokens w !! tk_id tk).

(** [!this._token || this._token.expires_at < +new Date()]. *)
Definition needs_refresh (token : jsval) (now : Z) : result bool :=
  if truthy token then e ← getp token "expires_at"; mret (js_lt e (JInt now)) else mret true.

(** [+new Date() + expires_in * 1000]. *)
Definition expiry (now : Z) (expires_in : jsval) : jsval :=
  match to_number expires_in with
  | JNum m e => mknum (now * pow10 e + m * 1000)%Z e
  | _ => JNaN
  end.

Definition token_body (scopes : list string) : string :=
  "grant_type=client_credentials&scope=" +:+ join " " scopes.

Definition token_params (c : OAuthCredentials) : jsval :=
  JObj [("auth", JObj [("username", JStr (clientID c)); ("password", JStr (clientSecret c))]);
        ("headers", JObj [("Content-Type", JStr "application/x-www-form-urlencoded")])].

(** The message of a failed HTTP call: status line when there is a response. *)
Definition http_error (msg : string) (err : jsval) : result jsval :=
  resp ← getp err "response";
  if truthy resp then
    st ← getp resp "status";
    tx ← getp resp "statusText";
    mret (mkError (msg +:+ ": " +:+ to_string st +:+ " " +:+ to_string tx))
  else s ← toString_call err; mret (mkError (msg +:+ ": " +:+ s)).

Definition rethrow_http {A} (msg : string) (err : jsval) : M X A :=
  e ← lift (http_error msg err); throw e.

Definition getToken (tk : OAuthToken) (scopes : list string) : M X jsval :=
  token ← get_world (cached tk);
  now ← get_world w_now;
  refresh ← lift (needs_refresh token now);
  (if (refresh : bool) then
     try_catch
       (resp ← invoke (CAxiosPost (tk_url tk) (token_body scopes) (token_params (tk_credentials tk)));
        data ← lift (getp resp "data");
        modify (set_token (tk_id tk) data) ;;
        now' ← get_world w_now;
        expires_in ← lift (getp data "expires_in");
        data' ← lift (setp data "expires_at" (expiry now' expires_in));
        modify (set_token (tk_id tk) data'))
       (rethrow_http ("Error when requesting bearer token from " +:+ tk_url tk))
   else mret tt) ;;
  token' ← get_world (cached tk);
  lift (getp token' "access_token").

(** * Lemmas *)

Lemma http_error_nohang msg err : nohang (http_error msg err).
Proof. unfold http_error. walk_nohang. Qed.

Lemma rethrow_http_settles {A} msg err : settles (A := A) (rethrow_http msg err).
Proof. unfold rethrow_http. walk_settles. apply http_error_nohang. Qed.

Lemma needs_refresh_nohang token now : nohang (needs_refresh token now).
Proof. unfold needs_refresh. walk_nohang. Qed.

Hint Resolve needs_refresh_nohang : nohang.
Hint Resolve rethrow_http_settles : settles.

Lemma getToken_settles tk scopes : settles (getToken tk scopes).
Proof. unfold getToken. walk_settles. Qed.

Lemma http_error_errs msg err : errs (http_error msg err).
Proof. unfold http_error. walk_errs. Qed.

Lemma http_error_is_error msg err e : http_error msg err = Ok e → is_error e = true.
Proof.
  unfold http_error. intros He. apply result_bind_Ok in He as (r & _ & He).
  destruct (truthy r); repeat (apply result_bind_Ok in He as (? & _ & He)); by injection He as <-.
Qed.

Lemma rethrow_http_raises {A} msg err : raises (A := A) (rethrow_http msg err).
Proof.
  intros w e. unfold rethrow_http. autorewrite with run.
  destruct (http_error msg err) as [e'|e'|] eqn:E; simpl; intros [= <-].
  - by eapply http_error_is_error.
  - by eapply http_error_errs.
Qed.

Lemma needs_refresh_errs token now : errs (needs_refresh token now).
Proof. unfold needs_refresh. walk_errs. Qed.

Hint Resolve needs_refresh_errs rethrow_http_raises : raises.

(** [getToken] throws Error objects only. *)
Lemma getToken_raises tk scopes : raises (getToken tk scopes).
Proof. unfold getToken. walk_raises. Qed.

Lemma set_token_appends i v : appends (modify (X := X) (set_token i v)).
Proof. by apply appends_inside. Qed.

Hint Resolve set_token_appends : appends.

Lemma getToken_appends tk scopes : appends (getToken tk scopes).
Proof. unfold getToken, rethrow_http. walk_appends. Qed.

(** A valid cached token is used as it is. *)
Lemma getToken_cached tk scopes w token :
  w_tokens w !! tk_id tk = Some token → needs_refresh token (w_now w) = Ok false →
  getToken tk scopes w = (getp token "access_token", w).
Proof.
  intros Ht Hr. unfold getToken. autorewrite with run. unfold cached. rewrite Ht. simpl. rewrite Hr.
  autorewrite with run. by rewrite Ht.
Qed.

(** A refresh: one POST, then the new token with its expiry time replaces the cached one. *)
Lemma getToken_refreshed tk scopes w resp fs :
  let post := CAxiosPost (tk_url tk) (token_body scopes) (token_params (tk_credentials tk)) in
  needs_refresh (cached tk w) (w_now w) = Ok true →
  answer post w = Ok resp → getp resp "data" = Ok (JObj fs) →
  let token := JObj (oset fs "expires_at"
                       (expiry (w_now (after post w)) (default JUndef (assoc fs "expires_in")))) in
  getToken tk scopes w =
    (Ok (default JUndef (assoc fs "access_token")),
     set_token (tk_id tk) token (set_token (tk_id tk) (JObj fs) (after post w))).
Proof.
  intros post Hr Ha Hd token. unfold getToken. autorewrite with run. rewrite Hr. autorewrite with run.
  fold post. rewrite Ha. autorewrite with run. rewrite Hd. autorewrite with run. simpl.
  autorewrite with run. unfold cached. simpl. rewrite lookup_insert_eq. simpl.
  autorewrite with run. rewrite getp_obj, assoc_oset_ne by done. done.
Qed.

End oauth.

#[export] Hint Resolve getToken_settles rethrow_http_settles : settles.
#[export] Hint Resolve getToken_raises rethrow_http_raises : raises.
#[export] Hint Resolve getToken_appends : appends.
#[export] Hint Resolve http_error_nohang : nohang.

Section theorems.
Context {X : Type} `{Services X}.

(** A cached token that has not expired is returned without any call and without any change
    of state. *)
Theorem getToken_hit tk scopes (w : world X) token :
  w_tokens w !! tk_id tk = Some token → needs_refresh token (w_now w) = Ok false →
  getToken tk scopes w = (getp token "access_token", w).
Proof. apply getToken_cached. Qed.

(** Obtaining a token makes exactly one POST with the joined scopes, returns the new access
    token, and every further [getToken] up to the announced expiry time, for whatever scopes,
    returns the same access token without a call. *)
Theorem getToken_refresh tk scopes (w : world X) resp fs secs :
  let post := CAxiosPost (tk_url tk) (token_body scopes) (token_params (tk_credentials tk)) in
  needs_refresh (cached tk w) (w_now w) = Ok true →
  answer post w = Ok resp → getp resp "data" = Ok (JObj fs) →
  assoc fs "expires_in" = Some (JInt secs) →
  ∃ w', getToken tk scopes w = (Ok (default JUndef (assoc fs "access_token")), w') ∧
    calls (getToken tk scopes) w = [post] ∧
    ∀ scopes' w'', w_tokens w'' = w_tokens w' →
      (w_now w'' ≤ w_now (after post w) + secs * 1000)%Z →
      getToken tk scopes' w'' = (Ok (default JUndef (assoc fs "access_token")), w'').
Proof.
  intros post Hr Ha Hd He.
  pose proof (getToken_refreshed tk scopes w resp fs Hr Ha Hd) as Hrun. cbv zeta in Hrun. fold post in Hrun.
  eexists. split; [exact Hrun|]. split; [eapply calls_intro; [exact Hrun|done]|].
  intros scopes' w'' Ht Hnow. simpl in Ht. erewrite getToken_cached; cycle 1.
  - rewrite Ht. apply lookup_insert_eq.
  - rewrite He. unfold needs_refresh. simpl truthy. cbv iota. rewrite getp_obj, assoc_oset_eq. simpl.
    unfold mret, result_ret, js_lt, expiry, num_lt. simpl. unfold pow10. simpl.
    f_equal. apply Z.ltb_ge. simpl in Hnow. rewrite !Z.mul_1_r. exact Hnow.
  - by rewrite getp_obj, assoc_oset_ne by done.
Qed.

(** When the token request fails, [getToken] throws the error with the response's status
    line (or the error's text when there is no response) and the cached token is unchanged. *)
Theorem getToken_failure tk scopes (w : world X) err e :
  let post := CAxiosPost (tk_url tk) (token_body scopes) (token_params (tk_credentials tk)) in
  needs_refresh (cached tk w) (w_now w) = Ok true →
  answer post w = Throw err →
  http_error ("Error when requesting bearer token from " +:+ tk_url tk) err = Ok e →
  ∃ w', getToken tk scopes w = (Throw e, w') ∧ w_tokens w' = w_tokens w.
Proof.
  intros post Hr Ha He. exists (after post w). split; [|done].
  unfold getToken. autorewrite with run. rewrite Hr. autorewrite with run. fold post. rewrite Ha.
  unfold rethrow_http. autorewrite with run. by rewrite He.
Qed.

(** A token response without [expires_in] is cached with an expiry time that is not a
    number, and from then on that token is returned for ever, whatever the time. *)
Theorem getToken_no_expiry tk scopes (w : world X) resp fs :
  let post := CAxiosPost (tk_url tk) (token_body scopes) (token_params (tk_credentials tk)) in
  needs_refresh (cached tk w) (w_now w) = Ok true →
  answer post w = Ok resp → getp resp "data" = Ok (JObj fs) → assoc fs "expires_in" = None →
  ∃ w', (getToken tk scopes w).2 = w' ∧
    ∀ scopes' w'', w_tokens w'' = w_tokens w' →
      getToken tk scopes' w'' = (Ok (default JUndef (assoc fs "access_token")), w'').
Proof.
  intros post Hr Ha Hd He.
  pose proof (getToken_refreshed tk scopes w resp fs Hr Ha Hd) as Hrun. cbv zeta in Hrun. fold post in Hrun.
  rewrite Hrun. eexists. split; [done|]. intros scopes' w'' Ht. simpl in Ht. erewrite getToken_cached; cycle 1.
  - rewrite Ht. apply lookup_insert_eq.
  - rewrite He. unfold needs_refresh. simpl truthy. cbv iota. by rewrite getp_obj, assoc_oset_eq.
  - by rewrite getp_obj, assoc_oset_ne by done.
Qed.

End theorems.

(** * Concrete runs *)

Definition demo_token : OAuthToken := mkOAuthToken 0 "https://oauth2.example/token" (mkOAuthCredentials "id" "secret").
Definition token_fields : list (string * jsval) :=
  [("access_token", JStr "abc"); ("expires_in", JInt 3600)].
Definition token_server (fs : list (string * jsval)) : world script :=
  answering [inr (JObj [("data", JObj fs)])].

Lemma getToken_refresh_witness :
  ∃ w', getToken demo_token ["broker:write"] (token_server token_fields) = (Ok (JStr "abc"), w') ∧
    calls (getToken demo_token ["broker:write"]) (token_server token_fields) =
      [CAxiosPost "https://oauth2.example/token" "grant_type=client_credentials&scope=broker:write"
         (token_params (mkOAuthCredentials "id" "secret"))] ∧
    ∀ scopes' (w'' : world script), w_tokens w'' = w_tokens w' → (w_now w'' ≤ 5 + 3600 * 1000)%Z →
      getToken demo_token scopes' w'' = (Ok (JStr "abc"), w'').
Proof.
  exact (getToken_refresh demo_token ["broker:write"] (token_server token_fields)
    (JObj [("data", JObj token_fields)]) token_fields 3600 eq_refl eq_refl eq_refl eq_refl).
Defined.

Lemma getToken_no_expiry_witness :
  ∃ w', (getToken demo_token [] (token_server [("access_token", JStr "abc")])).2 = w' ∧
    ∀ scopes' (w'' : world script), w_tokens w'' = w_tokens w' →
      getToken demo_token scopes' w'' = (Ok (JStr "abc"), w'').
Proof.
  exact (getToken_no_expiry demo_token [] (token_server [("access_token", JStr "abc")])
    (JObj [("data", JObj [("access_token", JStr "abc")])]) [("access_token", JStr "abc")]
    eq_refl eq_refl eq_refl eq_refl).
Defined.
