(* ===== verification/KebClient.v ===== *)
(** kyma-environment-broker/client.js: the configuration and the client of the broker API. *)

From S2P Require Import Prelude JsValue Json Effects Script UtilsCore OAuth.

Definition SCOPES : list string := ["broker:write"].
Definition KYMA_SERVICE_ID : string := "47c9dcbf-ff30-448e-ab36-d3bad66ba281".
Definition trialPlanID : string := "7d55d31d-35ae-4438-bf13-6ffdfa107d9f".

(** The optional settings are [undefined] when their variable is not set. *)
Record KEBConfig := mkKEBConfig {
  cfg_host : string;
  cfg_credentials : OAuthCredentials;
  cfg_globalAccountID : string;
  cfg_subaccountID : string;
  cfg_userID : string;
  cfg_planID : string;
  cfg_region : jsval;
  cfg_platformRegion : jsval;
  cfg_tokenUrl : jsval
}.

Record KEBClient := mkKEBClient {
  token : OAuthToken;
  host : string;
  globalAccountID : string;
  subaccountID : string;
  userID : string;
  planID : string;
  region : jsval;
  platformRegion : jsval
}.

(** The constructor; [id] is the identity of the token object it creates. *)
Definition new_KEBClient (id : nat) (config : KEBConfig) : KEBClient :=
  let tokenUrl := if truthy (cfg_tokenUrl config) then to_string (cfg_tokenUrl config)
                  else "https://oauth2." +:+ cfg_host config +:+ "/oauth2/token" in
  mkKEBClient (mkOAuthToken id tokenUrl (cfg_credentials config)) (cfg_host config)
    (cfg_globalAccountID config) (cfg_subaccountID config) (cfg_userID config) (cfg_planID config)
    (cfg_region config) (cfg_platformRegion config).

(** [this.platformRegion && this.platformRegion != '']: the second test adds nothing. *)
Definition getPlatformRegion (keb : KEBClient) : string :=
  if truthy (platformRegion keb) && negb (loose_eq_str (platformRegion keb) "")
  then to_string (platformRegion keb) +:+ "/" else "".

Definition broker_url (keb : KEBClient) (endpoint : string) : string :=
  "https://kyma-env-broker." +:+ host keb +:+ "/oauth/" +:+ getPlatformRegion keb +:+ "v2/" +:+ endpoint.

Definition request_object (url verb : string) (headers payload : jsval) : jsval :=
  JObj [("url", JStr url); ("method", JStr verb); ("headers", headers); ("data", payload)].

(** The request with a bearer token. *)
Definition authorized (keb : KEBClient) (tok payload : jsval) (endpoint verb : string) : jsval :=
  request_object (broker_url keb endpoint) verb
    (JObj [("X-Broker-API-Version", JNum 214 2); ("Authorization", JStr ("Bearer " +:+ to_string tok));
           ("Content-Type", JStr "application/json")]) payload.

(** [buildPayload]; the instance id it takes is not used. *)
Definition buildPayload (keb : KEBClient) (name platformCreds btpOperatorCreds customParams : jsval)
    : result jsval :=
  let context := [("globalaccount_id", JStr (globalAccountID keb));
                  ("subaccount_id", JStr (subaccountID keb)); ("user_id", JStr (userID keb))] in
  let parameters :=
    spread (("name", name) ::
            (if String.eqb (planID keb) trialPlanID then [] else [("region", region keb)])) customParams in
  context' ←
    (if truthy platformCreds && truthy btpOperatorCreds then
       username ← getpath platformCreds ["credentials"; "username"];
       password ← getpath platformCreds ["credentials"; "password"];
       smURL ← getp btpOperatorCreds "smURL";
       mret (oset context "sm_platform_credentials"
         (JObj [("credentials", JObj [("basic", JObj [("username", username); ("password", password)])]);
                ("url", smURL)]))
     else if truthy btpOperatorCreds then
       clientid ← getp btpOperatorCreds "clientid";
       clientsecret ← getp btpOperatorCreds "clientsecret";
       smURL ← getp btpOperatorCreds "smURL";
       url ← getp btpOperatorCreds "url";
       mret (oset context "sm_operator_credentials"
         (JObj [("clientid", clientid); ("clientsecret", clientsecret); ("sm_url", smURL); ("url", url)]))
     else mret context);
  mret (JObj [("service_id", JStr KYMA_SERVICE_ID); ("plan_id", JStr (planID keb));
              ("context", JObj context'); ("parameters", JObj parameters)]).

(** The payload of [updateSKR]. *)
Definition update_payload (keb : KEBClient) (customParams btpOperatorCreds isMigration : jsval)
    : result jsval :=
  let context := [("globalaccount_id", JStr (globalAccountID keb)); ("isMigration", isMigration)] in
  context' ←
    (if truthy btpOperatorCreds then
       clientid ← getp btpOperatorCreds "clientId";
       clientsecret ← getp btpOperatorCreds "clientSecret";
       smURL ← getp btpOperatorCreds "smURL";
       url ← getp btpOperatorCreds "url";
       mret (oset context "sm_operator_credentials"
         (JObj [("clientid", clientid); ("clientsecret", clientsecret); ("sm_url", smURL); ("url", url)]))
     else mret context);
  mret (JObj [("service_id", JStr KYMA_SERVICE_ID); ("context", JObj context');
              ("parameters", JObj (spread [] customParams))]).

(** [s === 403 || s === 401]. *)
Definition refused (status : jsval) : bool :=
  strict_eq status (JInt 403) || strict_eq status (JInt 401).

Section client.
Context {X : Type} `{Services X}.

Definition KEBConfig_fromEnv : M X KEBConfig :=
  h ← getEnvOrThrow "KEB_HOST";
  creds ← OAuthCredentials_fromEnv "KEB_CLIENT_ID" "KEB_CLIENT_SECRET";
  ga ← getEnvOrThrow "KEB_GLOBALACCOUNT_ID";
  sa ← getEnvOrThrow "KEB_SUBACCOUNT_ID";
  user ← getEnvOrThrow "KEB_USER_ID";
  plan ← getEnvOrThrow "KEB_PLAN_ID";
  region ← getenv "KEB_REGION";
  platform ← getenv "KEB_PLATFORM_REGION";
  url ← getenv "KEB_TOKEN_URL";
  mret (mkKEBConfig h creds ga sa user plan (env_val region) (env_val platform) (env_val url)).

Definition buildRequest (keb : KEBClient) (payload : jsval) (endpoint verb : string) : M X jsval :=
  tok ← getToken (token keb) SCOPES;
  mret (authorized keb tok payload endpoint verb).

Definition buildRequestWithoutToken (keb : KEBClient) (payload : jsval) (endpoint verb : string)
    : M X jsval :=
  mret (request_object ("https://kyma-env-broker." +:+ host keb +:+ "/" +:+ endpoint) verb
          (JObj [("X-Broker-API-Version", JNum 214 2); ("Content-Type", JStr "application/json")]) payload).

Definition callKEB (keb : KEBClient) (payload : jsval) (endpoint verb : string) : M X jsval :=
  config ← buildRequest keb payload endpoint verb;
  try_catch
    (resp ← invoke (CAxios config);
     data ← lift (getp resp "data");
     errors ← lift (getp data "errors");
     if truthy errors then throw (mkError (to_string data)) else mret data)
    (rethrow_http "Error calling KEB").

Definition callKEBWithoutToken (keb : KEBClient) (payload : jsval) (endpoint verb : string) : M X unit :=
  config ← buildRequestWithoutToken keb payload endpoint verb;
  try_catch
    (resp ← invoke (CAxios config);
     status ← lift (getp resp "status");
     if negb (refused status) then throw (mkError ("Unexpected status: " +:+ to_string status)) else mret tt)
    (λ err,
      resp ← lift (getp err "response");
      if truthy resp then
        status ← lift (getp resp "status");
        if negb (refused status) then rethrow_http "Error calling KEB" err else mret tt
      else rethrow_http "Error calling KEB" err).

(** [throw new Error(`msg: ${err.toString()}`)]. *)
Definition rewrap {A} (msg : string) (err : jsval) : M X A :=
  s ← lift (toString_call err); throw (mkError (msg +:+ ": " +:+ s)).

Definition instance_endpoint (instanceID : string) : string := "service_instances/" +:+ instanceID.

Definition getSKR (keb : KEBClient) (instanceID : string) : M X jsval :=
  try_catch (callKEB keb (JObj []) (instance_endpoint instanceID) "get")
    (rewrap "error while getting SKR").

Definition getCatalog (keb : KEBClient) : M X jsval :=
  try_catch (callKEB keb (JObj []) "catalog" "get") (rewrap "error while getting catalog").

Definition provisionSKR (keb : KEBClient) (name : jsval) (instanceID : string)
    (platformCreds btpOperatorCreds customParams : jsval) : M X jsval :=
  payload ← lift (buildPayload keb name platformCreds btpOperatorCreds customParams);
  try_catch (callKEB keb payload (instance_endpoint instanceID) "put")
    (rewrap "error while provisioning SKR").

Definition updateSKR (keb : KEBClient) (instanceID : string)
    (customParams btpOperatorCreds isMigration : jsval) : M X jsval :=
  payload ← lift (update_payload keb customParams btpOperatorCreds isMigration);
  try_catch (callKEB keb payload (instance_endpoint instanceID +:+ "?accepts_incomplete=true") "patch")
    (rewrap "error while updating SKR").

Definition getOperation (keb : KEBClient) (instanceID : string) (operationID : jsval) : M X jsval :=
  try_catch
    (callKEB keb (JObj [])
       (instance_endpoint instanceID +:+ "/last_operation?operation=" +:+ to_string operationID) "get")
    (λ err,
      s ← lift (toString_call err);
      debug [JStr s] ;;
      mret (mkError ("error while checking SKR State: " +:+ s))).

Definition deprovisionSKR (keb : KEBClient) (instanceID : string) : M X jsval :=
  try_catch
    (callKEB keb JNull
       (instance_endpoint instanceID +:+ "?service_id=" +:+ KYMA_SERVICE_ID +:+ "&plan_id=" +:+ planID keb)
       "delete")
    (λ err,
      s ← lift (toString_call err);
      mret (mkError ("error while deprovisioning SKR: " +:+ s))).

Definition kubeconfig_path : string := "./shoot-kubeconfig.yaml".

(** Only objects can be streams with a [pipe] method. *)
Definition is_stream (v : jsval) : bool := match v with JObj _ => true | _ => false end.

(** The handler is part of an [async] promise executor: an exception it throws before it reaches
    [reject] leaves the promise pending. Errors of the write stream reject the promise and leave
    the file; its end reads the file back and removes it. *)
Definition downloadKubeconfig (keb : KEBClient) (instanceID : string) : M X jsval :=
  let downloadUrl := "https://kyma-env-broker." +:+ host keb +:+ "/kubeconfig/" +:+ instanceID in
  debug [JStr ("Downloading kubeconfig from: " +:+ downloadUrl)] ;;
  write_file kubeconfig_path "" ;;
  stream ←
    try_catch
      (resp ← invoke (CAxios (JObj [("method", JStr "get"); ("url", JStr downloadUrl);
                                    ("responseType", JStr "stream")]));
       data ← lift (getp resp "data");
       errors ← lift (getp data "errors");
       if truthy errors then throw (mkError (to_string data))
       else if is_stream data then mret data
       else throw (typeError "resp.data.pipe is not a function"))
      (λ err,
        match getp err "data" with
        | Ok d => debug [d] ;; unlink_file kubeconfig_path ;; throw err
        | Throw ex => modify (add_unhandled ex) ;; never
        | Hang => never
        end);
  content ← invoke (CPipe stream kubeconfig_path);
  write_file kubeconfig_path (to_string content) ;;
  unlink_file kubeconfig_path ;;
  mret (JStr (to_string content)).

(** * Lemmas *)

Lemma buildRequest_settles keb p e v : settles (buildRequest keb p e v).
Proof. unfold buildRequest. walk_settles. Qed.

Lemma buildRequest_raises keb p e v : raises (buildRequest keb p e v).
Proof. unfold buildRequest. walk_raises. Qed.

Lemma callKEB_settles keb p e v : settles (callKEB keb p e v).
Proof. unfold callKEB, buildRequest. walk_settles. Qed.

(** [callKEB] throws Error objects only. *)
Lemma callKEB_raises keb p e v : raises (callKEB keb p e v).
Proof. unfold callKEB, buildRequest. walk_raises. Qed.

Lemma callKEB_appends keb p e v : appends (callKEB keb p e v).
Proof. unfold callKEB, buildRequest, rethrow_http. walk_appends. Qed.

Lemma rewrap_settles {A} msg err : settles (A := A) (rewrap msg err).
Proof. unfold rewrap. walk_settles. Qed.

Lemma rewrap_appends {A} msg err : appends (A := A) (rewrap msg err).
Proof. unfold rewrap. walk_appends. Qed.

(** Between [w] and [w'] the client sent this request with a token, and the broker answered it with
    [data], which reports no errors. *)
Definition broker_answered (keb : KEBClient) (payload : jsval) (endpoint verb : string) (w w' : world X)
    (data : jsval) : Prop :=
  ∃ tok wa resp errors, let req := CAxios (authorized keb tok payload endpoint verb) in
    follows w wa ∧ answer req wa = Ok resp ∧ follows (after req wa) w' ∧
    getp resp "data" = Ok data ∧ getp data "errors" = Ok errors ∧ truthy errors = false.

Lemma answered_during keb p e v w0 w w' w1 d :
  follows w0 w → broker_answered keb p e v w w' d → follows w' w1 → broker_answered keb p e v w0 w1 d.
Proof.
  intros H1 (tok & wa & resp & errs & Hf & Ha & Hf' & Hd) H2. exists tok, wa, resp, errs.
  split_and!; try apply Hd; try done; [by etrans..].
Qed.

(** Between [w] and [w'] the client sent this request with a token. *)
Definition requested (keb : KEBClient) (payload : jsval) (endpoint verb : string) (w w' : world X) : Prop :=
  ∃ tok wa, follows w wa ∧ follows (after (CAxios (authorized keb tok payload endpoint verb)) wa) w'.

(** After [w] the token endpoint gave no token. *)
Definition no_token (keb : KEBClient) (w : world X) : Prop :=
  ∃ wa wb x, follows w wa ∧ getToken (token keb) SCOPES wa = (Throw x, wb).

(** The run of [callKEB] once a token is at hand. *)
Lemma callKEB_run keb p endpoint verb w tok w1 :
  getToken (token keb) SCOPES w = (Ok tok, w1) →
  let req := CAxios (authorized keb tok p endpoint verb) in
  callKEB keb p endpoint verb w =
    match answer req w1 with
    | Ok resp =>
        match (data ← getp resp "data"; errors ← getp data "errors"; mret (data, truthy errors)) with
        | Ok (data, true) => rethrow_http "Error calling KEB" (mkError (to_string data)) (after req w1)
        | Ok (data, false) => (Ok data, after req w1)
        | Throw e => rethrow_http "Error calling KEB" e (after req w1)
        | Hang => (Hang, after req w1)
        end
    | Throw err => rethrow_http "Error calling KEB" err (after req w1)
    | Hang => (Hang, after req w1)
    end.
Proof.
  intros Ht req. unfold callKEB, buildRequest.
  rewrite run_bind_bind, (bind_Ok _ _ _ _ _ Ht). autorewrite with run. fold req.
  destruct (answer req w1) as [resp|err|] eqn:Ha; autorewrite with run; [|done..].
  destruct (getp resp "data") as [data|e|]; simpl; autorewrite with run; [|done..].
  destruct (getp data "errors") as [errors|e|]; simpl; autorewrite with run; [|done..].
  by destruct (truthy errors).
Qed.

(** What [callKEB] returns is what the broker answered to its request. *)
Lemma callKEB_answered keb p e v w d w' :
  callKEB keb p e v w = (Ok d, w') → broker_answered keb p e v w w' d.
Proof.
  intros E. unfold callKEB, buildRequest in E. apply bind_Ok_inv in E as (cfg & w1 & Hc & E).
  apply bind_Ok_inv in Hc as (tok & w2 & Ht & Hc). injection Hc as <- <-.
  apply (appends_run _ _ _ _ (getToken_appends _ _)) in Ht.
  apply try_Ok_inv in E as [E|(x & w3 & _ & E)].
  - apply bind_Ok_inv in E as (resp & w3 & Hi & E). rewrite run_invoke in Hi. injection Hi as Ha <-.
    apply bind_Ok_inv in E as (data & ? & [Hd ->]%lift_Ok_inv & E).
    apply bind_Ok_inv in E as (errors & ? & [He ->]%lift_Ok_inv & E).
    destruct (truthy errors) eqn:Et; [done|]. injection E as <- <-.
    by exists tok, w2, resp, errors.
  - unfold rethrow_http in E. apply bind_Ok_inv in E as (? & ? & _ & E). done.
Qed.

(** [callKEB] sends its request whenever it gets a token. *)
Lemma callKEB_requested keb p e v w :
  no_token keb w ∨ requested keb p e v w (callKEB keb p e v w).2.
Proof.
  pose proof (getToken_settles (token keb) SCOPES w) as Hs.
  destruct (getToken (token keb) SCOPES w) as [[tok|x|] w1] eqn:Et; [|left; by exists w, w1, x|done].
  right. exists tok, w1. split; [by eapply appends_run; [apply getToken_appends|]|].
  unfold callKEB, buildRequest. rewrite run_bind_bind, (bind_Ok _ _ _ _ _ Et), run_bind_ret, run_try.
  match goal with |- follows ?a (match (invoke ?c ≫= ?k) w1 with _ => _ end).2 =>
    assert (appends (try_catch (v0 ← mret tt; lift (answer c w1) ≫= k) (rethrow_http "Error calling KEB"))) as Ha end.
  { unfold rethrow_http. walk_appends. }
  specialize (Ha (after (CAxios (authorized keb tok p e v)) w1)). rewrite run_try, run_bind_ret, run_bind_lift in Ha.
  rewrite run_bind_invoke. by destruct (answer _ w1).
Qed.

End client.

#[export] Hint Resolve buildRequest_settles callKEB_settles rewrap_settles : settles.
#[export] Hint Resolve callKEB_raises : raises.
#[export] Hint Resolve callKEB_appends rewrap_appends : appends.

(** * Theorems *)

(** The handler shared by the HTTP calls throws, and leaves the state alone. *)
Lemma rethrow_http_throws {X A} msg err (w : world X) :
  ∃ e, rethrow_http (A := A) msg err w = (Throw e, w) ∧
    ∃ m, e = mkError (msg +:+ ": " +:+ m) ∨ e = typeError m.
Proof.
  unfold rethrow_http, http_error, getp, cannot_read.
  destruct (nullish err) eqn:En; simpl; autorewrite with run; [eauto|].
  destruct (truthy (default JUndef (own err "response"))) eqn:Et; simpl.
  - rewrite (truthy_not_nullish _ Et). simpl. autorewrite with run. eauto.
  - unfold toString_call. rewrite En. simpl. autorewrite with run. eauto.
Qed.

Ltac rethrown :=
  match goal with |- context [@rethrow_http _ ?A ?msg ?err ?w1] =>
    let e := fresh "e" in
    destruct (rethrow_http_throws (A := A) msg err w1) as (e & -> & ?) end.

(** The run of a handler that turns the exception of [m] into a returned Error. *)
Lemma returned_error {X} (m : M X jsval) (h : jsval → M X jsval) (msg : string) w :
  settles m → raises m →
  (∀ e w', is_error e = true → ∃ w'', h e w' = (Ok (mkError (msg +:+ ": " +:+ to_string e)), w'')) →
  ∃ w', try_catch m h w =
    (Ok match (m w).1 with
        | Ok v => v
        | Throw e => mkError (msg +:+ ": " +:+ to_string e)
        | Hang => JUndef end, w').
Proof.
  intros Hs Hr Hh. specialize (Hs w). specialize (Hr w). unfold try_catch.
  destruct (m w) as [[v|e|] w1]; simpl in *; [by exists w1| |done].
  apply Hh. by apply Hr.
Qed.

Section theorems.
Context {X : Type} `{Services X}.

(** The two broker calls that the polling loops make, [getOperation] and [deprovisionSKR],
    never throw and always settle, whatever the token endpoint and the broker answer: they return
    the broker's data, or the failure as an Error object. *)
Theorem broker_failures_returned keb instanceID operationID (w : world X) :
  let get := callKEB keb (JObj [])
    (instance_endpoint instanceID +:+ "/last_operation?operation=" +:+ to_string operationID) "get" in
  let del := callKEB keb JNull (instance_endpoint instanceID +:+ "?service_id=" +:+ KYMA_SERVICE_ID
    +:+ "&plan_id=" +:+ planID keb) "delete" in
  (∃ v w', getOperation keb instanceID operationID w = (Ok v, w') ∧
     ((get w).1 = Ok v ∨
      ∃ e, (get w).1 = Throw e ∧ v = mkError ("error while checking SKR State: " +:+ to_string e))) ∧
  (∃ v w', deprovisionSKR keb instanceID w = (Ok v, w') ∧
     ((del w).1 = Ok v ∨
      ∃ e, (del w).1 = Throw e ∧ v = mkError ("error while deprovisioning SKR: " +:+ to_string e))).
Proof.
  intros get del.
  assert (∀ (m : M X jsval) h msg, settles m → raises m →
    (∀ e w', is_error e = true → ∃ w'', h e w' = (Ok (mkError (msg +:+ ": " +:+ to_string e)), w'')) →
    ∃ v w', try_catch m h w = (Ok v, w') ∧
      ((m w).1 = Ok v ∨ ∃ e, (m w).1 = Throw e ∧ v = mkError (msg +:+ ": " +:+ to_string e))) as Haux.
  { intros m h msg Hs Hr Hh. destruct (returned_error m h msg w Hs Hr Hh) as [w' Hw'].
    eexists _, w'. split; [exact Hw'|]. specialize (Hs w).
    destruct (m w) as [[v|e|] w1]; simpl in *; [by left|right; eauto|done]. }
  split; [apply (Haux get _ "error while checking SKR State")|apply (Haux del _ "error while deprovisioning SKR")];
    try apply callKEB_settles; try apply callKEB_raises;
    intros [| | | | | | | |n msg [|]] w' He; try done; eexists;
    unfold toString_call; cbn [nullish]; autorewrite with run; cbv iota; autorewrite with run; reflexivity.
Qed.

(** A broker call with a valid token makes exactly one request, to the endpoint under the
    platform region and with that bearer token; it returns only data of a successful response
    without [errors], and whatever it throws is an Error object that starts with the text
    [Error calling KEB], except for the language's own TypeError. *)
Theorem callKEB_spec keb p endpoint verb (w : world X) tok :
  getToken (token keb) SCOPES w = (Ok tok, w) →
  let req := CAxios (authorized keb tok p endpoint verb) in
  calls (callKEB keb p endpoint verb) w = [req] ∧
  match (callKEB keb p endpoint verb w).1 with
  | Ok data => ∃ resp errors, answer req w = Ok resp ∧ getp resp "data" = Ok data ∧
      getp data "errors" = Ok errors ∧ truthy errors = false
  | Throw e => ∃ m, e = mkError ("Error calling KEB: " +:+ m) ∨ e = typeError m
  | Hang => False
  end.
Proof.
  intros Ht req. pose proof (callKEB_run keb p endpoint verb w tok w Ht) as Hrun. cbv zeta in Hrun.
  fold req in Hrun.
  assert (∃ r, callKEB keb p endpoint verb w = (r, after req w) ∧
    match r with
    | Ok data => ∃ resp errors, answer req w = Ok resp ∧ getp resp "data" = Ok data ∧
        getp data "errors" = Ok errors ∧ truthy errors = false
    | Throw e => ∃ m, e = mkError ("Error calling KEB: " +:+ m) ∨ e = typeError m
    | Hang => False end) as (r & Hr & Hc).
  { rewrite Hrun. destruct (answer req w) as [resp|err|] eqn:Ha.
    - destruct (getp resp "data") as [data|e|] eqn:Ed; simpl.
      + destruct (getp data "errors") as [errors|e|] eqn:Ee; simpl.
        * destruct (truthy errors) eqn:Et; simpl.
          -- rethrown. eauto.
          -- eexists. split; [done|]. by exists resp, errors.
        * rethrown. eauto.
        * by apply nohang_getp in Ee.
      + rethrown. eauto.
      + by apply nohang_getp in Ed.
    - rethrown. eauto.
    - by apply answer_not_hang in Ha. }
  split; [by eapply calls_intro|]. by rewrite Hr.
Qed.

(** The status a caller of axios sees: of the response, or of the response of the error. *)
Definition seen_status (r : result jsval) : result jsval :=
  match r with
  | Ok resp => getp resp "status"
  | Throw err => resp ← getp err "response"; getp resp "status"
  | Hang => Hang
  end.

(** The request of [callKEBWithoutToken]. *)
Definition open_request (keb : KEBClient) (p : jsval) (endpoint verb : string) : call :=
  CAxios (request_object ("https://kyma-env-broker." +:+ host keb +:+ "/" +:+ endpoint) verb
    (JObj [("X-Broker-API-Version", JNum 214 2); ("Content-Type", JStr "application/json")]) p).

Lemma withoutToken_run keb p endpoint verb (w : world X) :
  let req := open_request keb p endpoint verb in
  ∃ r, callKEBWithoutToken keb p endpoint verb w = (r, after req w) ∧
    (r = Ok tt ↔ ∃ s, seen_status (answer req w) = Ok s ∧ refused s = true).
Proof.
  intros req.
  unfold callKEBWithoutToken, buildRequestWithoutToken. autorewrite with run.
  subst req. unfold open_request. set (req := CAxios _).
  destruct (answer req w) as [resp|err|] eqn:Ha; simpl; autorewrite with run.
  - destruct (getp resp "status") as [s|e|] eqn:Es; simpl; autorewrite with run.
    + destruct (refused s) eqn:Erf; simpl; autorewrite with run; [eexists; split; [done|]; split; eauto|].
      unfold getp. simpl. autorewrite with run. simpl. rethrown.
      eexists. split; [done|]. split; [done|]. intros (s' & [= <-] & ?). congruence.
    + unfold getp in Es. destruct (nullish resp); [|done]. injection Es as <-. simpl. autorewrite with run.
      unfold getp; simpl. autorewrite with run. simpl.
      rethrown.
      eexists. split; [done|]. split; [done|]. by intros (s' & ? & _).
    + by apply nohang_getp in Es.
  - destruct (getp err "response") as [resp|e|] eqn:Er; simpl; autorewrite with run.
    + destruct (truthy resp) eqn:Et.
      * rewrite getp_Ok by by apply truthy_not_nullish. autorewrite with run.
        destruct (refused _) eqn:Erf; simpl; [eexists; split; [done|]; split; eauto|].
        rethrown. eexists. split; [done|]. split; [done|].
        intros (s' & [= <-] & ?). congruence.
      * rethrown. eexists. split; [done|]. split; [done|].
        intros (s' & Hs & Hf). unfold getp in Hs. destruct (nullish resp) eqn:En; [done|].
        injection Hs as <-. destruct resp; simpl in *; try done.
        all: try (destruct (String.eqb _ _)); done.
    + eexists. split; [done|]. split; [done|]. by intros (s' & ? & _).
    + by apply nohang_getp in Er.
  - by apply answer_not_hang in Ha.
Qed.

(** [callKEBWithoutToken] succeeds exactly when the broker refuses the unauthorised request
    with 401 or 403: every other status, and every failure without a response, is thrown. It asks
    for no token. *)
Theorem callKEBWithoutToken_spec keb p endpoint verb (w : world X) :
  let req := open_request keb p endpoint verb in
  calls (callKEBWithoutToken keb p endpoint verb) w = [req] ∧
  ((callKEBWithoutToken keb p endpoint verb w).1 = Ok tt ↔
   ∃ s, seen_status (answer req w) = Ok s ∧ refused s = true).
Proof.
  intros req. destruct (withoutToken_run keb p endpoint verb w) as (r & Hr & Hc).
  split; [by eapply calls_intro|]. by rewrite Hr.
Qed.

(** The parameters of a provisioning request: every custom parameter has the value the caller
    gave it, even [name] and [region]; otherwise the name is the given one, and the configured
    region is sent for every plan but the trial plan. *)
Theorem buildPayload_parameters keb name pc bc cs payload k :
  NoDup (map fst cs) → buildPayload keb name pc bc (JObj cs) = Ok payload →
  ∃ ps, getp payload "parameters" = Ok (JObj ps) ∧
    assoc ps k = match assoc cs k with
                 | Some v => Some v
                 | None => if String.eqb "name" k then Some name
                           else if negb (String.eqb (planID keb) trialPlanID) && String.eqb "region" k
                           then Some (region keb) else None
                 end.
Proof.
  intros Hnd Hp. unfold buildPayload in Hp. apply result_bind_Ok in Hp as (ctx & _ & Hp).
  injection Hp as <-. eexists (spread _ (JObj cs)). split; [reflexivity|]. rewrite assoc_spread by done.
  destruct (assoc cs k); [done|]. cbn [assoc]. destruct (String.eqb "name" k); [done|].
  by destruct (String.eqb (planID keb) trialPlanID).
Qed.

(** A download that succeeds returns the content of the stream and removes the temporary file;
    so does one whose request fails, which throws the error of the request. *)
Theorem downloadKubeconfig_cleans keb instanceID (w : world X) :
  let req := CAxios (JObj [("method", JStr "get");
    ("url", JStr ("https://kyma-env-broker." +:+ host keb +:+ "/kubeconfig/" +:+ instanceID));
    ("responseType", JStr "stream")]) in
  let run := downloadKubeconfig keb instanceID w in
  (∀ v, run.1 = Ok v → w_files run.2 !! kubeconfig_path = None) ∧
  (∀ e, answer req w = Throw e → nullish e = false →
     run.1 = Throw e ∧ w_files run.2 !! kubeconfig_path = None).
Proof.
  intros req run. subst run. unfold downloadKubeconfig, write_file, unlink_file.
  autorewrite with run. fold req.
  set (w1 := set_files _ _).
  assert (answer req w1 = answer req w) as -> by (unfold answer, w1; simpl; by autorewrite with frame).
  split.
  - intros v.
    destruct (answer req w) as [resp|err|]; autorewrite with run; simpl; try done.
    + repeat (case_goal; autorewrite with run; try done); simpl; rewrite ?lookup_delete_eq; done.
    + repeat (case_goal; autorewrite with run; try done).
  - intros e He Hn. rewrite He. rewrite getp_Ok by done. autorewrite with run. simpl.
    by rewrite lookup_delete_eq.
Qed.

End theorems.

(** * Concrete runs *)

Definition demo_keb : KEBClient :=
  new_KEBClient 0 (mkKEBConfig "example.com" (mkOAuthCredentials "id" "secret") "ga" "sa" "user" "plan"
    (JStr "eu-central-1") JUndef JUndef).

(** A process that already holds a token valid until time 10^6. *)
Definition with_token (w : world script) : world script :=
  set_token 0 (JObj [("access_token", JStr "abc"); ("expires_at", JInt 1000000)]) w.

Definition demo_broker : world script :=
  with_token (answering [inr (JObj [("data", JObj [("operation", JStr "op-1")])])]).

Lemma callKEB_spec_witness :
  let req := CAxios (authorized demo_keb (JStr "abc") (JObj []) "catalog" "get") in
  calls (callKEB demo_keb (JObj []) "catalog" "get") demo_broker = [req] ∧
  match (callKEB demo_keb (JObj []) "catalog" "get" demo_broker).1 with
  | Ok data => ∃ resp errors, answer req demo_broker = Ok resp ∧ getp resp "data" = Ok data ∧
      getp data "errors" = Ok errors ∧ truthy errors = false
  | Throw e => ∃ m, e = mkError ("Error calling KEB: " +:+ m) ∨ e = typeError m
  | Hang => False
  end.
Proof. apply (callKEB_spec demo_keb (JObj []) "catalog" "get" demo_broker (JStr "abc")). reflexivity. Defined.

Lemma buildPayload_parameters_witness :
  ∃ payload ps, buildPayload demo_keb (JStr "skr") JNull JNull (JObj [("machineType", JStr "m5")]) = Ok payload ∧
    getp payload "parameters" = Ok (JObj ps) ∧ assoc ps "region" = Some (JStr "eu-central-1").
Proof.
  eexists. destruct (buildPayload_parameters demo_keb (JStr "skr") JNull JNull [("machineType", JStr "m5")] _ "region"
    ltac:(repeat constructor; set_solver) eq_refl) as (ps & H1 & H2).
  exists ps. split; [reflexivity|]. split; [exact H1|exact H2].
Defined.
