(* ===== verification/KcpClient.v ===== *)
(** kcp/client.js: the configuration of the kcp command-line tool and the wrapper that runs it. *)

From S2P Require Import Prelude JsValue Json Effects Script UtilsCore Timers.

(** The fields that only one of the two login methods sets are [undefined] for the other. *)
Record KCPConfig := mkKCPConfig {
  kcp_host : string;
  kcp_issuerURL : string;
  kcp_gardenerNamespace : string;
  kcp_username : string;
  kcp_password : string;
  kcp_clientID : string;
  kcp_clientSecret : jsval;
  kcp_oauthClientID : jsval;
  kcp_oauthSecret : jsval;
  kcp_oauthIssuer : jsval;
  kcp_motherShipApiUrl : string;
  kcp_kubeConfigApiUrl : string
}.

(** A wrapper: the configuration it was built from, and its config file. *)
Record KCPWrapper := mkKCPWrapper { kcp_config : KCPConfig; kcpConfigPath : string }.

(** The field [k] of a query object. *)
Definition field (query : list (string * jsval)) (k : string) : jsval := default JUndef (assoc query k).

(** [if (query.k) args = args.concat(flag, `${query.k}`)]. *)
Definition opt_arg (query : list (string * jsval)) (k flag : string) : list string :=
  if truthy (field query k) then [flag; to_string (field query k)] else [].

(** [if (query.k) args = args.concat(flag)]. *)
Definition opt_flag (query : list (string * jsval)) (k flag : string) : list string :=
  if truthy (field query k) then [flag] else [].

Definition runtimes_args (query : list (string * jsval)) : list string :=
  ["runtimes"; "--output"; "json"] ++
  opt_arg query "account" "--account" ++
  opt_arg query "subaccount" "--subaccount" ++
  opt_arg query "instanceID" "--instance-id" ++
  opt_arg query "runtimeID" "--runtime-id" ++
  opt_arg query "region" "--region" ++
  opt_arg query "shoot" "--shoot" ++
  opt_arg query "state" "--state" ++
  opt_flag query "ops" "--ops" ++
  opt_flag query "gardenerConfig" "--gardener-config".

Definition reconciliations_args (query : list (string * jsval)) : list string :=
  ["reconciliations"; to_string (field query "parameter"); "--output"; "json"] ++
  opt_arg query "runtimeID" "--runtime-id" ++
  opt_arg query "schedulingID" "--scheduling-id".

(** [k: "v"] and [k: v] as a line of the config file. *)
Definition quoted_line (k v : string) : string := k +:+ ": " +:+ dquote +:+ v +:+ dquote +:+ nl.
Definition plain_line (k v : string) : string := k +:+ ": " +:+ v +:+ nl.

(** The content of the config file; [oidc] tells whether [KCP_OIDC_CLIENT_SECRET] is set. *)
Definition config_lines (c : KCPConfig) (oidc : bool) : string :=
  quoted_line "gardener-namespace" (kcp_gardenerNamespace c) +:+
  (if oidc then
     quoted_line "oidc-client-id" (kcp_clientID c) +:+
     plain_line "oidc-client-secret" (to_string (kcp_clientSecret c)) +:+
     plain_line "username" (kcp_username c)
   else
     quoted_line "oauth2-client-id" (to_string (kcp_oauthClientID c)) +:+
     quoted_line "oauth2-client-secret" (to_string (kcp_oauthSecret c)) +:+
     quoted_line "oauth2-issuer-url" (to_string (kcp_oauthIssuer c))) +:+
  quoted_line "keb-api-url" (kcp_host c) +:+
  quoted_line "oidc-issuer-url" (kcp_issuerURL c) +:+
  quoted_line "mothership-api-url" (kcp_motherShipApiUrl c) +:+
  quoted_line "kubeconfig-api-url" (kcp_kubeConfigApiUrl c).

(** [res && res.state && (res.state === 'succeeded' || res.state === 'failed')]. *)
Definition orchestration_done (res : jsval) : result bool :=
  if truthy res then
    state ← getp res "state";
    mret (truthy state && (strict_eq state (JStr "succeeded") || strict_eq state (JStr "failed")))
  else mret false.

(** [v.hasOwnProperty(k)]. *)
Definition has_own (v : jsval) (k : string) : result bool :=
  if nullish v then Throw (cannot_read v "hasOwnProperty")
  else mret (match own v k with Some _ => true | None => false end).

(** The check of [ensureLatestGivenOperationTypeIsInGivenState]. *)
Definition operation_in_state (operationType operationState : string) (res : jsval) : result bool :=
  if truthy res then
    data ← getp res "data";
    len ← getp data "length";
    if js_lt (JInt 0) len then
      d0 ← geti data 0;
      status ← getp d0 "status";
      has ← has_own status operationType;
      if (has : bool) then
        op ← getp status operationType;
        ops ← getp op "data";
        o ← geti ops 0;
        state ← getp o "state";
        mret (strict_eq state (JStr operationState))
      else mret false
    else mret false
  else mret false.

(** [v.slice(Math.max(0, v.length - 3), v.length)]. *)
Definition last_three (v : jsval) : result jsval :=
  match v with
  | JArr l => Ok (JArr (drop (length l - 3) l))
  | JStr s => Ok (JStr (String.substring (String.length s - 3) 3 s))
  | _ => Throw (not_a_function v "slice")
  end.

(** The values [for (const i of v)] visits, for the values [slice] returns. *)
Definition elements (v : jsval) : list jsval :=
  match v with JArr l => l | JStr s => string_chars s | _ => [] end.

Section kcp.
Context {X : Type} `{Services X}.

Definition KCPConfig_fromEnv : M X KCPConfig :=
  host ← getEnvOrThrow "KCP_KEB_API_URL";
  issuerURL ← getEnvOrThrow "KCP_OIDC_ISSUER_URL";
  gardenerNamespace ← getEnvOrThrow "KCP_GARDENER_NAMESPACE";
  username ← getEnvOrThrow "KCP_TECH_USER_LOGIN";
  password ← getEnvOrThrow "KCP_TECH_USER_PASSWORD";
  clientID ← getEnvOrThrow "KCP_OIDC_CLIENT_ID";
  secret ← getenv "KCP_OIDC_CLIENT_SECRET";
  creds ← (if truthy (env_val secret) then
             s ← getEnvOrThrow "KCP_OIDC_CLIENT_SECRET"; mret (JStr s, (JUndef, JUndef, JUndef))
           else
             i ← getEnvOrThrow "KCP_OAUTH2_CLIENT_ID";
             s ← getEnvOrThrow "KCP_OAUTH2_CLIENT_SECRET";
             u ← getEnvOrThrow "KCP_OAUTH2_ISSUER_URL";
             mret (JUndef, (JStr i, JStr s, JStr u)));
  motherShip ← getEnvOrThrow "KCP_MOTHERSHIP_API_URL";
  kubeConfig ← getEnvOrThrow "KCP_KUBECONFIG_API_URL";
  let '(clientSecret, (oauthID, oauthSecret, oauthIssuer)) := creds in
  mret (mkKCPConfig host issuerURL gardenerNamespace username password clientID clientSecret
          oauthID oauthSecret oauthIssuer motherShip kubeConfig).

(** The constructor writes the config file; the stream's [open] event comes before the first
    command can be run. *)
Definition new_KCPWrapper (config : KCPConfig) : M X KCPWrapper :=
  oidc ← getenv "KCP_OIDC_CLIENT_SECRET";
  write_file "config.yaml" (config_lines config (truthy (env_val oidc))) ;;
  mret (mkKCPWrapper config "config.yaml").

(** Runs kcp; [sendYes] writes [Y] to its standard input. Copying the child's output to the
    terminal ([pipeStdout]) is not part of the model. *)
Definition exec (kcp : KCPWrapper) (args : list string) (sendYes : bool) : M X jsval :=
  try_catch
    (output ← invoke (CExeca "kcp" (["--config"; kcpConfigPath kcp] ++ args)
                        (if sendYes then Some "Y" else None));
     lift (getp output "stdout"))
    (λ err,
      stderr ← lift (getp err "stderr");
      s ← lift (toString_call err);
      if strict_eq stderr JUndef then throw (mkError ("failed to process kcp binary output: " +:+ s))
      else throw (mkError ("kcp command failed: " +:+ s))).

Definition runtimes (kcp : KCPWrapper) (query : list (string * jsval)) : M X jsval :=
  result ← exec kcp (runtimes_args query) false; lift (parse result).

Definition reconciliations (kcp : KCPWrapper) (query : list (string * jsval)) : M X jsval :=
  result ← exec kcp (reconciliations_args query) false; lift (parse result).

Definition login (kcp : KCPWrapper) : M X jsval :=
  oidc ← getenv "KCP_OIDC_CLIENT_SECRET";
  exec kcp (if truthy (env_val oidc)
            then ["login"; "-u"; kcp_username (kcp_config kcp); "-p"; kcp_password (kcp_config kcp)]
            else ["login"]) false.

Definition version (kcp : KCPWrapper) : M X jsval := exec kcp ["--version"] false.

Definition kubeconfig (kcp : KCPWrapper) (shoot : string) : M X jsval :=
  exec kcp ["kubeconfig"; "--shoot"; shoot] false.

(** The last word of the command's output is the path of the file it wrote. *)
Definition getKubeconfig (kcp : KCPWrapper) (shoot : string) : M X jsval :=
  login kcp ;;
  result ← kubeconfig kcp shoot;
  words ← lift (split_call result " ");
  mret (nth_str words (length words - 1)).

Definition getReconciliationsOperations (kcp : KCPWrapper) (runtimeID : jsval) : M X jsval :=
  login kcp ;;
  ops ← reconciliations kcp [("parameter", JStr "operations"); ("runtimeID", runtimeID)];
  mret (stringify tab ops).

Definition getReconciliationsInfo (kcp : KCPWrapper) (schedulingID : jsval) : M X jsval :=
  login kcp ;;
  i ← reconciliations kcp [("parameter", JStr "info"); ("schedulingID", schedulingID)];
  mret (stringify tab i).

Definition getRuntimeEvents (kcp : KCPWrapper) (instanceID : string) : M X jsval :=
  login kcp ;;
  exec kcp ["runtimes"; "--instance-id"; instanceID; "--events"] false.

Definition getRuntimeStatusOperations (kcp : KCPWrapper) (instanceID : string) : M X jsval :=
  login kcp ;;
  st ← runtimes kcp [("instanceID", JStr instanceID); ("ops", JBool true); ("state", JStr "all")];
  mret (stringify tab st).

Definition getRuntimeGardenerConfig (kcp : KCPWrapper) (shoot : string) : M X jsval :=
  login kcp ;;
  cfg ← runtimes kcp [("shoot", JStr shoot); ("gardenerConfig", JBool true)];
  mret (stringify tab cfg).

(** [catch (error) { debug(error); throw new Error(`failed during ${what}`) }]. *)
Definition failed_during {A} (what : string) (error : jsval) : M X A :=
  debug [error] ;; throw (mkError ("failed during " +:+ what)).

Definition getOrchestrationsOperations (kcp : KCPWrapper) (orchestrationID : jsval) : M X jsval :=
  try_catch
    (res ← exec kcp ["orchestration"; to_string orchestrationID; "operations"; "-o"; "json"] false;
     lift (parse res))
    (failed_during "getOrchestrationsOperations").

Definition getOrchestrationsOperationStatus (kcp : KCPWrapper) (orchestrationID operationID : jsval)
    : M X jsval :=
  try_catch
    (res ← exec kcp ["orchestration"; to_string orchestrationID; "--operation"; to_string operationID;
                     "-o"; "json"] false;
     lift (parse res))
    (failed_during "getOrchestrationsOperationStatus").

(** The first element of the [data] array, read twice by the code for the id of the operation. *)
Definition first_operation_id (operations : jsval) : result jsval :=
  data ← getp operations "data"; d0 ← geti data 0; getp d0 "operationID".

Definition getOrchestrationStatus (kcp : KCPWrapper) (orchestrationID : jsval) : M X jsval :=
  try_catch
    (res ← exec kcp ["orchestrations"; to_string orchestrationID; "-o"; "json"] false;
     o ← lift (parse res);
     oid ← lift (getp o "orchestrationID");
     type ← lift (getp o "type");
     ver ← lift (getpath o ["parameters"; "kyma"; "version"]);
     state ← lift (getp o "state");
     debug [JStr ("OrchestrationID: " +:+ to_string oid +:+ " (" +:+ to_string type +:+ " to version "
                  +:+ to_string ver +:+ ")" +:+ nl +:+ "      Status: " +:+ to_string state)] ;;
     operations ← getOrchestrationsOperations kcp oid;
     count ← lift (getp operations "count");
     (if js_lt (JInt 0) count then
        opid ← lift (first_operation_id operations);
        upgradeOperation ← getOrchestrationsOperationStatus kcp orchestrationID opid;
        u0 ← lift (geti upgradeOperation 0);
        st ← lift (getp u0 "state");
        debug [JStr ("OrchestrationID: " +:+ to_string orchestrationID +:+ nl +:+ "        OperationID: "
                     +:+ to_string opid +:+ nl +:+ "        OperationStatus: " +:+ to_string st)]
      else debug [JStr ("No operations in OrchestrationID " +:+ to_string oid)]) ;;
     mret o)
    (failed_during "getOrchestrationStatus").

Definition ensureOrchestrationSucceeded (kcp : KCPWrapper) (orchestrationID : jsval)
    (upgradeTimeoutMin : Z) : M X jsval :=
  debug [JStr ("Waiting for Kyma Upgrade with OrchestrationID " +:+ to_string orchestrationID
               +:+ " to succeed...")] ;;
  try_catch
    (res ← wait (getOrchestrationStatus kcp orchestrationID) orchestration_done
             (1000 * 60 * upgradeTimeoutMin) (1000 * 30);
     state ← lift (getp res "state");
     (if negb (strict_eq state (JStr "succeeded")) then
        debug [JStr "KEB Orchestration Status:"; res] ;;
        throw (mkError ("orchestration didn't succeed in 15min: " +:+ to_string (stringify "" res)))
      else mret tt) ;;
     description ← lift (getp res "description");
     descSplit ← lift (split_call description " ");
     if negb (strict_eq (nth_str descSplit 1) (JStr "1")) then
       throw (mkError ("orchestration didn't succeed (number of scheduled operations should be equal to 1):"
                       +:+ nl +:+ "        " +:+ to_string (stringify "" res)))
     else mret res)
    (failed_during "ensureOrchestrationSucceeded").

(** A diagnostic query of [upgradeKyma]: its result is only logged. *)
Definition diagnose (title label : string) (query : M X jsval) : M X unit :=
  try_catch
    (console_log [JStr title] ;;
     v ← query;
     debug [JStr (label +:+ inspect v)])
    (λ error, debug [error]).

Definition upgradeKyma (kcp : KCPWrapper) (instanceID kymaUpgradeVersion : string)
    (upgradeTimeoutMin : Z) : M X jsval :=
  try_catch
    (console_log [JStr "Executing kcp upgrade"] ;;
     res ← exec kcp ["upgrade"; "kyma"; "--version=" +:+ kymaUpgradeVersion; "--target";
                     "instance-id=" +:+ instanceID] true;
     console_log [JStr "Checking orchestration"] ;;
     ok ← lift (includes_call res "OrchestrationID: ");
     (if negb ok then
        throw (mkError ("Kyma Upgrade failed. KCP upgrade command returned no OrchestrationID. Response: "
                        +:+ dquote +:+ to_string res +:+ dquote))
      else mret tt) ;;
     parts ← lift (split_call res "OrchestrationID: ");
     let orchestrationID := nth_str parts 1 in
     debug [JStr ("OrchestrationID: " +:+ to_string orchestrationID)] ;;
     st ← try_catch
            (console_log [JStr "Ensure execution suceeded"] ;;
             s ← ensureOrchestrationSucceeded kcp orchestrationID upgradeTimeoutMin; mret (Some s))
            (λ error, debug [error] ;; mret None);
     match st with
     | Some s => mret s
     | None =>
         diagnose "Check runtime status" "Runtime Status: "
           (runtimes kcp [("instanceID", JStr instanceID)]) ;;
         diagnose "Check orchestration" "Orchestration Status: "
           (getOrchestrationStatus kcp orchestrationID) ;;
         diagnose "Check operations" "Operations: "
           (getOrchestrationsOperations kcp orchestrationID) ;;
         throw (mkError "Kyma Upgrade failed")
     end)
    (failed_during "upgradeKyma").

(** One operation of the reconciliation log. *)
Definition log_reconciliation (kcp : KCPWrapper) (i : jsval) : M X unit :=
  status ← lift (getp i "status");
  console_log [JStr ("reconciliation operation status: " +:+ to_string status)] ;;
  sid ← lift (getp i "schedulingID");
  getReconciliationsInfo kcp sid ;; mret tt.

(** [objRuntimeStatus.data[0].runtimeID]. *)
Definition first_runtime_id (st : jsval) : result jsval :=
  data ← getp st "data"; d0 ← geti data 0; getp d0 "runtimeID".

Definition reconcileInformationLog (kcp : KCPWrapper) (runtimeStatus : jsval) : M X unit :=
  try_catch
    (st ← lift (parse runtimeStatus);
     match first_runtime_id st with
     | Ok runtimeID =>
         text ← getReconciliationsOperations kcp runtimeID;
         ops ← lift (parse text);
         if nullish ops then
           console_log [JStr ("skipping reconciliation logging: kcp rc operations -r "
                              +:+ to_string runtimeID +:+ nl +:+ "         -o json returned null")]
         else
           len ← lift (getp ops "length");
           if strict_eq len (JInt 0) then console_log [JStr "no reconciliation operations found"]
           else
             console_log [JStr ("number of reconciliation operations: " +:+ to_string len)] ;;
             tail ← lift (last_three ops);
             for_each (log_reconciliation kcp) (elements tail)
     | _ =>
         console_log [JStr "skipping reconciliation logging: no runtimeID provided by runtimeStatus"]
     end)
    (λ error,
      debug [error] ;;
      console_log [JStr ("skipping reconciliation logging: error in reconcileInformationLog: "
                         +:+ to_string error)]).

Definition ensureLatestGivenOperationTypeIsInGivenState (kcp : KCPWrapper)
    (instanceID operationType operationState : string) (timeout : Z) : M X jsval :=
  debug [JStr ("Waiting for " +:+ dquote +:+ operationType +:+ dquote +:+ " operation to be in state "
               +:+ dquote +:+ operationState +:+ dquote +:+ "...")] ;;
  try_catch
    (login kcp ;;
     wait (runtimes kcp [("instanceID", JStr instanceID); ("ops", JBool true)])
       (operation_in_state operationType operationState) timeout (1000 * 60))
    (failed_during "ensureLatestGivenOperationTypeIsInGivenState").

(** * Lemmas *)

Lemma exec_appends kcp args y : appends (exec kcp args y).
Proof. unfold exec. walk_appends. Qed.

Hint Resolve exec_appends : appends.

Lemma login_appends kcp : appends (login kcp).
Proof. unfold login, getenv. walk_appends. Qed.

Lemma runtimes_appends kcp q : appends (runtimes kcp q).
Proof. unfold runtimes. walk_appends. Qed.

Lemma reconciliations_appends kcp q : appends (reconciliations kcp q).
Proof. unfold reconciliations. walk_appends. Qed.

Hint Resolve login_appends runtimes_appends reconciliations_appends : appends.

Lemma getRuntimeStatusOperations_appends kcp i : appends (getRuntimeStatusOperations kcp i).
Proof. unfold getRuntimeStatusOperations. walk_appends. Qed.

Lemma getRuntimeEvents_appends kcp i : appends (getRuntimeEvents kcp i).
Proof. unfold getRuntimeEvents. walk_appends. Qed.

Lemma getRuntimeGardenerConfig_appends kcp s : appends (getRuntimeGardenerConfig kcp s).
Proof. unfold getRuntimeGardenerConfig. walk_appends. Qed.

Lemma getKubeconfig_appends kcp s : appends (getKubeconfig kcp s).
Proof. unfold getKubeconfig, kubeconfig. walk_appends. Qed.

Lemma reconcileInformationLog_appends kcp v : appends (reconcileInformationLog kcp v).
Proof.
  unfold reconcileInformationLog, log_reconciliation, getReconciliationsOperations, getReconciliationsInfo.
  walk_appends. apply appends_for_each. intros. walk_appends.
Qed.

Lemma exec_settles kcp args yes : settles (exec kcp args yes).
Proof. unfold exec. walk_settles. Qed.

Lemma exec_raises kcp args yes : raises (exec kcp args yes).
Proof. unfold exec. walk_raises. Qed.

(** The calls of a wrapper: the kcp binary with the wrapper's config file. *)
Definition kcp_call (kcp : KCPWrapper) (c : call) : Prop :=
  ∃ args stdin, c = CExeca "kcp" ("--config" :: kcpConfigPath kcp :: args) stdin.

Lemma exec_makes kcp args yes : makes (kcp_call kcp) (exec kcp args yes).
Proof.
  unfold exec. walk_makes. apply makes_invoke. by eexists _, _.
Qed.

Lemma failed_during_settles {A} what e : settles (A := A) (failed_during what e).
Proof. unfold failed_during. walk_settles. Qed.

Lemma failed_during_makes {A} P what e : makes (A := A) P (failed_during what e).
Proof. unfold failed_during. walk_makes. Qed.

Hint Resolve exec_settles failed_during_settles : settles.
Hint Resolve exec_makes failed_during_makes : makes.

Ltac kcp_settles := unfold runtimes, reconciliations, login, getenv; walk_settles.
Ltac kcp_makes := unfold runtimes, reconciliations, login, getenv; walk_makes.

Lemma login_settles kcp : settles (login kcp).
Proof. kcp_settles. Qed.
Lemma login_makes kcp : makes (kcp_call kcp) (login kcp).
Proof. kcp_makes. Qed.
Lemma runtimes_settles kcp q : settles (runtimes kcp q).
Proof. kcp_settles. Qed.
Lemma runtimes_makes kcp q : makes (kcp_call kcp) (runtimes kcp q).
Proof. kcp_makes. Qed.
Lemma reconciliations_settles kcp q : settles (reconciliations kcp q).
Proof. kcp_settles. Qed.
Lemma reconciliations_makes kcp q : makes (kcp_call kcp) (reconciliations kcp q).
Proof. kcp_makes. Qed.

Hint Resolve login_settles runtimes_settles reconciliations_settles : settles.
Hint Resolve login_makes runtimes_makes reconciliations_makes : makes.

Lemma getReconciliationsOperations_settles kcp r : settles (getReconciliationsOperations kcp r).
Proof. unfold getReconciliationsOperations. walk_settles. Qed.
Lemma getReconciliationsInfo_settles kcp r : settles (getReconciliationsInfo kcp r).
Proof. unfold getReconciliationsInfo. walk_settles. Qed.
Lemma getRuntimeStatusOperations_settles kcp i : settles (getRuntimeStatusOperations kcp i).
Proof. unfold getRuntimeStatusOperations. walk_settles. Qed.
Lemma getRuntimeEvents_settles kcp i : settles (getRuntimeEvents kcp i).
Proof. unfold getRuntimeEvents. walk_settles. Qed.
Lemma getRuntimeGardenerConfig_settles kcp i : settles (getRuntimeGardenerConfig kcp i).
Proof. unfold getRuntimeGardenerConfig. walk_settles. Qed.
Lemma getKubeconfig_settles kcp i : settles (getKubeconfig kcp i).
Proof. unfold getKubeconfig, kubeconfig. walk_settles. Qed.

Hint Resolve getReconciliationsOperations_settles getReconciliationsInfo_settles
  getRuntimeStatusOperations_settles getRuntimeEvents_settles getRuntimeGardenerConfig_settles
  getKubeconfig_settles : settles.

Lemma getReconciliationsOperations_makes kcp r : makes (kcp_call kcp) (getReconciliationsOperations kcp r).
Proof. unfold getReconciliationsOperations. walk_makes. Qed.
Lemma getReconciliationsInfo_makes kcp r : makes (kcp_call kcp) (getReconciliationsInfo kcp r).
Proof. unfold getReconciliationsInfo. walk_makes. Qed.
Lemma getRuntimeStatusOperations_makes kcp i : makes (kcp_call kcp) (getRuntimeStatusOperations kcp i).
Proof. unfold getRuntimeStatusOperations. walk_makes. Qed.
Lemma getRuntimeEvents_makes kcp i : makes (kcp_call kcp) (getRuntimeEvents kcp i).
Proof. unfold getRuntimeEvents. walk_makes. Qed.
Lemma getRuntimeGardenerConfig_makes kcp i : makes (kcp_call kcp) (getRuntimeGardenerConfig kcp i).
Proof. unfold getRuntimeGardenerConfig. walk_makes. Qed.
Lemma getKubeconfig_makes kcp i : makes (kcp_call kcp) (getKubeconfig kcp i).
Proof. unfold getKubeconfig, kubeconfig. walk_makes. Qed.

Hint Resolve getReconciliationsOperations_makes getReconciliationsInfo_makes
  getRuntimeStatusOperations_makes getRuntimeEvents_makes getRuntimeGardenerConfig_makes
  getKubeconfig_makes : makes.

Lemma getOrchestrationsOperations_settles kcp i : settles (getOrchestrationsOperations kcp i).
Proof. unfold getOrchestrationsOperations. walk_settles. Qed.
Lemma getOrchestrationsOperationStatus_settles kcp i j : settles (getOrchestrationsOperationStatus kcp i j).
Proof. unfold getOrchestrationsOperationStatus. walk_settles. Qed.
Lemma first_operation_id_nohang v : nohang (first_operation_id v).
Proof. unfold first_operation_id. walk_nohang. Qed.
Lemma first_runtime_id_nohang v : nohang (first_runtime_id v).
Proof. unfold first_runtime_id. walk_nohang. Qed.
Lemma last_three_nohang v : nohang (last_three v).
Proof. by destruct v. Qed.

Hint Resolve getOrchestrationsOperations_settles getOrchestrationsOperationStatus_settles : settles.
Hint Resolve first_operation_id_nohang first_runtime_id_nohang last_three_nohang : nohang.

Lemma getOrchestrationsOperations_makes kcp i : makes (kcp_call kcp) (getOrchestrationsOperations kcp i).
Proof. unfold getOrchestrationsOperations. walk_makes. Qed.
Lemma getOrchestrationsOperationStatus_makes kcp i j :
  makes (kcp_call kcp) (getOrchestrationsOperationStatus kcp i j).
Proof. unfold getOrchestrationsOperationStatus. walk_makes. Qed.

Hint Resolve getOrchestrationsOperations_makes getOrchestrationsOperationStatus_makes : makes.

Lemma getOrchestrationStatus_settles kcp i : settles (getOrchestrationStatus kcp i).
Proof. unfold getOrchestrationStatus. walk_settles. Qed.
Lemma getOrchestrationStatus_makes kcp i : makes (kcp_call kcp) (getOrchestrationStatus kcp i).
Proof. unfold getOrchestrationStatus. walk_makes. Qed.

Hint Resolve getOrchestrationStatus_settles : settles.
Hint Resolve getOrchestrationStatus_makes : makes.

Lemma ensureOrchestrationSucceeded_settles kcp i t : settles (ensureOrchestrationSucceeded kcp i t).
Proof. unfold ensureOrchestrationSucceeded. walk_settles. Qed.
Lemma ensureOrchestrationSucceeded_makes kcp i t :
  makes (kcp_call kcp) (ensureOrchestrationSucceeded kcp i t).
Proof. unfold ensureOrchestrationSucceeded. walk_makes. Qed.
Lemma ensureLatest_settles kcp i ty st t :
  settles (ensureLatestGivenOperationTypeIsInGivenState kcp i ty st t).
Proof. unfold ensureLatestGivenOperationTypeIsInGivenState. walk_settles. Qed.
Lemma ensureLatest_makes kcp i ty st t :
  makes (kcp_call kcp) (ensureLatestGivenOperationTypeIsInGivenState kcp i ty st t).
Proof. unfold ensureLatestGivenOperationTypeIsInGivenState. walk_makes. Qed.

Hint Resolve ensureOrchestrationSucceeded_settles ensureLatest_settles : settles.
Hint Resolve ensureOrchestrationSucceeded_makes ensureLatest_makes : makes.

Lemma diagnose_total title label q : settles q → total (diagnose title label q).
Proof.
  intros Hq. unfold diagnose. apply total_try; [walk_settles|]. intros e. apply debug_total.
Qed.

Lemma upgradeKyma_settles kcp i v t : settles (upgradeKyma kcp i v t).
Proof.
  unfold upgradeKyma. walk_settles; apply total_settles, diagnose_total; eauto with settles.
Qed.
Lemma upgradeKyma_makes kcp i v t : makes (kcp_call kcp) (upgradeKyma kcp i v t).
Proof. unfold upgradeKyma, diagnose. walk_makes. Qed.

Lemma reconcile_body_settles kcp i : settles (log_reconciliation kcp i).
Proof. unfold log_reconciliation. walk_settles. Qed.
Lemma log_reconciliation_makes kcp i : makes (kcp_call kcp) (log_reconciliation kcp i).
Proof. unfold log_reconciliation. walk_makes. Qed.

Hint Resolve reconcile_body_settles : settles.
Hint Resolve log_reconciliation_makes : makes.

Lemma reconcileInformationLog_makes kcp st : makes (kcp_call kcp) (reconcileInformationLog kcp st).
Proof. unfold reconcileInformationLog. walk_makes. Qed.

Lemma reconcile_total kcp runtimeStatus : total (reconcileInformationLog kcp runtimeStatus).
Proof.
  unfold reconcileInformationLog. apply total_try.
  - walk_settles.
  - intros e. apply total_bind; [apply debug_total|]. intros _. apply total_log.
Qed.

End kcp.

#[export] Hint Resolve first_operation_id_nohang first_runtime_id_nohang last_three_nohang : nohang.
#[export] Hint Resolve failed_during_settles getOrchestrationsOperations_settles
  getOrchestrationsOperationStatus_settles getOrchestrationStatus_settles : settles.
#[export] Hint Resolve exec_settles login_settles runtimes_settles reconciliations_settles
  getRuntimeStatusOperations_settles getRuntimeEvents_settles getRuntimeGardenerConfig_settles
  getKubeconfig_settles upgradeKyma_settles ensureLatest_settles
  ensureOrchestrationSucceeded_settles : settles.
#[export] Hint Resolve exec_makes login_makes runtimes_makes reconciliations_makes
  getRuntimeStatusOperations_makes getRuntimeEvents_makes getRuntimeGardenerConfig_makes
  getKubeconfig_makes upgradeKyma_makes ensureLatest_makes reconcileInformationLog_makes
  ensureOrchestrationSucceeded_makes : makes.
#[export] Hint Resolve exec_appends login_appends runtimes_appends getRuntimeStatusOperations_appends
  getRuntimeEvents_appends getRuntimeGardenerConfig_appends getKubeconfig_appends
  reconcileInformationLog_appends : appends.
#[export] Hint Resolve reconcile_total : js.

(** * Theorems *)

Section theorems.
Context {X : Type} `{Services X}.

(** Whatever a [KCPWrapper] does, the only program it runs is kcp, and always with the wrapper's
    own config file. *)
Theorem kcp_runs_only_kcp kcp (w : world X) instanceID kymaVersion ty st status shoot timeout :
  Forall (kcp_call kcp) (calls (upgradeKyma kcp instanceID kymaVersion timeout) w) ∧
  Forall (kcp_call kcp) (calls (ensureLatestGivenOperationTypeIsInGivenState kcp instanceID ty st timeout) w) ∧
  Forall (kcp_call kcp) (calls (reconcileInformationLog kcp status) w) ∧
  Forall (kcp_call kcp) (calls (getRuntimeStatusOperations kcp instanceID) w) ∧
  Forall (kcp_call kcp) (calls (getRuntimeEvents kcp instanceID) w) ∧
  Forall (kcp_call kcp) (calls (getRuntimeGardenerConfig kcp shoot) w) ∧
  Forall (kcp_call kcp) (calls (getKubeconfig kcp shoot) w).
Proof. split_and!; apply makes_calls; eauto with makes. Qed.

Lemma exec_bounded kcp args yes : bounded (X := X) 1 (exec kcp args yes).
Proof.
  unfold exec. apply (bounded_try 1 0).
  - apply (bounded_bind 1 0); [apply bounded_invoke|]. intros a. apply bounded_makes. walk_makes.
  - intros e. apply bounded_makes. walk_makes.
Qed.

Lemma login_bounded kcp : bounded (X := X) 1 (login kcp).
Proof.
  unfold login. apply (bounded_bind 0 1); [apply bounded_makes; unfold getenv; walk_makes|].
  intros o. apply exec_bounded.
Qed.

(** A login followed by one reconciliations command. *)
Lemma logged_in_bounded kcp q (k : jsval → jsval) :
  bounded (X := X) 2 (login kcp ;; r ← reconciliations kcp q; mret (k r)).
Proof.
  apply (bounded_bind 1 1); [apply login_bounded|]. intros _.
  apply (bounded_bind 1 0); [|intros; apply bounded_makes, makes_ret].
  apply (bounded_bind 1 0); [apply exec_bounded|]. intros r. apply bounded_makes, makes_lift.
Qed.

Lemma last_three_length v v' : last_three v = Ok v' → length (elements v') ≤ 3.
Proof.
  assert (∀ s n m, length (string_chars (String.substring n m s)) ≤ m) as Hsub.
  { induction s as [|c s IH]; intros [|n] [|m]; simpl; try lia; try apply IH.
    specialize (IH 0 m). lia. }
  destruct v; simpl; try done; intros [= <-]; simpl; [apply Hsub|]. rewrite length_drop. lia.
Qed.

(** [reconcileInformationLog] is a diagnostic that cannot disturb a test: it never throws and
    always settles, whatever the status text and the answers of kcp, and it runs at most eight
    commands, since it logs only the last three operations. *)
Theorem reconcileInformationLog_safe kcp status (w : world X) :
  (∃ w', reconcileInformationLog kcp status w = (Ok tt, w')) ∧
  length (calls (reconcileInformationLog kcp status) w) ≤ 8.
Proof.
  split.
  { destruct (reconcile_total kcp status w) as ([] & w' & ->). by exists w'. }
  apply bounded_calls. unfold reconcileInformationLog. apply (bounded_try 8 0).
  2: { intros e. apply bounded_makes. walk_makes. }
  apply (bounded_bind 0 8); [apply bounded_makes, makes_lift|]. intros st.
  destruct (first_runtime_id st) as [rid|e|]; [|apply bounded_makes; walk_makes..].
  apply (bounded_bind 2 6); [apply logged_in_bounded|]. intros text.
  apply (bounded_bind 0 6); [apply bounded_makes, makes_lift|]. intros ops.
  destruct (nullish ops); [apply bounded_makes; walk_makes|].
  apply (bounded_bind 0 6); [apply bounded_makes, makes_lift|]. intros len.
  destruct (strict_eq len (JInt 0)); [apply bounded_makes; walk_makes|].
  apply (bounded_bind 0 6); [apply bounded_makes; walk_makes|]. intros _.
  intros u. rewrite run_bind_lift. destruct (last_three ops) as [tail|e|] eqn:Et;
    [|exists []; simpl; rewrite app_nil_r; split; [done|lia]..].
  apply (bounded_for_each 2 3); [by eapply last_three_length|]. intros i.
  apply (bounded_bind 0 2); [apply bounded_makes, makes_lift|]. intros s.
  apply (bounded_bind 0 2); [apply bounded_makes; walk_makes|]. intros _.
  apply (bounded_bind 0 2); [apply bounded_makes, makes_lift|]. intros sid.
  apply (bounded_bind 2 0); [apply logged_in_bounded|]. intros _. apply bounded_makes, makes_ret.
Qed.

(** A statement whose handler is [failed_during]: the outcome is that of the body, or the error
    of the handler. *)
Lemma try_failed {A} (m : M X A) what w (Q : result A → Prop) :
  settles m → (∀ a w', m w = (Ok a, w') → Q (Ok a)) → Q (Throw (mkError ("failed during " +:+ what))) →
  Q (try_catch m (failed_during what) w).1.
Proof.
  intros Hs HOk HT. specialize (Hs w). unfold try_catch, failed_during.
  destruct (m w) as [[a|e|] w'] eqn:E; simpl in *; [by eapply HOk| |done]. by autorewrite with run.
Qed.

Ltac split_failed :=
  match goal with |- context [(try_catch ?m (failed_during ?what) ?w1).1] =>
    pattern (try_catch m (failed_during what) w1).1; apply try_failed end.

Lemma getOrchestrationStatus_throws kcp id (w w' : world X) e :
  getOrchestrationStatus kcp id w = (Throw e, w') → e = mkError "failed during getOrchestrationStatus".
Proof.
  intros Hg.
  assert (match (getOrchestrationStatus kcp id w).1 with
          | Throw e' => e' = mkError "failed during getOrchestrationStatus" | _ => True end) as Ht.
  { unfold getOrchestrationStatus. split_failed; [walk_settles|done|done]. }
  by rewrite Hg in Ht.
Qed.

(** The status a successful upgrade ends with. *)
Definition upgraded (res : jsval) : Prop :=
  getp res "state" = Ok (JStr "succeeded") ∧
  ∃ d, getp res "description" = Ok (JStr d) ∧ split " " d !! 1 = Some "1".

Lemma ensureOrchestration_outcome kcp id timeout (w : world X) :
  match (ensureOrchestrationSucceeded kcp id timeout w).1 with
  | Ok res => upgraded res ∧ ∃ w1 w2, getOrchestrationStatus kcp id w1 = (Ok res, w2)
  | Throw e => e = mkError "failed during ensureOrchestrationSucceeded"
  | Hang => False
  end.
Proof.
  unfold ensureOrchestrationSucceeded. rewrite run_bind_debug.
  split_failed; [walk_settles| |done]. intros res w2 Hb.
  apply bind_Ok_inv in Hb as (res' & u1 & Hwait & Hb).
  apply wait_returned in Hwait as [Hck Hfrom].
  apply bind_Ok_inv in Hb as (st & u2 & [Hst ->]%lift_Ok_inv & Hb).
  apply bind_Ok_inv in Hb as ([] & u2 & Hif & Hb).
  destruct (strict_eq st (JStr "succeeded")) eqn:Esucc; simpl in Hif.
  2: { apply bind_Ok_inv in Hif as (? & ? & _ & Hif). done. }
  injection Hif as <-. apply strict_eq_str in Esucc as ->.
  apply bind_Ok_inv in Hb as (d & u2 & [Hd ->]%lift_Ok_inv & Hb).
  apply bind_Ok_inv in Hb as (ws & u2 & [Hsp ->]%lift_Ok_inv & Hb).
  destruct (strict_eq (nth_str ws 1) (JStr "1")) eqn:E1; [|done].
  injection Hb as -> ->. split.
  - split; [done|]. unfold nth_str in E1. destruct d; simpl in Hsp; try done. injection Hsp as <-.
    eexists. split; [done|]. destruct (split " " s !! 1) as [x|]; [|done].
    apply strict_eq_str in E1. by injection E1 as ->.
  - destruct Hfrom as (w1 & w4 & [Hf|Hf]); [by exists w1, w4|].
    apply getOrchestrationStatus_throws in Hf as ->. done.
Qed.

(** [ensureOrchestrationSucceeded] returns only a status that a poll of this orchestration
    returned, whose state is [succeeded] and whose description announces exactly one scheduled
    operation; in every other case, the timeout included, it throws its own Error, and it always
    settles. *)
Theorem ensureOrchestrationSucceeded_spec kcp id timeout (w : world X) :
  match (ensureOrchestrationSucceeded kcp id timeout w).1 with
  | Ok res => upgraded res ∧ ∃ w1 w2, getOrchestrationStatus kcp id w1 = (Ok res, w2)
  | Throw e => e = mkError "failed during ensureOrchestrationSucceeded"
  | Hang => False
  end.
Proof. apply ensureOrchestration_outcome. Qed.

(** [upgradeKyma] returns only the status of the orchestration whose id its upgrade command
    printed, and only when that orchestration succeeded with one operation; otherwise it throws
    [failed during upgradeKyma], and it always settles. *)
Theorem upgradeKyma_spec kcp instanceID kymaVersion timeout (w : world X) :
  match (upgradeKyma kcp instanceID kymaVersion timeout w).1 with
  | Ok res => upgraded res ∧ ∃ out w1 w2,
      (exec kcp ["upgrade"; "kyma"; "--version=" +:+ kymaVersion; "--target";
                 "instance-id=" +:+ instanceID] true (add_log [JStr "Executing kcp upgrade"] w)).1
        = Ok (JStr out) ∧
      includes out "OrchestrationID: " = true ∧
      getOrchestrationStatus kcp (nth_str (split "OrchestrationID: " out) 1) w1 = (Ok res, w2)
  | Throw e => e = mkError "failed during upgradeKyma"
  | Hang => False
  end.
Proof.
  unfold upgradeKyma. split_failed;
    [walk_settles; apply total_settles, diagnose_total; eauto with settles| |done].
  intros res w3 Hb. rewrite run_bind_log in Hb.
  apply bind_Ok_inv in Hb as (out & u1 & Hexec & Hb). rewrite run_bind_log in Hb.
  apply bind_Ok_inv in Hb as (ok & u2 & [Hinc ->]%lift_Ok_inv & Hb). destruct ok; simpl in Hb; [|done].
  rewrite run_bind_ret in Hb. apply bind_Ok_inv in Hb as (parts & u2 & [Hsp ->]%lift_Ok_inv & Hb).
  destruct out; simpl in Hsp; try done. injection Hsp as <-. injection Hinc as Hinc.
  rewrite run_bind_debug in Hb. apply bind_Ok_inv in Hb as (st & u2 & Hv & Hb).
  destruct st as [st|].
  - injection Hb as -> ->. apply try_Ok_inv in Hv as [Hv|(e & w4 & _ & Hv)];
      [|apply bind_Ok_inv in Hv as (? & ? & _ & Hv); done].
    rewrite run_bind_log in Hv. apply bind_Ok_inv in Hv as (st & w4 & Hens & Hv). injection Hv as -> ->.
    match type of Hens with _ ?u = _ =>
      pose proof (ensureOrchestration_outcome kcp (nth_str (split "OrchestrationID: " s) 1) timeout u) as Ho end.
    rewrite Hens in Ho. destruct Ho as [Hup (w5 & w6 & Hg)]. split; [done|].
    exists s, w5, w6. by rewrite Hexec.
  - do 3 (apply bind_Ok_inv in Hb as (? & ? & _ & Hb)). done.
Qed.

Lemma orchestration_id_split (note id : string) :
  includes (note +:+ "OrchestrationID:") "OrchestrationID: " = false →
  includes id "OrchestrationID: " = false →
  split "OrchestrationID: " (note +:+ "OrchestrationID: " +:+ id) = [note; id].
Proof.
  intros Hn Hi. unfold split.
  rewrite (split_aux_first "OrchestrationID:" (Ascii.ascii_of_nat 32) note id "" Hn
    : split_aux "OrchestrationID: " 0 "" (note +:+ "OrchestrationID: " +:+ id) =
      note :: split_aux "OrchestrationID: " 0 "" id).
  by rewrite (split_aux_none "OrchestrationID: ").
Qed.

(** When the upgrade command prints some text, the label and an id, [upgradeKyma] is decided by
    [ensureOrchestrationSucceeded] for exactly that id: it returns its status or, when it fails,
    throws after the diagnostic queries, whatever those queries do. *)
Theorem orchestrationID_extracted kcp instanceID kymaVersion timeout (note id : string) (w w1 : world X) :
  exec kcp ["upgrade"; "kyma"; "--version=" +:+ kymaVersion; "--target"; "instance-id=" +:+ instanceID] true
    (add_log [JStr "Executing kcp upgrade"] w) = (Ok (JStr (note +:+ "OrchestrationID: " +:+ id)), w1) →
  includes (note +:+ "OrchestrationID:") "OrchestrationID: " = false →
  includes id "OrchestrationID: " = false →
  (upgradeKyma kcp instanceID kymaVersion timeout w).1 =
    match (ensureOrchestrationSucceeded kcp (JStr id) timeout
             (add_log [JStr "Ensure execution suceeded"]
               (after_debug [JStr ("OrchestrationID: " +:+ id)]
                 (add_log [JStr "Checking orchestration"] w1)))).1 with
    | Ok res => Ok res
    | _ => Throw (mkError "failed during upgradeKyma")
    end.
Proof.
  intros He Hn Hi. unfold upgradeKyma. rewrite run_try, run_bind_log, (bind_Ok _ _ _ _ _ He), run_bind_log.
  cbn [includes_call split_call]. rewrite run_bind_lift, includes_middle. cbn [negb].
  rewrite run_bind_ret, run_bind_lift, orchestration_id_split by done. cbn [nth_str]. cbv zeta.
  rewrite run_bind_debug, run_bind_try, run_bind_log.
  match goal with |- context [ensureOrchestrationSucceeded _ ?i _ ?u] =>
    pose proof (ensureOrchestration_outcome kcp i timeout u) as Ho;
    destruct (ensureOrchestrationSucceeded kcp i timeout u) as [[res|e|] w2] eqn:Eo end; [| |done].
  - by rewrite (bind_Ok _ _ _ _ _ Eo).
  - rewrite (bind_Throw _ _ _ _ _ Eo), run_bind_bind, run_bind_debug, run_bind_ret.
    do 3 (match goal with |- context [(diagnose ?t ?l ?q ≫= _) ?u] =>
            destruct (diagnose_total t l q ltac:(eauto with settles) u) as ([] & ? & Hd);
            rewrite (bind_Ok _ _ _ _ _ Hd); clear Hd end).
    cbn [throw]. unfold failed_during. by rewrite run_bind_debug.
Qed.

(** [getKubeconfig] returns the last word of the output of [kcp kubeconfig], run after a
    successful login. *)
Theorem getKubeconfig_last_word kcp shoot (w w1 w2 : world X) lv text path :
  login kcp w = (Ok lv, w1) → kubeconfig kcp shoot w1 = (Ok (JStr (text +:+ " " +:+ path)), w2) →
  includes path " " = false →
  getKubeconfig kcp shoot w = (Ok (JStr path), w2).
Proof.
  intros Hl Hk Hp. unfold getKubeconfig. rewrite (bind_Ok _ _ _ _ _ Hl), (bind_Ok _ _ _ _ _ Hk).
  autorewrite with run. cbn [split_call]. autorewrite with run.
  assert (split " " (text +:+ " " +:+ path) = split " " text ++ [path]) as ->.
  { unfold split. rewrite <- (split_aux_none " " path "" Hp : _ = [path]).
    exact (split_aux_app1 (Ascii.ascii_of_nat 32) text path ""). }
  unfold nth_str. rewrite length_app. simpl length. rewrite Nat.add_sub, lookup_app_r, Nat.sub_diag by lia. done.
Qed.

Lemma runtimes_raises kcp q : raises (X := X) (runtimes kcp q).
Proof. unfold runtimes. apply raises_bind; [apply exec_raises|]. intros r. apply raises_lift, errs_parse. Qed.

(** The check applied to the error of a failed poll throws itself. *)
Lemma operation_in_state_error ty st e :
  is_error e = true → operation_in_state ty st e = Throw (cannot_read JUndef "length").
Proof. by destruct e as [| | | | | | | |n m [|]]. Qed.

Lemma ensureLatest_outcome kcp instanceID ty st timeout (w : world X) :
  match (ensureLatestGivenOperationTypeIsInGivenState kcp instanceID ty st timeout w).1 with
  | Ok res => operation_in_state ty st res = Ok true ∧ ∃ w1 w2,
      runtimes kcp [("instanceID", JStr instanceID); ("ops", JBool true)] w1 = (Ok res, w2)
  | Throw e => e = mkError "failed during ensureLatestGivenOperationTypeIsInGivenState"
  | Hang => False
  end.
Proof.
  unfold ensureLatestGivenOperationTypeIsInGivenState. rewrite run_bind_debug.
  split_failed; [walk_settles| |done]. intros res w2 Hb.
  apply bind_Ok_inv in Hb as (lv & u1 & _ & Hwait).
  apply wait_returned in Hwait as [Hck (w4 & w5 & [Hf|Hf])]; [by eauto|].
  apply raises_inv in Hf; [|apply runtimes_raises].
  by rewrite (operation_in_state_error ty st res Hf) in Hck.
Qed.

Lemma ensureLatest_returned kcp instanceID ty st timeout (w w' : world X) res :
  ensureLatestGivenOperationTypeIsInGivenState kcp instanceID ty st timeout w = (Ok res, w') →
  operation_in_state ty st res = Ok true.
Proof.
  intros E. pose proof (ensureLatest_outcome kcp instanceID ty st timeout w) as Ho. rewrite E in Ho. apply Ho.
Qed.

(** [ensureLatestGivenOperationTypeIsInGivenState] returns only the parsed output of a
    [kcp runtimes] poll for this instance that shows the latest operation of the type in the wanted
    state; otherwise, the timeout included, it throws its own Error, and it always settles. *)
Theorem ensureLatest_spec kcp instanceID ty st timeout (w : world X) :
  match (ensureLatestGivenOperationTypeIsInGivenState kcp instanceID ty st timeout w).1 with
  | Ok res => operation_in_state ty st res = Ok true ∧ ∃ w1 w2,
      runtimes kcp [("instanceID", JStr instanceID); ("ops", JBool true)] w1 = (Ok res, w2)
  | Throw e => e = mkError "failed during ensureLatestGivenOperationTypeIsInGivenState"
  | Hang => False
  end.
Proof. apply ensureLatest_outcome. Qed.

(** When a poll of [ensureLatestGivenOperationTypeIsInGivenState] fails, the check that [wait]
    applies to the error itself throws: it reads the [length] of an undefined [data], and the
    interval callback ends with an unhandled rejection, which the surrounding [try] cannot catch. *)
Theorem ensureLatest_poll_unhandled kcp q ty st t (w w1 : world X) e :
  runtimes kcp q (set_now t w) = (Throw e, w1) →
  poll_at (runtimes kcp q) (operation_in_state ty st) t w =
    (Ok (Poll t (Some (w_now w1, e))), add_unhandled (cannot_read JUndef "length") w1).
Proof.
  intros Hr. unfold poll_at. rewrite Hr. apply raises_inv in Hr; [|apply runtimes_raises].
  by rewrite operation_in_state_error.
Qed.

(** A wrapper built from the environment has written a config file with the credentials of
    the login method that the environment selects, none of them undefined, and [login] uses the
    same method. *)
Theorem kcp_config_complete (w w1 w2 : world X) c kcp :
  KCPConfig_fromEnv w = (Ok c, w1) → new_KCPWrapper c w1 = (Ok kcp, w2) →
  ∃ oidc : bool,
    w_files w2 !! kcpConfigPath kcp = Some (config_lines c oidc) ∧
    (if oidc then ∃ s, kcp_clientSecret c = JStr s ∧ w_env w2 !! "KCP_OIDC_CLIENT_SECRET" = Some s
     else ∃ i s u, kcp_oauthClientID c = JStr i ∧ kcp_oauthSecret c = JStr s ∧ kcp_oauthIssuer c = JStr u) ∧
    login kcp w2 = exec kcp (if oidc then ["login"; "-u"; kcp_username c; "-p"; kcp_password c]
                             else ["login"]) false w2.
Proof.
  intros Hc Hk. unfold KCPConfig_fromEnv in Hc.
  do 6 (apply bind_Ok_inv in Hc as (? & ? & (-> & _ & _)%getEnvOrThrow_Ok & Hc)).
  apply bind_Ok_inv in Hc as (secret & u & Hs & Hc). injection Hs as Hsec <-.
  apply bind_Ok_inv in Hc as (creds & u & Hcr & Hc).
  do 2 (apply bind_Ok_inv in Hc as (? & ? & (-> & _ & _)%getEnvOrThrow_Ok & Hc)).
  destruct creds as [cs [[oi os] ou]]. injection Hc as <- ->.
  unfold new_KCPWrapper in Hk. apply bind_Ok_inv in Hk as (o & u' & Ho & Hk). injection Ho as Ho <-.
  apply bind_Ok_inv in Hk as ([] & u' & Hw & Hk). injection Hw as <-. injection Hk as <- <-.
  destruct (truthy (env_val secret)) eqn:Et.
  - apply bind_Ok_inv in Hcr as (s & u' & (-> & Henv & _)%getEnvOrThrow_Ok & Hcr). injection Hcr as <- <- <- <- ->.
    exists true. simpl. rewrite <- Ho. split_and!; [|by eauto|].
    + rewrite lookup_insert_eq. rewrite Hsec, Et. done.
    + unfold login, getenv. rewrite run_bind_get. simpl. by rewrite Hsec, Et.
  - do 3 (apply bind_Ok_inv in Hcr as (? & ? & (-> & _ & _)%getEnvOrThrow_Ok & Hcr)).
    injection Hcr as <- <- <- <- ->. exists false. simpl. rewrite <- Ho. split_and!; [|by eauto 10|].
    + rewrite lookup_insert_eq. rewrite Hsec, Et. done.
    + unfold login, getenv. rewrite run_bind_get. simpl. by rewrite Hsec, Et.
Qed.

End theorems.

(** * Concrete runs *)

Definition demo_env : list (string * string) :=
  [("KCP_KEB_API_URL", "https://keb"); ("KCP_OIDC_ISSUER_URL", "https://issuer");
   ("KCP_GARDENER_NAMESPACE", "garden-kyma"); ("KCP_TECH_USER_LOGIN", "user");
   ("KCP_TECH_USER_PASSWORD", "password"); ("KCP_OIDC_CLIENT_ID", "client");
   ("KCP_OIDC_CLIENT_SECRET", "secret"); ("KCP_MOTHERSHIP_API_URL", "https://mothership");
   ("KCP_KUBECONFIG_API_URL", "https://kubeconfig")].

Definition demo_config : KCPConfig :=
  mkKCPConfig "https://keb" "https://issuer" "garden-kyma" "user" "password" "client" (JStr "secret")
    JUndef JUndef JUndef "https://mothership" "https://kubeconfig".
Definition demo_kcp : KCPWrapper := mkKCPWrapper demo_config "config.yaml".

Definition stdout_of (s : string) : jsval + jsval := inr (JObj [("stdout", JStr s)]).

Definition demo_start : world script := start demo_env (Script [] [] []).
Definition demo_written : world script := (new_KCPWrapper demo_config demo_start).2.

Lemma kcp_config_complete_witness :
  ∃ oidc : bool,
    w_files demo_written !! "config.yaml" = Some (config_lines demo_config oidc) ∧
    (if oidc then ∃ s, kcp_clientSecret demo_config = JStr s ∧
                    w_env demo_written !! "KCP_OIDC_CLIENT_SECRET" = Some s
     else ∃ i s u, kcp_oauthClientID demo_config = JStr i ∧ kcp_oauthSecret demo_config = JStr s ∧
            kcp_oauthIssuer demo_config = JStr u).
Proof.
  destruct (kcp_config_complete demo_start demo_start demo_written demo_config demo_kcp) as (oidc & H1 & H2 & _).
  - vm_compute. reflexivity.
  - vm_compute. reflexivity.
  - exists oidc. split; [exact H1|exact H2].
Defined.

Definition upgrade_started : world script := answering [stdout_of "Note: ignoreOrchestrationID: 22f19856"].

(** The orchestration cannot be queried afterwards. *)
Lemma orchestrationID_extracted_witness :
  (upgradeKyma demo_kcp "iid" "2.0" 1 upgrade_started).1 = Throw (mkError "failed during upgradeKyma").
Proof.
  erewrite (orchestrationID_extracted demo_kcp "iid" "2.0" 1 "Note: ignore" "22f19856" upgrade_started);
    [|vm_compute; reflexivity|reflexivity|reflexivity].
  vm_compute. reflexivity.
Defined.

Definition kubeconfig_printed : world script :=
  answering [stdout_of ""; stdout_of "Wrote kubeconfig to /tmp/shoot.yaml"].

Lemma getKubeconfig_last_word_witness :
  ∃ w2, getKubeconfig demo_kcp "shoot" kubeconfig_printed = (Ok (JStr "/tmp/shoot.yaml"), w2).
Proof.
  eexists. eapply (getKubeconfig_last_word demo_kcp "shoot" kubeconfig_printed _ _ (JStr "")
    "Wrote kubeconfig to" "/tmp/shoot.yaml"); reflexivity.
Defined.

(** kcp cannot be started. *)
Lemma ensureLatest_poll_unhandled_witness :
  ∃ e w1, poll_at (runtimes demo_kcp []) (operation_in_state "suspension" "in progress") 60000 (answering []) =
    (Ok (Poll 60000 (Some (w_now w1, e))), add_unhandled (cannot_read JUndef "length") w1).
Proof. do 2 eexists. apply (ensureLatest_poll_unhandled demo_kcp []). reflexivity. Defined.
