(* ===== verification/Smctl.v ===== *)
(** smctl/helpers.js: the Service Manager command-line tool and the credentials of its users. *)

From S2P Require Import Prelude JsValue Json Effects Script UtilsCore KebClient.

Record AdminCreds := mkAdminCreds { ac_clientid : string; ac_clientsecret : string; ac_url : string }.

Record BTPOperatorCreds := mkBTPOperatorCreds {
  bc_clientid : string; bc_clientsecret : string; bc_smURL : string; bc_url : string
}.

Definition BTPOperatorCreds_dummy : BTPOperatorCreds :=
  mkBTPOperatorCreds "dummy_client_id" "dummy_client_secret" "dummy_url" "dummy_token_url".

(** The credentials as the object the broker client is given. *)
Definition btp_object (c : BTPOperatorCreds) : jsval :=
  JObj [("clientid", JStr (bc_clientid c)); ("clientsecret", JStr (bc_clientsecret c));
        ("smURL", JStr (bc_smURL c)); ("url", JStr (bc_url c))].

(** The arguments of the login without the credentials, which never enter an error message. *)
Definition login_args (creds : AdminCreds) : list string :=
  ["login"; "-a"; ac_url creds; "--param"; "subdomain=e2etestingscmigration"; "--auth-flow";
   "client-credentials"].

(** ["smctl args"], in double quotes. *)
Definition quoted_command (args : list string) : string :=
  dquote +:+ "smctl " +:+ join " " args +:+ dquote.

Section smctl.
Context {X : Type} `{Services X}.

Definition AdminCreds_fromEnv : M X AdminCreds :=
  i ← getEnvOrThrow "BTP_SM_ADMIN_CLIENTID";
  s ← getEnvOrThrow "BTP_SM_ADMIN_CLIENTSECRET";
  u ← getEnvOrThrow "BTP_SM_ADMIN_URL";
  mret (mkAdminCreds i s u).

Definition BTPOperatorCreds_fromEnv : M X BTPOperatorCreds :=
  i ← getEnvOrThrow "BTP_OPERATOR_CLIENTID";
  s ← getEnvOrThrow "BTP_OPERATOR_CLIENTSECRET";
  u ← getEnvOrThrow "BTP_OPERATOR_URL";
  t ← getEnvOrThrow "BTP_OPERATOR_TOKENURL";
  mret (mkBTPOperatorCreds i s u t).

Definition smctl (args : list string) : M X jsval := invoke (CExeca "smctl" args None).

(** The login command of all four operations. *)
Definition smctl_login (creds : AdminCreds) : M X jsval :=
  smctl (login_args creds ++
         ["--client-id"; ac_clientid creds; "--client-secret"; ac_clientsecret creds]).

(** The [catch] of [smInstanceBinding] and [provisionPlatform]; [args] is the value of the variable
    when the exception was thrown. *)
Definition sm_failure {A} (args : list string) (error : jsval) : M X A :=
  stderr ← lift (getp error "stderr");
  if strict_eq stderr JUndef then throw (mkError ("failed to process output of " +:+ quoted_command args))
  else throw (mkError ("failed " +:+ quoted_command args +:+ ": " +:+ to_string stderr)).

(** The part of a [try] block that runs while the variable is [args]. *)
Definition during {A} (args : list string) (m : M X A) : M X A := try_catch m (sm_failure args).

Definition smInstanceBinding (creds : AdminCreds) (btpOperatorInstance btpOperatorBinding : string)
    : M X jsval :=
  during (login_args creds) (smctl_login creds) ;;
  (let args := ["provision"; btpOperatorInstance; "service-manager"; "service-operator-access"; "--mode=sync"] in
   during args (smctl args)) ;;
  (let args := ["bind"; btpOperatorInstance; btpOperatorBinding; "--mode=sync"] in
   during args (smctl args)) ;;
  let args := ["get-binding"; btpOperatorBinding; "-o"; "json"] in
  during args
    (out ← smctl args;
     stdout ← lift (getp out "stdout");
     b ← lift (parse stdout);
     items ← lift (getp b "items");
     i0 ← lift (geti items 0);
     c ← lift (getp i0 "credentials");
     clientid ← lift (getp c "clientid");
     clientsecret ← lift (getp c "clientsecret");
     sm_url ← lift (getp c "sm_url");
     url ← lift (getp c "url");
     instance ← lift (getp i0 "service_instance_id");
     mret (JObj [("clientId", clientid); ("clientSecret", clientsecret); ("smURL", sm_url);
                 ("url", url); ("instanceId", instance)])).

Definition provisionPlatform (creds : AdminCreds) (svcatPlatform : string) : M X jsval :=
  during (login_args creds) (smctl_login creds) ;;
  let args := ["register-platform"; svcatPlatform; "kubernetes"; "-o"; "json"] in
  during args
    (out ← smctl args;
     stdout ← lift (getp out "stdout");
     platform ← lift (parse stdout);
     id ← lift (getp platform "id");
     name ← lift (getp platform "name");
     basic ← lift (getpath platform ["credentials"; "basic"]);
     mret (JObj [("clusterId", id); ("name", name); ("credentials", basic)])).

(** One best-effort command: its failure is added to the collected errors. [check] inspects the
    output of a command that succeeded, [tail] renders what follows the error text. *)
Definition attempt (args : list string) (m : M X jsval) (check : jsval → result (list string))
    (tail : jsval → string) (errors : list string) : M X (list string) :=
  try_catch
    (out ← m; es ← lift (check out); mret (errors ++ es))
    (λ error,
      stderr ← lift (getp error "stderr");
      mret (errors ++ ["failed " +:+ quoted_command args +:+ ": " +:+ to_string stderr +:+ nl +:+ tail error])).

Definition accept_any (_ : jsval) : result (list string) := mret [].
Definition no_tail (_ : jsval) : string := "".

(** [if (stdout !== expected) errors = errors.concat(...)]. *)
Definition expect_stdout (args : list string) (expected : string) (out : jsval) : result (list string) :=
  stdout ← getp out "stdout";
  mret (if strict_eq stdout (JStr expected) then []
        else ["failed " +:+ quoted_command args +:+ ": " +:+ to_string stdout]).

(** [if (errors.length > 0) throw new Error(errors.join(', '))]. *)
Definition report (errors : list string) : M X unit :=
  match errors with [] => mret tt | _ => throw (mkError (join ", " errors)) end.

Definition migrate_args (svcatPlatform btpOperatorInstanceId : string) : list string :=
  ["curl"; "-X"; "PUT"; "-d"; to_string (stringify "" (JObj [("sourcePlatformID", JStr svcatPlatform)]));
   "/v1/migrate/service_operator/" +:+ btpOperatorInstanceId].

Definition markForMigration (creds : AdminCreds) (svcatPlatform btpOperatorInstanceId : string) : M X unit :=
  errors ← attempt (login_args creds) (smctl_login creds) accept_any no_tail [];
  let args := migrate_args svcatPlatform btpOperatorInstanceId in
  errors ← attempt args (smctl args) accept_any no_tail errors;
  report errors.

Definition unbind_args (btpOperatorInstance btpOperatorBinding : string) : list string :=
  ["unbind"; btpOperatorInstance; btpOperatorBinding; "-f"; "--mode=sync"].
Definition deprovision_args (btpOperatorInstance : string) : list string :=
  ["deprovision"; btpOperatorInstance; "-f"; "--mode=sync"].
Definition delete_args (svcatPlatform : string) : list string :=
  ["delete-platform"; svcatPlatform; "-f"; "--cascade"].

Definition cleanupInstanceBinding (creds : AdminCreds)
    (svcatPlatform btpOperatorInstance btpOperatorBinding : string) : M X unit :=
  errors ← attempt (login_args creds) (smctl_login creds) accept_any no_tail [];
  (let args := unbind_args btpOperatorInstance btpOperatorBinding in
   errors ← attempt args (smctl args) (expect_stdout args "Service Binding successfully deleted.")
              to_string errors;
   let args := deprovision_args btpOperatorInstance in
   errors ← attempt args (smctl args) (expect_stdout args "Service Instance successfully deleted.")
              to_string errors;
   let args := delete_args svcatPlatform in
   errors ← attempt args (smctl args) accept_any no_tail errors;
   report errors).

End smctl.

(** * Theorems *)

Section theorems.
Context {X : Type} `{Services X}.

(** A best-effort command runs, never throws, and adds errors exactly when it did not succeed. *)
Lemma attempt_run args c check tail errors (w : world X) :
  rejects_with_value X → (∀ out, nohang (check out)) → (∀ out, errs (check out)) →
  ∃ es, attempt args (invoke c) check tail errors w = (Ok (errors ++ es), after c w) ∧
    (es = [] ↔ ∃ out, answer c w = Ok out ∧ check out = Ok []).
Proof.
  intros Hrej Hnh Herr. unfold attempt. autorewrite with run.
  destruct (answer c w) as [out|e|] eqn:Ha; autorewrite with run.
  - destruct (check out) as [es|e|] eqn:Ec; autorewrite with run.
    + exists es. split; [done|]. split; [intros ->; by exists out|].
      intros (out' & [= <-] & Hc). congruence.
    + specialize (Herr out e Ec). destruct e as [| | | | | | | |n m [|]]; try done.
      unfold getp. simpl. autorewrite with run. eexists. split; [done|]. split; [done|].
      intros (out' & [= <-] & Hc). congruence.
    + by destruct (Hnh out).
  - rewrite getp_Ok by (by eapply answer_value). autorewrite with run. eexists. split; [done|]. split; [done|].
    by intros (out' & ? & _).
  - by apply answer_not_hang in Ha.
Qed.

Lemma expect_stdout_nil args expected out :
  expect_stdout args expected out = Ok [] ↔ getp out "stdout" = Ok (JStr expected).
Proof.
  unfold expect_stdout. destruct (getp out "stdout") as [s|e|]; simpl; [|done..].
  destruct (strict_eq s (JStr expected)) eqn:E.
  - apply strict_eq_str in E as ->. done.
  - split; [done|]. intros [= ->]. simpl in E. by rewrite String.eqb_refl in E.
Qed.

Lemma expect_stdout_nohang args expected out : nohang (expect_stdout args expected out).
Proof. unfold expect_stdout. walk_nohang. Qed.

Lemma expect_stdout_errs args expected out : errs (expect_stdout args expected out).
Proof. unfold expect_stdout. walk_errs. Qed.

(** The cleanup is best effort: whatever the commands answer, all four (login, unbind,
    deprovision, delete-platform) are run, in this order; it succeeds exactly when the login and
    the deletion of the platform succeeded and the other two printed their confirmation, and
    otherwise throws one Error with all the collected failures. *)
Theorem cleanupInstanceBinding_best_effort creds platform inst binding (w : world X) :
  rejects_with_value X →
  let c1 := CExeca "smctl" (login_args creds ++ ["--client-id"; ac_clientid creds;
              "--client-secret"; ac_clientsecret creds]) None in
  let c2 := CExeca "smctl" (unbind_args inst binding) None in
  let c3 := CExeca "smctl" (deprovision_args inst) None in
  let c4 := CExeca "smctl" (delete_args platform) None in
  let w1 := after c1 w in let w2 := after c2 w1 in let w3 := after c3 w2 in
  calls (cleanupInstanceBinding creds platform inst binding) w = [c1; c2; c3; c4] ∧
  ((cleanupInstanceBinding creds platform inst binding w).1 = Ok tt ↔
     (∃ o, answer c1 w = Ok o) ∧
     (∃ o, answer c2 w1 = Ok o ∧ getp o "stdout" = Ok (JStr "Service Binding successfully deleted.")) ∧
     (∃ o, answer c3 w2 = Ok o ∧ getp o "stdout" = Ok (JStr "Service Instance successfully deleted.")) ∧
     (∃ o, answer c4 w3 = Ok o)) ∧
  (cleanupInstanceBinding creds platform inst binding w).1 ≠ Hang.
Proof.
  intros Hrej c1 c2 c3 c4 w1 w2 w3.
  destruct (attempt_run (login_args creds) c1 accept_any no_tail [] w Hrej) as (e1 & R1 & N1); [done..|].
  destruct (attempt_run (unbind_args inst binding) c2
    (expect_stdout (unbind_args inst binding) "Service Binding successfully deleted.") to_string
    ([] ++ e1) w1 Hrej) as (e2 & R2 & N2); [apply expect_stdout_nohang|apply expect_stdout_errs|].
  destruct (attempt_run (deprovision_args inst) c3
    (expect_stdout (deprovision_args inst) "Service Instance successfully deleted.") to_string
    (([] ++ e1) ++ e2) w2 Hrej) as (e3 & R3 & N3); [apply expect_stdout_nohang|apply expect_stdout_errs|].
  destruct (attempt_run (delete_args platform) c4 accept_any no_tail ((([] ++ e1) ++ e2) ++ e3) w3 Hrej)
    as (e4 & R4 & N4); [done..|].
  set (es := (((([] ++ e1) ++ e2) ++ e3) ++ e4)) in *.
  assert (cleanupInstanceBinding creds platform inst binding w = report es (after c4 w3)) as Hrun.
  { unfold cleanupInstanceBinding, smctl_login, smctl.
    rewrite (bind_Ok _ _ _ _ _ R1). cbv zeta. rewrite (bind_Ok _ _ _ _ _ R2).
    rewrite (bind_Ok _ _ _ _ _ R3). by rewrite (bind_Ok _ _ _ _ _ R4). }
  assert (es = [] ↔ (e1 = [] ∧ e2 = [] ∧ e3 = [] ∧ e4 = [])) as Hes.
  { unfold es. split; [|by intros (-> & -> & -> & ->)].
    intros [[[E ->]%app_eq_nil ->]%app_eq_nil ->]%app_eq_nil. done. }
  clearbody es. rewrite Hrun. split_and!.
  - assert (∃ r, report es (after c4 w3) = (r, after c4 w3)) as [r Hr] by (destruct es; by eexists).
    eapply calls_intro; [by rewrite Hrun, Hr|]. simpl. by rewrite <- !app_assoc.
  - setoid_rewrite expect_stdout_nil in N2. setoid_rewrite expect_stdout_nil in N3.
    transitivity (es = []); [unfold report; by destruct es|]. rewrite Hes, N1, N2, N3, N4.
    unfold accept_any. split; intros (H1 & H2 & H3 & H4); split_and!; try done;
      destruct H1 as (o1 & H1), H4 as (o4 & H4); naive_solver.
  - unfold report. by destruct es.
Qed.

(** The two requests read the operator credentials under different names. Credentials of the
    class [BTPOperatorCreds] reach the broker when an SKR is provisioned, but the same object
    yields an update request whose client id and secret are undefined. *)
Theorem operator_creds_lost_on_update keb name c customParams isMigration :
  let sent (k : string) (p : result jsval) :=
    v ← p; getpath v ["context"; "sm_operator_credentials"; k] in
  let provision := buildPayload keb name JUndef (btp_object c) customParams in
  let update := update_payload keb customParams (btp_object c) isMigration in
  sent "clientid" provision = Ok (JStr (bc_clientid c)) ∧
  sent "clientsecret" provision = Ok (JStr (bc_clientsecret c)) ∧
  sent "clientid" update = Ok JUndef ∧ sent "clientsecret" update = Ok JUndef ∧
  sent "sm_url" update = Ok (JStr (bc_smURL c)).
Proof. done. Qed.

End theorems.

(** * A concrete run *)

Lemma cleanupInstanceBinding_best_effort_witness :
  length (calls (cleanupInstanceBinding (mkAdminCreds "id" "secret" "https://sm") "p" "i" "b") steady) = 4 ∧
  (cleanupInstanceBinding (mkAdminCreds "id" "secret" "https://sm") "p" "i" "b" steady).1 ≠ Hang.
Proof.
  destruct (cleanupInstanceBinding_best_effort (mkAdminCreds "id" "secret" "https://sm") "p" "i" "b" steady
    steady_rejects) as (H1 & _ & H3).
  split; [rewrite H1; reflexivity|exact H3].
Defined.
