(* ===== verification/Gardener.v ===== *)
(** gardener/client.js: the Gardener client. *)

From S2P Require Import Prelude JsValue Json Buffer Effects Script UtilsCore Timers Watch.

Record GardenerConfig := mkGardenerConfig {
  gc_kubeconfigPath : jsval; gc_kubeconfig : jsval; gc_shootTemplate : jsval
}.

(** A client. Its API members are undefined when no kubeconfig was provided: the constructor's
    [return null] does not replace the object under construction. *)
Record GardenerClient := mkGardenerClient { gd_api : option kubesrc; gd_shootTemplate : jsval }.

Definition COMPASS_ID_ANNOTATION_KEY : string := "compass.provisioner.kyma-project.io/runtime-id".

(** * [String.prototype.replace] with a literal pattern and the flag [g] *)

(** The replacement text for a match of [m] between [before] and [after]: [$$], [$&], [$`] and
    [$'] are special. *)
Fixpoint expand (m before after rep : string) : string :=
  match rep with
  | EmptyString => EmptyString
  | String c r =>
      if Ascii.eqb c (Ascii.ascii_of_nat 36) then
        match r with
        | String d r' =>
            match Ascii.nat_of_ascii d with
            | 36 => String c (expand m before after r')
            | 38 => m +:+ expand m before after r'
            | 96 => before +:+ expand m before after r'
            | 39 => after +:+ expand m before after r'
            | _ => String c (expand m before after r)
            end
        | EmptyString => String c EmptyString
        end
      else String c (expand m before after r)
  end.

(** [k] counts the characters of a match still to be skipped; [before] is the text read so far. *)
Fixpoint replace_aux (pat rep : string) (k : nat) (before s : string) : string :=
  match s with
  | EmptyString => EmptyString
  | String c r =>
      match k with
      | S k' => replace_aux pat rep k' (before +:+ String c "") r
      | O =>
          match strip_prefix pat s with
          | Some rest =>
              expand pat before rest rep +:+
              replace_aux pat rep (String.length pat - 1) (before +:+ String c "") r
          | None => String c (replace_aux pat rep 0 (before +:+ String c "") r)
          end
      end
  end.

Definition replace_all (s pat rep : string) : string := replace_aux pat rep 0 "" s.

Section gardener.
Context {X : Type} `{Services X}.

(** [process.env.KCP_GARDENER_NAMESPACE || 'garden-kyma-dev']. *)
Definition GARDENER_PROJECT : M X string :=
  ns ← getenv "KCP_GARDENER_NAMESPACE";
  mret (if truthy (env_val ns) then to_string (env_val ns) else "garden-kyma-dev").

Definition GardenerConfig_fromEnv : M X GardenerConfig :=
  path ← getenv "GARDENER_KUBECONFIG";
  template ← getenv "GARDENER_SHOOT_TEMPLATE";
  mret (mkGardenerConfig (env_val path) JUndef (env_val template)).

Definition GardenerConfig_fromString (kubeconfig : jsval) : GardenerConfig :=
  mkGardenerConfig JUndef kubeconfig JUndef.

Definition new_GardenerClient (config : GardenerConfig) : M X GardenerClient :=
  let connect src :=
    console_log [JStr "Using Gardener kubeconfig"] ;;
    invoke (CKubeLoad src) ;;
    invoke (CKubeClient src "CoreV1Api") ;;
    invoke (CKubeClient src "KubernetesObjectApi") ;;
    mret (mkGardenerClient (Some src) (gc_shootTemplate config)) in
  if truthy (gc_kubeconfigPath config) then connect (KFile (to_string (gc_kubeconfigPath config)))
  else if truthy (gc_kubeconfig config) then connect (KString (to_string (gc_kubeconfig config)))
  else
    console_log [JStr "Unable to create GardenerClient - no Gardener kubeconfig provided"] ;;
    mret (mkGardenerClient None JUndef).

(** [this.api.method(...)]: an undefined member throws. *)
Definition api (g : GardenerClient) (method : string) : M X kubesrc :=
  match gd_api g with
  | Some src => mret src
  | None => throw (cannot_read JUndef method)
  end.

(** [fromBase64(v)]: [Buffer.from] accepts strings only. *)
Definition fromBase64_call (v : jsval) : result jsval :=
  match v with
  | JStr s => Ok (JStr (fromBase64 s))
  | _ => Throw (typeError "The first argument must be of type string or an instance of Buffer")
  end.

(** [.catch((err) => ...)] of the object API calls: logs the message of the API server. *)
Definition log_api_error (err : jsval) : M X unit :=
  message ← lift (getpath err ["body"; "message"]);
  error [JStr ("Got the error with response " +:+ to_string (stringify "" message))].

Definition shoot_ref (name : string) (project : string) : jsval :=
  JObj [("apiVersion", JStr "core.gardener.cloud/v1beta1"); ("kind", JStr "Shoot");
        ("metadata", JObj [("name", JStr name); ("namespace", JStr project)])].

(** The check of [waitForShoot]. The debug output of the callback is not modelled, only the
    reads it makes, which throw on a shoot without a last operation. *)
Definition shoot_ready (shootName lastOpType : string) (_type _apiObj watchObj : jsval) : result bool :=
  name ← getpath watchObj ["object"; "metadata"; "name"];
  if negb (loose_eq_str name shootName) then mret false
  else
    lastOperation ← getpath watchObj ["object"; "status"; "lastOperation"];
    type ← getp lastOperation "type";
    state ← getp lastOperation "state";
    mret (loose_eq_str type lastOpType && loose_eq_str state "Succeeded").

Definition waitForShoot (g : GardenerClient) (shootName lastOpType : string) : M X jsval :=
  project ← GARDENER_PROJECT;
  (* an undefined watcher falls back to the watch of utils/index.js *)
  own_watch ← get_world w_kube;
  waitForK8sObject (default own_watch (gd_api g))
    ("/apis/core.gardener.cloud/v1beta1/namespaces/" +:+ project +:+ "/shoots") (JObj [])
    (shoot_ready shootName lastOpType) (1200 * 1000) "Waiting for shoot to be ready timeout".

Definition getShoot (g : GardenerClient) (shootName : string) : M X jsval :=
  project ← GARDENER_PROJECT;
  debug [JStr ("Fetching shoot: " +:+ shootName +:+ " from gardener namespace: " +:+ project)] ;;
  src ← api g "readNamespacedSecret";
  secretResp ← invoke (CKubeSecret src (shootName +:+ ".kubeconfig") project);
  shootResp ← invoke (CKubeObj src "read" (shoot_ref shootName project));
  annotations ← lift (getpath shootResp ["body"; "metadata"; "annotations"]);
  compassID ← lift (getp annotations COMPASS_ID_ANNOTATION_KEY);
  encoded ← lift (getpath secretResp ["body"; "data"; "kubeconfig"]);
  kubeconfig ← lift (fromBase64_call encoded);
  oidcConfig ← lift (getpath shootResp ["body"; "spec"; "kubernetes"; "kubeAPIServer"; "oidcConfig"]);
  shootDomain ← lift (getpath shootResp ["body"; "spec"; "dns"; "domain"]);
  spec ← lift (getpath shootResp ["body"; "spec"]);
  mret (JObj [("name", JStr shootName); ("compassID", compassID); ("kubeconfig", kubeconfig);
              ("oidcConfig", oidcConfig); ("shootDomain", shootDomain); ("spec", spec)]).

(** The manifest of a new shoot: both placeholders of the decoded template filled in. *)
Definition shoot_manifest (template shootName project : string) : string :=
  replace_all (replace_all template "<SHOOT>" shootName) "<NAMESPACE>" project.

(** Without a template the Error is returned, not thrown. *)
Definition createShoot (g : GardenerClient) (shootName : string) : M X jsval :=
  debug [JStr "Creating a K8S cluster in gardener namespace"] ;;
  if negb (truthy (gd_shootTemplate g)) then
    error [JStr "No shoot Template"] ;;
    mret (mkError "no shoot template defined in the Gardener client")
  else
    data ← lift (fromBase64_call (gd_shootTemplate g));
    project ← GARDENER_PROJECT;
    shootTemplate ← invoke (CYaml (shoot_manifest (to_string data) shootName project));
    src ← api g "create";
    try_catch (invoke (CKubeObj src "create" shootTemplate) ;; mret tt) log_api_error ;;
    waitForShoot g shootName "Create" ;;
    getShoot g shootName.

Definition deleteShoot (g : GardenerClient) (name : string) : M X unit :=
  project ← GARDENER_PROJECT;
  src ← api g "delete";
  try_catch (invoke (CKubeObj src "delete" (shoot_ref name project)) ;; mret tt) log_api_error.

(** * Lemmas *)

Lemma GARDENER_PROJECT_run w : ∃ p, GARDENER_PROJECT w = (Ok p, w).
Proof. by eexists. Qed.

Lemma fromBase64_call_nohang v : nohang (fromBase64_call v).
Proof. by destruct v. Qed.

Lemma GARDENER_PROJECT_settles : settles GARDENER_PROJECT.
Proof. unfold GARDENER_PROJECT, getenv. walk_settles. Qed.

Lemma api_settles g method : settles (api g method).
Proof. unfold api. walk_settles. Qed.

End gardener.

#[export] Hint Resolve fromBase64_call_nohang : nohang.
#[export] Hint Resolve GARDENER_PROJECT_settles api_settles : settles.

Lemma getShoot_appends {X} `{Services X} g n : appends (getShoot g n).
Proof. unfold getShoot, GARDENER_PROJECT, api, getenv. walk_appends. Qed.

#[export] Hint Resolve getShoot_appends : appends.

Lemma getShoot_settles {X} `{Services X} g n : settles (getShoot g n).
Proof. unfold getShoot. walk_settles. Qed.

#[export] Hint Resolve getShoot_settles : settles.

(** ** Filling in a template *)

(** The replacement text has no special pattern. *)
Fixpoint literal (s : string) : bool :=
  match s with
  | EmptyString => true
  | String c r => negb (Ascii.eqb c (Ascii.ascii_of_nat 36)) && literal r
  end.

Lemma expand_literal m before after rep : literal rep = true → expand m before after rep = rep.
Proof.
  induction rep as [|c r IH]; [done|]. simpl. destruct (Ascii.eqb c _); [done|].
  simpl. intros Hr. by rewrite IH.
Qed.

Lemma replace_aux_skip pat rep (p s before : string) :
  replace_aux pat rep (String.length p) before (p +:+ s) = replace_aux pat rep 0 (before +:+ p) s.
Proof.
  revert before. induction p as [|c p IH]; intros before.
  - rewrite sapp_nil_r. done.
  - simpl. rewrite IH, sapp_assoc. done.
Qed.

(** Replacing is splitting at the pattern and joining with the replacement. *)
Lemma replace_aux_join pat rep (s before cur : string) :
  pat ≠ "" → literal rep = true →
  cur +:+ replace_aux pat rep 0 before s = join rep (split_aux pat 0 cur s).
Proof.
  intros Hp Hl. revert before cur.
  induction s as [s IH] using (induction_ltof1 _ String.length); intros before cur.
  destruct s as [|c s]; simpl; [by rewrite sapp_nil_r|].
  destruct (strip_prefix pat (String c s)) as [r|] eqn:E.
  - apply strip_prefix_Some in E. destruct pat as [|d pat]; [done|].
    simpl in E. injection E as -> ->. rewrite join_cons by apply split_aux_ne.
    simpl String.length. rewrite Nat.sub_succ, Nat.sub_0_r, split_aux_skip, replace_aux_skip.
    rewrite expand_literal by done. f_equal. f_equal.
    rewrite <- (IH r ltac:(unfold ltof; simpl; rewrite slength_app; lia)
                ((before +:+ String d "") +:+ pat) ""). done.
  - rewrite <- (IH s ltac:(unfold ltof; simpl; lia) (before +:+ String c "")).
    by rewrite sapp_assoc.
Qed.

(** * Theorems *)

Section theorems.
Context {X : Type} `{Services X}.

(** The manifest sent to Gardener is the template with every [<SHOOT>] replaced by the shoot
    name and then every [<NAMESPACE>] by the project, all other text unchanged; this holds for
    names without [$], which [String.replace] would interpret. *)
Theorem shoot_manifest_spec template shootName project :
  literal shootName = true → literal project = true →
  shoot_manifest template shootName project =
    join project (split "<NAMESPACE>" (join shootName (split "<SHOOT>" template))).
Proof.
  intros Hs Hp. unfold shoot_manifest, replace_all, split.
  rewrite <- (replace_aux_join "<SHOOT>" shootName template "" "") by done.
  by rewrite <- (replace_aux_join "<NAMESPACE>" project _ "" "").
Qed.

(** [new GardenerClient] without a kubeconfig does not fail and does not yield null: it returns
    a client without API members, whose [getShoot] then throws a TypeError before it calls
    anything. *)
Theorem gardener_without_kubeconfig config name (w : world X) :
  truthy (gc_kubeconfigPath config) = false → truthy (gc_kubeconfig config) = false →
  ∃ g w1 w2, new_GardenerClient config w = (Ok g, w1) ∧
    getShoot g name w1 = (Throw (cannot_read JUndef "readNamespacedSecret"), w2) ∧
    w_trace w2 = w_trace w.
Proof.
  intros H1 H2. unfold new_GardenerClient. rewrite H1, H2. autorewrite with run. eexists _, _, _.
  split; [done|]. unfold getShoot, GARDENER_PROJECT, getenv. autorewrite with run. unfold api. simpl.
  autorewrite with run. split; [done|]. by autorewrite with frame.
Qed.

Lemma shoot_carries_object name ty es : carries_object (shoot_ready name ty) es.
Proof.
  intros e _ Hc. unfold shoot_ready in Hc. apply result_bind_Ok in Hc as (n & Hn & _).
  apply result_bind_Ok in Hn as (o & Ho & _). unfold getp in Ho. by destruct (nullish (ev_obj e)).
Qed.

(** Once its watch is open, [waitForShoot] resolves with the first object delivered before the
    deadline that is the named shoot with its last operation of the wanted type succeeded, and
    otherwise rejects after the fixed twenty minutes. *)
Theorem waitForShoot_contract src template name ty (w : world X) d es x project :
  GARDENER_PROJECT w = (Ok project, w) →
  watch_of src ("/apis/core.gardener.cloud/v1beta1/namespaces/" +:+ project +:+ "/shoots") (JObj [])
    (w_ext w) = (WatchScript (inr d) es, x) →
  let run := waitForShoot (mkGardenerClient (Some src) template) name ty w in
  ∃ e, watch_contract (shoot_ready name ty) "Waiting for shoot to be ready timeout"
         (w_now w + Z.of_N d + 1200000) (schedule (w_now w) es) e ∧
    run.1 = we_out e ∧ w_now run.2 = we_time e.
Proof.
  intros Hp Hw. cbv zeta. unfold waitForShoot. rewrite (bind_Ok _ _ _ _ _ Hp). autorewrite with run.
  eexists. split; [|exact (waitForK8sObject_run _ _ _ _ (1200 * 1000) _ _ _ _ Hw)].
  apply watch_run_contract; [apply ordered_schedule|apply shoot_carries_object].
Qed.

End theorems.

(** * Concrete runs *)

Lemma shoot_manifest_spec_witness :
  shoot_manifest "name: <SHOOT>, namespace: <NAMESPACE>" "c-1" "garden-kyma-dev" =
    "name: c-1, namespace: garden-kyma-dev".
Proof.
  rewrite (shoot_manifest_spec "name: <SHOOT>, namespace: <NAMESPACE>" "c-1" "garden-kyma-dev" eq_refl eq_refl).
  reflexivity.
Defined.

Definition shoot_event (ty state : string) : N * (jsval * jsval * jsval) :=
  (10%N, (JStr "MODIFIED", JUndef, JObj [("object", JObj [("metadata", JObj [("name", JStr "c-1")]);
    ("status", JObj [("lastOperation", JObj [("type", JStr ty); ("state", JStr state)])])])])).

Lemma waitForShoot_contract_witness :
  ∃ e, watch_contract (shoot_ready "c-1" "Create") "Waiting for shoot to be ready timeout"
         (0 + 5 + 1200000) (schedule 0 [shoot_event "Create" "Succeeded"]) e ∧
    (waitForShoot (mkGardenerClient (Some KDefault) JUndef) "c-1" "Create"
       (watching (WatchScript (inr 5%N) [shoot_event "Create" "Succeeded"]))).1 = we_out e ∧
    w_now (waitForShoot (mkGardenerClient (Some KDefault) JUndef) "c-1" "Create"
       (watching (WatchScript (inr 5%N) [shoot_event "Create" "Succeeded"]))).2 = we_time e.
Proof.
  exact (waitForShoot_contract KDefault JUndef "c-1" "Create"
    (watching (WatchScript (inr 5%N) [shoot_event "Create" "Succeeded"])) 5 [shoot_event "Create" "Succeeded"]
    (Script [] [] []) "garden-kyma-dev" eq_refl eq_refl).
Defined.

Lemma gardener_without_kubeconfig_witness :
  ∃ g w1 w2, new_GardenerClient (mkGardenerConfig JUndef JUndef JUndef) steady = (Ok g, w1) ∧
    getShoot g "c-1" w1 = (Throw (cannot_read JUndef "readNamespacedSecret"), w2) ∧
    w_trace w2 = w_trace steady.
Proof. exact (gardener_without_kubeconfig (mkGardenerConfig JUndef JUndef JUndef) "c-1" steady eq_refl eq_refl). Defined.
