(* ===== verification/KebHelpers.v ===== *)
(** kyma-environment-broker/helpers.js: provisioning, updating and deprovisioning an SKR through the
    broker and following the operation. *)

From S2P Require Import Prelude JsValue Json Buffer Effects Script Chai UtilsCore Timers OAuth KebClient.
From S2P Require Import RegExp KcpClient Watch Gardener.

(** [res && res.state && (res.state === 'succeeded' || res.state === 'failed')]. *)
Definition operation_done (res : jsval) : result bool :=
  if truthy res then
    state ← getp res "state";
    mret (truthy state && (strict_eq state (JStr "succeeded") || strict_eq state (JStr "failed")))
  else mret false.

(** [data[0].status.gardenerConfig.k] and the other nested paths of the assertions. *)
Definition shootName_path : list pathseg := [PKey "data"; PIdx 0; PKey "shootName"].
Definition gardener_path (k : string) : list pathseg :=
  [PKey "data"; PIdx 0; PKey "status"; PKey "gardenerConfig"; PKey k].

Section helpers.
Context {X : Type} `{Services X} `{Chai}.

(** [expect(v).to.have.nested.property(p).not.empty]: the second assertion is about the property. *)
Definition expect_nested_not_empty (v : jsval) (p : list pathseg) : M X unit :=
  expect (has_nested v p) ;;
  expect (not_empty (default JUndef (at_path v p))).

Definition ensureOperationSucceeded (keb : KEBClient) (kcp : KCPWrapper) (instanceID : string)
    (operationID : jsval) (timeout : Z) : M X jsval :=
  res ← try_catch
    (wait (getOperation keb instanceID operationID) operation_done timeout (1000 * 30))
    (λ err,
      runtimeStatus ← getRuntimeStatusOperations kcp instanceID;
      events ← getRuntimeEvents kcp instanceID;
      let msg := to_string err +:+ nl +:+ "Error thrown by ensureOperationSucceeded: Runtime status: "
                 +:+ to_string runtimeStatus in
      throw (mkError (msg +:+ nl +:+ "Events:" +:+ nl +:+ to_string events)));
  state ← lift (getp res "state");
  if negb (strict_eq state (JStr "succeeded")) then
    runtimeStatus ← getRuntimeStatusOperations kcp instanceID;
    throw (mkError ("Error thrown by ensureOperationSucceeded: operation didn't succeed in time:" +:+ nl
                    +:+ "     " +:+ to_string (stringify tab res) +:+ nl +:+ "Runtime status: "
                    +:+ to_string runtimeStatus))
  else
    console_log [JStr ("Operation " +:+ to_string operationID +:+ " finished with state " +:+ to_string state)] ;;
    mret res.

(** [objRuntimeGardenerConfig.data[0].status.gardenerConfig.k]. *)
Definition gardener_config (o : jsval) (k : string) : result jsval :=
  data ← getp o "data"; d0 ← geti data 0; getpath d0 ["status"; "gardenerConfig"; k].

Definition getShoot_kcp (kcp : KCPWrapper) (shootName : jsval) : M X jsval :=
  debug [JStr ("Fetching shoot: " +:+ to_string shootName)] ;;
  kubeconfigPath ← getKubeconfig kcp (to_string shootName);
  text ← getRuntimeGardenerConfig kcp (to_string shootName);
  o ← lift (parse text);
  expect_nested_not_empty o (gardener_path "oidcConfig") ;;
  expect_nested_not_empty o (gardener_path "machineType") ;;
  oidcConfig ← lift (gardener_config o "oidcConfig");
  machineType ← lift (gardener_config o "machineType");
  mret (JObj [("name", shootName); ("kubeconfig", kubeconfigPath); ("oidcConfig", oidcConfig);
              ("machineType", machineType)]).

(** [objRuntimeStatus.data[0].shootName]. *)
Definition first_shoot_name (o : jsval) : result jsval :=
  data ← getp o "data"; d0 ← geti data 0; getp d0 "shootName".

Definition provisionSKR_op (keb : KEBClient) (kcp : KCPWrapper) (gardener : GardenerClient)
    (instanceID : string) (name platformCreds btpOperatorCreds customParams : jsval) (timeout : Z)
    : M X jsval :=
  resp ← provisionSKR keb name instanceID platformCreds btpOperatorCreds customParams;
  expect (has_property resp "operation") ;;
  operationID ← lift (getp resp "operation");
  debug [JStr ("Operation ID " +:+ to_string operationID)] ;;
  ensureOperationSucceeded keb kcp instanceID operationID timeout ;;
  debug [JStr "Fetching runtime operation status..."] ;;
  runtimeStatus ← getRuntimeStatusOperations kcp instanceID;
  o ← lift (parse runtimeStatus);
  expect_nested_not_empty o shootName_path ;;
  viaGardener ← getenv "GARDENER_KUBECONFIG";
  shoot ← (if truthy (env_val viaGardener) then
             debug [JStr "Fetching shoot info from gardener..."] ;;
             shootName ← lift (first_shoot_name o);
             shoot ← getShoot gardener (to_string shootName);
             compassID ← lift (getp shoot "compassID");
             debug [JStr ("Compass ID " +:+ to_string compassID)] ;;
             mret shoot
           else
             debug [JStr "Fetching shoot info using kcp cli..."] ;;
             shootName ← lift (first_shoot_name o);
             getShoot_kcp kcp shootName);
  mret (JObj [("operationID", operationID); ("shoot", shoot)]).

Definition deprovisionSKR_op (keb : KEBClient) (kcp : KCPWrapper) (instanceID : string) (timeout : Z)
    (ensureSuccess : bool) : M X jsval :=
  resp ← deprovisionSKR keb instanceID;
  expect (has_property resp "operation") ;;
  operationID ← lift (getp resp "operation");
  console_log [JStr ("Deprovision SKR - operation ID " +:+ to_string operationID)] ;;
  (if ensureSuccess then ensureOperationSucceeded keb kcp instanceID operationID timeout ;; mret tt
   else mret tt) ;;
  mret operationID.

Definition updateSKR_op (keb : KEBClient) (kcp : KCPWrapper) (gardener : GardenerClient)
    (instanceID : string) (shootName customParams : jsval) (timeout : Z)
    (btpOperatorCreds isMigration : jsval) : M X jsval :=
  resp ← updateSKR keb instanceID customParams btpOperatorCreds isMigration;
  expect (has_property resp "operation") ;;
  operationID ← lift (getp resp "operation");
  debug [JStr ("Operation ID " +:+ to_string operationID)] ;;
  ensureOperationSucceeded keb kcp instanceID operationID timeout ;;
  viaGardener ← getenv "GARDENER_KUBECONFIG";
  shoot ← (if truthy (env_val viaGardener) then getShoot gardener (to_string shootName)
           else getShoot_kcp kcp shootName);
  mret (JObj [("operationID", operationID); ("shoot", shoot)]).

Definition ensureValidShootOIDCConfig (shoot targetOIDCConfig : jsval) : M X unit :=
  for_each (λ k, v ← lift (getp targetOIDCConfig k);
                 expect (has_nested_value shoot [PKey "oidcConfig"; PKey k] v))
    ["clientID"; "issuerURL"; "groupsClaim"; "usernameClaim"; "usernamePrefix"] ;;
  actual ← lift (getpath shoot ["oidcConfig"; "signingAlgs"]);
  wanted ← lift (getp targetOIDCConfig "signingAlgs");
  expect (eql actual wanted).

(** The client class has no method [getRuntime]. *)
Definition getShootName (keb : KEBClient) (instanceID : string) : M X jsval :=
  throw (typeError "keb.getRuntime is not a function").

Definition getCatalog_op (keb : KEBClient) : M X jsval := getCatalog keb.

(** [expect(v).to.match(re)], where [p] is the source of [re]: [re.exec] converts its argument to a
    string. *)
Definition expect_match `{RegExpRest} (v : jsval) (p : string) : M X unit :=
  found ← lift (regexp_test p (to_string v)); expect (matched found).

Definition ensureValidOIDCConfigInCustomerFacingKubeconfig `{RegExpRest} (keb : KEBClient)
    (instanceID : string) (oidcConfig : jsval) : M X unit :=
  kubeconfigContent ← try_catch (downloadKubeconfig keb instanceID) (λ err, console_log [err] ;; mret JUndef);
  issuerURL ← lift (getp oidcConfig "issuerURL");
  clientID ← lift (getp oidcConfig "clientID");
  expect_match kubeconfigContent (word_pattern (to_string issuerURL)) ;;
  expect_match kubeconfigContent (word_pattern (to_string clientID)).

(** [fs.writeFileSync(path, data)] for text. *)
Definition writeFileSync (path : string) (data : jsval) : M X unit :=
  match data with
  | JStr s => write_file path s
  | _ => throw (typeError "The data argument must be of type string or an instance of Buffer")
  end.

Definition saveKubeconfig (kubeconfig : jsval) : M X unit :=
  let directory := homedir +:+ "/.kube" in
  exists_ ← get_world (λ w, bool_decide (directory ∈ w_dirs w));
  (if (exists_ : bool) then mret tt else modify (λ w, set_dirs ({[directory]} ∪ w_dirs w) w)) ;;
  writeFileSync (directory +:+ "/config") kubeconfig.

End helpers.

(** * Lemmas *)

Section lemmas.
Context {X : Type} `{Services X}.

Lemma getSKR_settles keb i : settles (getSKR keb i).
Proof. unfold getSKR. walk_settles. Qed.

Lemma toString_settles {B} v (k : string → M X B) :
  (∀ s, settles (k s)) → settles (s ← lift (toString_call v); k s).
Proof. intros Hk. apply settles_bind; [apply settles_lift, nohang_toString|done]. Qed.

Lemma getOperation_settles keb i o : settles (getOperation keb i o).
Proof. unfold getOperation. walk_settles. Qed.

Lemma buildPayload_nohang keb n p b c : nohang (buildPayload keb n p b c).
Proof. unfold buildPayload. walk_nohang. Qed.

Lemma update_payload_nohang keb c b m : nohang (update_payload keb c b m).
Proof. unfold update_payload. walk_nohang. Qed.

Hint Resolve buildPayload_nohang update_payload_nohang : nohang.

Lemma provisionSKR_settles keb n i p b c : settles (provisionSKR keb n i p b c).
Proof. unfold provisionSKR. walk_settles. Qed.

Lemma updateSKR_settles keb i c b m : settles (updateSKR keb i c b m).
Proof. unfold updateSKR. walk_settles. Qed.

Lemma deprovisionSKR_settles keb i : settles (deprovisionSKR keb i).
Proof. unfold deprovisionSKR. walk_settles. Qed.

Lemma getRuntimeStatusOperations_raises kcp i : raises (X := X) (getRuntimeStatusOperations kcp i).
Proof.
  unfold getRuntimeStatusOperations, login, getenv.
  walk_raises; first [apply exec_raises|apply runtimes_raises].
Qed.

Lemma getRuntimeEvents_raises kcp i : raises (X := X) (getRuntimeEvents kcp i).
Proof. unfold getRuntimeEvents, login, getenv. walk_raises; apply exec_raises. Qed.

(** An Error returned by [getOperation] does not end the polling. *)
Lemma operation_done_error e : is_error e = true → operation_done e = Ok false.
Proof. by destruct e as [| | | | | | | |n m [|]]. Qed.

Lemma operation_done_state res : operation_done res = Ok true →
  getp res "state" = Ok (JStr "succeeded") ∨ getp res "state" = Ok (JStr "failed").
Proof.
  unfold operation_done. destruct (truthy res); [|done]. intros Hd.
  apply result_bind_Ok in Hd as (st & Hst & Hd). rewrite Hst. injection Hd as Hd.
  apply andb_true_iff in Hd as [_ Hd]. apply orb_true_iff in Hd as [Hd|Hd]; apply strict_eq_str in Hd as ->; auto.
Qed.

End lemmas.

#[export] Hint Resolve buildPayload_nohang update_payload_nohang : nohang.
#[export] Hint Resolve getOperation_settles getSKR_settles provisionSKR_settles updateSKR_settles
  deprovisionSKR_settles : settles.
#[export] Hint Resolve getRuntimeStatusOperations_raises getRuntimeEvents_raises : raises.

Section outcome.
Context {X : Type} `{Services X} `{Chai}.

(** The broker reported that the operation reached the state [succeeded]. *)
Definition reported_success (keb : KEBClient) (instanceID : string) (operationID res : jsval) : Prop :=
  getp res "state" = Ok (JStr "succeeded") ∧
  ∃ w1 w2 : world X, callKEB keb (JObj []) (instance_endpoint instanceID +:+
    "/last_operation?operation=" +:+ to_string operationID) "get" w1 = (Ok res, w2).

(** A value of [getOperation] that ends the polling was sent by the broker. *)
Lemma getOperation_done keb i op (w w' : world X) v :
  getOperation keb i op w = (Ok v, w') ∨ getOperation keb i op w = (Throw v, w') →
  operation_done v = Ok true →
  ∃ w1 w2 : world X, callKEB keb (JObj []) (instance_endpoint i +:+
    "/last_operation?operation=" +:+ to_string op) "get" w1 = (Ok v, w2).
Proof.
  intros Hg Hd. unfold getOperation in Hg.
  set (get := callKEB keb (JObj []) _ "get") in *.
  destruct (returned_error get (λ err, s ← lift (toString_call err); debug [JStr s] ;;
    mret (mkError ("error while checking SKR State: " +:+ s))) "error while checking SKR State" w)
    as [w1 Hw1]; [apply callKEB_settles|apply callKEB_raises| |].
  { intros [| | | | | | | |n m [|]] u He; try done. eexists. unfold toString_call. cbn [nullish].
    autorewrite with run. cbv iota. autorewrite with run. reflexivity. }
  rewrite Hw1 in Hg. destruct Hg as [Hg|Hg]; [|done]. injection Hg as Hv _.
  destruct (get w) as [[d|e|] w2] eqn:E; simpl in Hv; subst v; [by exists w, w2|done|done].
Qed.

Lemma ensureOperation_outcome keb kcp instanceID operationID timeout (w : world X) :
  match (ensureOperationSucceeded keb kcp instanceID operationID timeout w).1 with
  | Ok res => reported_success keb instanceID operationID res
  | Throw e => is_error e = true
  | Hang => False
  end.
Proof.
  assert (settles (ensureOperationSucceeded keb kcp instanceID operationID timeout)) as Hs.
  { unfold ensureOperationSucceeded. walk_settles. }
  assert (raises (ensureOperationSucceeded keb kcp instanceID operationID timeout)) as Hr.
  { unfold ensureOperationSucceeded, console_log. walk_raises. }
  specialize (Hs w).
  destruct (ensureOperationSucceeded keb kcp instanceID operationID timeout w) as [[res|e|] w'] eqn:E;
    simpl in *; [|by eapply raises_inv|done].
  unfold ensureOperationSucceeded in E. apply bind_Ok_inv in E as (res' & w1 & Hwait & E).
  apply try_Ok_inv in Hwait as [Hwait|(e & w2 & _ & Hh)].
  2: { do 2 (apply bind_Ok_inv in Hh as (? & ? & _ & Hh)). done. }
  apply wait_returned in Hwait as [Hck (w3 & w4 & Hfrom)].
  apply bind_Ok_inv in E as (st & u & [Hst ->]%lift_Ok_inv & E).
  destruct (strict_eq st (JStr "succeeded")) eqn:Es; simpl in E.
  2: { apply bind_Ok_inv in E as (? & ? & _ & E). done. }
  apply strict_eq_str in Es as ->. rewrite run_bind_log in E. injection E as -> _. split; [done|].
  eapply getOperation_done; [exact Hfrom|done].
Qed.

(** The path of the last operation of an instance. *)
Definition operation_endpoint (instanceID : string) (operationID : jsval) : string :=
  instance_endpoint instanceID +:+ "/last_operation?operation=" +:+ to_string operationID.

Lemma getOperation_appends keb i op : appends (X := X) (getOperation keb i op).
Proof. unfold getOperation. walk_appends. Qed.

(** The outcome of a poll that ends the polling is what the broker answered in it. *)
Lemma getOperation_answered keb i op (w w' : world X) v :
  getOperation keb i op w = (Ok v, w') ∨ getOperation keb i op w = (Throw v, w') →
  operation_done v = Ok true → broker_answered keb (JObj []) (operation_endpoint i op) "get" w w' v.
Proof.
  intros Hg Hd. unfold getOperation in Hg. destruct Hg as [Hg|Hg].
  - apply try_Ok_inv in Hg as [Hg|(e & w1 & _ & Hh)]; [by apply callKEB_answered|].
    apply bind_Ok_inv in Hh as (s & ? & _ & Hh). rewrite run_bind_debug in Hh. injection Hh as <- _. done.
  - unfold try_catch in Hg. destruct (callKEB _ _ _ _ w) as [[d|e|] w1] eqn:E; [done| |done].
    pose proof (raises_inv _ _ _ _ (callKEB_raises _ _ _ _) E) as He.
    destruct e as [| | | | | | | |n m [|]]; try done. unfold toString_call in Hg. cbn [nullish] in Hg.
    autorewrite with run in Hg. cbv iota in Hg. by autorewrite with run in Hg.
Qed.

(** What [ensureOperationSucceeded] returns was answered by the broker during the run. *)
Lemma ensureOperation_within keb kcp i op t (w w' : world X) res :
  ensureOperationSucceeded keb kcp i op t w = (Ok res, w') →
  getp res "state" = Ok (JStr "succeeded") ∧
  broker_answered keb (JObj []) (operation_endpoint i op) "get" w w' res.
Proof.
  intros E. unfold ensureOperationSucceeded in E. apply bind_Ok_inv in E as (res' & w1 & Hwait & E).
  apply try_Ok_inv in Hwait as [Hwait|(e & w2 & _ & Hh)].
  2: { do 2 (apply bind_Ok_inv in Hh as (? & ? & _ & Hh)). done. }
  apply wait_within in Hwait as [Hck (w3 & w4 & Hf & Hfrom & Hf')]; [|apply getOperation_appends].
  apply bind_Ok_inv in E as (st & u & [Hst ->]%lift_Ok_inv & E).
  destruct (strict_eq st (JStr "succeeded")) eqn:Es; simpl in E.
  2: { apply bind_Ok_inv in E as (? & ? & _ & E). done. }
  apply strict_eq_str in Es as ->. rewrite run_bind_log in E. injection E as -> <-. split; [done|].
  eapply answered_during; [exact Hf|by apply getOperation_answered|].
  etrans; [exact Hf'|by apply follows_inside].
Qed.

Lemma ensureOperation_settles keb kcp i op t : settles (ensureOperationSucceeded (X := X) keb kcp i op t).
Proof. intros w Hh. pose proof (ensureOperation_outcome keb kcp i op t w) as Ho. by rewrite Hh in Ho. Qed.

End outcome.

#[export] Hint Resolve ensureOperation_settles : settles.

(** * Theorems *)

Section theorems.
Context {X : Type} `{Services X} `{Chai}.

Lemma expect_match_appends `{RegExpRest} v p : appends (X := X) (expect_match v p).
Proof. unfold expect_match. walk_appends. Qed.

Lemma downloadKubeconfig_appends keb i : appends (X := X) (downloadKubeconfig keb i).
Proof. unfold downloadKubeconfig. walk_appends. Qed.

Lemma kubeconfig_check_appends `{RegExpRest} keb i config :
  appends (X := X) (ensureValidOIDCConfigInCustomerFacingKubeconfig keb i config).
Proof.
  unfold ensureValidOIDCConfigInCustomerFacingKubeconfig. walk_appends;
    first [apply downloadKubeconfig_appends|apply expect_match_appends].
Qed.

Lemma shoot_check_appends shoot target : appends (X := X) (ensureValidShootOIDCConfig shoot target).
Proof. unfold ensureValidShootOIDCConfig. walk_appends. apply appends_for_each. intros. walk_appends. Qed.

(** C36: [ensureOperationSucceeded] settles, as every call to the outside is answered in the model; it returns only a response of the broker for
    this operation whose state is [succeeded]: failed calls, other states, a failed operation and
    the timeout all end in an Error. *)
Theorem ensureOperationSucceeded_spec keb kcp instanceID operationID timeout (w : world X) :
  match (ensureOperationSucceeded keb kcp instanceID operationID timeout w).1 with
  | Ok res => reported_success (X := X) keb instanceID operationID res
  | Throw e => is_error e = true
  | Hang => False
  end.
Proof. apply ensureOperation_outcome. Qed.

(** Between [w] and [w'] the broker accepted the request with operation [op], and after that reported
    this operation of the instance as succeeded. *)
Definition completed (keb : KEBClient) (instanceID : string) (payload : jsval) (endpoint verb : string)
    (op : jsval) (w w' : world X) : Prop :=
  ∃ resp res w1, broker_answered keb payload endpoint verb w w1 resp ∧ own resp "operation" = Some op ∧
    broker_answered keb (JObj []) (operation_endpoint instanceID op) "get" w1 w' res ∧
    getp res "state" = Ok (JStr "succeeded").

(** The answer to a request is checked for an operation before it is used. *)
Lemma operation_checked `{!ChaiLaws H0} {B} resp (k : jsval → M X B) (w w' : world X) v :
  (expect (has_property resp "operation") ;; operationID ← lift (getp resp "operation"); k operationID) w = (Ok v, w') →
  ∃ op, own resp "operation" = Some op ∧ k op w = (Ok v, w').
Proof.
  intros E. apply bind_Ok_inv in E as (? & w1 & Hx & E). destruct (has_property resp "operation") eqn:Eh; [done|].
  injection Hx as _ <-. apply has_property_law in Eh as [op Hop]; [|by vm_compute; set_solver].
  apply bind_Ok_inv in E as (op' & ? & [Hg ->]%lift_Ok_inv & E). exists op. split; [done|].
  unfold getp in Hg. destruct (nullish resp); [done|]. rewrite Hop in Hg. by injection Hg as <-.
Qed.

Lemma getShoot_kcp_appends kcp s : appends (X := X) (getShoot_kcp kcp s).
Proof. unfold getShoot_kcp, expect_nested_not_empty. walk_appends. Qed.

Hint Resolve getShoot_kcp_appends : appends.

Lemma rewrap_Ok {A} msg e (w w' : world X) (a : A) : rewrap msg e w ≠ (Ok a, w').
Proof. intros E. apply bind_Ok_inv in E as (? & ? & _ & E). done. Qed.

Lemma rewrapped_answered keb p ep verb msg (w w' : world X) d :
  try_catch (callKEB keb p ep verb) (rewrap msg) w = (Ok d, w') → broker_answered keb p ep verb w w' d.
Proof. intros [E|(e & w1 & _ & E)]%try_Ok_inv; [by apply callKEB_answered|by apply rewrap_Ok in E]. Qed.

Lemma completed_intro keb kcp i p ep verb resp op t res (w w1 w2 w3 w' : world X) :
  broker_answered keb p ep verb w w1 resp → own resp "operation" = Some op → follows w1 w2 →
  ensureOperationSucceeded keb kcp i op t w2 = (Ok res, w3) → follows w3 w' → completed keb i p ep verb op w w'.
Proof.
  intros Ha Ho Hf E Hf'. apply ensureOperation_within in E as [Hs Hb]. exists resp, res, w1.
  split_and!; [done..| |done]. by eapply answered_during.
Qed.

Lemma completed_weaken keb i p ep verb op (w w1 w' : world X) :
  completed keb i p ep verb op w w1 → follows w1 w' → completed keb i p ep verb op w w'.
Proof.
  intros (resp & res & w2 & Ha & Ho & Hb & Hs) Hf. exists resp, res, w2. split_and!; [done..| |done].
  by eapply answered_during.
Qed.

Lemma updateSKR_op_completed `{!ChaiLaws H0} keb kcp gardener instanceID shootName cp timeout bc mig (w w' : world X) v :
  updateSKR_op keb kcp gardener instanceID shootName cp timeout bc mig w = (Ok v, w') →
  ∃ payload op, update_payload keb cp bc mig = Ok payload ∧ getp v "operationID" = Ok op ∧
    completed keb instanceID payload (instance_endpoint instanceID +:+ "?accepts_incomplete=true") "patch" op w w'.
Proof.
  intros E. apply bind_Ok_inv in E as (resp & w1 & Hreq & E).
  apply bind_Ok_inv in Hreq as (payload & ? & [Hp ->]%lift_Ok_inv & Hreq). apply rewrapped_answered in Hreq.
  apply operation_checked in E as (op & Hop & E).
  rewrite run_bind_debug in E. apply bind_Ok_inv in E as (res & w3 & Hens & E).
  exists payload, op. split; [done|]. apply bind_Ok_inv in E as (via & ? & Hv & E). injection Hv as _ <-.
  apply bind_Ok_inv in E as (shoot & w4 & Hsh & E). injection E as <- <-. split; [done|].
  eapply completed_intro; [exact Hreq|done| |exact Hens|].
  - apply follows_inside; [apply ext_debug|apply trace_debug].
  - destruct (truthy _) in Hsh; by eapply appends_run; [|exact Hsh]; auto with appends.
Qed.

(** The request that deprovisions an instance. *)
Definition deprovision_endpoint (keb : KEBClient) (instanceID : string) : string :=
  instance_endpoint instanceID +:+ "?service_id=" +:+ KYMA_SERVICE_ID +:+ "&plan_id=" +:+ planID keb.

Lemma deprovisionSKR_op_completed `{!ChaiLaws H0} keb kcp instanceID timeout (w w' : world X) v :
  deprovisionSKR_op keb kcp instanceID timeout true w = (Ok v, w') →
  completed keb instanceID JNull (deprovision_endpoint keb instanceID) "delete" v w w'.
Proof.
  intros E. apply bind_Ok_inv in E as (resp & w1 & Hreq & E). apply operation_checked in E as (op & Hop & E).
  rewrite run_bind_log in E. apply bind_Ok_inv in E as (? & w3 & Hens & E). injection E as -> <-.
  apply bind_Ok_inv in Hens as (res & ? & Hens & Hr). injection Hr as _ <-.
  apply try_Ok_inv in Hreq as [Hreq|(e & w4 & _ & Hh)].
  - eapply completed_intro; [by apply callKEB_answered|done| |exact Hens|reflexivity]. by apply follows_inside.
  - apply bind_Ok_inv in Hh as (s & ? & _ & Hh). injection Hh as <- _. done.
Qed.

Lemma provisionSKR_op_completed `{!ChaiLaws H0} keb kcp gardener instanceID name pc bc cp timeout (w w' : world X) v :
  provisionSKR_op keb kcp gardener instanceID name pc bc cp timeout w = (Ok v, w') →
  ∃ payload op, buildPayload keb name pc bc cp = Ok payload ∧ getp v "operationID" = Ok op ∧
    completed keb instanceID payload (instance_endpoint instanceID) "put" op w w'.
Proof.
  intros E. apply bind_Ok_inv in E as (resp & w1 & Hreq & E).
  apply bind_Ok_inv in Hreq as (payload & ? & [Hp ->]%lift_Ok_inv & Hreq). apply rewrapped_answered in Hreq.
  apply operation_checked in E as (op & Hop & E).
  rewrite run_bind_debug in E. apply bind_Ok_inv in E as (res & w3 & Hens & E).
  exists payload, op. split; [done|]. match type of E with ?m _ = _ => assert (appends m) as Ha end.
  { unfold expect_nested_not_empty, getenv. walk_appends. }
  split.
  - rewrite run_bind_debug in E. do 5 (apply bind_Ok_inv in E as (? & ? & _ & E)). by injection E as <- _.
  - eapply completed_intro; [exact Hreq|done| |exact Hens|by eapply appends_run].
    apply follows_inside; [apply ext_debug|apply trace_debug].
Qed.

(** C37: provisioning, updating and (with [ensureSuccess]) deprovisioning return only when, during the
    run, the broker answered the request itself, without errors and with the id of an operation, and
    after that reported this very operation as succeeded; the operation id in the result is that of
    the answer. In particular a failure that the client returns as an Error object is not accepted. *)
Theorem operations_complete `{!ChaiLaws H0} keb kcp gardener instanceID name pc bc cp timeout shootName bc' mig
    (w w' : world X) v :
  (provisionSKR_op keb kcp gardener instanceID name pc bc cp timeout w = (Ok v, w') →
     ∃ payload op, buildPayload keb name pc bc cp = Ok payload ∧ getp v "operationID" = Ok op ∧
       completed keb instanceID payload (instance_endpoint instanceID) "put" op w w') ∧
  (updateSKR_op keb kcp gardener instanceID shootName cp timeout bc' mig w = (Ok v, w') →
     ∃ payload op, update_payload keb cp bc' mig = Ok payload ∧ getp v "operationID" = Ok op ∧
       completed keb instanceID payload (instance_endpoint instanceID +:+ "?accepts_incomplete=true") "patch"
         op w w') ∧
  (deprovisionSKR_op keb kcp instanceID timeout true w = (Ok v, w') →
     completed keb instanceID JNull (deprovision_endpoint keb instanceID) "delete" v w w').
Proof.
  split_and!; [apply provisionSKR_op_completed|apply updateSKR_op_completed|apply deprovisionSKR_op_completed].
Qed.

(** Although the client's [deprovisionSKR] returns its failures instead of throwing them, the
    helper detects them: when the broker call throws, the helper throws the failed assertion and
    follows no operation. *)
Theorem deprovision_failure_detected `{!ChaiLaws H0} keb kcp instanceID timeout ensureSuccess (w w1 : world X) e :
  callKEB keb JNull (instance_endpoint instanceID +:+ "?service_id=" +:+ KYMA_SERVICE_ID +:+
    "&plan_id=" +:+ planID keb) "delete" w = (Throw e, w1) →
  ∃ e', deprovisionSKR_op keb kcp instanceID timeout ensureSuccess w = (Throw e', w1).
Proof.
  intros Hc. pose proof (raises_inv _ _ _ _ (callKEB_raises _ _ _ _) Hc) as He.
  destruct e as [| | | | | | | |n m [|]]; try done.
  unfold deprovisionSKR_op, deprovisionSKR. rewrite run_bind_try, Hc.
  unfold toString_call. cbn [nullish]. autorewrite with run. cbv iota. autorewrite with run.
  destruct (has_property _ "operation") as [e'|] eqn:Eh; [by exists e'|].
  apply has_property_law in Eh; [|by apply not_elem_of_cons; set_solver].
  by destruct Eh as [? Eh].
Qed.

(** The shoot has the five wanted OIDC settings, each strictly equal, and equal signing algorithms. *)
Definition oidc_applied (shoot target : jsval) : Prop :=
  (∀ k, k ∈ ["clientID"; "issuerURL"; "groupsClaim"; "usernameClaim"; "usernamePrefix"] →
     ∃ v y, getp target k = Ok v ∧ at_path shoot [PKey "oidcConfig"; PKey k] = Some y ∧
       strict_eq y v = true) ∧
  (∃ a b, getpath shoot ["oidcConfig"; "signingAlgs"] = Ok a ∧ getp target "signingAlgs" = Ok b ∧
     eql a b = None).

Lemma ensureValid_iff `{!ChaiLaws H0} shoot target (w : world X) :
  (ensureValidShootOIDCConfig shoot target w).1 = Ok tt ↔ oidc_applied shoot target.
Proof.
  unfold oidc_applied.
  set (f := λ k, v ← lift (getp target k); expect (X := X) (has_nested_value shoot [PKey "oidcConfig"; PKey k] v)).
  set (P := λ k, ∃ v y, getp target k = Ok v ∧ at_path shoot [PKey "oidcConfig"; PKey k] = Some y ∧
                   strict_eq y v = true).
  assert (∀ k, ∃ r, f k w = (r, w) ∧ (r = Ok tt ↔ P k)) as Hf.
  { intros k. unfold f, P. autorewrite with run. destruct (getp target k) as [v|e|].
    2, 3: eexists; split; [done|]; split; [done|]; by intros (? & ? & ? & _).
    pose proof (has_nested_value_law shoot [PKey "oidcConfig"; PKey k] v) as Hlaw.
    destruct (has_nested_value _ _ v) as [e|]; (eexists; split; [done|]); split; try done.
    - intros (v' & y & [= <-] & Hy). by destruct Hlaw as [_ Hlaw]; discriminate Hlaw; exists y.
    - intros _. destruct Hlaw as [(y & Hy) _]; [done|]. by exists v, y. }
  destruct (for_each_check f P ["clientID"; "issuerURL"; "groupsClaim"; "usernameClaim"; "usernamePrefix"]
    w Hf) as (r & Hr & HP).
  match type of HP with _ ↔ ?A => match goal with |- ?L ↔ _ ∧ ?B => change (L ↔ A ∧ B) end end.
  rewrite <- HP. unfold ensureValidShootOIDCConfig. fold f. unfold mbind at 1, M_bind at 1. rewrite Hr.
  destruct r as [[]|e|]; [|by split; [|intros [? _]]..]. autorewrite with run.
  destruct (getpath shoot ["oidcConfig"; "signingAlgs"]) as [a|e|]; simpl;
    [|by split; [|intros (_ & ? & ? & ? & _)]..].
  autorewrite with run. destruct (getp target "signingAlgs") as [b|e|]; simpl;
    [|by split; [|intros (_ & ? & ? & _ & ? & _)]..].
  destruct (eql a b) as [e|] eqn:Ee; simpl; [|split; [by intros _; split; [|exists a, b]|done]].
  split; [done|]. intros (_ & a' & b' & [= <-] & [= <-] & ?). congruence.
Qed.

(** [ensureValidShootOIDCConfig] passes exactly when the shoot has the five wanted OIDC settings,
    each strictly equal, and equal signing algorithms. *)
Theorem ensureValidShootOIDCConfig_spec `{!ChaiLaws H0} shoot target (w : world X) :
  (ensureValidShootOIDCConfig shoot target w).1 = Ok tt ↔
  (∀ k, k ∈ ["clientID"; "issuerURL"; "groupsClaim"; "usernameClaim"; "usernamePrefix"] →
     ∃ v y, getp target k = Ok v ∧ at_path shoot [PKey "oidcConfig"; PKey k] = Some y ∧
       strict_eq y v = true) ∧
  (∃ a b, getpath shoot ["oidcConfig"; "signingAlgs"] = Ok a ∧ getp target "signingAlgs" = Ok b ∧
     eql a b = None).
Proof. apply ensureValid_iff. Qed.

Lemma expect_match_spec `{RegExpRest} `{!ChaiLaws H0} v x (w : world X) :
  plain_text x = true → is_ascii (to_string v) = true →
  ∃ r, expect_match v (word_pattern x) w = (r, w) ∧ (r = Ok tt ↔ delimited x (to_string v)).
Proof.
  intros Hx Hs. unfold expect_match. destruct (word_pattern_spec x (to_string v) Hx Hs) as (b & Hb & Hd).
  rewrite run_bind_lift, Hb. pose proof (matched_law b) as Hm.
  destruct (matched b) as [e|]; (eexists; split; [reflexivity|]); rewrite <- Hd, <- Hm; split; congruence.
Qed.

(** The text the kubeconfig check examines: a failed download is only printed, and the conversion
    of the missing text to a string is what the patterns are tried on. *)
Definition examined (r : result jsval) (s : string) : Prop :=
  match r with
  | Ok v => to_string v = s
  | Throw _ => s = "undefined"
  | Hang => False
  end.

(** [ensureValidOIDCConfigInCustomerFacingKubeconfig] passes exactly when the downloaded
    kubeconfig contains the issuer URL and the client id of the configuration, each between word
    boundaries, where a dot of either stands for any character. *)
Theorem kubeconfig_oidc_check `{RegExpRest} `{!ChaiLaws H0} keb instanceID config u c s (w : world X) :
  examined (downloadKubeconfig keb instanceID w).1 s →
  getp config "issuerURL" = Ok (JStr u) → getp config "clientID" = Ok (JStr c) →
  plain_text u = true → plain_text c = true → is_ascii s = true →
  (ensureValidOIDCConfigInCustomerFacingKubeconfig keb instanceID config w).1 = Ok tt ↔
  delimited u s ∧ delimited c s.
Proof.
  intros He Hu Hc Pu Pc Ha. unfold ensureValidOIDCConfigInCustomerFacingKubeconfig. rewrite run_bind_try.
  assert (∀ v (w1 : world X), to_string v = s →
    ((issuerURL ← lift (getp config "issuerURL"); clientID ← lift (getp config "clientID");
      expect_match v (word_pattern (to_string issuerURL)) ;;
      expect_match v (word_pattern (to_string clientID))) w1).1 = Ok tt ↔ delimited u s ∧ delimited c s) as Hk.
  { intros v w1 <-. rewrite !run_bind_lift, Hu, !run_bind_lift, Hc. cbn [to_string].
    destruct (expect_match_spec v u w1 Pu Ha) as (r & Hr & Hd).
    destruct (expect_match_spec v c w1 Pc Ha) as (r' & Hr' & Hd').
    unfold mbind, M_bind. rewrite Hr. destruct r as [[]|e|].
    - rewrite Hr'. simpl. rewrite Hd'. split; [intros Hx; split; [by apply Hd|done]|by intros []].
    - split; [done|]. intros [Hx _]. apply Hd in Hx. done.
    - split; [done|]. intros [Hx _]. apply Hd in Hx. done. }
  destruct (downloadKubeconfig keb instanceID w) as [[v|e|] w1]; simpl in He; [by apply Hk| |done].
  rewrite run_bind_bind, run_bind_log, run_bind_ret. by apply Hk.
Qed.

(** [saveKubeconfig] leaves the given text in [~/.kube/config], in a directory that exists, and
    changes no other file. *)
Theorem saveKubeconfig_spec text (w : world X) :
  ∃ w', saveKubeconfig (JStr text) w = (Ok tt, w') ∧
    w_files w' = <[homedir +:+ "/.kube" +:+ "/config" := text]> (w_files w) ∧
    w_dirs w' = {[homedir +:+ "/.kube"]} ∪ w_dirs w.
Proof.
  unfold saveKubeconfig. autorewrite with run. case_bool_decide as Hd; autorewrite with run; eexists;
    (split; [reflexivity|]); simpl; rewrite sapp_assoc; (split; [done|]); [|done].
  apply leibniz_equiv. set_solver.
Qed.

End theorems.

#[export] Hint Resolve kubeconfig_check_appends shoot_check_appends : appends.

(** * Concrete runs *)

(** The broker accepts the request with operation [op-1] and the first poll reports success. *)
Definition demo_deprovisioned : world script :=
  with_token (answering [inr (JObj [("data", JObj [("operation", JStr "op-1")])]);
                         inr (JObj [("data", JObj [("state", JStr "succeeded")])])]).

Lemma operations_complete_witness :
  completed (X := script) demo_keb "i-1" JNull (deprovision_endpoint demo_keb "i-1") "delete" (JStr "op-1")
    demo_deprovisioned (deprovisionSKR_op demo_keb demo_kcp "i-1" 60000 true demo_deprovisioned).2.
Proof.
  destruct (operations_complete demo_keb demo_kcp (mkGardenerClient None JUndef) "i-1" JUndef JUndef JUndef JUndef
    60000 JUndef JUndef JUndef demo_deprovisioned
    (deprovisionSKR_op demo_keb demo_kcp "i-1" 60000 true demo_deprovisioned).2 (JStr "op-1")) as (_ & _ & Hd).
  apply Hd. vm_compute. reflexivity.
Defined.

Lemma deprovision_failure_detected_witness :
  ∃ e' w1, deprovisionSKR_op demo_keb demo_kcp "i-1" 60000 true (with_token (answering [])) = (Throw e', w1).
Proof.
  edestruct (deprovision_failure_detected demo_keb demo_kcp "i-1" 60000 true (with_token (answering [])))
    as [e' He']; [vm_compute; reflexivity|]. exists e'. eexists. exact He'.
Defined.

Definition demo_oidc : jsval :=
  JObj [("clientID", JStr "c"); ("groupsClaim", JStr "g"); ("issuerURL", JStr "u");
        ("signingAlgs", JArr [JStr "RS256"]); ("usernameClaim", JStr "sub"); ("usernamePrefix", JStr "-")].

Lemma ensureValidShootOIDCConfig_spec_witness :
  (ensureValidShootOIDCConfig (JObj [("oidcConfig", demo_oidc)]) demo_oidc steady).1 = Ok tt ∧
  ∃ a b, getpath (JObj [("oidcConfig", demo_oidc)]) ["oidcConfig"; "signingAlgs"] = Ok a ∧
    getp demo_oidc "signingAlgs" = Ok b ∧ eql a b = None.
Proof.
  assert ((ensureValidShootOIDCConfig (JObj [("oidcConfig", demo_oidc)]) demo_oidc steady).1 = Ok tt) as Hok
    by (vm_compute; reflexivity).
  split; [exact Hok|].
  exact (proj2 (proj1 (ensureValidShootOIDCConfig_spec (JObj [("oidcConfig", demo_oidc)]) demo_oidc steady) Hok)).
Defined.

Definition kubeconfig_text : string := "- --oidc-issuer-url=https://new.custom.ias.com --oidc-client-id=foo-bar".

Definition demo_kubeconfig : world script :=
  answering [inr (JObj [("data", JObj [("pipe", JStr "")])]); inr (JStr kubeconfig_text)].

Lemma kubeconfig_oidc_check_witness :
  delimited "https://new.custom.ias.com" kubeconfig_text ∧ delimited "foo-bar" kubeconfig_text.
Proof.
  apply (kubeconfig_oidc_check demo_keb "i-1"
    (JObj [("issuerURL", JStr "https://new.custom.ias.com"); ("clientID", JStr "foo-bar")])
    "https://new.custom.ias.com" "foo-bar" kubeconfig_text demo_kubeconfig); vm_compute; reflexivity.
Defined.
