(* ===== verification/SkrHelpers.v ===== *)
(** skr-test/helpers.js, skr-test/provision, skr-aws-upgrade-integration/upgrade and
    trial-suspension-test/helpers.js: the options of a test run and the provisioning steps that the
    suites share. *)

From S2P Require Import Prelude JsValue Json Buffer Effects Script Chai UtilsCore Timers Watch Utils.
From S2P Require Import OAuth KebClient KcpClient Smctl Gardener KebHelpers.

(** The client objects that skr-test/helpers.js creates once. *)
Record Clients := mkClients { c_keb : KEBClient; c_kcp : KCPWrapper; c_gardener : GardenerClient }.

(** * Options *)

Definition testNS : string := "skr-test".

(** The fields of an options object, in the order of their assignment. *)
Definition options := list (string * jsval).

Definition withInstanceID (v : jsval) (o : options) : options := oset o "instanceID" v.
Definition withRuntimeName (v : jsval) (o : options) : options := oset o "runtimeName" v.
Definition withAppName (v : jsval) (o : options) : options := oset o "appName" v.
Definition withScenarioName (v : jsval) (o : options) : options := oset o "scenarioName" v.
Definition withTestNS (v : jsval) (o : options) : options := oset o "testNS" v.
Definition withSuffix (v : jsval) (o : options) : options := oset o "suffix" v.
Definition withCustomParams (v : jsval) (o : options) : options := oset o "customParams" v.

Definition oidc_config (clientID groupsClaim issuerURL usernameClaim usernamePrefix : string) : jsval :=
  JObj [("clientID", JStr clientID); ("groupsClaim", JStr groupsClaim); ("issuerURL", JStr issuerURL);
        ("signingAlgs", JArr [JStr "RS256"]); ("usernameClaim", JStr usernameClaim);
        ("usernamePrefix", JStr usernamePrefix)].

Definition oidc0 : jsval :=
  oidc_config "9bd05ed7-a930-44e6-8c79-e6defeb7dec9" "groups" "https://kymatest.accounts400.ondemand.com"
    "sub" "-".
Definition oidc1 : jsval :=
  oidc_config "foo-bar" "groups1" "https://new.custom.ias.com" "email" "acme-".

(** The options before the functions given by the caller are applied. *)
Definition default_options (instanceID : jsval) (kebUserId : string) : options :=
  [("instanceID", instanceID); ("testNS", JStr testNS); ("oidc0", oidc0); ("oidc1", oidc1);
   ("kebUserId", JStr kebUserId);
   ("administrators1", JArr [JStr "admin1@acme.com"; JStr "admin2@acme.com"]);
   ("customParams", JObj [])].

(** The names derived from the suffix at the end. *)
Definition derive_names (o : options) : options :=
  let s := to_string (field o "suffix") in
  oset (oset (oset o "runtimeName" (JStr ("kyma-" +:+ s))) "appName" (JStr ("app-" +:+ s)))
    "scenarioName" (JStr ("test-" +:+ s)).

Section skr.
Context {X : Type} `{Services X} `{Chai}.

(** The copies of [getEnvOrThrow] and [genRandom] in skr-test/helpers.js. *)
Definition skr_getEnvOrThrow (key : string) : M X string :=
  o ← getenv key;
  if negb (truthy (env_val o)) then throw (mkError ("Env " +:+ key +:+ " not present"))
  else mret (to_string (env_val o)).

Fixpoint skr_genRandom_from (n : nat) (res : string) : M X string :=
  match n with
  | O => mret res
  | S n' =>
      k ← math_random;
      skr_genRandom_from n'
        (res +:+ charAt "abcdefghijklmnopqrstuvwxyz0123456789" (N.to_nat (random_below 36 k)))
  end.

Definition skr_genRandom (len : nat) : M X string := skr_genRandom_from len "".

(** [debug] of skr-test/helpers.js: its constant [DEBUG] is fixed by the environment. *)
Definition skr_debug (args : list jsval) : M X unit :=
  on ← get_world (λ w, initial_debug (w_env w));
  if (on : bool) then log "DEBUG" args else mret tt.

Definition gatherOptions (opts : list (options → options)) : M X options :=
  id ← invoke CUuid;
  user ← skr_getEnvOrThrow "KEB_USER_ID";
  let o := foldl (λ o opt, opt o) (default_options id user) opts in
  o ← (match field o "suffix" with
       | JUndef => s ← skr_genRandom 4; mret (oset o "suffix" (JStr s))
       | _ => mret o
       end);
  mret (derive_names o).

Definition getSKRRuntimeStatus (c : Clients) (instanceID : string) : M X jsval :=
  runtimeStatus ← getRuntimeStatusOperations (c_kcp c) instanceID;
  lift (parse runtimeStatus).

Definition getSKRConfig (c : Clients) (instanceID : string) : M X jsval :=
  runtimeStatus ← getRuntimeStatusOperations (c_kcp c) instanceID;
  o ← lift (parse runtimeStatus);
  expect_nested_not_empty o shootName_path ;;
  shootName ← lift (first_shoot_name o);
  console_log [JStr ("Fetching SKR info for shoot: " +:+ to_string shootName)] ;;
  getShoot (c_gardener c) (to_string shootName).

(** The second argument of [mkdirSync] is [true], which requests nothing: the home directory
    itself must exist. *)
Definition skr_saveKubeconfig (kubeconfig : jsval) : M X unit :=
  exists_ ← get_world (λ w, bool_decide (homedir +:+ "/.kube" ∈ w_dirs w));
  (if (exists_ : bool) then mret tt
   else modify (λ w, set_dirs ({[homedir +:+ "/.kube"]} ∪ w_dirs w) w)) ;;
  writeFileSync (homedir +:+ "/.kube/config") kubeconfig.

Definition initK8sConfig (shoot : jsval) : M X unit :=
  console_log [JStr "Should save kubeconfig for the SKR to ~/.kube/config"] ;;
  kubeconfig ← lift (getp shoot "kubeconfig");
  skr_saveKubeconfig kubeconfig ;;
  console_log [JStr "Should initialize K8s client"] ;;
  initializeK8sClient (JObj [("kubeconfig", kubeconfig)]).

(** * Provisioning *)

(** [e.stack]. *)
Definition stack_of (e : jsval) : result jsval :=
  match e with
  | JErr _ _ fs => Ok (default (JStr (to_string e +:+ stack_frames)) (assoc fs "stack"))
  | _ => getp e "stack"
  end.

(** The [finally] blocks of the provisioning, deprovisioning, upgrade and suspension steps: they
    print the status of the runtime and its events. *)
Definition print_status (kcp : KCPWrapper) (instanceID before between : string) : M X unit :=
  runtimeStatus ← getRuntimeStatusOperations kcp instanceID;
  events ← getRuntimeEvents kcp instanceID;
  console_log [JStr (before +:+ to_string runtimeStatus +:+ between +:+ to_string events)] ;;
  reconcileInformationLog kcp runtimeStatus.

Definition events_label : string := nl +:+ "Events:" +:+ nl.

Definition instance_of (o : options) : string := to_string (field o "instanceID").

Definition provisionSKRInstance (c : Clients) (o : options) (timeout : Z) : M X jsval :=
  try_finally
    (try_catch
       (let btpOperatorCreds := btp_object BTPOperatorCreds_dummy in
        console_log [JStr (nl +:+ "InstanceID " +:+ to_string (field o "instanceID"));
                     JStr ("Runtime " +:+ to_string (field o "runtimeName"));
                     JStr ("Application " +:+ to_string (field o "appName"));
                     JStr ("Suffix " +:+ to_string (field o "suffix"))] ;;
        skr ← provisionSKR_op (c_keb c) (c_kcp c) (c_gardener c) (instance_of o) (field o "runtimeName")
                JNull btpOperatorCreds (field o "customParams") timeout;
        skr_debug [JStr "SKR is provisioned!"] ;;
        lift (getp skr "shoot"))
       (λ e,
         lift (toString_call e) ;;
         stack ← lift (stack_of e);
         throw (mkError ("Provisioning failed: " +:+ to_string stack))))
    (skr_debug [JStr "Fetching runtime status..."] ;;
     print_status (c_kcp c) (instance_of o) (nl +:+ "Runtime status after provisioning: ") events_label).

Definition provisionSKRAndInitK8sConfig (c : Clients) (o : options) (provisioningTimeout : Z)
    : M X (options * jsval) :=
  console_log [JStr "Provisioning new SKR instance..."] ;;
  shoot ← provisionSKRInstance c o provisioningTimeout;
  viaGardener ← getenv "GARDENER_KUBECONFIG";
  (if truthy (env_val viaGardener) then
     console_log [JStr "Initiating K8s config..."] ;; initK8sConfig shoot
   else
     console_log [JStr "Initiating K8s client..."] ;;
     kubeconfig ← lift (getp shoot "kubeconfig");
     initializeK8sClient (JObj [("kubeconfigPath", kubeconfig)])) ;;
  console_log [JStr "Initialization of K8s finished..."] ;;
  mret (o, shoot).

Definition getSKRKymaVersion (c : Clients) (instanceID : string) : M X jsval :=
  runtimeStatus ← getSKRRuntimeStatus c instanceID;
  if truthy runtimeStatus then
    data ← lift (getp runtimeStatus "data");
    if truthy data then d0 ← lift (geti data 0); lift (getp d0 "kymaVersion") else mret (JStr "")
  else mret (JStr "").

Definition deprovisionSKRInstance (c : Clients) (o : options) (timeout : Z) (ensureSuccess : bool) : M X unit :=
  try_finally
    (try_catch
       (deprovisionSKR_op (c_keb c) (c_kcp c) (instance_of o) timeout ensureSuccess ;; mret tt)
       (rewrap "De-provisioning failed"))
    (print_status (c_kcp c) (instance_of o) (nl +:+ "Runtime status after de-provisioning: ") events_label).

Definition deprovisionAndUnregisterSKR (c : Clients) (o : options) (deprovisioningTimeout : Z)
    (ensureSuccess : bool) : M X unit :=
  deprovisionSKRInstance c o deprovisioningTimeout ensureSuccess.

(** * Upgrade *)

Definition upgradeSKRInstance (c : Clients) (o : options) (kymaUpgradeVersion : string) (timeout : Z) : M X unit :=
  try_finally
    (try_catch
       (upgradeKyma (c_kcp c) (instance_of o) kymaUpgradeVersion timeout ;;
        console_log [JStr "Upgrade Done!"])
       (rewrap "Upgrade failed"))
    (print_status (c_kcp c) (instance_of o) (nl +:+ "Runtime status after upgrade: ") events_label).

(** * Suspension of trial runtimes *)

Definition suspensionOperationType : string := "suspension".
Definition inProgressOperationState : string := "in progress".

(** [name] is the name of the callback, [m] the callback applied to its arguments. *)
Definition callFuncAndPrintExecutionTime {A} (name : string) (m : M X A) : M X A :=
  startTime ← get_world w_now;
  try_finally
    (try_catch m
       (λ e, s ← lift (toString_call e);
             throw (mkError ("callFuncAndPrintExecutionTime: failed during " +:+ dquote +:+ name +:+ dquote
                             +:+ ": " +:+ s +:+ nl))))
    (endTime ← get_world w_now;
     console_log [JStr (nl +:+ dquote +:+ name +:+ dquote +:+ " execution time: "
                        +:+ Z_to_string (endTime - startTime) +:+ " ms" +:+ nl)]).

Definition ensureSuspensionIsInProgress (kcp : KCPWrapper) (instanceID : string) (timeout : Z) : M X jsval :=
  try_finally
    (try_catch
       (ensureLatestGivenOperationTypeIsInGivenState kcp instanceID suspensionOperationType
          inProgressOperationState timeout)
       (λ e,
         console_log [JStr ("cannot ensure " +:+ dquote +:+ suspensionOperationType +:+ dquote
                            +:+ " operation to be in state " +:+ dquote +:+ inProgressOperationState
                            +:+ dquote)] ;;
         s ← lift (toString_call e);
         throw (mkError ("ensureLatestGivenOperationTypeIsInGivenState failed: " +:+ s +:+ nl))))
    (print_status kcp instanceID ("Runtime status:" +:+ nl) events_label).

Definition ensureSuspensionSucceeded (keb : KEBClient) (kcp : KCPWrapper) (instanceID : string)
    (operationID : jsval) (timeout : Z) : M X unit :=
  try_finally
    (try_catch
       (ensureOperationSucceeded keb kcp instanceID operationID timeout ;; mret tt)
       (λ e,
         s ← lift (toString_call e);
         console_log [JStr ("cannot ensure " +:+ dquote +:+ suspensionOperationType +:+ dquote
                            +:+ " operation success: " +:+ s +:+ nl)] ;;
         throw (mkError ("ensureOperationSucceeded failed: " +:+ s +:+ nl))))
    (print_status kcp instanceID ("Runtime status after suspension:" +:+ nl) events_label).

End skr.

(** * Lemmas *)

(** ** Deprovisioning *)

Section deprovisioning.
Context {X : Type} `{Services X} `{Chai}.

(** [m] sends the request, unless there is no token. *)
Definition sends {A} (keb : KEBClient) (payload : jsval) (endpoint verb : string) (m : M X A) : Prop :=
  ∀ w, no_token keb w ∨ requested keb payload endpoint verb w (m w).2.

Lemma sends_before {A B} keb p e v (m : M X A) (m' : M X B) :
  (∀ w, follows (m w).2 (m' w).2) → sends keb p e v m → sends keb p e v m'.
Proof.
  intros Hf Hm w. destruct (Hm w) as [|(tok & wa & Ha & Hb)]; [by left|]. right. exists tok, wa.
  split; [done|]. etrans; [exact Hb|apply Hf].
Qed.

Lemma sends_bind {A B} keb p e v (m : M X A) (k : A → M X B) :
  sends keb p e v m → (∀ a, appends (k a)) → sends keb p e v (m ≫= k).
Proof.
  intros Hm Hk. eapply sends_before; [|exact Hm]. intros w. unfold mbind, M_bind.
  destruct (m w) as [[a|x|] w1]; simpl; [apply Hk|reflexivity..].
Qed.

Lemma sends_try {A} keb p e v (m : M X A) h :
  sends keb p e v m → (∀ x, appends (h x)) → sends keb p e v (try_catch m h).
Proof.
  intros Hm Hk. eapply sends_before; [|exact Hm]. intros w. unfold try_catch.
  destruct (m w) as [[a|x|] w1]; simpl; [reflexivity|apply Hk|reflexivity].
Qed.

Lemma sends_finally {A} keb p e v (m : M X A) f :
  sends keb p e v m → appends f → sends keb p e v (try_finally m f).
Proof.
  intros Hm Hf. eapply sends_before; [|exact Hm]. intros w. unfold try_finally.
  destruct (m w) as [[a|x|] w1]; simpl; [| |reflexivity]; specialize (Hf w1); by destruct (f w1) as [[?|?|] ?].
Qed.

Lemma finally_Ok_inv {A} (m : M X A) f w a w' :
  try_finally m f w = (Ok a, w') → ∃ w1, m w = (Ok a, w1) ∧ f w1 = (Ok tt, w').
Proof.
  unfold try_finally. destruct (m w) as [[b|x|] w1]; [| |done];
    destruct (f w1) as [[[]|?|] w2] eqn:E; intros [= <- <-]; by exists w1.
Qed.

Lemma print_status_appends kcp i a b : appends (X := X) (print_status kcp i a b).
Proof. unfold print_status. walk_appends. Qed.

Lemma ensureOperation_appends keb kcp i op t : appends (X := X) (ensureOperationSucceeded keb kcp i op t).
Proof. unfold ensureOperationSucceeded. pose proof getOperation_appends. walk_appends. Qed.

Hint Resolve print_status_appends ensureOperation_appends : appends.

(** The request of the deprovisioning is sent, whatever comes of it. *)
Lemma deprovision_sends c o t b :
  sends (c_keb c) JNull (deprovision_endpoint (c_keb c) (instance_of o)) "delete"
    (deprovisionAndUnregisterSKR (X := X) c o t b).
Proof.
  unfold deprovisionAndUnregisterSKR, deprovisionSKRInstance. apply sends_finally; [|auto with appends].
  apply sends_try; [|intros; walk_appends]. apply sends_bind; [|intros; walk_appends].
  unfold deprovisionSKR_op. apply sends_bind; [|intros; walk_appends].
  unfold deprovisionSKR. apply sends_try; [|intros; walk_appends]. intros w. apply callKEB_requested.
Qed.

Lemma deprovision_Ok `{!ChaiLaws H0} c o t (w w' : world X) :
  deprovisionAndUnregisterSKR c o t true w = (Ok tt, w') →
  ∃ op, completed (c_keb c) (instance_of o) JNull (deprovision_endpoint (c_keb c) (instance_of o)) "delete" op w w'.
Proof.
  intros E. apply finally_Ok_inv in E as (w1 & E & Hp). apply (appends_run _ _ _ _ (print_status_appends _ _ _ _)) in Hp.
  apply try_Ok_inv in E as [E|(x & w2 & _ & E)]; [|by apply rewrap_Ok in E].
  apply bind_Ok_inv in E as (op & w2 & E & Hr). injection Hr as <-. exists op.
  eapply completed_weaken; [eapply deprovisionSKR_op_completed, E|done].
Qed.

(** Measuring the time of a computation changes neither its calls nor whether it returns. *)
Lemma timed_sends {A} keb p e v name (m : M X A) :
  sends keb p e v m → sends keb p e v (callFuncAndPrintExecutionTime name m).
Proof.
  intros Hm w. unfold callFuncAndPrintExecutionTime. rewrite run_bind_get.
  apply sends_finally; [|walk_appends]. apply sends_try; [done|intros; walk_appends].
Qed.

Lemma timed_Ok {A} name (m : M X A) (w w' : world X) a :
  callFuncAndPrintExecutionTime name m w = (Ok a, w') → ∃ w1, m w = (Ok a, w1) ∧ follows w1 w'.
Proof.
  intros E. unfold callFuncAndPrintExecutionTime in E. rewrite run_bind_get in E.
  apply finally_Ok_inv in E as (w1 & E & Hf). exists w1. split.
  - apply try_Ok_inv in E as [E|(x & w2 & _ & E)]; [done|]. apply bind_Ok_inv in E as (? & ? & _ & E). done.
  - eapply appends_run; [|exact Hf]. walk_appends.
Qed.

End deprovisioning.

Lemma field_oset_eq o k v : field (oset o k v) k = v.
Proof. unfold field. by rewrite assoc_oset_eq. Qed.

Lemma field_oset_ne o k k' v : k ≠ k' → field (oset o k v) k' = field o k'.
Proof. intros Hk. unfold field. by rewrite assoc_oset_ne. Qed.

Section lemmas.
Context {X : Type} `{Services X} `{Chai}.

Lemma log_settles p args : settles (X := X) (log p args).
Proof. destruct args; [apply settles_ret|apply settles_log]. Qed.

Lemma skr_debug_total args : total (X := X) (skr_debug args).
Proof.
  intros w. unfold skr_debug. autorewrite with run. destruct (initial_debug _); [|by eexists _, _].
  destruct (log_spec "DEBUG" args w) as [l ->]. by eexists _, _.
Qed.

Lemma print_status_settles kcp i a b : settles (X := X) (print_status kcp i a b).
Proof. unfold print_status. walk_settles. apply total_settles, reconcile_total. Qed.

Lemma expect_nested_settles v p : settles (X := X) (expect_nested_not_empty v p).
Proof. unfold expect_nested_not_empty. walk_settles. Qed.

Lemma first_shoot_name_nohang o : nohang (first_shoot_name o).
Proof. unfold first_shoot_name. walk_nohang. Qed.

Lemma gardener_config_nohang o k : nohang (gardener_config o k).
Proof. unfold gardener_config. walk_nohang. Qed.

End lemmas.

#[export] Hint Resolve first_shoot_name_nohang gardener_config_nohang : nohang.
#[export] Hint Resolve print_status_settles expect_nested_settles log_settles : settles.

Section settle.
Context {X : Type} `{Services X} `{Chai}.

Lemma getShoot_kcp_settles kcp n : settles (X := X) (getShoot_kcp kcp n).
Proof. unfold getShoot_kcp. walk_settles. Qed.

Hint Resolve getShoot_kcp_settles : settles.

Lemma provisionSKR_op_settles keb kcp g i n p b c t : settles (X := X) (provisionSKR_op keb kcp g i n p b c t).
Proof. unfold provisionSKR_op, getenv. walk_settles. Qed.

Lemma deprovisionSKR_op_settles keb kcp i t s : settles (X := X) (deprovisionSKR_op keb kcp i t s).
Proof. unfold deprovisionSKR_op. walk_settles. Qed.

Lemma updateSKR_op_settles keb kcp g i n c t b m : settles (X := X) (updateSKR_op keb kcp g i n c t b m).
Proof. unfold updateSKR_op, getenv. walk_settles. Qed.

Lemma stack_of_nohang e : nohang (stack_of (X := X) e).
Proof. destruct e; simpl; eauto with nohang. Qed.

Hint Resolve stack_of_nohang : nohang.
Hint Resolve provisionSKR_op_settles deprovisionSKR_op_settles : settles.

Lemma skr_debug_settles args : settles (X := X) (skr_debug args).
Proof. apply total_settles, skr_debug_total. Qed.

Hint Resolve skr_debug_settles : settles.

Lemma provisionSKRInstance_settles c o t : settles (X := X) (provisionSKRInstance c o t).
Proof. unfold provisionSKRInstance. walk_settles. Qed.

Lemma deprovisionSKRInstance_settles c o t s : settles (X := X) (deprovisionSKRInstance c o t s).
Proof. unfold deprovisionSKRInstance. walk_settles. Qed.

Lemma upgradeSKRInstance_settles c o v t : settles (X := X) (upgradeSKRInstance c o v t).
Proof. unfold upgradeSKRInstance. walk_settles. Qed.

End settle.

#[export] Hint Resolve getShoot_kcp_settles provisionSKR_op_settles deprovisionSKR_op_settles
  updateSKR_op_settles skr_debug_settles provisionSKRInstance_settles deprovisionSKRInstance_settles
  upgradeSKRInstance_settles : settles.
#[export] Hint Resolve stack_of_nohang : nohang.

(** A [try] whose handler always throws returns only what its body returned. *)
Lemma try_throw_Ok_inv {X A} (m : M X A) h w a w' :
  (∀ e w1 b w2, h e w1 ≠ (Ok b, w2)) → try_catch m h w = (Ok a, w') → m w = (Ok a, w').
Proof. intros Hh Ht. apply try_Ok_inv in Ht as [Ht|(e & w1 & _ & Ht)]; [done|]. by destruct (Hh e w1 a w'). Qed.

(** * Theorems *)

Section theorems.
Context {X : Type} `{Services X} `{Chai}.

(** The names of a run are always derived from its suffix, whatever option functions the caller
    passes: the runtime, application and scenario names share the suffix. *)
Theorem gatherOptions_names opts (w w' : world X) o :
  gatherOptions opts w = (Ok o, w') →
  let s := to_string (field o "suffix") in
  field o "runtimeName" = JStr ("kyma-" +:+ s) ∧ field o "appName" = JStr ("app-" +:+ s) ∧
  field o "scenarioName" = JStr ("test-" +:+ s) ∧ field o "suffix" ≠ JUndef.
Proof.
  intros Hg. unfold gatherOptions in Hg. do 2 (apply bind_Ok_inv in Hg as (? & ? & _ & Hg)).
  apply bind_Ok_inv in Hg as (o1 & w1 & Hs & Hg). injection Hg as <- _.
  assert (field o1 "suffix" ≠ JUndef) as Hne.
  { match type of Hs with context [match ?x with JUndef => _ | _ => _ end] => destruct x eqn:E end;
      [apply bind_Ok_inv in Hs as (s & ? & _ & Hs); injection Hs as <- _; by rewrite field_oset_eq|..];
      injection Hs as <- _; by rewrite E. }
  unfold derive_names. cbv zeta.
  rewrite !(field_oset_ne _ _ "suffix") by done. split_and!; [..|done].
  - rewrite !(field_oset_ne _ _ "runtimeName") by done. apply field_oset_eq.
  - rewrite !(field_oset_ne _ _ "appName") by done. apply field_oset_eq.
  - apply field_oset_eq.
Qed.

(** The option functions for the runtime, application and scenario names have no effect: a last
    [withRuntimeName], [withAppName] or [withScenarioName] changes no field of the result. *)
Theorem name_options_ignored opts v (w w1 w2 : world X) o1 o2 opt k :
  opt ∈ [withRuntimeName v; withAppName v; withScenarioName v] →
  gatherOptions opts w = (Ok o1, w1) → gatherOptions (opts ++ [opt]) w = (Ok o2, w2) →
  field o1 k = field o2 k ∧ w1 = w2.
Proof.
  intros Hin H1 H2. unfold gatherOptions in H1, H2.
  apply bind_Ok_inv in H1 as (id & u1 & Hid & H1). rewrite (bind_Ok _ _ _ _ _ Hid) in H2.
  apply bind_Ok_inv in H1 as (user & u2 & Hu & H1). rewrite (bind_Ok _ _ _ _ _ Hu) in H2.
  rewrite foldl_app in H2. simpl in H2. set (o := foldl _ _ opts) in *.
  assert (∃ n, n ∈ ["runtimeName"; "appName"; "scenarioName"] ∧ opt o = oset o n v) as (n & Hn & Ho).
  { apply elem_of_cons in Hin as [->|Hin]; [eexists; split; [by left|done]|].
    apply elem_of_cons in Hin as [->|Hin]; [eexists; split; [by right; left|done]|].
    apply list_elem_of_singleton in Hin as ->. eexists; split; [by right; right; left|done]. }
  rewrite Ho in H2.
  assert (n ≠ "suffix") as Hns.
  { intros ->. repeat (apply elem_of_cons in Hn as [Hn|Hn]; [done|]). by apply elem_of_nil in Hn. }
  rewrite (field_oset_ne o n "suffix" v Hns) in H2.
  assert (∀ a b : options, (∀ k, k ≠ n → field a k = field b k) → field (derive_names a) k = field (derive_names b) k) as Hd.
  { intros a b Hab. unfold derive_names. cbv zeta. rewrite (Hab "suffix") by done.
    destruct (decide (k = "scenarioName")) as [->|H1k]; [by rewrite !field_oset_eq|].
    rewrite !(field_oset_ne _ "scenarioName") by done.
    destruct (decide (k = "appName")) as [->|H2k]; [by rewrite !field_oset_eq|].
    rewrite !(field_oset_ne _ "appName") by done.
    destruct (decide (k = "runtimeName")) as [->|H3k]; [by rewrite !field_oset_eq|].
    rewrite !(field_oset_ne _ "runtimeName") by done. apply Hab. intros ->.
    repeat (apply elem_of_cons in Hn as [Hn|Hn]; [done|]). by apply elem_of_nil in Hn. }
  destruct (field o "suffix").
  1: { apply bind_Ok_inv in H1 as (o1' & u3 & Hs & H1). apply bind_Ok_inv in Hs as (s & u4 & Hg & Hs).
       injection Hs as <- ->. injection H1 as <- <-.
       rewrite run_bind_bind, (bind_Ok _ _ _ _ _ Hg), run_bind_ret in H2. injection H2 as <- <-.
       split; [|done]. apply Hd. intros k' Hk'. destruct (decide (k' = "suffix")) as [->|].
       - by rewrite !field_oset_eq.
       - by rewrite !(field_oset_ne _ "suffix"), field_oset_ne. }
  all: injection H1 as <- <-; injection H2 as <- <-; split; [|done]; apply Hd; intros k' Hk';
    by rewrite field_oset_ne.
Qed.

(** The helpers duplicated in skr-test/helpers.js behave exactly as the originals in
    utils/index.js and kyma-environment-broker/helpers.js. *)
Theorem duplicated_helpers_agree key len kubeconfig (w : world X) :
  skr_getEnvOrThrow key w = getEnvOrThrow key w ∧
  skr_genRandom len w = genRandom len w ∧
  skr_saveKubeconfig kubeconfig w = saveKubeconfig kubeconfig w.
Proof.
  split_and!.
  - unfold skr_getEnvOrThrow, getEnvOrThrow, getenv. autorewrite with run.
    destruct (w_env w !! key) as [s|]; simpl; [|done]. by destruct (String.eqb s "").
  - unfold skr_genRandom, genRandom. generalize "" as res. revert w.
    induction len as [|n IH]; intros w res; [done|]. cbn [skr_genRandom_from genRandom_loop].
    unfold mbind, M_bind, math_random. destruct (draw (w_ext w)) as [d x]. apply IH.
  - unfold skr_saveKubeconfig, saveKubeconfig. by rewrite sapp_assoc.
Qed.

(** [provisionSKRInstance] settles, and returns a shoot only from a provisioning whose operation
    the broker reported as succeeded. *)
Theorem provisionSKRInstance_success c o timeout (w w' : world X) shoot :
  (provisionSKRInstance c o timeout w).1 ≠ Hang ∧
  (provisionSKRInstance c o timeout w = (Ok shoot, w') →
   ∃ v w1 w2, provisionSKR_op (c_keb c) (c_kcp c) (c_gardener c) (instance_of o) (field o "runtimeName")
       JNull (btp_object BTPOperatorCreds_dummy) (field o "customParams") timeout w1 = (Ok v, w2) ∧
     getp v "shoot" = Ok shoot).
Proof.
  split; [apply provisionSKRInstance_settles|]. intros E.
  apply finally_Ok_inv in E as (w1 & E & _). apply try_throw_Ok_inv in E.
  - cbv zeta in E. rewrite run_bind_log in E. apply bind_Ok_inv in E as (v & w2 & Hp & E).
    apply bind_Ok_inv in E as (? & ? & _ & [Hs _]%lift_Ok_inv). eauto.
  - intros e u1 b u2 Hh. do 2 (apply bind_Ok_inv in Hh as (? & ? & _ & Hh)). done.
Qed.

(** The status report in the [finally] block can hide the outcome of a de-provisioning: when its
    kcp command fails, its error is thrown even if the SKR was deprovisioned. *)
Theorem deprovision_report_masks c o timeout ensureSuccess (w w1 w2 : world X) op e :
  deprovisionSKR_op (c_keb c) (c_kcp c) (instance_of o) timeout ensureSuccess w = (Ok op, w1) →
  getRuntimeStatusOperations (c_kcp c) (instance_of o) w1 = (Throw e, w2) →
  deprovisionAndUnregisterSKR c o timeout ensureSuccess w = (Throw e, w2).
Proof.
  intros Hop Hst. unfold deprovisionAndUnregisterSKR, deprovisionSKRInstance, print_status.
  rewrite run_finally, run_try, (bind_Ok _ _ _ _ _ Hop), run_ret.
  by rewrite (bind_Throw _ _ _ _ _ Hst).
Qed.

(** [upgradeSKRInstance] settles and succeeds only if the upgrade's orchestration did. *)
Theorem upgradeSKRInstance_success c o kymaVersion timeout (w w' : world X) :
  (upgradeSKRInstance c o kymaVersion timeout w).1 ≠ Hang ∧
  (upgradeSKRInstance c o kymaVersion timeout w = (Ok tt, w') →
   ∃ res w1, upgradeKyma (c_kcp c) (instance_of o) kymaVersion timeout w = (Ok res, w1)).
Proof.
  split; [apply upgradeSKRInstance_settles|]. intros E.
  apply finally_Ok_inv in E as (w1 & E & _). apply try_throw_Ok_inv in E; [|intros; apply rewrap_Ok].
  apply bind_Ok_inv in E as (res & w2 & Hu & _). eauto.
Qed.

(** [ensureSuspensionIsInProgress] returns only a runtime status in which the latest suspension
    operation is in progress. *)
Theorem suspension_in_progress kcp instanceID timeout (w w' : world X) res :
  ensureSuspensionIsInProgress kcp instanceID timeout w = (Ok res, w') →
  operation_in_state "suspension" "in progress" res = Ok true.
Proof.
  intros E. apply finally_Ok_inv in E as (w1 & E & _). apply try_throw_Ok_inv in E.
  - by eapply ensureLatest_returned.
  - intros e u1 b u2 Hh. rewrite run_bind_log in Hh. by apply bind_Ok_inv in Hh as (? & ? & _ & Hh).
Qed.

(** The status that [getSKRRuntimeStatus] returns is exactly the value of the JSON document that
    kcp printed: rendering it with tabs in between and parsing it again changes nothing. *)
Theorem runtime_status_faithful c instanceID (w w' : world X) v :
  getSKRRuntimeStatus c instanceID w = (Ok v, w') →
  ∃ out w1, exec (c_kcp c) (runtimes_args [("instanceID", JStr instanceID); ("ops", JBool true);
              ("state", JStr "all")]) false w1 = (Ok out, w') ∧ parse out = Ok v.
Proof.
  intros E. unfold getSKRRuntimeStatus, getRuntimeStatusOperations, runtimes in E.
  apply bind_Ok_inv in E as (text & u & E & [Hp ->]%lift_Ok_inv).
  apply bind_Ok_inv in E as (lv & u1 & _ & E). apply bind_Ok_inv in E as (st & u2 & E & Et).
  injection Et as <- <-. apply bind_Ok_inv in E as (out & u3 & Hx & [Hout ->]%lift_Ok_inv).
  rewrite (parse_reformat tab out st eq_refl Hout) in Hp. injection Hp as ->. by exists out, u1.
Qed.

End theorems.

(** * Concrete runs *)

Definition demo_clients : Clients := mkClients demo_keb demo_kcp (mkGardenerClient None JUndef).

Definition gathering : world script :=
  start [("KEB_USER_ID", "user@acme.com")] (Script [Reply (inr (JStr "uuid-1")) 0] [1; 2; 3; 4]%N []).

Lemma gatherOptions_names_witness :
  ∃ o w', gatherOptions [withRuntimeName (JStr "mine")] gathering = (Ok o, w') ∧
    field o "runtimeName" = JStr ("kyma-" +:+ to_string (field o "suffix")).
Proof.
  eexists _, _. split; [vm_compute; reflexivity|].
  refine (proj1 (gatherOptions_names [withRuntimeName (JStr "mine")] gathering
    (gatherOptions [withRuntimeName (JStr "mine")] gathering).2 _ _)). vm_compute. reflexivity.
Defined.

Definition status_text : string := "[1, 2]".

Lemma runtime_status_faithful_witness :
  ∃ out (w1 w' : world script), exec demo_kcp (runtimes_args [("instanceID", JStr "i-1"); ("ops", JBool true);
    ("state", JStr "all")]) false w1 = (Ok out, w') ∧ parse out = Ok (JArr [JInt 1; JInt 2]).
Proof.
  destruct (runtime_status_faithful demo_clients "i-1" (answering [stdout_of ""; stdout_of status_text])
    (getSKRRuntimeStatus demo_clients "i-1" (answering [stdout_of ""; stdout_of status_text])).2
    (JArr [JInt 1; JInt 2])) as (out & w1 & H1 & H2); [vm_compute; reflexivity|].
  exists out, w1. eexists. split; [exact H1|exact H2].
Defined.
