(* ===== verification/Suites.v ===== *)
(** The bodies of the test suites: machine-type update, BTP Manager secret, broker endpoints and
    networking. Each test is the computation of its callback; how mocha schedules the callbacks is
    outside the model. *)

From S2P Require Import Prelude JsValue Json Buffer Effects Script Chai UtilsCore Timers Watch Utils.
From S2P Require Import OAuth KebClient KcpClient Smctl Gardener KebHelpers SkrHelpers.

(** The elements a loop [for (let i = 0; i < v.length; i++) v[i]] visits. *)
Definition array_like (v : jsval) : list jsval :=
  match v with JArr l => l | JStr s => string_chars s | _ => [] end.

Definition is_undef (v : jsval) : bool := match v with JUndef => true | _ => false end.

Section suites.
Context {X : Type} `{Services X} `{Chai}.

(** * skr-test/machine-type *)

(** The innermost loop: the type after the default one, cyclically. *)
Fixpoint scan_types (all rest : list jsval) (i : nat) (defaultMachineType : jsval) : M X (option jsval) :=
  match rest with
  | [] => mret None
  | t :: r =>
      console_log [JStr ("checking catalog plan update machine type comp " +:+ to_string t
                         +:+ ", looking for " +:+ to_string defaultMachineType)] ;;
      if strict_eq t defaultMachineType then
        console_log [JStr ("catalog plan update machine type " +:+ to_string t +:+ " === "
                           +:+ to_string defaultMachineType)] ;;
        mret (Some (default JUndef (all !! ((i + 1) mod length all))))
      else scan_types all r (S i) defaultMachineType
  end.

(** The loop over the plans of a service; [update] is the value of [updateMachineType]. *)
Fixpoint scan_plans (planID : string) (defaultMachineType : jsval) (plans : list jsval) (update : jsval)
    : M X jsval :=
  match plans with
  | [] => mret update
  | p :: r =>
      pid ← lift (getp p "id");
      console_log [JStr ("checking catalog plan " +:+ to_string pid +:+ ", looking for " +:+ planID)] ;;
      if negb (strict_eq pid (JStr planID)) then scan_plans planID defaultMachineType r update
      else
        si ← lift (getpath p ["schemas"; "service_instance"]);
        u ← lift (getp si "update");
        console_log [JStr ("catalog plan update " +:+ to_string (JBool (negb (is_undef u))))] ;;
        machineType ← (if is_undef u then mret JUndef
                       else lift (getpath u ["parameters"; "properties"; "machineType"]));
        if is_undef u || is_undef machineType then scan_plans planID defaultMachineType r update
        else
          mt ← lift (getp machineType "enum");
          console_log [JStr ("catalog plan update machine types " +:+ to_string mt)] ;;
          len ← lift (getp mt "length");
          if js_lt len (JInt 2) then scan_plans planID defaultMachineType r update
          else
            found ← scan_types (array_like mt) (array_like mt) 0 defaultMachineType;
            let update := default update found in
            if negb (is_undef update) then mret update
            else scan_plans planID defaultMachineType r update
  end.

Fixpoint scan_services (planID : string) (defaultMachineType : jsval) (services : list jsval) (update : jsval)
    : M X jsval :=
  match services with
  | [] => mret update
  | s :: r =>
      id ← lift (getp s "id");
      console_log [JStr ("checking catalog service " +:+ to_string id)] ;;
      if negb (strict_eq id (JStr "47c9dcbf-ff30-448e-ab36-d3bad66ba281"))
      then scan_services planID defaultMachineType r update
      else
        plans ← lift (getp s "plans");
        lift (getp plans "length") ;;
        update ← scan_plans planID defaultMachineType (array_like plans) update;
        scan_services planID defaultMachineType r update
  end.

(** The test 'Should figure out next machine type to update to'. *)
Definition figure_out_machine_type (keb : KEBClient) (planID : string) (defaultMachineType : jsval) : M X jsval :=
  catalog ← getCatalog_op keb;
  services ← lift (getp catalog "services");
  len ← lift (getp services "length");
  console_log [JStr ("catalog services " +:+ to_string len)] ;;
  update ← scan_services planID defaultMachineType (array_like services) JUndef;
  console_log [JStr ("determined machine type to update: " +:+ to_string update)] ;;
  mret update.

Definition getMachineType (kcp : KCPWrapper) (gardener : GardenerClient) (shoot : string) : M X jsval :=
  viaGardener ← getenv "GARDENER_KUBECONFIG";
  if truthy (env_val viaGardener) then
    waitForShoot gardener shoot "Reconcile" ;;
    sh ← getShoot gardener shoot;
    workers ← lift (getpath sh ["spec"; "provider"; "workers"]);
    w0 ← lift (geti workers 0);
    lift (getpath w0 ["machine"; "type"])
  else
    sh ← getShoot_kcp kcp (JStr shoot);
    lift (getp sh "machineType").

(** The tests 'Should update SKR service instance machine type', which returns the new shoot, and
    'Should check machine type after update'. *)
Definition update_machine_type (c : Clients) (gardener : GardenerClient) (o : options) (shoot : jsval)
    (defaultMachineType updateMachineType : jsval) : M X jsval :=
  if is_undef updateMachineType then
    console_log [JStr "skipping machine type update"] ;; mret shoot
  else
    console_log [JStr ("updating " +:+ to_string defaultMachineType +:+ " => " +:+ to_string updateMachineType)] ;;
    name ← lift (getp shoot "name");
    skr ← updateSKR_op (c_keb c) (c_kcp c) gardener (instance_of o) name
            (JObj [("machineType", updateMachineType)]) (1000 * 60 * 30) JNull (JBool false);
    lift (getp skr "shoot").

Definition check_machine_type (c : Clients) (gardener : GardenerClient) (shoot updateMachineType : jsval) : M X unit :=
  if is_undef updateMachineType then console_log [JStr "skipping machine type update"]
  else
    name ← lift (getp shoot "name");
    machineType ← getMachineType (c_kcp c) gardener (to_string name);
    expect (equals machineType updateMachineType).

(** * skr-test/btp-manager-secret *)

Definition secretName : string := "sap-btp-manager".
Definition ns : string := "kyma-system".
Definition expectedBtpOperatorCreds : BTPOperatorCreds := BTPOperatorCreds_dummy.
Definition reconciliationTimeout : Z := 70000.
Definition quoted_secret : string := dquote +:+ "sap-btp-manager" +:+ dquote.

Definition secret_keys : list string := ["clientid"; "clientsecret"; "sm_url"; "tokenurl"; "cluster_id"].

Definition checkSecretDataKeys (secret : jsval) : M X unit :=
  console_log [JStr ("Checking the data keys of the " +:+ quoted_secret +:+ " Secret")] ;;
  expect (not_empty secret) ;;
  managed ← lift (getpath secret ["metadata"; "labels"; "app.kubernetes.io/managed-by"]);
  expect (equals managed (JStr "kcp-kyma-environment-broker")) ;;
  data ← lift (getp secret "data");
  for_each (λ k, expect (has_property data k)) secret_keys.

Definition expected_values : list (string * string) :=
  [("clientid", bc_clientid expectedBtpOperatorCreds);
   ("clientsecret", bc_clientsecret expectedBtpOperatorCreds);
   ("sm_url", bc_smURL expectedBtpOperatorCreds); ("tokenurl", bc_url expectedBtpOperatorCreds)].

Definition checkSecretDataValues (secret : jsval) : M X unit :=
  console_log [JStr ("Checking data values of the " +:+ quoted_secret +:+ " Secret")] ;;
  for_each (λ kv, v ← lift (getp secret kv.1); expect (equals v (JStr kv.2))) expected_values.

(** [delete secret.metadata.k]. *)
Definition delete_meta (secret : jsval) (k : string) : result jsval :=
  meta ← getp secret "metadata";
  match meta with
  | JUndef | JNull => Throw (typeError "Cannot convert undefined or null to object")
  | JObj fs => setp_sloppy secret "metadata" (JObj (odelete fs k))
  | JErr n m fs => setp_sloppy secret "metadata" (JErr n m (odelete fs k))
  | _ => Ok secret
  end.

Definition prepareSecretForApply (secret : jsval) : result jsval :=
  foldl (λ r k, s ← r; delete_meta s k) (Ok secret)
    ["uid"; "resourceVersion"; "creationTimestamp"; "annotations"; "managedFields"].

(** [secret.data.k = v]. *)
Definition set_data (secret : jsval) (k : string) (v : jsval) : result jsval :=
  data ← getp secret "data";
  data' ← setp_sloppy data k v;
  setp_sloppy secret "data" data'.

Definition changeSecretData (secret : jsval) : result jsval :=
  foldl (λ r kv, s ← r; set_data s kv.1 (JStr kv.2)) (Ok secret)
    [("clientid", b64_encode "edited-clientid"); ("clientsecret", ""); ("sm_url", "");
     ("tokenurl", b64_encode "edited-tokenurl")].

Definition secret_values_test : M X unit :=
  data ← getSecretData secretName ns;
  checkSecretDataValues data.

Definition secret_deletion_test (secretFromProvisioning : jsval) : M X unit :=
  console_log [JStr ("Deleting the " +:+ quoted_secret +:+ " Secret")] ;;
  k8sDelete [secretFromProvisioning] ns ;;
  console_log [JStr ("Waiting for the reconciliation for " +:+ Z_to_string reconciliationTimeout +:+ " ms")] ;;
  waitForSecret secretName ns reconciliationTimeout ;;
  console_log [JStr "Secret has been re-created. Checking Secret's data"] ;;
  actualSecret ← getSecret secretName ns;
  checkSecretDataKeys actualSecret ;;
  data ← getSecretData secretName ns;
  checkSecretDataValues data ;;
  console_log [JStr "Secret has been properly reconciled"].

(** The callback of the edit test: an event for the secret with another resource version. *)
Definition reconciled_check (actualSecret : jsval) (_type _apiObj watchObj : jsval) : result bool :=
  name ← getpath watchObj ["object"; "metadata"; "name"];
  found ← includes_call name secretName;
  if (found : bool) then
    v ← getpath watchObj ["object"; "metadata"; "resourceVersion"];
    v' ← getpath actualSecret ["metadata"; "resourceVersion"];
    mret (negb (strict_eq v v'))
  else mret false.

Definition secret_edit_test (modifiedSecret : jsval) : M X unit :=
  console_log [JStr ("Changing data in the " +:+ quoted_secret +:+ " Secret")] ;;
  prepared ← lift (prepareSecretForApply modifiedSecret);
  edited ← lift (changeSecretData prepared);
  console_log [JStr "Applying edited Secret"] ;;
  k8sApply [edited] (JStr ns) ;;
  console_log [JStr ("Waiting " +:+ Z_to_string reconciliationTimeout +:+ " ms until edited Secret is created")] ;;
  waitForSecret secretName ns reconciliationTimeout ;;
  actualSecret ← getSecret secretName ns;
  console_log [JStr ("Waiting for the reconciliation for " +:+ Z_to_string reconciliationTimeout +:+ " ms")] ;;
  src ← get_world w_kube;
  waitForK8sObject src ("/api/v1/namespaces/" +:+ ns +:+ "/secrets") (JObj [])
    (reconciled_check actualSecret) reconciliationTimeout
    ("Waiting for " +:+ secretName +:+ " Secret reconciliation timeout ("
     +:+ Z_to_string reconciliationTimeout +:+ " ms)") ;;
  console_log [JStr "Secret has been reconciled. Checking Secret's data"] ;;
  actualSecret ← getSecret secretName ns;
  checkSecretDataKeys actualSecret ;;
  data ← getSecretData secretName ns;
  checkSecretDataValues data ;;
  console_log [JStr "Secret is correct"].

(** * keb-endpoints-test *)

Definition testEndpointWithoutToken (keb : KEBClient) (requestBody : jsval) (endpoint method : string) : M X unit :=
  try_catch (callKEBWithoutToken keb requestBody endpoint method)
    (λ err, s ← lift (toString_call err);
            throw (mkError ("error while calling KEB endpoint " +:+ dquote +:+ endpoint +:+ dquote
                            +:+ " without authorization: " +:+ s))).

(** Endpoint and method of each entry; the payload is always an empty object. *)
Definition testData (keb : KEBClient) : list (string * string) :=
  let inst := "v2/service_instances/keb-endpoints-test" in
  [("oauth/" +:+ inst, "get"); ("runtimes", "get"); ("info/runtimes", "get"); ("orchestrations", "get");
   ("oauth/" +:+ getPlatformRegion keb +:+ inst, "put"); ("upgrade/cluster", "post"); ("upgrade/kyma", "post");
   ("oauth/" +:+ inst, "patch"); ("oauth/" +:+ inst, "delete")].

Definition endpoints_test (keb : KEBClient) : M X unit :=
  for_each (λ t, testEndpointWithoutToken keb (JObj []) t.1 t.2) (testData keb).

(** * skr-networking-test *)

(** The request for a cluster with the given node range must fail with status 400. No function
    [fail] is defined, so an accepted request raises a ReferenceError in the [try] block, which has
    no response. *)
Definition rejected_networking (keb : KEBClient) (nodes : string) (check : jsval → M X unit) : M X unit :=
  payload ← lift (buildPayload keb (JStr "wrong-nodes") JNull JNull
                    (JObj [("networking", JObj [("nodes", JStr nodes)])]));
  config ← buildRequest keb payload (instance_endpoint "id01234876") "put";
  try_catch
    (invoke (CAxios config) ;; throw (referenceError "fail is not defined"))
    check.

Definition overlap_test (keb : KEBClient) : M X unit :=
  rejected_networking keb "10.242.0.0/22" (λ err,
    resp ← lift (getp err "response");
    status ← lift (getp resp "status");
    expect (equals status (JInt 400)) ;;
    description ← lift (getpath resp ["data"; "description"]);
    expect (includes_text description "overlap") ;;
    data ← lift (getp resp "data");
    console_log [JStr "Got response:"] ;;
    console_log [data]).

Definition invalid_range_test (keb : KEBClient) : M X unit :=
  rejected_networking keb "333.242.0.0/22" (λ err,
    console_log [JStr "Got response:"] ;;
    data ← lift (getpath err ["response"; "data"]);
    console_log [data] ;;
    status ← lift (getpath err ["response"; "status"]);
    expect (equals status (JInt 400))).

End suites.

(** * Lemmas and theorems *)

(** The plan [p] is the one looked for, and its update schema lists machine types in which [v]
    follows, cyclically, a type equal to [d]. *)
Definition offers (planID : string) (d v p : jsval) : Prop :=
  getp p "id" = Ok (JStr planID) ∧
  ∃ mt i t,
    getpath p ["schemas"; "service_instance"; "update"; "parameters"; "properties"; "machineType"; "enum"] = Ok mt ∧
    let types := array_like mt in
    2 ≤ length types ∧ types !! i = Some t ∧ strict_eq t d = true ∧
    types !! ((i + 1) mod length types) = Some v.

Section theorems.
Context {X : Type} `{Services X} `{Chai}.

Lemma scan_types_spec all d rest i (w w' : world X) v :
  (∀ j t, rest !! j = Some t → all !! (i + j) = Some t) →
  scan_types all rest i d w = (Ok (Some v), w') →
  ∃ j t, all !! j = Some t ∧ strict_eq t d = true ∧ v = default JUndef (all !! ((j + 1) mod length all)).
Proof.
  revert i w. induction rest as [|t r IH]; intros i w Hsub Hs; [done|]. cbn [scan_types] in Hs.
  rewrite run_bind_log in Hs. destruct (strict_eq t d) eqn:E.
  - rewrite run_bind_log in Hs. injection Hs as <- _. exists i, t. split_and!; try done.
    specialize (Hsub 0 t eq_refl). by rewrite Nat.add_0_r in Hsub.
  - eapply IH; [|done]. intros j t' Hj. specialize (Hsub (S j) t' Hj).
    by rewrite Nat.add_succ_r in Hsub.
Qed.

Lemma string_chars_length s : length (string_chars s) = String.length s.
Proof. induction s as [|c s IH]; [done|]. simpl. by rewrite IH. Qed.

(** The length test of the source, on the elements its loop visits. *)
Lemma array_like_length mt len :
  getp mt "length" = Ok len → js_lt len (JInt 2) = false → array_like mt ≠ [] → 2 ≤ length (array_like mt).
Proof.
  unfold getp. destruct (nullish mt); [done|]. intros [= <-].
  destruct mt; try done; simpl; unfold js_lt, num_lt; simpl; rewrite ?string_chars_length;
    intros Hlt _; apply Z.ltb_ge in Hlt; rewrite ?Z.mul_1_r in Hlt; unfold pow10 in Hlt; simpl in Hlt; lia.
Qed.

Lemma scan_plans_spec planID d plans update (w w' : world X) v :
  scan_plans planID d plans update w = (Ok v, w') → v = update ∨ ∃ p, p ∈ plans ∧ offers planID d v p.
Proof.
  revert w update. induction plans as [|p r IH]; intros w update Hs.
  { injection Hs as <- _. by left. }
  assert (∀ u w1, scan_plans planID d r u w1 = (Ok v, w') → v = u ∨ ∃ p', p' ∈ p :: r ∧ offers planID d v p') as IH'.
  { intros u w1 Hr. apply IH in Hr as [->|(p' & Hin & Ho)]; [by left|]. right. exists p'. split; [by right|done]. }
  cbn [scan_plans] in Hs. apply bind_Ok_inv in Hs as (pid & ? & [Hid ->]%lift_Ok_inv & Hs).
  rewrite run_bind_log in Hs. destruct (strict_eq pid (JStr planID)) eqn:Epid; simpl in Hs; [|by eapply IH'].
  apply strict_eq_str in Epid as ->.
  apply bind_Ok_inv in Hs as (si & ? & [Hsi ->]%lift_Ok_inv & Hs).
  apply bind_Ok_inv in Hs as (u & ? & [Hu ->]%lift_Ok_inv & Hs).
  rewrite run_bind_log in Hs. apply bind_Ok_inv in Hs as (m & ? & Hm & Hs).
  destruct (is_undef u) eqn:Eu; simpl in Hs; [by eapply IH'|]. apply lift_Ok_inv in Hm as [Hm ->].
  destruct (is_undef m) eqn:Em; simpl in Hs; [by eapply IH'|].
  apply bind_Ok_inv in Hs as (mt & ? & [Hmt ->]%lift_Ok_inv & Hs). rewrite run_bind_log in Hs.
  apply bind_Ok_inv in Hs as (len & ? & [Hlen ->]%lift_Ok_inv & Hs).
  destruct (js_lt len (JInt 2)) eqn:El; [by eapply IH'|].
  assert (getpath p ["schemas"; "service_instance"; "update"; "parameters"; "properties"; "machineType"; "enum"]
          = Ok mt) as Hpath.
  { change (["schemas"; "service_instance"; "update"; "parameters"; "properties"; "machineType"; "enum"])
      with (["schemas"; "service_instance"] ++ ["update"] ++ ["parameters"; "properties"; "machineType"] ++ ["enum"]).
    rewrite (getpath_app p ["schemas"; "service_instance"] _ si Hsi). rewrite <- getpath_1 in Hu.
    rewrite (getpath_app si ["update"] _ u Hu).
    by rewrite (getpath_app u ["parameters"; "properties"; "machineType"] _ m Hm), getpath_1. }
  apply bind_Ok_inv in Hs as (found & u1 & Hf & Hs). destruct found as [ty|]; simpl in Hs.
  2: { destruct (is_undef update) eqn:Eud; simpl in Hs; [by eapply IH'|]. injection Hs as <- _. by left. }
  apply scan_types_spec in Hf as (i & t & Ht & Heq & ->); [|done].
  assert (array_like mt ≠ []) as Hne by (intros E; by rewrite E in Ht).
  pose proof (array_like_length mt len Hlen El Hne) as H2.
  assert (is_Some (array_like mt !! ((i + 1) mod length (array_like mt)))) as [y Hy].
  { apply lookup_lt_is_Some. apply Nat.mod_upper_bound. lia. }
  assert (offers planID d y p) as Ho by (split; [done|]; by exists mt, i, t).
  rewrite Hy in Hs. simpl in Hs. destruct (is_undef y) eqn:Ex; simpl in Hs.
  - destruct y; try done. apply IH' in Hs as [->|Hs]; [|by right]. right. exists p. split; [by left|done].
  - injection Hs as <- _. right. exists p. split; [by left|done].
Qed.

Lemma scan_services_spec planID d services update (w w' : world X) v :
  scan_services planID d services update w = (Ok v, w') →
  v = update ∨ ∃ s plans p, s ∈ services ∧ getp s "id" = Ok (JStr "47c9dcbf-ff30-448e-ab36-d3bad66ba281") ∧
    getp s "plans" = Ok plans ∧ p ∈ array_like plans ∧ offers planID d v p.
Proof.
  revert w update. induction services as [|s r IH]; intros w update Hs.
  { injection Hs as <- _. by left. }
  cbn [scan_services] in Hs. apply bind_Ok_inv in Hs as (id & ? & [Hid ->]%lift_Ok_inv & Hs).
  rewrite run_bind_log in Hs. destruct (strict_eq id _) eqn:Eid; simpl in Hs.
  2: { apply IH in Hs as [->|(s' & plans & p & Hin & Hr)]; [by left|]. right. exists s', plans, p.
       split; [by right|done]. }
  apply strict_eq_str in Eid as ->.
  apply bind_Ok_inv in Hs as (plans & ? & [Hp ->]%lift_Ok_inv & Hs).
  apply bind_Ok_inv in Hs as (? & ? & _ & Hs). apply bind_Ok_inv in Hs as (u & ? & Hsc & Hs).
  apply IH in Hs as [->|(s' & plans' & p & Hin & Hr)].
  - apply scan_plans_spec in Hsc as [->|(p & Hin & Ho)]; [by left|]. right. exists s, plans, p.
    split; [by left|done].
  - right. exists s', plans', p. split; [by right|done].
Qed.

(** The machine type chosen for the update test: when one is found, the catalog has the Kyma
    service with the configured plan, whose update schema lists at least two types, and the chosen
    one follows the current type cyclically in that list; it is a different type when the list has
    no repetitions. *)
Theorem machine_type_choice keb planID d (w w' : world X) v :
  figure_out_machine_type keb planID d w = (Ok v, w') → v ≠ JUndef →
  ∃ catalog services s plans p mt i t w1,
    getCatalog_op keb w = (Ok catalog, w1) ∧ getp catalog "services" = Ok services ∧
    s ∈ array_like services ∧ getp s "id" = Ok (JStr KYMA_SERVICE_ID) ∧
    getp s "plans" = Ok plans ∧ p ∈ array_like plans ∧ getp p "id" = Ok (JStr planID) ∧
    getpath p ["schemas"; "service_instance"; "update"; "parameters"; "properties"; "machineType"; "enum"] = Ok mt ∧
    array_like mt !! i = Some t ∧ strict_eq t d = true ∧
    array_like mt !! ((i + 1) mod length (array_like mt)) = Some v ∧
    (NoDup (array_like mt) → v ≠ t).
Proof.
  intros Hf Hv. apply bind_Ok_inv in Hf as (catalog & w1 & Hc & Hf).
  apply bind_Ok_inv in Hf as (services & ? & [Hs ->]%lift_Ok_inv & Hf).
  apply bind_Ok_inv in Hf as (len & ? & _ & Hf). rewrite run_bind_log in Hf.
  apply bind_Ok_inv in Hf as (u & ? & Hsc & Hf). rewrite run_bind_log in Hf. injection Hf as -> _.
  apply scan_services_spec in Hsc as [->|(s & plans & p & Hin & Hid & Hpl & Hp & Hpid & mt & i & t & Hpath & H2 & Ht & Heq & Hnext)];
    [done|].
  exists catalog, services, s, plans, p, mt, i, t, w1. split_and!; try done.
  intros Hnd ->. pose proof (NoDup_lookup _ _ _ _ Hnd Ht Hnext) as Hi.
  apply lookup_lt_Some in Ht. revert H2 Ht Hi. generalize (length (array_like mt)) as n. intros n H2 Ht Hi.
  destruct (decide (i + 1 = n)) as [<-|].
  - rewrite Nat.Div0.mod_same in Hi. lia.
  - rewrite Nat.mod_small in Hi by lia. lia.
Qed.

(** ** The secret *)

Lemma checkSecretDataValues_spec `{!ChaiLaws H0} secret (w : world X) : nullish secret = false →
  ((checkSecretDataValues secret w).1 = Ok tt ↔
   ∀ k s, (k, s) ∈ expected_values → own secret k = Some (JStr s)).
Proof.
  intros Hn. unfold checkSecretDataValues. rewrite run_bind_log.
  set (u := add_log _ w).
  destruct (for_each_check (λ kv, v ← lift (getp secret kv.1); expect (X := X) (equals v (JStr kv.2)))
    (λ kv, own secret kv.1 = Some (JStr kv.2)) expected_values u) as (r & -> & Hr).
  { intros [k s]. simpl. autorewrite with run. rewrite getp_Ok by done.
    pose proof (equals_law (default JUndef (own secret k)) (JStr s)) as Hlaw.
    rewrite strict_eq_str in Hlaw.
    destruct (equals _ _) as [e|]; (eexists; split; [done|]); split; try done.
    - intros Ho. rewrite Ho in Hlaw. by destruct Hlaw as [_ Hlaw]; discriminate Hlaw.
    - intros _. destruct (own secret k) as [v|]; simpl in Hlaw; [by destruct Hlaw as [-> _]|].
      by destruct Hlaw as [Hlaw _]; discriminate Hlaw. }
  simpl. rewrite Hr. split; [intros Ha k s Hin; exact (Ha (k, s) Hin)|intros Ha [k s] Hin; by apply Ha].
Qed.

(** The edit test can tell a reconciled secret from the edited one: if the data of an edited
    secret decode at all, the decoded values do not pass [checkSecretDataValues]. *)
Theorem edited_secret_rejected `{!ChaiLaws H0} fs data edited d d' (w : world X) :
  assoc fs "data" = Some (JObj data) → NoDup (map fst data) → changeSecretData (JObj fs) = Ok edited →
  getp edited "data" = Ok d → decode_data d = Ok d' →
  (checkSecretDataValues d' w).1 ≠ Ok tt.
Proof.
  intros Hd Hnd Hch Hg Hdec.
  assert (d = JObj (oset (oset (oset (oset data "clientid" (JStr (b64_encode "edited-clientid")))
    "clientsecret" (JStr "")) "sm_url" (JStr "")) "tokenurl" (JStr (b64_encode "edited-tokenurl")))) as ->.
  { unfold changeSecretData in Hch. cbn [foldl fst snd] in Hch. unfold set_data in Hch.
    cbn [mbind result_bind] in Hch. rewrite getp_obj, Hd in Hch. simpl in Hch.
    rewrite !assoc_oset_eq in Hch. simpl in Hch. rewrite !assoc_oset_eq in Hch. simpl in Hch.
    rewrite !assoc_oset_eq in Hch. simpl in Hch. injection Hch as <-.
    rewrite getp_obj, assoc_oset_eq in Hg. by injection Hg as <-. }
  eapply (decode_data_assoc _ d' "clientid") in Hdec as (gs & v' & -> & Hv' & Hgs);
    [|by do 4 apply oset_NoDup|by rewrite !assoc_oset_ne, assoc_oset_eq by done].
  rewrite (checkSecretDataValues_spec (JObj gs) w eq_refl). intros Ha.
  specialize (Ha "clientid" (bc_clientid expectedBtpOperatorCreds) ltac:(by left)). simpl in Ha.
  rewrite Hgs in Ha. injection Ha as ->. by vm_compute in Hv'.
Qed.

(** ** The endpoints *)

Definition endpoint_request (keb : KEBClient) (t : string * string) : call :=
  open_request keb (JObj []) t.1 t.2.

(** Each of the requests, made one after the other, is refused with 401 or 403. *)
Fixpoint all_refused (keb : KEBClient) (l : list (string * string)) (w : world X) : Prop :=
  match l with
  | [] => True
  | t :: r =>
      (∃ s, seen_status (answer (endpoint_request keb t) w) = Ok s ∧ refused s = true) ∧
      all_refused keb r (after (endpoint_request keb t) w)
  end.

Lemma testEndpoint_run keb t (w : world X) :
  ∃ r, testEndpointWithoutToken keb (JObj []) t.1 t.2 w = (r, after (endpoint_request keb t) w) ∧
    (r = Ok tt ↔ ∃ s, seen_status (answer (endpoint_request keb t) w) = Ok s ∧ refused s = true).
Proof.
  destruct (withoutToken_run keb (JObj []) t.1 t.2 w) as (r & Hr & Hc). cbv zeta in *.
  unfold testEndpointWithoutToken. rewrite run_try, Hr. fold (endpoint_request keb t) in *.
  destruct r as [[]|e|]; [by eexists|..].
  - autorewrite with run. destruct (toString_call e) as [s|e'|] eqn:E; autorewrite with run;
      (eexists; split; [done|]); rewrite <- Hc; done.
  - by eexists.
Qed.

(** The endpoints test passes exactly when the broker refuses every one of the nine requests
    without a token with 401 or 403; a passing run made these nine requests in order and no other
    call, in particular none for a token. *)
Theorem endpoints_test_spec keb (w : world X) :
  ((endpoints_test keb w).1 = Ok tt ↔ all_refused keb (testData keb) w) ∧
  ((endpoints_test keb w).1 = Ok tt →
     calls (endpoints_test keb) w = map (endpoint_request keb) (testData keb)).
Proof.
  unfold endpoints_test.
  assert (∀ l (u : world X), ∃ r u',
    for_each (λ t, testEndpointWithoutToken keb (JObj []) t.1 t.2) l u = (r, u') ∧
    (r = Ok tt ↔ all_refused keb l u) ∧
    (r = Ok tt → w_trace u' = w_trace u ++ map (endpoint_request keb) l)) as Hl.
  { induction l as [|t l IH]; intros u; [eexists _, u; split; [done|]; by rewrite app_nil_r|].
    destruct (testEndpoint_run keb t u) as (r & Hr & Hc). cbn [for_each all_refused]. unfold mbind, M_bind.
    rewrite Hr. destruct r as [[]|e|];
      [|by eexists _, _; split; [done|]; split; [split; [done|]; intros [Hs _]; apply Hc in Hs|]..].
    destruct (IH (after (endpoint_request keb t) u)) as (r & u' & -> & Hall & Htr).
    exists r, u'. split_and!; [done|rewrite Hall; split; [split; [by apply Hc|done]|by intros []]|].
    intros Hok. rewrite (Htr Hok), trace_after, <- app_assoc. done. }
  destruct (Hl (testData keb) w) as (r & u' & Hrun & Hall & Htr). rewrite Hrun. split; [done|].
  intros Hok. eapply calls_intro; [exact Hrun|]. by apply Htr.
Qed.

(** ** Networking *)

(** The networking tests fail, as they must, when the broker accepts a forbidden node range, but
    not with the intended message: [fail] is not defined, its ReferenceError has no response, and
    what the test throws is the TypeError of reading the response's status. *)
Theorem accepted_range_reported keb (w w1 : world X) config v payload :
  buildPayload keb (JStr "wrong-nodes") JNull JNull
    (JObj [("networking", JObj [("nodes", JStr "10.242.0.0/22")])]) = Ok payload →
  buildRequest keb payload (instance_endpoint "id01234876") "put" w = (Ok config, w1) →
  answer (CAxios config) w1 = Ok v →
  (overlap_test keb w).1 = Throw (cannot_read JUndef "status").
Proof.
  intros Hp Hb Ha. unfold overlap_test, rejected_networking. rewrite Hp. autorewrite with run.
  rewrite (bind_Ok _ _ _ _ _ Hb), run_try, run_bind_invoke, Ha. reflexivity.
Qed.

End theorems.

(** * Concrete runs *)

Definition demo_plan (types : list string) : jsval :=
  JObj [("id", JStr "plan"); ("schemas", JObj [("service_instance", JObj [("update", JObj [("parameters",
    JObj [("properties", JObj [("machineType", JObj [("enum", JArr (map JStr types))])])])])])])].

Definition demo_catalog : world script :=
  with_token (answering [inr (JObj [("data", JObj [("services", JArr [JObj [("id", JStr KYMA_SERVICE_ID);
    ("plans", JArr [demo_plan ["m5"; "m6"]])]])])])]).

Lemma machine_type_choice_witness :
  ∃ mt i, array_like mt !! i = Some (JStr "m6") ∧ array_like mt !! ((i + 1) mod length (array_like mt)) = Some (JStr "m5").
Proof.
  destruct (machine_type_choice demo_keb "plan" (JStr "m6") demo_catalog
    (figure_out_machine_type demo_keb "plan" (JStr "m6") demo_catalog).2 (JStr "m5"))
    as (? & ? & ? & ? & ? & mt & i & t & ? & _ & _ & _ & _ & _ & _ & _ & _ & Ht & Heq & Hn & _);
    [vm_compute; reflexivity|done|].
  exists mt, i. split; [|exact Hn]. apply strict_eq_str in Heq as ->. exact Ht.
Defined.

Definition demo_data : list (string * jsval) :=
  [("clientid", JStr (b64_encode "dummy_client_id")); ("cluster_id", JStr (b64_encode "c"))].

Lemma edited_secret_rejected_witness :
  ∃ d', (checkSecretDataValues d' steady).1 ≠ Ok tt.
Proof.
  eexists.
  eapply (edited_secret_rejected [("data", JObj demo_data)] demo_data _ _ _ steady);
    [reflexivity|repeat constructor; set_solver|vm_compute; reflexivity|vm_compute; reflexivity
    |vm_compute; reflexivity].
Defined.
