(* ===== verification/Mocha.v ===== *)
(** The mocha test runner as an interface: what a [describe] block registers, the order in which
    mocha documents to run it, and the variables that the callbacks of a block share. *)

From S2P Require Import Prelude JsValue Json Effects Script.

(** * Callbacks *)

(** The variables of the enclosing functions, by name; one that was not assigned is [undefined]. *)
Notation vars := (gmap string jsval).

(** A computation of a callback: it reads and assigns these variables. *)
Definition T (X A : Type) : Type := vars → world X → result A * vars * world X.

#[export] Instance T_ret {X} : MRet (T X) := λ A a e w, (Ok a, e, w).
#[export] Instance T_bind {X} : MBind (T X) := λ A B k m e w,
  match m e w with
  | (Ok a, e', w') => k a e' w'
  | (Throw x, e', w') => (Throw x, e', w')
  | (Hang, e', w') => (Hang, e', w')
  end.

Section callbacks.
Context {X : Type}.

(** A call of a function that does not touch the variables. *)
Definition use {A} (m : M X A) : T X A := λ e w, let '(r, w') := m w in (r, e, w').

Definition var (k : string) : T X jsval := λ e w, (Ok (default JUndef (e !! k)), e, w).
Definition assign (k : string) (v : jsval) : T X unit := λ e w, (Ok tt, <[k:=v]> e, w).

Definition try_with {A} (m : T X A) (h : jsval → T X A) : T X A := λ e w,
  match m e w with
  | (Throw x, e', w') => h x e' w'
  | p => p
  end.

(** A hook or a test: title, timeout in milliseconds, body. *)
Record callback := Callback { cb_title : string; cb_timeout : Z; cb_body : T X unit }.

(** A [describe] block inside another one: its [before] hooks and tests. *)
Record group := Group { g_title : string; g_before : list callback; g_tests : list callback }.

(** A top-level [describe] block, each list in the order of registration, with the [--bail] option
    it is run with. *)
Record suite := Suite {
  s_title : string;
  s_bail : bool;
  s_before : list callback;
  s_tests : list callback;
  s_groups : list group;
  s_after : list callback
}.

(** * The documented order *)

(** What the run of a callback gave. An entry is [regular] when the callback settled before its
    timeout and left no unhandled rejection behind: in the other cases mocha goes on while the
    callback may still be running. *)
Record entry := Entry { en_title : string; en_outcome : result unit; en_regular : bool }.

Definition in_time (cb : callback) (r : result unit) (w w' : world X) : bool :=
  match r with
  | Hang => false
  | _ => (w_now w' - w_now w <? cb_timeout cb)%Z && Nat.eqb (length (w_unhandled w')) (length (w_unhandled w))
  end.

Definition passed (r : result unit) : bool := match r with Ok _ => true | _ => false end.

(** Hooks run in order; the first failure ends the sequence. *)
Fixpoint run_hooks (l : list callback) (e : vars) (w : world X) : list entry * bool * vars * world X :=
  match l with
  | [] => ([], true, e, w)
  | cb :: l' =>
      let '(r, e', w') := cb_body cb e w in
      let en := Entry (cb_title cb) r (in_time cb r w w') in
      if passed r then
        let '(es, ok, e'', w'') := run_hooks l' e' w' in (en :: es, ok, e'', w'')
      else ([en], false, e', w')
  end.

Section run.
Variable bail : bool.

(** Tests run in order, whatever their outcomes, unless [--bail] asks to stop at the first failure;
    the boolean tells whether the run goes on. *)
Fixpoint run_tests (l : list callback) (e : vars) (w : world X) : list entry * bool * vars * world X :=
  match l with
  | [] => ([], true, e, w)
  | cb :: l' =>
      let '(r, e', w') := cb_body cb e w in
      let en := Entry (cb_title cb) r (in_time cb r w w') in
      if bail && negb (passed r) then ([en], false, e', w')
      else let '(es, go, e'', w'') := run_tests l' e' w' in (en :: es, go, e'', w'')
  end.

(** The tests of a block are skipped when one of its [before] hooks failed. *)
Definition run_group (g : group) (e : vars) (w : world X) : list entry * bool * vars * world X :=
  let '(bs, ok, e1, w1) := run_hooks (g_before g) e w in
  if ok then let '(ts, go, e2, w2) := run_tests (g_tests g) e1 w1 in (bs ++ ts, go, e2, w2)
  else (bs, negb bail, e1, w1).

Fixpoint run_groups (l : list group) (e : vars) (w : world X) : list entry * vars * world X :=
  match l with
  | [] => ([], e, w)
  | g :: l' =>
      let '(es, go, e1, w1) := run_group g e w in
      if go : bool then let '(es', e2, w2) := run_groups l' e1 w1 in (es ++ es', e2, w2)
      else (es, e1, w1)
  end.

End run.

(** The tests of a block run before the blocks inside it, wherever they were registered. *)
Definition run_body (s : suite) (e : vars) (w : world X) : list entry * vars * world X :=
  let '(ts, go, e1, w1) := run_tests (s_bail s) (s_tests s) e w in
  if go : bool then let '(gs, e2, w2) := run_groups (s_bail s) (s_groups s) e1 w1 in (ts ++ gs, e2, w2)
  else (ts, e1, w1).

(** The [before] hooks and, when they passed, the tests. *)
Definition run_main (s : suite) (e : vars) (w : world X) : list entry * vars * world X :=
  let '(bs, ok, e1, w1) := run_hooks (s_before s) e w in
  let '(ts, e2, w2) := if ok : bool then run_body s e1 w1 else ([], e1, w1) in
  (bs ++ ts, e2, w2).

(** The [after] hooks run in every case. *)
Definition documented_run (s : suite) (e : vars) (w : world X) : list entry * vars * world X :=
  let '(ts, e2, w2) := run_main s e w in
  let '(es, _, e3, w3) := run_hooks (s_after s) e2 w2 in
  (ts ++ es, e3, w3).

End callbacks.
Arguments Callback {X}.
Arguments callback : clear implicits.
Arguments group : clear implicits.
Arguments suite : clear implicits.

(** The runner: it follows the documented order as long as every callback is regular. *)
Class Mocha (X : Type) := mocha : suite X → vars → world X → list entry * vars * world X.

Class MochaLaws {X} (R : Mocha X) :=
  mocha_law s e w : forallb en_regular (documented_run s e w).1.1 = true → mocha s e w = documented_run s e w.

#[export] Instance mocha_ref {X} : Mocha X := documented_run.
#[export] Instance mocha_ref_laws {X} : MochaLaws (X := X) mocha_ref.
Proof. done. Qed.

(** * Lemmas *)

Section lemmas.
Context {X : Type}.

Lemma T_bind_Ok_inv {A B} (m : T X A) (k : A → T X B) e w b e' w' :
  (m ≫= k) e w = (Ok b, e', w') → ∃ a e1 w1, m e w = (Ok a, e1, w1) ∧ k a e1 w1 = (Ok b, e', w').
Proof. unfold mbind, T_bind. destruct (m e w) as [[[a|x|] e1] w1]; [|done..]. by exists a, e1, w1. Qed.

Lemma T_bind_Ok {A B} (m : T X A) (k : A → T X B) e w a e' w' :
  m e w = (Ok a, e', w') → (m ≫= k) e w = k a e' w'.
Proof. unfold mbind, T_bind. by intros ->. Qed.

Lemma use_Ok {A} (m : M X A) e w a w' : m w = (Ok a, w') → use m e w = (Ok a, e, w').
Proof. unfold use. by intros ->. Qed.

Lemma use_Ok_inv {A} (m : M X A) e w a e' w' :
  use m e w = (Ok a, e', w') → e' = e ∧ m w = (Ok a, w').
Proof. unfold use. destruct (m w) as [r w1]. by intros [= -> -> ->]. Qed.

(** ** Invariants of the variables *)

Section invariant.
Variable I : vars → Prop.

Definition preserves {A} (m : T X A) : Prop := ∀ e w, I e → I (m e w).1.2.

Lemma preserves_bind {A B} (m : T X A) (k : A → T X B) :
  preserves m → (∀ a, preserves (k a)) → preserves (m ≫= k).
Proof.
  intros Hm Hk e w HI. specialize (Hm e w HI). unfold mbind, T_bind.
  destruct (m e w) as [[[a|x|] e1] w1]; try done. by apply Hk.
Qed.

Lemma preserves_ret {A} (a : A) : preserves (mret a).
Proof. by intros e w. Qed.

Lemma preserves_use {A} (m : M X A) : preserves (use m).
Proof. intros e w HI. unfold use. by destruct (m w). Qed.

Lemma preserves_var k : preserves (var k).
Proof. by intros e w. Qed.

Lemma preserves_try {A} (m : T X A) h : preserves m → (∀ x, preserves (h x)) → preserves (try_with m h).
Proof.
  intros Hm Hh e w HI. specialize (Hm e w HI). unfold try_with.
  destruct (m e w) as [[[a|x|] e1] w1]; try done. by apply Hh.
Qed.

(** The invariant after a computation that returned. *)
Lemma preserves_Ok {A} (m : T X A) e w a e' w' :
  preserves m → m e w = (Ok a, e', w') → I e → I e'.
Proof. intros Hm E HI. specialize (Hm e w HI). by rewrite E in Hm. Qed.

Lemma preserves_hooks l e w :
  Forall (λ cb, preserves (cb_body cb)) l → I e → I (run_hooks l e w).1.2.
Proof.
  revert e w. induction l as [|cb l IH]; intros e w Hl HI; [done|].
  apply Forall_cons in Hl as [Hcb Hl]. specialize (Hcb e w HI). cbn [run_hooks].
  destruct (cb_body cb e w) as [[r e1] w1]. destruct (passed r); [|done]. specialize (IH e1 w1 Hl Hcb).
  by destruct (run_hooks l e1 w1) as [[[es ok] e2] w2].
Qed.

Lemma preserves_tests bail l e w :
  Forall (λ cb, preserves (cb_body cb)) l → I e → I (run_tests bail l e w).1.2.
Proof.
  revert e w. induction l as [|cb l IH]; intros e w Hl HI; [done|].
  apply Forall_cons in Hl as [Hcb Hl]. specialize (Hcb e w HI). cbn [run_tests].
  destruct (cb_body cb e w) as [[r e1] w1]. destruct (bail && negb (passed r)); [done|].
  specialize (IH e1 w1 Hl Hcb). by destruct (run_tests bail l e1 w1) as [[[es go] e2] w2].
Qed.

Definition group_preserves (g : group X) : Prop :=
  Forall (λ cb, preserves (cb_body cb)) (g_before g) ∧ Forall (λ cb, preserves (cb_body cb)) (g_tests g).

Lemma preserves_groups bail l e w :
  Forall group_preserves l → I e → I (run_groups bail l e w).1.2.
Proof.
  revert e w. induction l as [|g l IH]; intros e w Hl HI; [done|].
  apply Forall_cons in Hl as [[Hb Ht] Hl]. cbn [run_groups]. unfold run_group.
  pose proof (preserves_hooks (g_before g) e w Hb HI) as H1.
  destruct (run_hooks (g_before g) e w) as [[[bs ok] e1] w1]. simpl in H1.
  pose proof (preserves_tests bail (g_tests g) e1 w1 Ht H1) as H2.
  destruct ok; [destruct (run_tests bail (g_tests g) e1 w1) as [[[ts go] e2] w2]; simpl in H2|].
  - destruct go; [|done]. specialize (IH e2 w2 Hl H2). by destruct (run_groups bail l e2 w2) as [[es e3] w3].
  - destruct (negb bail); [|done]. specialize (IH e1 w1 Hl H1).
    by destruct (run_groups bail l e1 w1) as [[es e3] w3].
Qed.

Lemma preserves_main s e w :
  Forall (λ cb, preserves (cb_body cb)) (s_before s) → Forall (λ cb, preserves (cb_body cb)) (s_tests s) →
  Forall group_preserves (s_groups s) → I e → I (run_main s e w).1.2.
Proof.
  intros Hb Ht Hg HI. unfold run_main, run_body.
  pose proof (preserves_hooks (s_before s) e w Hb HI) as H1.
  destruct (run_hooks (s_before s) e w) as [[[bs ok] e1] w1]. simpl in H1. destruct ok; [|done].
  pose proof (preserves_tests (s_bail s) (s_tests s) e1 w1 Ht H1) as H2.
  destruct (run_tests (s_bail s) (s_tests s) e1 w1) as [[[ts go] e2] w2]. simpl in H2. destruct go; [|done].
  pose proof (preserves_groups (s_bail s) (s_groups s) e2 w2 Hg H2) as H3.
  by destruct (run_groups (s_bail s) (s_groups s) e2 w2) as [[gs e3] w3].
Qed.

End invariant.

(** The single [after] hook of a suite runs last, on what the run before it left. *)
Lemma after_hook_runs (s : suite X) e w cb es e1 w1 :
  s_after s = [cb] → run_main s e w = (es, e1, w1) →
  documented_run s e w = (es ++ [Entry (cb_title cb) (cb_body cb e1 w1).1.1
      (in_time cb (cb_body cb e1 w1).1.1 w1 (cb_body cb e1 w1).2)], (cb_body cb e1 w1).1.2, (cb_body cb e1 w1).2).
Proof.
  intros Ha Hm. unfold documented_run. rewrite Hm, Ha. cbn [run_hooks].
  destruct (cb_body cb e1 w1) as [[r e2] w2]. by destruct (passed r).
Qed.

(** ** Development of the outside *)

Definition T_appends `{Services X} {A} (m : T X A) : Prop := ∀ e w, follows w (m e w).2.

Lemma T_appends_use `{Services X} {A} (m : M X A) : appends m → T_appends (use m).
Proof. intros Hm e w. specialize (Hm w). unfold use. by destruct (m w). Qed.

Lemma T_appends_ret `{Services X} {A} (a : A) : T_appends (mret a).
Proof. intros e w. simpl. reflexivity. Qed.

Lemma T_appends_var `{Services X} k : T_appends (var k).
Proof. intros e w. simpl. reflexivity. Qed.

Lemma T_appends_assign `{Services X} k v : T_appends (assign k v).
Proof. intros e w. simpl. reflexivity. Qed.

Lemma T_appends_bind `{Services X} {A B} (m : T X A) (k : A → T X B) :
  T_appends m → (∀ a, T_appends (k a)) → T_appends (m ≫= k).
Proof.
  intros Hm Hk e w. specialize (Hm e w). unfold mbind, T_bind.
  destruct (m e w) as [[[a|x|] e1] w1]; simpl in *; try done. etrans; [exact Hm|apply Hk].
Qed.

Lemma T_appends_try `{Services X} {A} (m : T X A) h :
  T_appends m → (∀ x, T_appends (h x)) → T_appends (try_with m h).
Proof.
  intros Hm Hh e w. specialize (Hm e w). unfold try_with.
  destruct (m e w) as [[[a|x|] e1] w1]; simpl in *; try done. etrans; [exact Hm|apply Hh].
Qed.

(** A first step that returned, kept an invariant of the variables and only developed the outside. *)
Lemma run_step `{Services X} (I : vars → Prop) {A B} (m : T X A) (k : A → T X B) e w b e' w' :
  (m ≫= k) e w = (Ok b, e', w') → I e → preserves I m → T_appends m →
  ∃ a e1 w1, I e1 ∧ follows w w1 ∧ k a e1 w1 = (Ok b, e', w').
Proof.
  intros E HI Hm Ha. apply T_bind_Ok_inv in E as (a & e1 & w1 & E1 & E). exists a, e1, w1.
  split_and!; [by eapply preserves_Ok| |done]. specialize (Ha e w). by rewrite E1 in Ha.
Qed.

Lemma preserves_assign k v k' u : k ≠ k' →
  preserves (λ e, e !! k = Some u) (assign (X := X) k' v).
Proof. intros Hk e w HI. unfold assign. cbn [fst snd]. by rewrite lookup_insert_ne. Qed.

(** ** Passing tests *)

(** The bodies of the tests, one after the other. *)
Definition in_sequence (l : list (callback X)) : T X unit :=
  foldr (λ cb m, cb_body cb ;; m) (mret tt) l.

(** All tests of a list passed exactly when their bodies run in sequence without failure. *)
Lemma tests_passed bail l e w :
  forallb (λ en, passed (en_outcome en)) (run_tests bail l e w).1.1.1 = true ↔
  (in_sequence l e w).1.1 = Ok tt.
Proof.
  revert e w. induction l as [|cb l IH]; intros e w; [done|].
  cbn [run_tests in_sequence foldr]. unfold mbind, T_bind. specialize (IH (cb_body cb e w).1.2 (cb_body cb e w).2).
  destruct (cb_body cb e w) as [[r e1] w1]. simpl in IH.
  destruct r as [[]|x|]; simpl; [|by destruct bail; simpl; [|destruct (run_tests _ l e1 w1) as [[[??]?]?]]..].
  rewrite andb_false_r. destruct (run_tests bail l e1 w1) as [[[es go] e2] w2] eqn:E. simpl. exact IH.
Qed.

Lemma hooks_passed (l : list (callback X)) e w :
  forallb (λ en, passed (en_outcome en)) (run_hooks l e w).1.1.1 = true →
  (in_sequence l e w) = (Ok tt, (run_hooks l e w).1.2, (run_hooks l e w).2) ∧ (run_hooks l e w).1.1.2 = true.
Proof.
  revert e w. induction l as [|cb l IH]; intros e w; [done|].
  cbn [run_hooks in_sequence foldr]. unfold mbind, T_bind. specialize (IH (cb_body cb e w).1.2 (cb_body cb e w).2).
  destruct (cb_body cb e w) as [[r e1] w1]. simpl in IH.
  destruct r as [[]|x|]; simpl; [|done..].
  destruct (run_hooks l e1 w1) as [[[es ok] e2] w2] eqn:E. simpl. exact IH.
Qed.

(** All hooks and tests of a block passed: its bodies run in sequence. *)
Lemma group_passed bail (g : group X) e w :
  forallb (λ en, passed (en_outcome en)) (run_group bail g e w).1.1.1 = true →
  (in_sequence (g_before g ++ g_tests g) e w).1.1 = Ok tt.
Proof.
  unfold run_group. pose proof (hooks_passed (g_before g) e w) as Hh.
  destruct (run_hooks (g_before g) e w) as [[[bs ok] e1] w1]. simpl in Hh.
  assert (∀ l l' e0 (w0 : world X), in_sequence (l ++ l') e0 w0 = (in_sequence l ;; in_sequence l') e0 w0) as Happ.
  { induction l as [|cb l IHl]; intros l' e0 w0; [done|]. cbn [app in_sequence foldr].
    unfold mbind, T_bind. destruct (cb_body cb e0 w0) as [[[[]|x|] e2] w2]; [|done..]. apply IHl. }
  rewrite Happ. destruct ok.
  - pose proof (tests_passed bail (g_tests g) e1 w1) as Ht.
    destruct (run_tests bail (g_tests g) e1 w1) as [[[ts go] e2] w2]. simpl in *.
    rewrite forallb_app, andb_true_iff. intros [Hb Hts]. destruct (Hh Hb) as [Hs _].
    unfold mbind, T_bind. rewrite Hs. by apply Ht.
  - intros Hb. simpl in Hb. by destruct (Hh Hb).
Qed.

(** After a [before] hook that returned, the first test runs on the variables it left. *)
Lemma group_first_test bail (g : group X) b t ts e w e1 w1 :
  g_before g = [b] → g_tests g = t :: ts → cb_body b e w = (Ok tt, e1, w1) →
  ∃ hook test rest, (run_group bail g e w).1.1.1 = hook :: test :: rest ∧
    en_title test = cb_title t ∧ en_outcome test = (cb_body t e1 w1).1.1.
Proof.
  intros Hb Ht Hr. unfold run_group. rewrite Hb, Ht. cbn [run_hooks run_tests]. rewrite Hr. cbn [passed].
  destruct (cb_body t e1 w1) as [[r e2] w2]. destruct (bail && negb (passed r)); [by eexists _, _, _|].
  destruct (run_tests bail ts e2 w2) as [[[es go] e3] w3]. by eexists _, _, _.
Qed.

End lemmas.

Create HintDb preserves discriminated.
#[export] Hint Resolve preserves_ret preserves_use preserves_var : preserves.

(** Invariance of a callback, by its structure, and of a list of callbacks. *)
Ltac walk_preserves :=
  repeat first
    [ assumption
    | solve [auto with preserves]
    | apply preserves_bind; [|intros ?]
    | apply preserves_try; [|intros ?]
    | apply preserves_assign; done
    | case_goal ].

(** Development of the outside by a callback, by its structure. *)
Ltac walk_T_appends :=
  repeat match goal with
    | |- T_appends (_ ≫= _) => apply T_appends_bind; [|intros ?]
    | |- T_appends (try_with _ _) => apply T_appends_try; [|intros ?]
    | |- T_appends (use _) => apply T_appends_use; walk_appends
    | |- T_appends (var _) => apply T_appends_var
    | |- T_appends (assign _ _) => apply T_appends_assign
    | |- T_appends (mret _) => apply T_appends_ret
    end.

Ltac callbacks_preserve :=
  repeat first [apply List.Forall_nil|apply List.Forall_cons]; cbn [cb_body]; walk_preserves.
