(* ===== verification/Drivers.v ===== *)
(** The top-level [describe] blocks: what each suite registers with mocha, the variables its
    callbacks share, and how provisioning, tests and cleanup follow each other. *)

From S2P Require Import Prelude JsValue Json Buffer Effects Script Chai UtilsCore Timers Watch Utils.
From S2P Require Import RegExp OAuth KebClient KcpClient Smctl Gardener KebHelpers SkrHelpers Suites Mocha.

(** The options object held by a variable, as the provisioning steps take it. *)
Definition options_of (v : jsval) : result options :=
  match v with JObj fs => Ok fs | _ => Throw (cannot_read v "instanceID") end.

Definition minutes (n : Z) : Z := 1000 * 60 * n.

Section drivers.
Context {X : Type} `{Services X} `{Chai} `{RegExpRest}.

(** [x.k] for a variable [x]. *)
Definition var_field (x k : string) : T X jsval := v ← var x; use (lift (getp v k)).

Definition instance_var (x : string) : T X string := i ← var_field x "instanceID"; mret (to_string i).

(** The clients that skr-test/helpers.js creates when it is loaded; [id] is the identity of the
    token object of the broker client. *)
Definition load_clients (id : nat) : M X Clients :=
  kebConfig ← KEBConfig_fromEnv;
  gardenerConfig ← GardenerConfig_fromEnv;
  gardener ← new_GardenerClient gardenerConfig;
  kcpConfig ← KCPConfig_fromEnv;
  kcp ← new_KCPWrapper kcpConfig;
  mret (mkClients (new_KEBClient id kebConfig) kcp gardener).

(** * skr-test/oidc *)

Definition oidc_updateTimeout : Z := minutes 20.

(** The body of both update tests; [k] is the custom parameter and [f] the option it is taken from. *)
Definition oidc_update (c : Clients) (k f : string) : T X unit :=
  v ← var_field "oidc.options" f;
  i ← instance_var "oidc.options";
  name ← var_field "oidc.shoot" "name";
  skr ← use (updateSKR_op (c_keb c) (c_kcp c) (c_gardener c) i name (JObj [(k, v)]) oidc_updateTimeout
               JNull (JBool false));
  shoot ← use (lift (getp skr "shoot"));
  assign "oidc.shoot" shoot.

Definition print_runtime_status (c : Clients) (x : string) : T X unit :=
  i ← instance_var x;
  runtimeStatus ← use (getRuntimeStatusOperations (c_kcp c) i);
  use (console_log [JStr (nl +:+ "Runtime status: " +:+ to_string runtimeStatus)]) ;;
  use (reconcileInformationLog (c_kcp c) runtimeStatus).

(** The test that only the new administrators are configured. *)
Definition admins_check : T X unit :=
  admins ← var_field "oidc.options" "administrators1";
  a0 ← use (lift (geti admins 0)); use (ensureKymaAdminBindingExistsForUser a0) ;;
  admins ← var_field "oidc.options" "administrators1";
  a1 ← use (lift (geti admins 1)); use (ensureKymaAdminBindingExistsForUser a1) ;;
  user ← var_field "oidc.options" "kebUserId"; use (ensureKymaAdminBindingDoesNotExistsForUser user).

(** [getShootOptionsFunc] and [getShootInfoFunc] are closures of the enclosing suite; [inherited]
    is its timeout. *)
Definition oidcE2ETest (c : Clients) (inherited : Z) (getShootOptionsFunc getShootInfoFunc : T X jsval) : group X :=
  let it title body := Callback title inherited body in
  Group "OIDC Test"
    [it "Get provisioned Shoot Info"
       (shoot ← getShootInfoFunc; assign "oidc.shoot" shoot ;;
        options ← getShootOptionsFunc; assign "oidc.options" options ;;
        use (expect (not_undefined shoot)) ;;
        use (expect (not_undefined options)) ;;
        given ← use (lift (getp shoot "oidcConfig"));
        assign "oidc.givenOidcConfig" given)]
    [it "Assure initial OIDC config is applied on shoot cluster"
       (shoot ← var "oidc.shoot"; given ← var "oidc.givenOidcConfig";
        use (ensureValidShootOIDCConfig shoot given));
     it "Assure initial OIDC config is part of kubeconfig"
       (i ← instance_var "oidc.options"; given ← var "oidc.givenOidcConfig";
        use (ensureValidOIDCConfigInCustomerFacingKubeconfig (c_keb c) i given));
     it "Assure initial cluster admin"
       (user ← var_field "oidc.options" "kebUserId"; use (ensureKymaAdminBindingExistsForUser user));
     Callback "Update SKR service instance with OIDC config" oidc_updateTimeout
       (oidc_update c "oidc" "oidc1");
     it "Should get Runtime Status after updating OIDC config"
       (try_with (print_runtime_status c "oidc.options")
          (λ e, s ← use (lift (toString_call e));
                use (console_log [JStr ("before hook failed: " +:+ s)])));
     it "Assure updated OIDC config is applied on shoot cluster"
       (shoot ← var "oidc.shoot"; wanted ← var_field "oidc.options" "oidc1";
        use (ensureValidShootOIDCConfig shoot wanted));
     it "Assure updated OIDC config is part of kubeconfig"
       (i ← instance_var "oidc.options"; wanted ← var_field "oidc.options" "oidc1";
        use (ensureValidOIDCConfigInCustomerFacingKubeconfig (c_keb c) i wanted));
     it "Assure cluster admin is preserved"
       (user ← var_field "oidc.options" "kebUserId"; use (ensureKymaAdminBindingExistsForUser user));
     Callback "Update SKR service instance with new admins" oidc_updateTimeout
       (oidc_update c "administrators" "administrators1");
     it "Should get Runtime Status after updating admins" (print_runtime_status c "oidc.options");
     it "Assure only new cluster admins are configured" admins_check].

(** * skr-test/machine-type *)

(** The tests for the configured plan, with a Gardener client of their own. *)
Definition machine_type_group (c : Clients) (planID : string) (gardener : GardenerClient) (inherited : Z)
    (getShootOptionsFunc getShootInfoFunc : T X jsval) : group X :=
  let it title body := Callback title inherited body in
  Group "Machine type update test"
    [it "Get provisioned Shoot Info"
       (shoot ← getShootInfoFunc; assign "mt.shoot" shoot ;;
        options ← getShootOptionsFunc; assign "mt.options" options)]
    [it "Should check default machine type after provisioning"
       (name ← var_field "mt.shoot" "name";
        t ← use (getMachineType (c_kcp c) gardener (to_string name));
        assign "mt.defaultMachineType" t ;;
        use (console_log [JStr ("Default machine type " +:+ to_string t)]));
     it "Should figure out next machine type to update to"
       (d ← var "mt.defaultMachineType";
        u ← use (figure_out_machine_type (c_keb c) planID d);
        assign "mt.updateMachineType" u);
     Callback "Should update SKR service instance machine type" (minutes 30)
       (u ← var "mt.updateMachineType"; d ← var "mt.defaultMachineType";
        shoot ← var "mt.shoot"; options ← var "mt.options";
        o ← use (lift (if is_undef u then Ok [] else options_of options));
        shoot' ← use (update_machine_type c gardener o shoot d u);
        assign "mt.shoot" shoot');
     it "Should check machine type after update"
       (u ← var "mt.updateMachineType"; shoot ← var "mt.shoot";
        use (check_machine_type c gardener shoot u))].

(** Plan and client are taken from the environment when the block is registered. *)
Definition machineTypeE2ETest (c : Clients) (inherited : Z) (getShootOptionsFunc getShootInfoFunc : T X jsval)
    : M X (group X) :=
  planID ← getEnvOrThrow "KEB_PLAN_ID";
  config ← GardenerConfig_fromEnv;
  gardener ← new_GardenerClient config;
  mret (machine_type_group c planID gardener inherited getShootOptionsFunc getShootInfoFunc).

(** * skr-test/btp-manager-secret *)

(** The first test keeps the secret for the deletion test and a deep copy for the edit test. *)
Definition secret_exists : T X unit :=
  secret ← use (getSecret secretName ns);
  assign "secretFromProvisioning" secret ;;
  use (checkSecretDataKeys secret) ;;
  copy ← use (lift (parse (stringify "" secret)));
  assign "modifiedSecret" copy.

Definition btpManagerSecretTest (inherited : Z) : group X :=
  let it title body := Callback title inherited body in
  Group "BTP Manager Secret Test" []
    [it "should check if Secret exists and contains the expected data keys"
       secret_exists;
     it "should check if Secret data values match expected values" (use secret_values_test);
     it "should check if Secret is reconciled after deletion"
       (secret ← var "secretFromProvisioning"; use (secret_deletion_test secret));
     it "should check if Secret is reconciled after being edited"
       (secret ← var "modifiedSecret"; use (secret_edit_test secret))].

(** * Provisioning and cleanup, as the suites use them *)

(** [skr = await provisionSKRAndInitK8sConfig(options, timeout); options = skr.options]. *)
Definition provision (c : Clients) (timeout : Z) (announce : M X unit) : T X unit :=
  v ← var "options";
  o ← use (lift (options_of v));
  r ← use (provisionSKRAndInitK8sConfig c o timeout);
  assign "skr" (JObj [("options", JObj r.1); ("shoot", r.2)]) ;;
  use announce ;;
  options ← var_field "skr" "options";
  assign "options" options.

Definition cleanup (c : Clients) (timeout : Z) : T X unit :=
  v ← var "options";
  o ← use (lift (options_of v));
  use (deprovisionAndUnregisterSKR c o timeout true).

Definition getShootInfoFunc : T X jsval := var_field "skr" "shoot".
Definition getShootOptionsFunc : T X jsval := var "options".

Definition initial_vars (o : options) : vars := {["options" := JObj o]}.

(** * skr-test/test.js *)

Definition skr_globalTimeout : Z := minutes (70 + 30 + 95).

Definition skr_suite (c : Clients) (machine_type : group X) : suite X :=
  Suite "SKR test" false
    [Callback "Ensure SKR is provisioned" (minutes 30) (provision c (minutes 30) (mret tt))]
    []
    [btpManagerSecretTest skr_globalTimeout;
     oidcE2ETest c skr_globalTimeout getShootOptionsFunc getShootInfoFunc;
     machine_type]
    [Callback "Cleanup the resources" (minutes 95) (cleanup c (minutes 95))].

Definition skr_test (c : Clients) : M X (suite X * vars) :=
  options ← gatherOptions [];
  machine_type ← machineTypeE2ETest c skr_globalTimeout getShootOptionsFunc getShootInfoFunc;
  mret (skr_suite c machine_type, initial_vars options).

(** * skr-aws-upgrade-integration/index.js *)

(** [kymaVersion] and [kymaUpgradeVersion] are read when the module is loaded. *)
Definition upgrade_test (c : Clients) : M X (suite X * vars) :=
  let globalTimeout := minutes (90 + 60 + 30) in
  kymaVersion ← getEnvOrThrow "KYMA_VERSION";
  kymaUpgradeVersion ← getEnvOrThrow "KYMA_UPGRADE_VERSION";
  switchDebug true ;;
  options ← gatherOptions [withCustomParams (JObj [("kymaVersion", JStr kymaVersion)])];
  skipCleanup ← getEnvOrThrow "SKIP_CLEANUP";
  mret (Suite "SKR-Upgrade-test" false
          [Callback ("Provision SKR with ID " +:+ to_string (field options "instanceID") +:+ " and version "
                     +:+ kymaVersion) (minutes 60)
             (provision c (minutes 60) (console_log [JStr "SKR provisioned"]))]
          [Callback "Perform Upgrade" globalTimeout
             (use (console_log [JStr "Performing upgrade"]) ;;
              v ← var "options"; o ← use (lift (options_of v));
              use (upgradeSKRInstance c o kymaUpgradeVersion 30))]
          [oidcE2ETest c globalTimeout getShootOptionsFunc getShootInfoFunc]
          (if String.eqb skipCleanup "FALSE"
           then [Callback "Cleanup the resources" (minutes 30) (cleanup c (minutes 30))] else []),
        initial_vars options).

(** * skr-networking-test/index.js *)

Definition networking_test (c : Clients) (keb : KEBClient) : M X (suite X * vars) :=
  let globalTimeout := minutes (30 + 30 + 95) in
  let customParams := JObj [("networking", JObj [("nodes", JStr "10.253.0.0/21")])] in
  options ← gatherOptions [withCustomParams customParams];
  console_log [JStr "Using custom parameters: %o"; customParams] ;;
  mret (Suite "SKR AWS networking test" false []
          [Callback "Try networking params which overlap with restricted IP range" globalTimeout
             (use (overlap_test keb));
           Callback "Try networking params with invalid IP range" globalTimeout
             (use (invalid_range_test keb));
           Callback "Perform provisioning" (minutes 30) (provision c (minutes 30) (mret tt))]
          []
          [Callback "Clean up the resources" (minutes 95) (cleanup c (minutes 95))],
        initial_vars options).

(** * keb-endpoints-test/index.js *)

(** The timeout is that of the command line. *)
Definition endpoints_suite (keb : KEBClient) : suite X :=
  Suite "KEB endpoints test" false []
    [Callback "Should reject call without authorization" 15000 (use (endpoints_test keb))] [] [].

(** * trial-suspension-test/test.js *)

(** [catch (e) { throw new Error(`${e.toString()}\n`) }]. *)
Definition rethrow_line {A} (m : T X A) : T X A :=
  try_with m (λ e, s ← use (lift (toString_call e)); use (throw (mkError (s +:+ nl)))).

(** The suite has clients of its own beside those of skr-test/helpers.js. *)
Definition trial_test (c : Clients) (keb : KEBClient) (kcp : KCPWrapper) : M X (suite X * vars) :=
  let globalTimeout := minutes (30 + 60) in
  options ← gatherOptions [];
  mret (Suite "SKR Trial suspension test" true
          [Callback "Ensure SKR Trial is provisioned" globalTimeout
             (rethrow_line
                (v ← var "options"; o ← use (lift (options_of v));
                 use (callFuncAndPrintExecutionTime "provisionSKRAndInitK8sConfig"
                        (provisionSKRAndInitK8sConfig c o (minutes 30))) ;; mret tt))]
          [Callback "should wait until Trial Cleanup CronJob triggers suspension" globalTimeout
             (rethrow_line
                (i ← instance_var "options";
                 rs ← use (callFuncAndPrintExecutionTime "ensureSuspensionIsInProgress"
                             (ensureSuspensionIsInProgress kcp i (minutes 11)));
                 data ← use (lift (getp rs "data")); d0 ← use (lift (geti data 0));
                 ops ← use (lift (getpath d0 ["status"; suspensionOperationType; "data"]));
                 op ← use (lift (geti ops 0));
                 id ← use (lift (getp op "operationID"));
                 assign "suspensionOpID" id ;;
                 use (expect (not_undefined id))));
           Callback "should wait until suspension succeeds" globalTimeout
             (rethrow_line
                (use (debug [JStr "Waiting until suspension operation succeeds..."]) ;;
                 i ← instance_var "options"; op ← var "suspensionOpID";
                 use (callFuncAndPrintExecutionTime "ensureSuspensionSucceeded"
                        (ensureSuspensionSucceeded keb kcp i op (minutes 60)))))]
          []
          [Callback "Cleanup the resources" globalTimeout
             (v ← var "options"; o ← use (lift (options_of v));
              use (callFuncAndPrintExecutionTime "deprovisionAndUnregisterSKR"
                     (deprovisionAndUnregisterSKR c o (minutes 5) true)))],
        initial_vars options).

(** * skr-test/provision-skr.js and skr-test/deprovision-skr.js *)

(** The hook that prints the results for the next stages of the deployment pipeline. *)
Definition print_shoot_info : T X unit :=
  options ← var "options";
  id ← use (lift (if truthy options then getp options "instanceID" else Ok JUndef));
  (if truthy id then use (console_log [JStr ("SPINNAKER_PROPERTY_INSTANCE_ID=" +:+ to_string id)])
   else mret tt) ;;
  provisioned ← var "isSKRProvisioned";
  use (console_log [JStr ("SPINNAKER_PROPERTY_PROVISIONED=" +:+ to_string provisioned)]) ;;
  version ← var "kymaVersion";
  use (console_log [JStr ("SPINNAKER_PROPERTY_KYMA_VERSION=" +:+ to_string version)]).

Definition gather_options : T X unit := o ← use (gatherOptions []); assign "options" (JObj o).

Definition provision_cluster (c : Clients) : T X unit :=
  id ← var_field "options" "instanceID";
  use (console_log [JStr ("SKR Instance ID: " +:+ to_string id)]) ;;
  provision c (minutes 30) (mret tt).

Definition fetch_kyma_version (c : Clients) : T X unit :=
  i ← instance_var "options";
  v ← use (getSKRKymaVersion c i);
  assign "kymaVersion" v ;;
  use (expect (not_empty v)).

Definition provision_skr_test (c : Clients) : suite X * vars :=
  let globalTimeout := minutes (70 + 30) in
  (Suite "Provision SKR instance" false
     [Callback "Gather default options" globalTimeout
        gather_options]
     [Callback "should provision SKR cluster" (minutes 30)
        (provision_cluster c ;; assign "isSKRProvisioned" (JBool true));
      Callback "should fetch SKR kyma version" globalTimeout (fetch_kyma_version c)]
     []
     [Callback "Print Shoot Info" globalTimeout print_shoot_info],
   <["isSKRProvisioned" := JBool false]> {["kymaVersion" := JStr ""]}).

Definition deprovision_skr_test (c : Clients) : M X (suite X * vars) :=
  let globalTimeout := minutes (70 + 95) in
  instanceID ← skr_getEnvOrThrow "INSTANCE_ID";
  mret (Suite "De-provision SKR instance" false
          [Callback "Gather options" globalTimeout
             (o ← use (gatherOptions []); assign "options" (JObj o) ;;
              assign "options" (JObj (withInstanceID (JStr instanceID) o)))]
          [Callback "should de-provision SKR cluster" (minutes 95)
             (id ← var_field "options" "instanceID";
              use (console_log [JStr ("SKR Instance ID: " +:+ to_string id)]) ;;
              cleanup c (minutes 95))]
          [] [],
        ∅).

End drivers.

(** * Lemmas *)

Section lemmas.
Context {X : Type} `{Services X} `{Chai} `{RegExpRest}.

(** The variable [options] holds [o]. *)
Definition holds (o : options) (e : vars) : Prop := e !! "options" = Some (JObj o).

Lemma var_run k v e (w : world X) : e !! k = Some v → var k e w = (Ok v, e, w).
Proof. intros Hk. unfold var. by rewrite Hk. Qed.

Lemma provisioned_options c o t (w w' : world X) o' shoot :
  provisionSKRAndInitK8sConfig c o t w = (Ok (o', shoot), w') → o' = o.
Proof.
  intros E. unfold provisionSKRAndInitK8sConfig in E. rewrite run_bind_log in E.
  do 3 (apply bind_Ok_inv in E as (? & ? & _ & E)). rewrite run_bind_log in E. by injection E as <- _ _.
Qed.

(** Provisioning leaves [options] as it was: the object it returns is the one it was given. *)
Lemma provision_holds c t m o : preserves (holds o) (provision (X := X) c t m).
Proof.
  intros e w HI. unfold provision. unfold mbind at 1, T_bind at 1. rewrite (var_run _ _ _ _ HI).
  unfold mbind at 1, T_bind at 1. cbn [options_of use lift].
  unfold mbind at 1, T_bind at 1, use at 1.
  destruct (provisionSKRAndInitK8sConfig c o t w) as [[[o' shoot]|x|] w1] eqn:E; [|done..].
  apply provisioned_options in E as ->. unfold mbind at 1, T_bind at 1. cbn [assign fst snd].
  set (e1 := <["skr":=_]> e). assert (holds o e1) as Ho by (unfold holds, e1; by rewrite lookup_insert_ne).
  unfold mbind at 1, T_bind at 1, use at 1. destruct (m w1) as [[[]|x|] w2]; [|done..].
  unfold mbind at 1, T_bind at 1, var_field. unfold mbind at 1, T_bind at 1.
  rewrite (var_run "skr" _ e1 w2 (lookup_insert_eq _ _ _)). cbn. unfold holds. by rewrite lookup_insert_eq.
Qed.

Hint Resolve provision_holds : preserves.

(** The nested blocks use variables of their own. *)
Lemma oidc_holds c inherited f g o :
  preserves (holds o) f → preserves (holds o) g → group_preserves (holds o) (oidcE2ETest (X := X) c inherited f g).
Proof.
  intros Hf Hg. unfold oidcE2ETest, admins_check, oidc_update, print_runtime_status, instance_var, var_field.
  split; cbn [g_before g_tests]; callbacks_preserve.
Qed.

Lemma btp_holds inherited o : group_preserves (holds o) (btpManagerSecretTest (X := X) inherited).
Proof.
  unfold btpManagerSecretTest, secret_exists. split; cbn [g_before g_tests]; callbacks_preserve.
Qed.

Lemma machine_type_holds c inherited f g o (w w' : world X) grp :
  preserves (holds o) f → preserves (holds o) g → machineTypeE2ETest c inherited f g w = (Ok grp, w') →
  group_preserves (holds o) grp.
Proof.
  intros Hf Hg E. unfold machineTypeE2ETest in E. do 3 (apply bind_Ok_inv in E as (? & ? & _ & E)).
  injection E as <- _. unfold machine_type_group, var_field.
  split; cbn [g_before g_tests]; callbacks_preserve.
Qed.

End lemmas.

#[export] Hint Resolve provision_holds : preserves.

(** * Theorems *)

Section theorems.
Context {X : Type} `{Services X} `{Chai} `{RegExpRest} `{Mocha X} `{!MochaLaws H2}.

(** Every callback of the run settles in time and leaves no unhandled rejection. *)
Definition regular (s : suite X) (e : vars) (w : world X) : Prop :=
  forallb en_regular (documented_run s e w).1.1 = true.

(** A hook that ended with [r] has, between [w] and [w'], sent the request that deprovisions the instance
    of the options, unless it got no token; if it passed, the broker accepted the request and reported its
    operation as succeeded. *)
Definition deprovisioned (c : Clients) (o : options) (r : result unit) (w w' : world X) : Prop :=
  let endpoint := deprovision_endpoint (c_keb c) (instance_of o) in
  (no_token (c_keb c) w ∨ requested (c_keb c) JNull endpoint "delete" w w') ∧
  (r = Ok tt → ∃ op, completed (c_keb c) (instance_of o) JNull endpoint "delete" op w w').

(** The run ends with a hook of the given title, which deprovisions the instance from where the hooks
    and tests before it left the outside. *)
Definition cleaned_up (c : Clients) (o : options) (title : string) (s : suite X) (e : vars) (w : world X) : Prop :=
  ∃ es e1 w1 r, run_main s e w = (es, e1, w1) ∧ (mocha s e w).1.1 = es ++ [Entry title r true] ∧
    deprovisioned c o r w1 (mocha s e w).2.

(** A callback that deprovisions. *)
Definition deprovisions (c : Clients) (o : options) (m : T X unit) : Prop :=
  ∀ e w, holds o e → deprovisioned c o (m e w).1.1 w (m e w).2.

(** A callback that hands the options to a computation. *)
Lemma options_run (f : options → M X unit) o e w : holds o e →
  (v ← var "options"; o ← use (lift (options_of v)); use (f o)) e w = use (f o) e w.
Proof. intros HI. unfold mbind, T_bind. by rewrite (var_run _ _ _ _ HI). Qed.

Lemma cleanup_deprovisions `{!ChaiLaws H0} c t o : deprovisions c o (cleanup c t).
Proof.
  intros e w HI. unfold cleanup. rewrite (options_run (λ o, deprovisionAndUnregisterSKR c o t true) o e w HI). unfold use.
  pose proof (deprovision_sends c o t true w) as Hs.
  destruct (deprovisionAndUnregisterSKR c o t true w) as [r w'] eqn:E. split; [exact Hs|]. simpl. intros ->.
  by eapply deprovision_Ok.
Qed.

Lemma timed_cleanup_deprovisions `{!ChaiLaws H0} c t o name :
  deprovisions c o (v ← var "options"; o ← use (lift (options_of v));
    use (callFuncAndPrintExecutionTime name (deprovisionAndUnregisterSKR c o t true))).
Proof.
  intros e w HI.
  rewrite (options_run (λ o, callFuncAndPrintExecutionTime name (deprovisionAndUnregisterSKR c o t true)) o e w HI).
  unfold use. pose proof (timed_sends _ _ _ _ name _ (deprovision_sends c o t true) w) as Hs.
  destruct (callFuncAndPrintExecutionTime name _ w) as [r w'] eqn:E. split; [exact Hs|]. simpl. intros ->.
  apply timed_Ok in E as (w1 & E & Hf). apply deprovision_Ok in E as [op E]. exists op. by eapply completed_weaken.
Qed.

(** In a regular run of a suite that keeps [options], the cleanup hook comes last. *)
Lemma cleanup_last c s o (w : world X) cb :
  Forall (λ cb, preserves (holds o) (cb_body cb)) (s_before s) →
  Forall (λ cb, preserves (holds o) (cb_body cb)) (s_tests s) →
  Forall (group_preserves (holds o)) (s_groups s) → s_after s = [cb] → deprovisions c o (cb_body cb) →
  regular s (initial_vars o) w → cleaned_up c o (cb_title cb) s (initial_vars o) w.
Proof.
  intros Hb Ht Hg Ha Hm Hr. unfold cleaned_up. rewrite (mocha_law s _ w Hr).
  assert (holds o (run_main s (initial_vars o) w).1.2) as HI.
  { apply preserves_main; [done..|]. unfold holds, initial_vars. by rewrite lookup_singleton_eq. }
  destruct (run_main s (initial_vars o) w) as [[es e1] w1] eqn:Em. specialize (Hm e1 w1 HI).
  unfold regular in Hr. rewrite (after_hook_runs _ _ _ _ _ _ _ Ha Em) in Hr |- *. cbn [fst snd] in Hr |- *.
  rewrite forallb_app in Hr. apply andb_true_iff in Hr as [_ Hr]. cbn [forallb en_regular] in Hr.
  rewrite andb_true_r in Hr. rewrite Hr. by eexists es, e1, w1, _.
Qed.

Lemma gatherOptions_env opts (w w' : world X) o : gatherOptions opts w = (Ok o, w') → w_env w' = w_env w.
Proof.
  intros E. unfold gatherOptions in E. apply bind_Ok_inv in E as (id & w1 & Hi & E).
  assert (w_env w1 = w_env w) as <-.
  { rewrite run_invoke in Hi. destruct (answer CUuid w); injection Hi as _ <-; by autorewrite with frame. }
  apply bind_Ok_inv in E as (u & w2 & Hu & E).
  assert (w2 = w1) as ->.
  { unfold skr_getEnvOrThrow, getenv in Hu. rewrite run_bind_get in Hu.
    destruct (truthy _) in Hu; by injection Hu as _ <-. }
  apply bind_Ok_inv in E as (o1 & w3 & Hs & E). injection E as _ <-.
  assert (∀ n r (u0 : world X), w_env (skr_genRandom_from n r u0).2 = w_env u0) as Hg.
  { induction n as [|n IH]; intros r u0; [done|]. cbn [skr_genRandom_from]. unfold mbind, M_bind, math_random.
    destruct (draw (w_ext u0)) as [d x]. by rewrite IH. }
  match type of Hs with context [match ?x with JUndef => _ | _ => _ end] => destruct x end;
    [|by injection Hs as _ <-..].
  apply bind_Ok_inv in Hs as (r & w4 & Hr & Hs). injection Hs as _ <-. specialize (Hg 4 "" w1).
  unfold skr_genRandom in Hr. by rewrite Hr in Hg.
Qed.

(** C39: whatever the provisioning and the tests do, a regular run of the SKR, networking and trial
    suites, and of the upgrade suite when SKIP_CLEANUP is FALSE, ends with the cleanup hook: it sends the
    request that deprovisions the instance of the options gathered at the start, unless the token endpoint
    gives no token, and it passes only when the broker accepted the request and reported its operation as
    succeeded. *)
Theorem cleanup_always_runs `{!ChaiLaws H0} c keb kcp (w w0 : world X) s e :
  (skr_test c w = (Ok (s, e), w0) → regular s e w0 →
     ∃ o, e = initial_vars o ∧ cleaned_up c o "Cleanup the resources" s e w0) ∧
  (networking_test c keb w = (Ok (s, e), w0) → regular s e w0 →
     ∃ o, e = initial_vars o ∧ cleaned_up c o "Clean up the resources" s e w0) ∧
  (upgrade_test c w = (Ok (s, e), w0) → w_env w !! "SKIP_CLEANUP" = Some "FALSE" → regular s e w0 →
     ∃ o, e = initial_vars o ∧ cleaned_up c o "Cleanup the resources" s e w0) ∧
  (trial_test c keb kcp w = (Ok (s, e), w0) → regular s e w0 →
     ∃ o, e = initial_vars o ∧ cleaned_up c o "Cleanup the resources" s e w0).
Proof.
  split_and!.
  - intros E Hr. unfold skr_test in E. apply bind_Ok_inv in E as (o & w1 & _ & E).
    apply bind_Ok_inv in E as (g & w2 & Hg & E). injection E as <- <- <-. exists o. split; [done|].
    eapply (machine_type_holds _ _ _ _ o) in Hg; [|apply preserves_var|unfold getShootInfoFunc, var_field; walk_preserves].
    eapply (cleanup_last c _ o w2 (Callback "Cleanup the resources" _ _)); [..|reflexivity| |exact Hr].
    + cbn [s_before]. callbacks_preserve.
    + cbn [s_tests]. callbacks_preserve.
    + repeat apply List.Forall_cons; [apply btp_holds|apply oidc_holds|exact Hg|apply List.Forall_nil];
        unfold getShootInfoFunc, getShootOptionsFunc, var_field; walk_preserves.
    + apply cleanup_deprovisions.
  - intros E Hr. unfold networking_test in E. apply bind_Ok_inv in E as (o & w1 & _ & E).
    rewrite run_bind_log in E. injection E as <- <- <-. exists o. split; [done|].
    eapply (cleanup_last c _ o _ (Callback "Clean up the resources" _ _)); [..|reflexivity| |exact Hr].
    + cbn [s_before]. callbacks_preserve.
    + cbn [s_tests]. callbacks_preserve.
    + apply List.Forall_nil.
    + apply cleanup_deprovisions.
  - intros E Hskip Hr. unfold upgrade_test in E.
    do 2 (apply bind_Ok_inv in E as (? & ? & (-> & _ & _)%getEnvOrThrow_Ok & E)).
    apply bind_Ok_inv in E as ([] & w1 & Hsw & E). injection Hsw as <-.
    apply bind_Ok_inv in E as (o & w1 & Hgo & E). apply gatherOptions_env in Hgo.
    apply bind_Ok_inv in E as (skip & ? & (-> & Hs & _)%getEnvOrThrow_Ok & E).
    rewrite Hgo in Hs. simpl in Hs. rewrite Hskip in Hs. injection Hs as <-. injection E as <- <- <-.
    exists o. split; [done|].
    eapply (cleanup_last c _ o _ (Callback "Cleanup the resources" _ _)); [..|reflexivity| |exact Hr].
    + cbn [s_before]. callbacks_preserve.
    + cbn [s_tests]. callbacks_preserve.
    + apply Forall_singleton, oidc_holds; unfold getShootInfoFunc, getShootOptionsFunc, var_field; walk_preserves.
    + apply cleanup_deprovisions.
  - intros E Hr. unfold trial_test in E. apply bind_Ok_inv in E as (o & w1 & _ & E).
    injection E as <- <- <-. exists o. split; [done|].
    eapply (cleanup_last c _ o _ (Callback "Cleanup the resources" _ _)); [..|reflexivity| |exact Hr].
    + cbn [s_before]. unfold rethrow_line. callbacks_preserve.
    + cbn [s_tests]. unfold rethrow_line, instance_var, var_field. callbacks_preserve.
    + apply List.Forall_nil.
    + apply timed_cleanup_deprovisions.
Qed.

(** ** The secret *)

(** The copy that the edit test modifies is equal to the secret read from the cluster, since
    a value parsed from JSON survives the round trip through its text. *)
Lemma secret_copy_faithful e e' (w w' : world X) :
  secret_exists e w = (Ok tt, e', w') → e' !! "modifiedSecret" = e' !! "secretFromProvisioning".
Proof.
  intros E. apply T_bind_Ok_inv in E as (s & e1 & w1 & [-> Hs]%use_Ok_inv & E).
  apply T_bind_Ok_inv in E as (? & e2 & w2 & Ha & E). injection Ha as _ <- <-.
  apply T_bind_Ok_inv in E as (? & e3 & w3 & [-> _]%use_Ok_inv & E).
  apply T_bind_Ok_inv in E as (c & e4 & w4 & [-> [Hc ->]%lift_Ok_inv]%use_Ok_inv & E). injection E as <- _.
  unfold getSecret in Hs. apply bind_Ok_inv in Hs as (resp & ? & _ & Hs).
  apply bind_Ok_inv in Hs as (body & ? & _ & [Hp _]%lift_Ok_inv).
  rewrite (parse_reformat "" body s eq_refl Hp) in Hc. injection Hc as <-.
  by rewrite lookup_insert_eq, lookup_insert_ne, lookup_insert_eq.
Qed.

(** ** The OIDC tests *)













(** A shoot with string settings passes the check against its own configuration. *)
Lemma self_check `{!ChaiLaws H0} shoot fs (w : world X) :
  getp shoot "oidcConfig" = Ok (JObj fs) →
  (∀ k, k ∈ ["clientID"; "issuerURL"; "groupsClaim"; "usernameClaim"; "usernamePrefix"] →
     ∃ s, assoc fs k = Some (JStr s)) →
  (ensureValidShootOIDCConfig shoot (JObj fs) w).1 = Ok tt.
Proof.
  intros Hg Hk. apply ensureValid_iff.
  assert (own shoot "oidcConfig" = Some (JObj fs)) as Ho.
  { unfold getp in Hg. destruct (nullish shoot); [done|]. destruct (own shoot "oidcConfig"); simpl in Hg; congruence. }
  split.
  - intros k Hin. destruct (Hk k Hin) as [s Hs]. exists (JStr s), (JStr s). rewrite getp_obj, Hs.
    split; [done|]. simpl. rewrite Ho. simpl. rewrite Hs. split; [done|]. apply String.eqb_refl.
  - rewrite getp_obj. do 2 eexists. split; [|split; [reflexivity|apply eql_refl_law]].
    cbn [getpath]. rewrite Hg. reflexivity.
Qed.

(** What the hook of the OIDC block leaves in the variables. *)
Lemma oidc_before_run `{!ChaiLaws H0} skr shoot o fs e (w : world X) :
  e !! "skr" = Some skr → getp skr "shoot" = Ok shoot → e !! "options" = Some (JObj o) →
  getp shoot "oidcConfig" = Ok (JObj fs) →
  (shoot ← getShootInfoFunc; assign "oidc.shoot" shoot ;;
   options ← getShootOptionsFunc; assign "oidc.options" options ;;
   use (expect (not_undefined shoot)) ;; use (expect (not_undefined options)) ;;
   given ← use (lift (getp shoot "oidcConfig")); assign "oidc.givenOidcConfig" given) e w =
  (Ok tt, <["oidc.givenOidcConfig" := JObj fs]> (<["oidc.options" := JObj o]> (<["oidc.shoot" := shoot]> e)), w).
Proof.
  intros Hskr Hsh Ho Hg.
  assert (not_undefined shoot = None) as Hs by (apply not_undefined_law; by intros ->).
  assert (not_undefined (JObj o) = None) as Hn by by apply not_undefined_law.
  rewrite (T_bind_Ok _ _ _ _ shoot e w).
  2: { unfold getShootInfoFunc, var_field. rewrite (T_bind_Ok _ _ _ _ skr e w) by by apply var_run.
       apply use_Ok. by rewrite Hsh. }
  rewrite (T_bind_Ok _ _ _ _ tt (<["oidc.shoot" := shoot]> e) w) by done.
  rewrite (T_bind_Ok _ _ _ _ (JObj o) (<["oidc.shoot" := shoot]> e) w)
    by (apply var_run; by rewrite lookup_insert_ne).
  rewrite (T_bind_Ok _ _ _ _ tt (<["oidc.options" := JObj o]> (<["oidc.shoot" := shoot]> e)) w) by done.
  do 2 (erewrite T_bind_Ok by (apply use_Ok; rewrite ?Hs, ?Hn; reflexivity)).
  rewrite (T_bind_Ok _ _ _ _ (JObj fs) _ w) by (apply use_Ok; by rewrite Hg). done.
Qed.

(** The test of the initial OIDC configuration compares the configuration of the provisioned
    shoot with itself: it passes for every shoot whose five settings are present as strings,
    whatever they are. *)
Theorem initial_oidc_check_vacuous `{!ChaiLaws H0} bail c inherited e (w : world X) skr shoot o fs :
  e !! "skr" = Some skr → getp skr "shoot" = Ok shoot → e !! "options" = Some (JObj o) →
  getp shoot "oidcConfig" = Ok (JObj fs) →
  (∀ k, k ∈ ["clientID"; "issuerURL"; "groupsClaim"; "usernameClaim"; "usernamePrefix"] →
     ∃ s, assoc fs k = Some (JStr s)) →
  ∃ hook test rest,
    (run_group bail (oidcE2ETest c inherited getShootOptionsFunc getShootInfoFunc) e w).1.1.1 = hook :: test :: rest ∧
    en_title test = "Assure initial OIDC config is applied on shoot cluster" ∧ en_outcome test = Ok tt.
Proof.
  intros Hskr Hsh Ho Hg Hk.
  edestruct (group_first_test bail (oidcE2ETest c inherited getShootOptionsFunc getShootInfoFunc))
    as (hook & test & rest & Hrun & Ht & Hout); [reflexivity..|apply (oidc_before_run skr shoot o fs); done|].
  exists hook, test, rest. split; [done|]. split; [done|]. rewrite Hout. cbn [cb_body].
  rewrite <- (self_check shoot fs w Hg Hk). unfold mbind, T_bind, var, use.
  rewrite !lookup_insert_ne, lookup_insert_eq, lookup_insert_eq by done. cbn [from_option id].
  by destruct (ensureValidShootOIDCConfig shoot (JObj fs) w).
Qed.

(** ** Order *)

(** The report of a suite with one [before] hook. *)
Lemma before_first s e (w : world X) cb :
  s_before s = [cb] → ∃ rest, (documented_run s e w).1.1 =
    Entry (cb_title cb) (cb_body cb e w).1.1 (in_time cb (cb_body cb e w).1.1 w (cb_body cb e w).2) :: rest ∧
    (passed (cb_body cb e w).1.1 = false →
       rest = (run_hooks (s_after s) (cb_body cb e w).1.2 (cb_body cb e w).2).1.1.1) ∧
    (passed (cb_body cb e w).1.1 = true →
       ∃ l, rest = (run_body s (cb_body cb e w).1.2 (cb_body cb e w).2).1.1 ++ l).
Proof.
  intros Hb. unfold documented_run, run_main. rewrite Hb. cbn [run_hooks].
  destruct (cb_body cb e w) as [[r e1] w1]. simpl. destruct (passed r).
  - destruct (run_body s e1 w1) as [[ts e2] w2]. destruct (run_hooks (s_after s) e2 w2) as [[[es ok] e3] w3].
    eexists. split; [reflexivity|]. split; [done|]. intros _. by exists es.
  - destruct (run_hooks (s_after s) e1 w1) as [[[es ok] e3] w3]. eexists. split; [reflexivity|]. done.
Qed.

(** The first entry of a nested block with a [before] hook is that hook. *)
Lemma group_before_first bail g (gs : list (group X)) cb e (w : world X) :
  g_before g = [cb] → ∃ en l, (run_groups bail (g :: gs) e w).1.1 = en :: l ∧ en_title en = cb_title cb.
Proof.
  intros Hg. cbn [run_groups]. unfold run_group. rewrite Hg. cbn [run_hooks].
  destruct (cb_body cb e w) as [[r e1] w1]. destruct (passed r).
  - destruct (run_tests bail (g_tests g) e1 w1) as [[[ts go] e2] w2].
    destruct go; [destruct (run_groups bail gs e2 w2) as [[es e3] w3]|]; simpl; by eexists _, _.
  - destruct (negb bail); [destruct (run_groups bail gs e1 w1) as [[es e3] w3]|]; simpl; by eexists _, _.
Qed.

(** The test of a suite comes before the block inside it. *)
Lemma test_before_group s e (w : world X) t g cb :
  s_bail s = false → s_tests s = [t] → s_groups s = [g] → g_before g = [cb] →
  ∃ a b l, (run_body s e w).1.1 = a :: b :: l ∧ en_title a = cb_title t ∧ en_title b = cb_title cb.
Proof.
  intros Hb Ht Hg Hcb. unfold run_body. rewrite Hb, Ht, Hg. cbn [run_tests].
  destruct (cb_body t e w) as [[r e1] w1]. cbn [andb].
  destruct (group_before_first false g [] cb e1 w1 Hcb) as (en & l & Hl & Htitle).
  destruct (run_groups false [g] e1 w1) as [[gs e2] w2]. simpl in Hl |- *. subst gs. by eexists _, _, _.
Qed.

(** When provisioning fails, none of the tests runs and the cleanup follows at once. In the
    upgrade suite the upgrade itself runs before the OIDC block, although it is registered after
    it: mocha runs the tests of a block before the blocks inside it. *)
Theorem suite_order c (w w0 : world X) s e :
  (skr_test c w = (Ok (s, e), w0) → regular s e w0 → ∃ prov rest, (mocha s e w0).1.1 = prov :: rest ∧
     en_title prov = "Ensure SKR is provisioned" ∧
     (passed (en_outcome prov) = false → ∃ r b, rest = [Entry "Cleanup the resources" r b])) ∧
  (upgrade_test c w = (Ok (s, e), w0) → regular s e w0 → ∃ prov rest, (mocha s e w0).1.1 = prov :: rest ∧
     (passed (en_outcome prov) = false → ∀ en, en ∈ rest → en_title en = "Cleanup the resources") ∧
     (passed (en_outcome prov) = true → ∃ up oidc rest', rest = up :: oidc :: rest' ∧
        en_title up = "Perform Upgrade" ∧ en_title oidc = "Get provisioned Shoot Info")).
Proof.
  split; intros E Hr; rewrite (mocha_law s e w0 Hr); clear Hr.
  - unfold skr_test in E. do 2 (apply bind_Ok_inv in E as (? & ? & _ & E)). injection E as <- <- <-.
    edestruct (before_first) as (rest & -> & Hf & _); [reflexivity|]. eexists _, rest.
    split; [reflexivity|]. split; [done|]. intros Hp. rewrite (Hf Hp). unfold skr_suite. cbn [s_after run_hooks cb_body].
    match goal with |- context [let '(_, _) := ?p in _] => destruct p as [[r e1] w1] end.
    destruct (passed r); by eexists _, _.
  - unfold upgrade_test in E. do 5 (apply bind_Ok_inv in E as (? & ? & _ & E)). injection E as <- <- <-.
    edestruct (before_first) as (rest & -> & Hf & Ht); [reflexivity|]. eexists _, rest.
    split; [reflexivity|]. split.
    + intros Hp en. rewrite (Hf Hp). cbn [s_after]. case_goal; cbn [run_hooks]; [|by intros ?%elem_of_nil].
      match goal with |- context [let '(_, _) := ?p in _] => destruct p as [[r e1] w1] end.
      destruct (passed r); by intros ->%list_elem_of_singleton.
    + intros Hp. destruct (Ht Hp) as [l ->].
      edestruct test_before_group as (up & oidc & l' & -> & Hu & Ho); [reflexivity..|].
      exists up, oidc, (l' ++ l). done.
Qed.

(** ** What the provisioning suite reports *)

(** The variables of the provisioning suite: [options] is unset or an object, and the flag is [b]. *)
Definition reporting (b : bool) (e : vars) : Prop :=
  (e !! "options" = None ∨ ∃ o, holds o e) ∧ e !! "isSKRProvisioned" = Some (JBool b).

Lemma provision_reporting c t m b : preserves (reporting b) (provision (X := X) c t m).
Proof.
  intros e w [Ho Hf]. split.
  - destruct Ho as [Ho|[o Ho]]; [|right; exists o; by apply provision_holds].
    left. unfold provision. unfold mbind at 1, T_bind at 1, var. rewrite Ho. done.
  - revert Hf. generalize e w. change (preserves (λ e, e !! "isSKRProvisioned" = Some (JBool b)) (provision (X := X) c t m)).
    unfold provision, var_field. walk_preserves.
Qed.

Lemma reporting_assign b k v : k ≠ "options" → k ≠ "isSKRProvisioned" →
  preserves (reporting b) (assign (X := X) k v).
Proof.
  intros H3 H4 e w [Ho Hf]. unfold assign, reporting, holds. cbn [fst snd].
  by rewrite !lookup_insert_ne.
Qed.

(** A computation followed by raising the flag: the flag tells whether it returned. *)
Lemma flag_after (m : T X unit) e w :
  preserves (reporting false) m → reporting false e →
  let p := (m ;; assign "isSKRProvisioned" (JBool true)) e w in reporting (passed p.1.1) p.1.2.
Proof.
  intros Hm Hr. specialize (Hm e w Hr). unfold mbind, T_bind. destruct (m e w) as [[[[]|x|] e1] w1]; [|done..].
  destruct Hm as [Ho _]. simpl in Ho. unfold reporting, holds. cbn [fst snd assign passed].
  by rewrite lookup_insert_ne, lookup_insert_eq.
Qed.

Definition printed (k v : string) : list jsval := [JStr (k +:+ "=" +:+ v)].

Lemma print_info_run b e (w : world X) : reporting b e →
  ∃ w' log v, print_shoot_info e w = (Ok tt, e, w') ∧
    w_log w' = log ++ [printed "SPINNAKER_PROPERTY_PROVISIONED" (to_string (JBool b));
                       printed "SPINNAKER_PROPERTY_KYMA_VERSION" v].
Proof.
  intros [Ho Hf]. unfold print_shoot_info. unfold mbind at 1, T_bind at 1, var at 1.
  set (opts := default JUndef (e !! "options")).
  assert (∃ id, (if truthy opts then getp opts "instanceID" else Ok JUndef) = Ok id) as [id Hid].
  { unfold opts. destruct Ho as [->|[o ->]]; simpl; [by eexists|]. rewrite getp_obj. by eexists. }
  unfold mbind at 1, T_bind at 1, use at 1, lift. rewrite Hid.
  assert (∃ w1, (if truthy id then use (console_log [JStr ("SPINNAKER_PROPERTY_INSTANCE_ID=" +:+ to_string id)])
                 else mret tt) e w = (Ok tt, e, w1)) as [w1 Hw1] by (destruct (truthy id); by eexists).
  unfold mbind at 1, T_bind at 1. rewrite Hw1. unfold mbind, T_bind, var, use. rewrite Hf. simpl.
  eexists _, (w_log w1), _. split; [reflexivity|]. simpl. by rewrite <- app_assoc.
Qed.

Hint Resolve provision_reporting : preserves.

Lemma gather_reporting b : preserves (reporting b) (gather_options (X := X)).
Proof.
  unfold gather_options. apply preserves_bind; [apply preserves_use|]. intros o e w [_ Hf].
  unfold assign, reporting, holds. cbn [fst snd]. rewrite lookup_insert_eq, lookup_insert_ne by done.
  split; [right; by exists o|done].
Qed.

Lemma cluster_reporting c b : preserves (reporting b) (provision_cluster (X := X) c).
Proof.
  unfold provision_cluster, var_field. walk_preserves.
Qed.

Lemma version_reporting c b : preserves (reporting b) (fetch_kyma_version (X := X) c).
Proof.
  unfold fetch_kyma_version, instance_var, var_field. walk_preserves. by apply reporting_assign.
Qed.

(** The entry of the provisioning test is in the report, and it passed. *)
Definition provisioned (es : list entry) : bool :=
  existsb (λ en, String.eqb (en_title en) "should provision SKR cluster" && passed (en_outcome en)) es.

(** The last two lines that the provisioning suite prints for the deployment pipeline are the
    version and whether the provisioning test passed, in every regular run, failures included. *)
Theorem spinnaker_report c (w : world X) :
  let s := (provision_skr_test c).1 in
  let e := (provision_skr_test c).2 in
  regular s e w →
  ∃ log v, w_log (mocha s e w).2 =
    log ++ [printed "SPINNAKER_PROPERTY_PROVISIONED" (to_string (JBool (provisioned (mocha s e w).1.1)));
            printed "SPINNAKER_PROPERTY_KYMA_VERSION" v].
Proof.
  intros s e Hr. rewrite (mocha_law s e w Hr). clear Hr. subst s e.
  unfold provision_skr_test, documented_run, run_main, run_body.
  cbn [fst snd s_before s_tests s_groups s_after s_bail run_hooks run_tests run_groups cb_body cb_title andb].
  set (e0 := <["isSKRProvisioned" := _]> _).
  assert (reporting false e0) as Hr.
  { split; [left; unfold e0; by rewrite !lookup_insert_ne|]. unfold e0. by rewrite lookup_insert_eq. }
  apply (gather_reporting false e0 w) in Hr. destruct (gather_options e0 w) as [[r1 e1] w1]. cbn [fst snd] in Hr.
  destruct (passed r1).
  - apply (flag_after (provision_cluster c) e1 w1 (cluster_reporting c false)) in Hr. cbv zeta in Hr.
    destruct ((provision_cluster c ;; _) e1 w1) as [[r2 e2] w2]. cbn [fst snd] in Hr.
    apply (version_reporting c _ e2 w2) in Hr. destruct (fetch_kyma_version c e2 w2) as [[r3 e3] w3].
    cbn [fst snd] in Hr. destruct (print_info_run _ e3 w3 Hr) as (w4 & log & v & -> & Hl).
    exists log, v. simpl. by rewrite orb_false_r.
  - destruct (print_info_run _ e1 w1 Hr) as (w4 & log & v & -> & Hl). by exists log, v.
Qed.

End theorems.

(** * Concrete runs *)

(** Enough of an environment to register the suites; no service answers after the instance id. *)
Definition offline : world script :=
  start [("KEB_USER_ID", "user@acme.com"); ("KEB_PLAN_ID", "plan")]
    (Script [Reply (inr (JStr "uuid-1")) 0] [1; 2; 3; 4]%N []).

Definition offline_options : options :=
  match gatherOptions [] offline with (Ok o, _) => o | _ => [] end.

(** The suite registered in this environment, in which Gardener is not configured. *)
Definition offline_suite : suite script :=
  skr_suite demo_clients
    (machine_type_group demo_clients "plan" (mkGardenerClient None JUndef) skr_globalTimeout
       getShootOptionsFunc getShootInfoFunc).

Definition offline_started : world script :=
  add_log [JStr "Unable to create GardenerClient - no Gardener kubeconfig provided"]
    (gatherOptions [] offline).2.

Lemma offline_registered :
  skr_test demo_clients offline = (Ok (offline_suite, initial_vars offline_options), offline_started).
Proof.
  unfold skr_test.
  rewrite (bind_Ok _ _ _ offline_options (gatherOptions [] offline).2) by (vm_compute; reflexivity).
  unfold machineTypeE2ETest. rewrite run_bind_bind.
  rewrite (bind_Ok _ _ _ "plan" (gatherOptions [] offline).2) by (vm_compute; reflexivity).
  rewrite run_bind_bind.
  rewrite (bind_Ok _ _ _ (mkGardenerConfig JUndef JUndef JUndef) (gatherOptions [] offline).2)
    by (vm_compute; reflexivity).
  reflexivity.
Qed.

Lemma cleanup_always_runs_witness :
  ∃ o, initial_vars offline_options = initial_vars o ∧
    cleaned_up (X := script) demo_clients o "Cleanup the resources" offline_suite (initial_vars offline_options)
      offline_started.
Proof.
  apply (proj1 (cleanup_always_runs demo_clients demo_keb demo_kcp offline offline_started
    offline_suite (initial_vars offline_options))); [exact offline_registered|vm_compute; reflexivity].
Defined.

(** The failed provisioning is followed by the cleanup at once. *)
Lemma suite_order_witness :
  ∃ prov r b, (mocha offline_suite (initial_vars offline_options) offline_started).1.1 =
    [prov; Entry "Cleanup the resources" r b].
Proof.
  destruct (proj1 (suite_order demo_clients offline offline_started offline_suite (initial_vars offline_options)))
    as (prov & rest & Hrun & _ & Hf); [exact offline_registered|vm_compute; reflexivity|].
  assert (match (mocha offline_suite (initial_vars offline_options) offline_started).1.1 with
          | en :: _ => passed (en_outcome en) | [] => true end = false) as Hp by (vm_compute; reflexivity).
  rewrite Hrun in Hp. destruct (Hf Hp) as (r & b & ->). by exists prov, r, b.
Defined.

Definition provisioning_suite : suite script * vars := provision_skr_test demo_clients.

Lemma spinnaker_report_witness :
  ∃ log v, w_log (mocha provisioning_suite.1 provisioning_suite.2 offline).2 =
    log ++ [printed "SPINNAKER_PROPERTY_PROVISIONED" "false"; printed "SPINNAKER_PROPERTY_KYMA_VERSION" v].
Proof.
  destruct (spinnaker_report (X := script) demo_clients offline) as (log & v & Hl); [vm_compute; reflexivity|].
  exists log, v. unfold provisioning_suite. rewrite Hl.
  assert (provisioned (mocha provisioning_suite.1 provisioning_suite.2 offline).1.1 = false) as Hp
    by (vm_compute; reflexivity).
  unfold provisioning_suite in Hp. by rewrite Hp.
Defined.

Definition demo_shoot (config : jsval) : jsval := JObj [("name", JStr "shoot"); ("oidcConfig", config)].

Definition demo_vars : vars :=
  <["skr" := JObj [("shoot", demo_shoot demo_oidc)]]> {["options" := JObj []]}.

Lemma initial_oidc_check_vacuous_witness :
  ∃ hook test rest,
    (run_group false (oidcE2ETest demo_clients 0 getShootOptionsFunc getShootInfoFunc) demo_vars offline).1.1.1 =
      hook :: test :: rest ∧
    en_title test = "Assure initial OIDC config is applied on shoot cluster" ∧ en_outcome test = Ok tt.
Proof.
  apply (initial_oidc_check_vacuous false demo_clients 0 demo_vars offline
    (JObj [("shoot", demo_shoot demo_oidc)]) (demo_shoot demo_oidc) []
    (match demo_oidc with JObj fs => fs | _ => [] end)); [vm_compute; reflexivity..|].
  intros k Hk. repeat (apply elem_of_cons in Hk as [->|Hk]; [vm_compute; by eexists|]).
  by apply elem_of_nil in Hk.
Defined.




