(* ===== verification/JsString.v ===== *)
(** The string methods of the language that the Swagger UI code applies: [replace] with a literal
    pattern, [trim], case folding, character classes at the head of a string, and the lemmas its
    escaping functions need. *)

From S2P Require Import Prelude.

(** * Characters *)

Definition ch (n : N) : Ascii.ascii := Ascii.ascii_of_N n.
Definition code (c : Ascii.ascii) : N := Ascii.N_of_ascii c.
#[global] Arguments ch : simpl never.
#[global] Arguments code : simpl never.

Definition is_digit (c : Ascii.ascii) : bool := ((48 <=? code c) && (code c <=? 57))%N.
Definition is_lower (c : Ascii.ascii) : bool := ((97 <=? code c) && (code c <=? 122))%N.
Definition is_upper (c : Ascii.ascii) : bool := ((65 <=? code c) && (code c <=? 90))%N.
Definition is_alnum (c : Ascii.ascii) : bool := is_digit c || is_lower c || is_upper c.

(** Every character of [s] satisfies [p]. *)
Fixpoint sforall (p : Ascii.ascii → bool) (s : string) : bool :=
  match s with EmptyString => true | String c r => p c && sforall p r end.

Definition sexists (p : Ascii.ascii → bool) (s : string) : bool := negb (sforall (λ c, negb (p c)) s).

(** [/^[...]/.test(s)] for a character class. *)
Definition head_in (p : Ascii.ascii → bool) (s : string) : bool :=
  match s with String c _ => p c | EmptyString => false end.

(** [toLowerCase] on the ASCII letters, the folding of a regular expression flag [i]. *)
Definition lower_char (c : Ascii.ascii) : Ascii.ascii := if is_upper c then ch (code c + 32) else c.
Fixpoint to_lower (s : string) : string :=
  match s with EmptyString => "" | String c r => String (lower_char c) (to_lower r) end.

(** * [replace] *)

(** [s.replace(/lit/g, by)] for a non-empty literal pattern. *)
Definition replace_all (lit by_ s : string) : string := join by_ (split lit s).

(** The same for a pattern of one character. *)
Fixpoint replace_char (c : Ascii.ascii) (by_ s : string) : string :=
  match s with
  | EmptyString => ""
  | String d r => (if Ascii.eqb c d then by_ else String d "") +:+ replace_char c by_ r
  end.

(** [s.replace(/c/, by)]: the first occurrence only. *)
Fixpoint replace_first (c : Ascii.ascii) (by_ s : string) : string :=
  match s with
  | EmptyString => ""
  | String d r => if Ascii.eqb c d then by_ +:+ r else String d (replace_first c by_ r)
  end.

(** [s.replace(/(\r\n|\r|\n)/g, by)]. *)
Fixpoint replace_newlines (by_ s : string) : string :=
  match s with
  | EmptyString => ""
  | String c r =>
      if (code c =? 13)%N then
        match r with
        | String d r' => if (code d =? 10)%N then by_ +:+ replace_newlines by_ r'
                         else by_ +:+ replace_newlines by_ r
        | EmptyString => by_
        end
      else if (code c =? 10)%N then by_ +:+ replace_newlines by_ r
      else String c (replace_newlines by_ r)
  end.

(** * [trim] *)

Definition bytes (l : list N) : string := foldr (λ n s, String (ch n) s) "" l.
#[global] Arguments bytes : simpl never.

(** The white space and line terminators of the language, in UTF-8. *)
Definition white : list string :=
  map bytes ([[9]; [10]; [11]; [12]; [13]; [32]; [194; 160]; [225; 154; 128]] ++
             map (λ n, [226; 128; 128 + n]) [0; 1; 2; 3; 4; 5; 6; 7; 8; 9; 10; 40; 41; 47] ++
             [[226; 129; 159]; [227; 128; 128]; [239; 187; 191]])%N.

Fixpoint srev (s : string) (acc : string) : string :=
  match s with EmptyString => acc | String c r => srev r (String c acc) end.

(** The rest of [s] after one of the units, if one is at its head. *)
Definition strip_any (units : list string) (s : string) : option string :=
  match omap (λ u, strip_prefix u s) units with [] => None | r :: _ => Some r end.

Fixpoint drop_units (units : list string) (fuel : nat) (s : string) : string :=
  match fuel with
  | O => s
  | S f => match strip_any units s with Some r => drop_units units f r | None => s end
  end.

Definition trim_start (s : string) : string := drop_units white (String.length s) s.
Definition trim_end (s : string) : string :=
  srev (drop_units (map (λ u, srev u "") white) (String.length s) (srev s "")) "".
Definition trim (s : string) : string := trim_end (trim_start s).

(** * Lemmas *)

Lemma code_ch n : (n < 256)%N → code (ch n) = n.
Proof. apply Ascii.N_ascii_embedding. Qed.

Lemma ch_code c : ch (code c) = c.
Proof. apply Ascii.ascii_N_embedding. Qed.

Lemma code_lt c : (code c < 256)%N.
Proof. apply Ascii.N_ascii_bounded. Qed.

Lemma code_inj c d : code c = code d → c = d.
Proof. intros H. by rewrite <- (ch_code c), <- (ch_code d), H. Qed.

Lemma sforall_app p s t : sforall p (s +:+ t) = sforall p s && sforall p t.
Proof. induction s as [|c s IH]; simpl; [done|]. by rewrite IH, andb_assoc. Qed.

Lemma sforall_impl (p q : Ascii.ascii → bool) s :
  (∀ c, p c = true → q c = true) → sforall p s = true → sforall q s = true.
Proof.
  intros Hpq. induction s as [|c s IH]; simpl; [done|].
  rewrite !andb_true_iff. intros [Hc Hs]. auto.
Qed.

Lemma sforall_and p q s : sforall p s = true → sforall q s = true → sforall (λ c, p c && q c) s = true.
Proof.
  induction s as [|c s IH]; simpl; [done|]. rewrite !andb_true_iff. naive_solver.
Qed.

#[export] Hint Rewrite sforall_app : jsdb.

Lemma replace_char_app c b s t : replace_char c b (s +:+ t) = replace_char c b s +:+ replace_char c b t.
Proof. induction s as [|d s IH]; simpl; [done|]. by rewrite IH, sapp_assoc. Qed.

(** A boolean implication between classes of characters is decided by running through all of them. *)
Lemma char_implies (p q : Ascii.ascii → bool) :
  forallb (λ n, implb (p (ch (N.of_nat n))) (q (ch (N.of_nat n)))) (seq 0 256) = true →
  ∀ c, p c = true → q c = true.
Proof.
  intros H c Hp. assert (N.to_nat (code c) ∈ seq 0 256) as Hin.
  { apply elem_of_seq. pose proof (code_lt c). lia. }
  apply list_elem_of_In, (proj1 (forallb_forall _ _) H) in Hin. by rewrite N2Nat.id, ch_code, Hp in Hin.
Qed.

(** A literal of one character is replaced character by character. *)
Lemma replace_all_char c b s : replace_all (String c "") b s = replace_char c b s.
Proof.
  unfold replace_all, split.
  assert (∀ cur, join b (split_aux (String c "") 0 cur s) = cur +:+ replace_char c b s) as ->; [|done].
  induction s as [|d s IH]; intros cur; [by rewrite sapp_nil_r|].
  cbn [split_aux strip_prefix replace_char]. destruct (Ascii.eqb c d).
  - rewrite join_cons by apply split_aux_ne. simpl String.length. simpl Nat.sub. by rewrite IH.
  - rewrite IH, sapp_assoc. done.
Qed.

(** A pattern that does not occur changes nothing. *)
Lemma replace_all_none lit b s : includes s lit = false → replace_all lit b s = s.
Proof. intros H. unfold replace_all, split. by rewrite split_aux_none. Qed.

Lemma replace_char_none c b s : sforall (λ d, negb (Ascii.eqb c d)) s = true → replace_char c b s = s.
Proof.
  induction s as [|d s IH]; simpl; [done|]. rewrite andb_true_iff, negb_true_iff.
  intros [-> Hs]. simpl. by rewrite IH.
Qed.

Definition not_newline (c : Ascii.ascii) : bool := negb ((code c =? 10) || (code c =? 13))%N.

Lemma replace_newlines_none b s t : sforall not_newline s = true →
  replace_newlines b (s +:+ t) = s +:+ replace_newlines b t.
Proof.
  induction s as [|c s IH]; simpl; [done|].
  rewrite andb_true_iff. unfold not_newline at 1. rewrite negb_true_iff, orb_false_iff.
  intros [[E1 E2] Hs]. rewrite E1, E2, IH by done. done.
Qed.

Lemma replace_newlines_nl b t : replace_newlines b (nl +:+ t) = b +:+ replace_newlines b t.
Proof. done. Qed.

(** A string with no white space at either end is its own [trim]. *)
Definition trimmed (s : string) : Prop := trim s = s.

Lemma strip_any_ascii s : head_in (λ c, negb (code c =? 32) && (14 <=? code c) && (code c <? 128))%N s = true →
  strip_any white s = None.
Proof.
  destruct s as [|c s]; [done|]. simpl head_in. unfold strip_any.
  destruct c as [[] [] [] [] [] [] [] []]; done.
Qed.
