(* ===== verification/SwSnippets.v ===== *)
(** Swagger UI, plugin request-snippets (src/core/plugins/request-snippets/fn.js inside the
    bundles): the generators that turn a request into a curl command for bash, cmd and PowerShell or
    into a Node program. The bash snippet is checked against a reader of POSIX shell words: what the
    shell passes to curl is exactly the request. *)

From S2P Require Import Prelude JsValue Json JsString.

(** * Requests *)

(** A value of a form body: a file the user chose, or a value of the editor. *)
Inductive entry :=
| EFile (name typ : string)
| EVal (v : jsval).

(** [request.get("body")]: an Immutable map of named values, or a plain value ([JUndef] when the
    request has no body). *)
Inductive body :=
| BMap (entries : list (string * entry))
| BVal (v : jsval).

(** The request as the snippet panel passes it; header values are converted where they are used. *)
Record request := Request {
  r_curlOptions : option (list string);
  r_method : string;
  r_url : jsval;
  r_headers : option (list (string * jsval));
  r_body : body
}.

(** [toString] of the collections of the immutable package. *)
Class Immutable := im_toString : jsval → string.

(** [`${v}`] for a value held by an Immutable map. *)
Definition template `{Immutable} (v : jsval) : string :=
  match v with JArr _ | JObj _ => im_toString v | _ => to_string v end.

Definition body_truthy (b : body) : bool :=
  match b with BMap _ => true | BVal v => truthy v end.

(** * Keys *)

Definition hashIdx : string := "_**[]".

Definition extractKey (k : string) : string :=
  if negb (includes k hashIdx) then k else trim (default "" (head (split hashIdx k))).

(** * Escaping *)

Definition squote : Ascii.ascii := ch 39.
Definition bslash : Ascii.ascii := ch 92.
Definition caret : Ascii.ascii := ch 94.
Definition backtick : Ascii.ascii := ch 96.
Definition dollar : Ascii.ascii := ch 36.
Definition dq : Ascii.ascii := ch 34.
Definition lf : Ascii.ascii := ch 10.

(** [/^[_\/-]/]. *)
Definition option_head (c : Ascii.ascii) : bool := ((code c =? 95) || (code c =? 47) || (code c =? 45))%N.

Definition escapeShell (str : string) : string :=
  if String.eqb str "-d " then str
  else if negb (head_in option_head str)
  then "'" +:+ replace_char squote (bytes [39; 92; 39; 39]%N) str +:+ "'"
  else str.

Definition escapeCMD (str : string) : string :=
  let str := replace_char caret "^^" str in
  let str := replace_all (bytes [92; 34]%N) (bytes [92; 92; 34]%N) str in
  let str := replace_char dq (dquote +:+ dquote) str in
  let str := replace_char lf ("^" +:+ nl) str in
  if String.eqb str "-d " then replace_all "-d " ("-d ^" +:+ nl) str
  else if negb (head_in option_head str) then dquote +:+ str +:+ dquote
  else str.

Definition escapePowershell (str : string) : string :=
  if String.eqb str "-d " then str
  else if sexists (Ascii.eqb lf) str then
    "@" +:+ dquote +:+ nl +:+
    replace_first dollar "`$" (replace_char backtick "``" (replace_char dq (bytes [92; 34]%N) str)) +:+
    nl +:+ dquote +:+ "@"
  else if negb (head_in option_head str)
  then "'" +:+ replace_char squote "''" (replace_char dq (dquote +:+ dquote) str) +:+ "'"
  else str.

(** * The curl command *)

(** One line of [getStringBodyOfMap]. *)
Definition body_line (kv : string * entry) : result string :=
  let extractedKey := extractKey kv.1 in
  match kv.2 with
  | EFile name typ =>
      Ok ("  " +:+ dquote +:+ extractedKey +:+ dquote +:+ ": {" +:+ nl +:+
          "    " +:+ dquote +:+ "name" +:+ dquote +:+ ": " +:+ dquote +:+ name +:+ dquote +:+
          (if String.eqb typ "" then ""
           else "," +:+ nl +:+ "    " +:+ dquote +:+ "type" +:+ dquote +:+ ": " +:+ dquote +:+ typ +:+ dquote) +:+
          nl +:+ "  }")
  | EVal v =>
      match stringify "  " v with
      | JStr t => Ok ("  " +:+ dquote +:+ extractedKey +:+ dquote +:+ ": " +:+ replace_newlines (nl +:+ "  ") t)
      | u => Throw (cannot_read u "replace")
      end
  end.

Definition getStringBodyOfMap (entries : list (string * entry)) : result string :=
  curlifyToJoin ← mapM body_line entries;
  Ok ("{" +:+ nl +:+ join ("," +:+ nl) curlifyToJoin +:+ nl +:+ "}").

(** The words of one [-F] option. *)
Definition form_word `{Immutable} (kv : string * entry) : string :=
  let extractedKey := extractKey kv.1 in
  match kv.2 with
  | EFile name typ => extractedKey +:+ "=@" +:+ name +:+ (if String.eqb typ "" then "" else ";type=" +:+ typ)
  | EVal v => extractedKey +:+ "=" +:+ template v
  end.

Definition header_word (hv : string * jsval) : string := hv.1 +:+ ": " +:+ to_string hv.2.

Definition multipart_header (hv : string * jsval) : bool :=
  String.eqb (to_lower hv.1) "content-type" && String.eqb (to_lower (to_string hv.2)) "multipart/form-data".

Definition form_method (m : string) : bool :=
  existsb (String.eqb m) ["POST"; "PUT"; "PATCH"].

(** The text of a body that is not sent as form fields. *)
Definition body_text (b : body) : result string :=
  match b with
  | BMap es => getStringBodyOfMap es
  | BVal (JStr s) => Ok s
  | BVal v => match stringify "" v with
              | JStr s => Ok s
              | u => Throw (cannot_read u "replace")
              end
  end.

Section Curlify.
Context `{Immutable}.
Variable escape : string → string.
Variable newLine : string.

Definition addWords (curlified : string) (args : list string) : string :=
  curlified +:+ " " +:+ join " " (map escape args).
Definition addWordsWithoutLeadingSpace (curlified : string) (args : list string) : string :=
  curlified +:+ join " " (map escape args).
Definition addNewLine (curlified : string) : string := curlified +:+ " " +:+ newLine.
Definition addIndent (curlified : string) : string := curlified +:+ "  ".

Definition addHeader (acc : string * bool) (hv : string * jsval) : string * bool :=
  let '(curlified, isMultipart) := acc in
  (addWordsWithoutLeadingSpace (addIndent (addNewLine curlified)) ["-H"; header_word hv],
   isMultipart || multipart_header hv).

Definition addFormField (curlified : string) (kv : string * entry) : string :=
  let curlified := addWordsWithoutLeadingSpace (addIndent (addNewLine curlified)) ["-F"] in
  addWords curlified [form_word kv].

Definition curlify (req : request) (ext : string) : result string :=
  let curlified := "curl" +:+ ext in
  let curlified := match r_curlOptions req with
                   | Some opts => addWords curlified opts
                   | None => curlified
                   end in
  let curlified := addWords curlified ["-X"; r_method req] in
  let curlified := addIndent (addNewLine curlified) in
  let curlified := addWordsWithoutLeadingSpace curlified [to_string (r_url req)] in
  let '(curlified, isMultipartFormDataRequest) :=
    foldl addHeader (curlified, false) (default [] (r_headers req)) in
  if body_truthy (r_body req) then
    if isMultipartFormDataRequest && form_method (r_method req) then
      match r_body req with
      | BMap es => Ok (foldl addFormField curlified es)
      | BVal v => Throw (not_a_function v "entrySeq")
      end
    else
      let curlified := addWordsWithoutLeadingSpace (addIndent (addNewLine curlified)) ["-d "] in
      reqBody ← body_text (r_body req);
      Ok (addWordsWithoutLeadingSpace curlified [reqBody])
  else if String.eqb (r_method req) "POST" then
    Ok (addWordsWithoutLeadingSpace (addIndent (addNewLine curlified)) ["-d ''"])
  else Ok curlified.
End Curlify.

Definition requestSnippetGenerator_curl_powershell `{Immutable} (req : request) : result string :=
  curlify escapePowershell ("`" +:+ nl) req ".exe".
Definition requestSnippetGenerator_curl_bash `{Immutable} (req : request) : result string :=
  curlify escapeShell (bytes [92; 10]%N) req "".
Definition requestSnippetGenerator_curl_cmd `{Immutable} (req : request) : result string :=
  curlify escapeCMD ("^" +:+ nl) req "".

(** * Reading a shell command *)

(** Words of a POSIX shell, for the commands without expansions and operators: outside quotes a
    blank ends a word, a backslash quotes the next character and disappears with a newline after
    it, and a character that the shell could interpret makes the reader fail. *)

Inductive shmode := Plain | Single | Escaped.

Record shstate := Sh { sh_done : list string; sh_cur : option string; sh_mode : shmode }.

(** The characters that stand for themselves outside quotes, in any position of an argument. *)
Definition sh_literal (c : Ascii.ascii) : bool :=
  is_alnum c || (128 <=? code c)%N ||
  existsb (N.eqb (code c)) [37; 43; 44; 45; 46; 47; 58; 61; 64; 95]%N.

Definition sh_blank (c : Ascii.ascii) : bool := ((code c =? 32) || (code c =? 9))%N.

Definition sh_push (st : shstate) (c : Ascii.ascii) : shstate :=
  Sh (sh_done st) (Some (default "" (sh_cur st) +:+ String c "")) Plain.

Definition sh_words_of (st : shstate) : list string := sh_done st ++ option_list (sh_cur st).

Definition sh_char (st : shstate) (c : Ascii.ascii) : option shstate :=
  match sh_mode st with
  | Single =>
      if Ascii.eqb c squote then Some (Sh (sh_done st) (sh_cur st) Plain)
      else Some (Sh (sh_done st) (Some (default "" (sh_cur st) +:+ String c "")) Single)
  | Escaped => if Ascii.eqb c lf then Some (Sh (sh_done st) (sh_cur st) Plain) else Some (sh_push st c)
  | Plain =>
      if Ascii.eqb c squote then Some (Sh (sh_done st) (Some (default "" (sh_cur st))) Single)
      else if Ascii.eqb c bslash then Some (Sh (sh_done st) (sh_cur st) Escaped)
      else if sh_blank c then Some (Sh (sh_words_of st) None Plain)
      else if sh_literal c then Some (sh_push st c)
      else None
  end.

Fixpoint sh_run (st : shstate) (s : string) : option shstate :=
  match s with
  | EmptyString => Some st
  | String c r => st' ← sh_char st c; sh_run st' r
  end.

Definition sh_init : shstate := Sh [] None Plain.

(** The argument vector of the command [s]. *)
Definition sh_words (s : string) : option (list string) :=
  st ← sh_run sh_init s;
  match sh_mode st with Plain => Some (sh_words_of st) | _ => None end.

(** * What the command should pass to curl *)

Definition is_multipart (req : request) : bool :=
  existsb multipart_header (default [] (r_headers req)) && form_method (r_method req).

Definition body_argv `{Immutable} (req : request) : list string :=
  if body_truthy (r_body req) then
    match r_body req, is_multipart req with
    | BMap es, true => concat (map (λ kv, ["-F"; form_word kv]) es)
    | b, _ => match body_text b with Ok t => ["-d"; t] | _ => [] end
    end
  else if String.eqb (r_method req) "POST" then ["-d"; ""] else [].

Definition curl_argv `{Immutable} (req : request) : list string :=
  "curl" :: default [] (r_curlOptions req) ++ ["-X"; r_method req; to_string (r_url req)] ++
  concat (map (λ hv, ["-H"; header_word hv]) (default [] (r_headers req))) ++ body_argv req.

(** A word the escaping keeps: the words that look like an option or a path are not quoted, so they
    must not contain a character the shell interprets. *)
Definition word_ok (w : string) : bool := negb (head_in option_head w) || sforall sh_literal w.

(** The words the snippet takes from the request. *)
Definition req_words `{Immutable} (req : request) : list string :=
  default [] (r_curlOptions req) ++ [r_method req; to_string (r_url req)] ++
  map header_word (default [] (r_headers req)) ++
  (if body_truthy (r_body req) then
     match r_body req, is_multipart req with
     | BMap es, true => map form_word es
     | b, _ => match body_text b with Ok t => [t] | _ => [] end
     end
   else []).

(** ** Lemmas on the reader *)

Lemma sh_run_app st s t : sh_run st (s +:+ t) = sh_run st s ≫= λ st', sh_run st' t.
Proof.
  revert st. induction s as [|c s IH]; intros st; simpl; [done|].
  destruct (sh_char st c); simpl; [apply IH|done].
Qed.

Lemma squote_quote : "'" = String squote "".
Proof. done. Qed.

Lemma sh_run_single ws w s :
  sh_run (Sh ws (Some w) Single) (replace_char squote (bytes [39; 92; 39; 39]%N) s) =
  Some (Sh ws (Some (w +:+ s)) Single).
Proof.
  revert w. induction s as [|c s IH]; intros w; [by simpl; rewrite sapp_nil_r|].
  cbn [replace_char]. rewrite sh_run_app. destruct (Ascii.eqb_spec squote c) as [<-|Hne].
  - transitivity (sh_run (Sh ws (Some (w +:+ String squote "")) Single) (replace_char squote (bytes [39; 92; 39; 39]%N) s)).
    { done. }
    by rewrite IH, sapp_assoc.
  - simpl. unfold sh_char. simpl. destruct (Ascii.eqb_spec c squote); [congruence|]. simpl. by rewrite IH, sapp_assoc.
Qed.

Lemma sh_literal_plain c : sh_literal c = true →
  Ascii.eqb c squote = false ∧ Ascii.eqb c bslash = false ∧ sh_blank c = false.
Proof. destruct c as [[] [] [] [] [] [] [] []]; vm_compute; intros; try done. Qed.

Lemma sh_run_literal ws w s : sforall sh_literal s = true →
  sh_run (Sh ws (Some w) Plain) s = Some (Sh ws (Some (w +:+ s)) Plain).
Proof.
  revert w. induction s as [|c s IH]; intros w; simpl; [by rewrite sapp_nil_r|].
  rewrite andb_true_iff. intros [Hc Hs]. unfold sh_char. simpl.
  destruct (sh_literal_plain c Hc) as (-> & -> & ->). rewrite Hc. simpl.
  unfold sh_push; simpl. rewrite IH by done. by rewrite sapp_assoc.
Qed.

(** An escaped word continues the current one. *)
Lemma sh_run_escape ws cur w : word_ok w = true →
  sh_run (Sh ws cur Plain) (escapeShell w) = Some (Sh ws (Some (default "" cur +:+ w)) Plain).
Proof.
  unfold word_ok, escapeShell. intros Hw. destruct (String.eqb_spec w "-d ") as [->|_]; [done|].
  destruct (head_in option_head w) eqn:Eh; simpl in *.
  - destruct w as [|c w]; [done|]. simpl in Hw. apply andb_true_iff in Hw as [Hc Hs].
    simpl. unfold sh_char. simpl. destruct (sh_literal_plain c Hc) as (-> & -> & ->). rewrite Hc.
    unfold sh_push; simpl. rewrite sh_run_literal by done. by rewrite sapp_assoc.
  - rewrite squote_quote. simpl. rewrite sh_run_app, sh_run_single. done.
Qed.

(** ** The reader never gains characters *)

Definition sh_size (st : shstate) : nat := sum_list_with String.length (sh_words_of st).

Lemma sh_size_Sh ws cur m :
  sh_size (Sh ws cur m) = (sum_list_with String.length ws + String.length (default "" cur))%nat.
Proof. unfold sh_size, sh_words_of. simpl. rewrite sum_list_with_app. destruct cur; simpl; lia. Qed.

Lemma sh_char_size st c st' : sh_char st c = Some st' →
  (sh_size st' ≤ S (sh_size st))%nat ∧
  (sh_mode st = Plain → sh_literal c = false → (sh_size st' ≤ sh_size st)%nat) ∧
  (sh_literal c = true → sh_mode st = Plain → sh_mode st' = Plain).
Proof.
  destruct st as [ws cur m]. unfold sh_char, sh_push, sh_words_of. simpl.
  intros Hc. destruct m; repeat case_hyp; simplify_eq/=;
    rewrite ?sh_size_Sh; simpl; rewrite ?sum_list_with_app, ?slength_app; simpl;
    destruct cur; simpl; split_and!; intros; try lia; try done;
    repeat match goal with H : Ascii.eqb _ _ = true |- _ => apply Ascii.eqb_eq in H as -> end; try done.
  all: destruct (sh_literal_plain c) as (?&?&?); congruence.
Qed.

Lemma sh_run_size st s st' : sh_run st s = Some st' → (sh_size st' ≤ sh_size st + String.length s)%nat.
Proof.
  revert st. induction s as [|c s IH]; intros st H; simpl in *; [simplify_eq; lia|].
  destruct (sh_char st c) as [st1|] eqn:E; [|done]. simpl in H.
  apply sh_char_size in E as (? & _). apply IH in H. lia.
Qed.

(** If no character is lost, none was interpreted. *)
Lemma sh_run_tight st s st' : sh_mode st = Plain → sh_run st s = Some st' →
  (sh_size st + String.length s ≤ sh_size st')%nat → sforall sh_literal s = true.
Proof.
  revert st. induction s as [|c s IH]; intros st Hm H Hle; simpl in *; [done|].
  destruct (sh_char st c) as [st1|] eqn:E; [|done]. simpl in H.
  destruct (sh_char_size _ _ _ E) as (H1 & H2 & H3). pose proof (sh_run_size _ _ _ H).
  destruct (sh_literal c) eqn:El; [|specialize (H2 Hm eq_refl); lia].
  simpl. apply (IH st1); auto; lia.
Qed.

(** C40: a word escaped for bash is read back by the shell as exactly that word if and only if
    the word does not start with an underscore, a slash or a dash, or consists of characters that
    the shell does not interpret. Words of the first kind are quoted; the others are printed as they
    are. *)
Theorem escapeShell_exact w : sh_words (escapeShell w) = Some [w] ↔ word_ok w = true.
Proof.
  split.
  - unfold word_ok. destruct (head_in option_head w) eqn:Eh; [|done]. simpl.
    unfold escapeShell. rewrite Eh. simpl. intros H.
    assert (sh_words w = Some [w]) as Hw by (by destruct (String.eqb w "-d ")).
    unfold sh_words in Hw. destruct (sh_run sh_init w) as [st|] eqn:E; [|done]. simpl in Hw.
    destruct (sh_mode st); simplify_eq. apply (sh_run_tight sh_init w st); [done|done|].
    unfold sh_size at 2. rewrite Hw. simpl. lia.
  - intros Hw. unfold sh_words, sh_init. rewrite sh_run_escape by done. done.
Qed.

(** ** The command under construction *)

(** After the text [c] the shell has read the words [ws] and is between words. *)
Definition sh_between (c : string) (ws : list string) : Prop := sh_run sh_init c = Some (Sh ws None Plain).

(** The same, possibly at the end of the last word. *)
Definition sh_reads (c : string) (ws : list string) : Prop :=
  ∃ done_ cur, sh_run sh_init c = Some (Sh done_ cur Plain) ∧ done_ ++ option_list cur = ws.

Lemma sh_reads_words c ws : sh_reads c ws → sh_words c = Some ws.
Proof. intros (d & cur & H & <-). unfold sh_words. by rewrite H. Qed.

Lemma sh_between_reads c ws : sh_between c ws → sh_reads c ws.
Proof. intros H. exists ws, None. split; [done|]. by rewrite app_nil_r. Qed.

Lemma sh_reads_space c ws : sh_reads c ws → sh_between (c +:+ " ") ws.
Proof. intros (d & cur & H & <-). unfold sh_between. rewrite sh_run_app, H. done. Qed.

Lemma sh_between_indent c ws : sh_between c ws → sh_between (addIndent c) ws.
Proof.
  intros H. unfold sh_between, addIndent. rewrite sh_run_app, H. simpl. unfold sh_words_of. simpl.
  by rewrite !app_nil_r.
Qed.

Lemma sh_reads_newLine c ws : sh_reads c ws → sh_between (addNewLine (bytes [92; 10]%N) c) ws.
Proof.
  intros (d & cur & H & <-). unfold sh_between, addNewLine. rewrite sh_run_app, H. done.
Qed.

Lemma sh_between_words c ws args : sh_between c ws → Forall (λ w, word_ok w = true) args →
  sh_reads (addWordsWithoutLeadingSpace escapeShell c args) (ws ++ args).
Proof.
  intros Hc Hall. revert c ws Hc. induction Hall as [|w args Hw Hall IH]; intros c ws Hc.
  - unfold addWordsWithoutLeadingSpace. simpl. rewrite sapp_nil_r, app_nil_r. by apply sh_between_reads.
  - assert (sh_reads (c +:+ escapeShell w) (ws ++ [w])) as Hr.
    { exists ws, (Some w). split; [|done]. rewrite sh_run_app, Hc. simpl. by rewrite sh_run_escape. }
    destruct args as [|w' args]; [done|].
    specialize (IH _ _ (sh_reads_space _ _ Hr)). rewrite <- app_assoc in IH. simpl in IH.
    unfold addWordsWithoutLeadingSpace in *.
    change (map escapeShell (w :: w' :: args)) with (escapeShell w :: map escapeShell (w' :: args)).
    rewrite join_cons by done. by rewrite !sapp_assoc in IH.
Qed.

Lemma sh_reads_addWords c ws args : sh_reads c ws → Forall (λ w, word_ok w = true) args →
  sh_reads (addWords escapeShell c args) (ws ++ args).
Proof.
  intros Hc Hall. unfold addWords. rewrite <- sapp_assoc.
  apply sh_between_words; [by apply sh_reads_space|done].
Qed.

(** A new indented line holding more words. *)
Lemma sh_reads_line c ws args : sh_reads c ws → Forall (λ w, word_ok w = true) args →
  sh_reads (addWordsWithoutLeadingSpace escapeShell (addIndent (addNewLine (bytes [92; 10]%N) c)) args)
           (ws ++ args).
Proof.
  intros. apply sh_between_words; [|done]. by apply sh_between_indent, sh_reads_newLine.
Qed.

Lemma addHeaders_multipart hs c b :
  (foldl (addHeader escapeShell (bytes [92; 10]%N)) (c, b) hs).2 = b || existsb multipart_header hs.
Proof.
  revert c b. induction hs as [|h hs IH]; intros c b; simpl; [by rewrite orb_false_r|].
  by rewrite IH, orb_assoc.
Qed.

Lemma sh_reads_headers hs c b ws : sh_reads c ws → Forall (λ w, word_ok w = true) (map header_word hs) →
  sh_reads (foldl (addHeader escapeShell (bytes [92; 10]%N)) (c, b) hs).1
           (ws ++ concat (map (λ hv, ["-H"; header_word hv]) hs)).
Proof.
  revert c b ws. induction hs as [|h hs IH]; intros c b ws Hc Hall; simpl in *.
  - by rewrite app_nil_r.
  - apply Forall_cons in Hall as [Hh Hall].
    replace (ws ++ "-H" :: header_word h :: concat (map (λ hv, ["-H"; header_word hv]) hs))
      with ((ws ++ ["-H"; header_word h]) ++ concat (map (λ hv, ["-H"; header_word hv]) hs))
      by (by rewrite <- app_assoc).
    apply IH; [|done]. apply sh_reads_line; [done|]. by repeat constructor.
Qed.

Lemma sh_reads_form `{Immutable} es c ws : sh_reads c ws → Forall (λ w, word_ok w = true) (map form_word es) →
  sh_reads (foldl (addFormField escapeShell (bytes [92; 10]%N)) c es)
           (ws ++ concat (map (λ kv, ["-F"; form_word kv]) es)).
Proof.
  revert c ws. induction es as [|e es IH]; intros c ws Hc Hall; simpl in *.
  - by rewrite app_nil_r.
  - apply Forall_cons in Hall as [He Hall].
    replace (ws ++ "-F" :: form_word e :: concat (map (λ kv, ["-F"; form_word kv]) es))
      with (((ws ++ ["-F"]) ++ [form_word e]) ++ concat (map (λ kv, ["-F"; form_word kv]) es))
      by (by rewrite <- !app_assoc).
    apply IH; [|done]. apply sh_reads_addWords; [|by repeat constructor].
    apply sh_reads_line; [done|]. by repeat constructor.
Qed.

Lemma sh_reads_data c ws t : sh_reads c ws → word_ok t = true →
  sh_reads (addWordsWithoutLeadingSpace escapeShell
              (addWordsWithoutLeadingSpace escapeShell (addIndent (addNewLine (bytes [92; 10]%N) c)) ["-d "]) [t])
           (ws ++ ["-d"; t]).
Proof.
  intros Hc Ht. replace (ws ++ ["-d"; t]) with ((ws ++ ["-d"]) ++ [t]) by (by rewrite <- app_assoc).
  apply sh_between_words; [|by repeat constructor]. unfold addWordsWithoutLeadingSpace. simpl.
  change (escapeShell "-d ") with ("-d" +:+ " "). rewrite <- sapp_assoc. apply sh_reads_space.
  exists ws, (Some "-d"). split; [|done].
  pose proof (sh_between_indent _ _ (sh_reads_newLine _ _ Hc)) as Hi. unfold sh_between in Hi.
  by rewrite sh_run_app, Hi.
Qed.

Lemma sh_reads_empty_data c ws : sh_reads c ws →
  sh_reads (addWordsWithoutLeadingSpace escapeShell (addIndent (addNewLine (bytes [92; 10]%N) c)) ["-d ''"])
           (ws ++ ["-d"; ""]).
Proof.
  intros Hc. pose proof (sh_between_indent _ _ (sh_reads_newLine _ _ Hc)) as Hi. unfold sh_between in Hi.
  exists (ws ++ ["-d"]), (Some ""). split; [|by rewrite <- app_assoc].
  unfold addWordsWithoutLeadingSpace. rewrite sh_run_app, Hi. done.
Qed.

(** The body can be printed: form fields come as a map, other bodies have a JSON text. *)
Definition body_printable (req : request) : bool :=
  negb (body_truthy (r_body req)) ||
  match r_body req, is_multipart req with
  | BMap _, true => true
  | BVal _, true => false
  | b, false => is_ok (body_text b)
  end.

Lemma curlify_bash_body `{Immutable} req c ws :
  sh_reads c ws → Forall (λ w, word_ok w = true) (req_words req) → body_printable req = true →
  ∃ s, (if body_truthy (r_body req) then
          if is_multipart req then
            match r_body req with
            | BMap es => Ok (foldl (addFormField escapeShell (bytes [92; 10]%N)) c es)
            | BVal v => Throw (not_a_function v "entrySeq")
            end
          else
            reqBody ← body_text (r_body req);
            Ok (addWordsWithoutLeadingSpace escapeShell
                  (addWordsWithoutLeadingSpace escapeShell (addIndent (addNewLine (bytes [92; 10]%N) c)) ["-d "])
                  [reqBody])
        else if String.eqb (r_method req) "POST" then
          Ok (addWordsWithoutLeadingSpace escapeShell (addIndent (addNewLine (bytes [92; 10]%N) c)) ["-d ''"])
        else Ok c) = Ok s ∧ sh_reads s (ws ++ body_argv req).
Proof.
  unfold req_words, body_printable, body_argv. intros Hc Hall Hp.
  rewrite !Forall_app in Hall. destruct Hall as (_ & _ & _ & Hb).
  destruct (body_truthy (r_body req)) eqn:Et.
  2: { destruct (String.eqb (r_method req) "POST"); eexists; (split; [done|]).
       - by apply sh_reads_empty_data.
       - by rewrite app_nil_r. }
  destruct (r_body req) as [es|v] eqn:Eb; destruct (is_multipart req); cbn [negb orb] in Hp; try done.
  - eexists; split; [done|]. by apply sh_reads_form.
  - destruct (body_text (BMap es)) as [t| |] eqn:E; try done. simpl.
    eexists; split; [done|]. inversion_clear Hb. by apply sh_reads_data.
  - destruct (body_text (BVal v)) as [t| |] eqn:E; try done. simpl.
    eexists; split; [done|]. inversion_clear Hb. by apply sh_reads_data.
Qed.

(** C2: the bash snippet is produced, and the shell passes to curl exactly the words of the
    request: the options, the method, the address, one -H option per header in order, and the body
    as one -F option per form field or as one -d option. Each word taken from the request must be one that
    the escaping keeps, that is, if it starts with a dash, a slash or an underscore it has no character
    that the shell interprets; and the body must have a text. Without this it fails, see [curl_bash_unquoted]. *)
Theorem curl_bash_argv `{Immutable} (req : request) :
  forallb word_ok (req_words req) = true → body_printable req = true →
  ∃ s, requestSnippetGenerator_curl_bash req = Ok s ∧ sh_words s = Some (curl_argv req).
Proof.
  intros Hall Hp.
  assert (Forall (λ w, word_ok w = true) (req_words req)) as Hw.
  { rewrite forallb_forall in Hall. apply Forall_forall. intros w Hin. by apply Hall, list_elem_of_In. }
  clear Hall. unfold requestSnippetGenerator_curl_bash, curlify.
  pose proof Hw as Hw'. unfold req_words in Hw'. rewrite !Forall_app in Hw'.
  destruct Hw' as (Ho & Hmu & Hh & _). apply Forall_cons in Hmu as [Hm Hu].
  set (c1 := match r_curlOptions req with Some opts => _ | None => _ end).
  assert (sh_reads c1 ("curl" :: default [] (r_curlOptions req))) as H1.
  { assert (sh_reads ("curl" +:+ "") ["curl"]) as H0 by (by exists [], (Some "curl")).
    unfold c1. destruct (r_curlOptions req); [|done]. by apply (sh_reads_addWords _ ["curl"]). }
  assert (Forall (λ w, word_ok w = true) ["-X"; r_method req]) as HX by (by repeat constructor).
  pose proof (sh_reads_addWords _ _ _ H1 HX) as H2.
  pose proof (sh_reads_line _ _ _ H2 Hu) as H3.
  pose proof (sh_reads_headers _ _ false _ H3 Hh) as H4.
  pose proof (addHeaders_multipart (default [] (r_headers req)) (addWordsWithoutLeadingSpace escapeShell
    (addIndent (addNewLine (bytes [92; 10]%N) (addWords escapeShell c1 ["-X"; r_method req])))
    [to_string (r_url req)]) false) as Hmp.
  destruct (foldl _ _ _) as [c4 b] eqn:E4. simpl in H4, Hmp. subst b.
  destruct (curlify_bash_body req c4 _ H4 Hw Hp) as (s & Hs & Hr).
  exists s. split; [exact Hs|]. apply sh_reads_words in Hr. rewrite Hr. f_equal.
  unfold curl_argv. simpl. f_equal. rewrite <- !app_assoc. done.
Qed.

(** * The body of a map as JSON *)

(** One printed member of an object. *)
Definition ser_field (gap ind : string) (kv : string * jsval) : option string :=
  (λ t, quote kv.1 +:+ ":" +:+ (if String.eqb gap "" then "" else " ") +:+ t) <$> ser gap ind kv.2.

Lemma ser_obj gap ind fs :
  ser gap ind (JObj fs) = Some (wrap "{" "}" gap ind (omap (ser_field gap (ind +:+ gap)) fs)).
Proof.
  cbn [ser]. do 2 f_equal. induction fs as [|[k x] fs IH]; [done|].
  cbn [omap list_omap]. unfold ser_field at 1. cbn [fst snd fmap option_fmap option_map].
  destruct (ser gap (ind +:+ gap) x); [cbn; f_equal|]; exact IH.
Qed.

Lemma ser_err gap ind n m fs : ser gap ind (JErr n m fs) = ser gap ind (JObj fs).
Proof. done. Qed.

Definition printable (c : Ascii.ascii) : bool := (32 <=? code c)%N.
Definition printable_nl (c : Ascii.ascii) : bool := (code c =? 10)%N || printable c.

Lemma hexdigit_printable n : printable (hexdigit (n mod 16)) = true.
Proof.
  assert (n mod 16 < 16)%N as H by (by apply N.mod_lt). revert H. generalize (n mod 16)%N. intros m H.
  unfold hexdigit, printable. apply N.leb_le.
  destruct (N.ltb_spec m 10); unfold code; rewrite Ascii.N_ascii_embedding by lia; lia.
Qed.

Lemma esc_printable s : sforall printable (esc s) = true.
Proof.
  induction s as [|c s IH]; simpl; [done|]. rewrite sforall_app, IH, andb_true_r.
  by destruct c as [[] [] [] [] [] [] [] []].
Qed.

Lemma digits_printable f n acc : sforall printable acc = true → sforall printable (digits_fuel f n acc) = true.
Proof.
  assert (∀ m, printable (digit (m mod 10)) = true) as Hd.
  { intros m. assert (m mod 10 < 10)%N as H by (by apply N.mod_lt). revert H.
    generalize (m mod 10)%N. intros k Hk. unfold printable, digit, code. apply N.leb_le.
    rewrite Ascii.N_ascii_embedding by lia. lia. }
  revert n acc. induction f as [|f IH]; intros n acc Ha; simpl.
  - by rewrite Hd.
  - destruct (n <? 10)%N; simpl; [by rewrite Hd|]. apply IH. simpl. by rewrite Hd.
Qed.

Lemma zeros_printable k : sforall printable (String.concat "" (replicate k "0")) = true.
Proof. induction k as [|k IH]; [done|]. by rewrite concat_zeros_S. Qed.

Lemma num_printable m e : sforall printable (num_to_string m e) = true.
Proof.
  unfold num_to_string, N_to_string, zero_pad.
  destruct (m <? 0)%Z, e; rewrite ?sforall_app; rewrite ?digits_printable by done; try done;
    rewrite zeros_printable; done.
Qed.

(** The texts of the values without structure. *)
Lemma leaf_printable v t gap ind : ser gap ind v = Some t →
  match v with JArr _ | JObj _ | JErr _ _ _ => True | _ => sforall printable t = true end.
Proof.
  destruct v as [| |[]|m e| |s| | |]; simpl; intros [= <-]; try done; [apply num_printable|].
  unfold quote. by rewrite !sforall_app, esc_printable.
Qed.

Lemma printable_char_nl c : printable c = true → Ascii.eqb lf c = false.
Proof. destruct c as [[] [] [] [] [] [] [] []]; done. Qed.

Lemma replace_printable b s : sforall printable s = true → replace_char lf b s = s.
Proof.
  intros Hs. apply replace_char_none. eapply sforall_impl; [|exact Hs].
  intros c Hc. by rewrite (printable_char_nl c Hc).
Qed.

Lemma replace_char_join c b sep l :
  replace_char c b (join sep l) = join (replace_char c b sep) (map (replace_char c b) l).
Proof.
  induction l as [|x [|y l] IH]; [done|done|]. simpl in *. by rewrite !replace_char_app, IH.
Qed.

(** Indenting the lines of a printed list prints it with a deeper indentation. *)
Lemma wrap_indent opn cls gap ind d its : sforall printable (opn +:+ cls +:+ gap +:+ ind) = true →
  replace_char lf (nl +:+ d) (wrap opn cls gap ind its) =
  wrap opn cls gap (d +:+ ind) (map (replace_char lf (nl +:+ d)) its).
Proof.
  rewrite !sforall_app, !andb_true_iff. intros (Ho & Hc & Hg & Hi).
  assert (replace_char lf (nl +:+ d) nl = nl +:+ d) as Hn by (by simpl; rewrite !sapp_nil_r).
  assert (replace_char lf (nl +:+ d) "," = ",") as Hcm by done.
  destruct its as [|i its]; simpl map; unfold wrap.
  - rewrite replace_char_app, !replace_printable by done. done.
  - destruct (String.eqb gap ""); rewrite ?replace_char_app, ?replace_char_join, ?replace_char_app.
    + rewrite !replace_printable by done. done.
    + rewrite Hn, Hcm. rewrite !replace_printable by done. rewrite !sapp_assoc. done.
Qed.

Lemma quote_printable k : sforall printable (quote k) = true.
Proof. unfold quote. by rewrite !sforall_app, esc_printable. Qed.

Lemma ser_fields_indent gap d ind fs : sforall printable ind = true →
  Forall (λ kv, ∀ i, sforall printable i = true →
            replace_char lf (nl +:+ d) <$> ser gap i kv.2 = ser gap (d +:+ i) kv.2) fs →
  map (replace_char lf (nl +:+ d)) (omap (ser_field gap ind) fs) = omap (ser_field gap (d +:+ ind)) fs.
Proof.
  intros Hi. induction 1 as [|[k x] fs Hx _ IH]; [done|]. simpl in Hx. specialize (Hx ind Hi).
  assert (ser_field gap (d +:+ ind) (k, x) = replace_char lf (nl +:+ d) <$> ser_field gap ind (k, x)) as E.
  { unfold ser_field. cbn [fst snd]. rewrite <- Hx. destruct (ser gap ind x); [|done].
    cbn [fmap option_fmap option_map]. f_equal.
    rewrite !replace_char_app, (replace_printable _ (quote k)) by apply quote_printable.
    by destruct (String.eqb gap ""). }
  cbn [omap list_omap]. rewrite E. destruct (ser_field gap ind (k, x)); [cbn [map]; f_equal|]; exact IH.
Qed.

Lemma ser_indent gap d v : sforall printable gap = true → ∀ ind, sforall printable ind = true →
  replace_char lf (nl +:+ d) <$> ser gap ind v = ser gap (d +:+ ind) v.
Proof.
  intros Hg. induction v as [| | b|m e| |s|l IH|fs IH|n m fs IH] using jsval_ind; intros ind Hi;
    try (cbn [ser fmap option_fmap option_map]; f_equal; apply replace_printable; simpl;
         first [done|by destruct b|apply num_printable|apply quote_printable]).
  all: assert (sforall printable (ind +:+ gap) = true) as Hig by (by rewrite sforall_app, Hg, Hi).
  - cbn [ser fmap option_fmap option_map]. f_equal.
    rewrite wrap_indent by (by rewrite !sforall_app, Hg, Hi). f_equal. rewrite map_map.
    induction IH as [|x l Hx _ IHl]; [done|]. cbn [map]. f_equal; [|exact IHl].
    rewrite sapp_assoc, <- Hx by done. by destruct (ser gap (ind +:+ gap) x).
  - rewrite !ser_obj. cbn [fmap option_fmap option_map]. f_equal.
    rewrite wrap_indent, sapp_assoc by (by rewrite !sforall_app, Hg, Hi). f_equal. by apply ser_fields_indent.
  - rewrite !ser_err, !ser_obj. cbn [fmap option_fmap option_map]. f_equal.
    rewrite wrap_indent, sapp_assoc by (by rewrite !sforall_app, Hg, Hi). f_equal. by apply ser_fields_indent.
Qed.

Lemma sforall_join p sep l : sforall p sep = true → Forall (λ x, sforall p x = true) l →
  sforall p (join sep l) = true.
Proof.
  intros Hs. induction 1 as [|x [|y l] Hx _ IH]; [done|done|].
  rewrite join_cons by done. by rewrite !sforall_app, Hx, Hs, IH.
Qed.

Lemma printable_weaken s : sforall printable s = true → sforall printable_nl s = true.
Proof. apply sforall_impl. intros c Hc. unfold printable_nl. by rewrite Hc, orb_true_r. Qed.

Lemma wrap_printable opn cls gap ind its : sforall printable (opn +:+ cls +:+ gap +:+ ind) = true →
  Forall (λ x, sforall printable_nl x = true) its → sforall printable_nl (wrap opn cls gap ind its) = true.
Proof.
  intros Hp Hits. apply printable_weaken in Hp. rewrite !sforall_app, !andb_true_iff in Hp.
  destruct Hp as (Ho & Hc & Hg & Hi). destruct its as [|i its]; unfold wrap.
  - by rewrite sforall_app, Ho, Hc.
  - destruct (String.eqb gap ""); rewrite !sforall_app, ?Ho, ?Hc, ?Hg, ?Hi, sforall_join; try done.
    by rewrite !sforall_app, Hg, Hi.
Qed.

Lemma ser_field_printable gap ind kv t :
  (∀ u, ser gap ind kv.2 = Some u → sforall printable_nl u = true) →
  ser_field gap ind kv = Some t → sforall printable_nl t = true.
Proof.
  unfold ser_field. intros Hu. destruct (ser gap ind kv.2) as [u|]; [|done].
  cbn [fmap option_fmap option_map]. intros E. apply (inj Some) in E as <-.
  rewrite !sforall_app, (Hu u eq_refl), (printable_weaken _ (quote_printable kv.1)).
  by destruct (String.eqb gap "").
Qed.

(** JSON texts have line feeds but no carriage return. *)
Lemma ser_printable gap v : sforall printable gap = true → ∀ ind, sforall printable ind = true →
  ∀ t, ser gap ind v = Some t → sforall printable_nl t = true.
Proof.
  intros Hg. induction v as [| |b|m e| |s|l IH|fs IH|n m fs IH] using jsval_ind; intros ind Hi t Ht;
    try (apply printable_weaken; exact (leaf_printable _ _ _ _ Ht)).
  all: assert (sforall printable (ind +:+ gap) = true) as Hig by (by rewrite sforall_app, Hg, Hi).
  1: { injection Ht as <-. apply wrap_printable; [by rewrite !sforall_app, Hg, Hi|].
       apply Forall_map, (Forall_impl _ _ _ IH). intros x Hx. simpl.
       destruct (ser gap (ind +:+ gap) x) eqn:E; [by apply (Hx _ Hig)|done]. }
  all: rewrite ?ser_err, ser_obj in Ht; injection Ht as <-;
    (apply wrap_printable; [by rewrite !sforall_app, Hg, Hi|]); apply Forall_forall; intros x Hx;
    apply list_elem_of_omap in Hx as ([k y] & Hin & Hy);
    rewrite Forall_forall in IH; apply (ser_field_printable gap (ind +:+ gap) (k, y)); [|done];
    by apply (IH (k, y) Hin).
Qed.

Lemma replace_newlines_char b s : sforall printable_nl s = true → replace_newlines b s = replace_char lf b s.
Proof.
  induction s as [|c s IH]; [done|]. cbn [sforall]. rewrite andb_true_iff. intros [Hc Hs].
  cbn [replace_newlines replace_char]. rewrite IH by done.
  destruct (N.eqb_spec (code c) 13) as [E|_].
  { unfold printable_nl, printable in Hc. by rewrite E in Hc. }
  destruct (N.eqb_spec (code c) 10) as [E|E].
  - by rewrite (code_inj c lf E).
  - destruct (Ascii.eqb_spec lf c) as [<-|]; done.
Qed.

(** The plain object that a map body stands for. *)
Definition entry_json (e : entry) : jsval :=
  match e with
  | EVal v => v
  | EFile name typ => JObj (("name", JStr name) :: if String.eqb typ "" then [] else [("type", JStr typ)])
  end.

Definition body_json (es : list (string * entry)) : jsval :=
  JObj (map (λ kv, (extractKey kv.1, entry_json kv.2)) es).

(** Keys and file names are copied into the text without JSON escapes. *)
Definition entry_plain (kv : string * entry) : bool :=
  String.eqb (esc (extractKey kv.1)) (extractKey kv.1) &&
  match kv.2 with
  | EVal JUndef => false
  | EVal _ => true
  | EFile name typ => String.eqb (esc name) name && String.eqb (esc typ) typ
  end.

Lemma quote_plain s : esc s = s → quote s = dquote +:+ s +:+ dquote.
Proof. intros E. unfold quote. by rewrite E. Qed.

Lemma body_line_json kv : entry_plain kv = true →
  ∃ t, ser_field "  " "  " (extractKey kv.1, entry_json kv.2) = Some t ∧ body_line kv = Ok ("  " +:+ t).
Proof.
  destruct kv as [k [name typ|v]]; unfold entry_plain; cbn [fst snd]; rewrite andb_true_iff;
    intros [Hk Hv]; apply String.eqb_eq in Hk; unfold ser_field, body_line; cbn [fst snd entry_json].
  - apply andb_true_iff in Hv as [Hn Ht]. apply String.eqb_eq in Hn, Ht. rewrite ser_obj.
    destruct (String.eqb typ "") eqn:Et; cbn; rewrite ?(quote_plain name), ?(quote_plain typ), (quote_plain (extractKey k)) by done;
    eexists; (split; [reflexivity|]); f_equal; unfold quote, dquote, nl, chr;
    repeat (progress (cbn [String.append esc]; rewrite ?sapp_assoc)); reflexivity.
  - assert (∃ t, ser "  " "" v = Some t) as [t Ht] by (destruct v; simpl in *; eauto; done).
    pose proof (ser_indent "  " "  " v eq_refl "" eq_refl) as Hi. rewrite Ht in Hi.
    cbn [fmap option_fmap option_map] in Hi. rewrite sapp_nil_r in Hi. rewrite <- Hi.
    eexists; split; [reflexivity|]. unfold stringify. rewrite Ht.
    rewrite replace_newlines_char by (by apply (ser_printable "  " v eq_refl "" eq_refl)).
    rewrite (quote_plain (extractKey k)) by done. rewrite !sapp_assoc. done.
Qed.

Lemma body_lines_json es : forallb entry_plain es = true →
  ∃ ts, omap (ser_field "  " "  ") (map (λ kv, (extractKey kv.1, entry_json kv.2)) es) = ts ∧
        length ts = length es ∧ mapM body_line es = Ok (map (String.append "  ") ts).
Proof.
  induction es as [|kv es IH]; [by exists []|]. cbn [forallb]. rewrite andb_true_iff. intros [Hkv Hes].
  destruct (IH Hes) as (ts & Ht & Hl & Hm). destruct (body_line_json kv Hkv) as (t & Hf & Hb).
  exists (t :: ts). cbn [map omap list_omap]. rewrite Hf. split_and!.
  - f_equal; exact Ht.
  - simpl. f_equal. exact Hl.
  - simpl. rewrite Hb. simpl. by rewrite Hm.
Qed.

Lemma join_prefix sep p l : l ≠ [] → join sep (map (String.append p) l) = p +:+ join (sep +:+ p) l.
Proof.
  induction l as [|x [|y l] IH]; intros Hl; [done|done|].
  cbn [map]. rewrite !join_cons by done. cbn [map] in IH. rewrite IH by done.
  rewrite (join_cons _ x) by done. by rewrite !sapp_assoc.
Qed.

(** The text that the snippets print for a map body is the text of JSON.stringify with an
    indentation of two on the plain object the map stands for (file entries become objects with a
    name and a type), and JSON.parse reads it back as that object, for every non-empty map whose
    keys and file names need no JSON escape. *)
Theorem getStringBodyOfMap_json es : es ≠ [] → forallb entry_plain es = true →
  ∃ t, getStringBodyOfMap es = Ok t ∧ stringify "  " (body_json es) = JStr t ∧
       (json_ok (body_json es) → parse (JStr t) = Ok (body_json es)).
Proof.
  intros Hne Hp. destruct (body_lines_json es Hp) as (ts & Ht & Hl & Hm).
  unfold getStringBodyOfMap. rewrite Hm. eexists; split; [reflexivity|].
  assert (stringify "  " (body_json es) =
    JStr ("{" +:+ nl +:+ join ("," +:+ nl) (map (String.append "  ") ts) +:+ nl +:+ "}")) as E.
  { unfold stringify, body_json. rewrite ser_obj; change ("" +:+ "  ") with "  "; rewrite Ht. destruct ts as [|t ts].
    { destruct es; [done|discriminate]. }
    rewrite join_prefix by done. unfold wrap. simpl. by rewrite !sapp_assoc. }
  split; [exact E|]. intros Hok. rewrite <- E. by apply parse_stringify.
Qed.

(** * The Node snippet *)

(** What the url-parse package returns for an address. *)
Record parsed_url := ParsedUrl { u_protocol : string; u_host : string; u_port : string; u_pathname : string }.
Class UrlParse := url_parse : jsval → parsed_url.

(** [(reqBody || "").replace(/\\n/g, "\n").replace(/`/g, "\\`")], the text between the backticks. *)
Definition node_literal (reqBody : string) : string :=
  replace_char backtick (bytes [92; 96]%N) (replace_all (bytes [92; 110]%N) nl reqBody).

Definition quoted (s : string) : string := dquote +:+ s +:+ dquote.

Definition node_header (hv : string * jsval) : string := quoted hv.1 +:+ ": " +:+ quoted (to_string hv.2).

Definition node_program (packageStr : string) (url : parsed_url) (req : request) (reqBody : string) : string :=
  let headers := default [] (r_headers req) in
  "const http = require(" +:+ quoted packageStr +:+ ");" +:+ nl +:+ nl +:+
  "const options = {" +:+ nl +:+
  "  " +:+ quoted "method" +:+ ": " +:+ quoted (r_method req) +:+ "," +:+ nl +:+
  "  " +:+ quoted "hostname" +:+ ": " +:+ quoted (u_host url) +:+ "," +:+ nl +:+
  "  " +:+ quoted "port" +:+ ": " +:+ (if String.eqb (u_port url) "" then "null" else u_port url) +:+ "," +:+ nl +:+
  "  " +:+ quoted "path" +:+ ": " +:+ quoted (u_pathname url) +:+
  (match headers with
   | [] => ""
   | _ => "," +:+ nl +:+ "  " +:+ quoted "headers" +:+ ": {" +:+ nl +:+ "    " +:+
          join ("," +:+ nl +:+ "    ") (map node_header headers) +:+ nl +:+ "  }"
   end) +:+ nl +:+
  "};" +:+ nl +:+ nl +:+
  "const req = http.request(options, function (res) {" +:+ nl +:+
  "  const chunks = [];" +:+ nl +:+ nl +:+
  "  res.on(" +:+ quoted "data" +:+ ", function (chunk) {" +:+ nl +:+
  "    chunks.push(chunk);" +:+ nl +:+
  "  });" +:+ nl +:+ nl +:+
  "  res.on(" +:+ quoted "end" +:+ ", function () {" +:+ nl +:+
  "    const body = Buffer.concat(chunks);" +:+ nl +:+
  "    console.log(body.toString());" +:+ nl +:+
  "  });" +:+ nl +:+
  "});" +:+ nl +:+
  (if String.eqb reqBody "" then "" else nl +:+ "req.write(`" +:+ node_literal reqBody +:+ "`);") +:+ nl +:+
  "req.end();".

Definition requestSnippetGenerator_node_native `{UrlParse} (req : request) : result string :=
  let url := url_parse (r_url req) in
  let packageStr := if String.eqb (u_protocol url) "https:" then "https" else "http" in
  if body_truthy (r_body req) then
    if is_multipart req then
      Ok ("throw new Error(" +:+ quoted ("Currently unsupported content-type: /^multipart" +:+
          bytes [92]%N +:+ "/form-data$/i") +:+ ");")
    else
      reqBody ← body_text (r_body req);
      Ok (node_program packageStr url req reqBody)
  else Ok (node_program packageStr url req "").

(** The value of a template literal without substitutions, from the text between its backticks:
    [None] for a text that ends the literal, starts a substitution or uses a numeric escape. *)
Definition template_escape (c : Ascii.ascii) : option string :=
  if (code c =? 110)%N then Some nl
  else if (code c =? 116)%N then Some tab
  else if (code c =? 114)%N then Some (bytes [13]%N)
  else if (code c =? 98)%N then Some (bytes [8]%N)
  else if (code c =? 102)%N then Some (bytes [12]%N)
  else if (code c =? 118)%N then Some (bytes [11]%N)
  else if (code c =? 10)%N then Some ""
  else if existsb (N.eqb (code c)) [13; 117; 120; 226]%N || is_digit c then None
  else Some (String c "").

Fixpoint template_value (s : string) : option string :=
  match s with
  | EmptyString => Some ""
  | String c r =>
      if Ascii.eqb c bslash then
        match r with
        | EmptyString => None
        | String d r' => t ← template_escape d; (λ u, t +:+ u) <$> template_value r'
        end
      else if Ascii.eqb c backtick then None
      else if Ascii.eqb c dollar && head_in (λ d, (code d =? 123)%N) r then None
      else if (code c =? 13)%N then None
      else String c <$> template_value r
  end.

(** The bodies that the literal reproduces: no backslash, no carriage return, no substitution. *)
Definition node_safe (s : string) : bool :=
  sforall (λ c, negb (Ascii.eqb c bslash) && negb (code c =? 13)%N) s && negb (includes s "${").

Lemma no_bslash_includes s t : sforall (λ c, negb (Ascii.eqb c bslash)) s = true →
  includes s (String bslash t) = false.
Proof.
  induction s as [|c s IH]; [done|]. cbn [sforall]. rewrite andb_true_iff, negb_true_iff.
  intros [Hc Hs]. cbn [includes strip_prefix].
  destruct (Ascii.eqb_spec bslash c) as [<-|_]; [done|auto].
Qed.

Lemma head_brace_escape r : head_in (λ d, (code d =? 123)%N) r = false →
  head_in (λ d, (code d =? 123)%N) (replace_char backtick (bytes [92; 96]%N) r) = false.
Proof. destruct r as [|d r]; [done|]. intros H. cbn [replace_char]. by destruct (Ascii.eqb backtick d). Qed.

Lemma template_value_escape s : node_safe s = true →
  template_value (replace_char backtick (bytes [92; 96]%N) s) = Some s.
Proof.
  unfold node_safe. induction s as [|c s IH]; [done|]. cbn [sforall includes].
  rewrite !andb_true_iff, !negb_true_iff. intros [[[Hb Hcr] Hs] Hi].
  destruct (strip_prefix "${" (String c s)) eqn:Ep; [done|].
  assert (template_value (replace_char backtick (bytes [92; 96]%N) s) = Some s) as E.
  { apply IH. by rewrite Hs, Hi. }
  cbn [replace_char]. destruct (Ascii.eqb_spec backtick c) as [<-|Hbt].
  - change (bytes [92; 96]%N +:+ replace_char backtick (bytes [92; 96]%N) s)
      with (String bslash (String backtick (replace_char backtick (bytes [92; 96]%N) s))).
    cbn [template_value]. rewrite E. done.
  - change (String c "" +:+ replace_char backtick (bytes [92; 96]%N) s)
      with (String c (replace_char backtick (bytes [92; 96]%N) s)).
    cbn [template_value]. rewrite Hb, Hcr, E. destruct (Ascii.eqb_spec c backtick); [congruence|].
    destruct (Ascii.eqb_spec c dollar) as [->|]; [|done].
    rewrite head_brace_escape; [done|]. destruct s as [|d s]; [done|]. simpl in *.
    destruct (N.eqb_spec (code d) 123) as [Ed|]; [|done]. by rewrite (code_inj d (ch 123) Ed) in Ep.
Qed.

(** The template literal that the Node snippet writes evaluates to the body of the request,
    for every body without a backslash, a carriage return or the start of a substitution. *)
Theorem node_literal_value s : node_safe s = true → template_value (node_literal s) = Some s.
Proof.
  intros Hs. unfold node_literal. rewrite replace_all_none; [by apply template_value_escape|].
  apply no_bslash_includes. unfold node_safe in Hs. apply andb_true_iff in Hs as [Hs _].
  eapply sforall_impl; [|exact Hs]. intros c Hc. by apply andb_true_iff in Hc as [Hc _].
Qed.

(** A JSON body with an escaped quote reaches the server changed: the literal drops the backslash. *)
Lemma node_literal_drops_backslash :
  let json := bytes [34; 92; 34; 34]%N in
  parse (JStr json) = Ok (JStr dquote) ∧
  template_value (node_literal json) = Some (bytes [34; 34; 34]%N) ∧
  is_ok (parse (JStr (bytes [34; 34; 34]%N))) = false.
Proof. by vm_compute. Qed.

(** In a PowerShell here-string only the first dollar sign is escaped. *)
Lemma escapePowershell_one_dollar :
  escapePowershell ("$a" +:+ nl +:+ "$b") = "@" +:+ dquote +:+ nl +:+ "`$a" +:+ nl +:+ "$b" +:+ nl +:+ dquote +:+ "@".
Proof. by vm_compute. Qed.

(** A text body that starts with a dash is not quoted: the shell sees its second half as a command
    of its own. *)
Lemma curl_bash_unquoted `{Immutable} :
  let req := Request None "PUT" (JStr "https://broker/info") None (BVal (JStr "-;reboot")) in
  let s := "curl -X 'PUT' " +:+ bytes [92; 10]%N +:+ "  'https://broker/info' " +:+ bytes [92; 10]%N +:+ "  -d -;reboot" in
  requestSnippetGenerator_curl_bash req = Ok s ∧ sh_words s = None.
Proof. by vm_compute. Qed.

(** * Witnesses *)

#[export] Instance immutable_plain : Immutable := to_string.

Definition example_request : request :=
  Request None "POST" (JStr "https://broker/oauth/v2/service_instances")
    (Some [("Content-Type", JStr "application/json"); ("X-Broker-API-Version", JStr "2.14")])
    (BMap [("name", EVal (JStr "it's")); ("region", EVal (JStr "eu")); ("cfg", EFile "a.yaml" "text/yaml")]).

Lemma curl_bash_argv_witness : ∃ s, requestSnippetGenerator_curl_bash example_request = Ok s ∧
  sh_words s = Some (curl_argv example_request).
Proof. apply (curl_bash_argv example_request); vm_compute; reflexivity. Defined.

Lemma getStringBodyOfMap_json_witness :
  ∃ t, getStringBodyOfMap [("name", EVal (JStr "it's")); ("cfg", EFile "a.yaml" "text/yaml")] = Ok t ∧
       stringify "  " (body_json [("name", EVal (JStr "it's")); ("cfg", EFile "a.yaml" "text/yaml")]) = JStr t ∧
       (json_ok (body_json [("name", EVal (JStr "it's")); ("cfg", EFile "a.yaml" "text/yaml")]) →
        parse (JStr t) = Ok (body_json [("name", EVal (JStr "it's")); ("cfg", EFile "a.yaml" "text/yaml")])).
Proof. apply getStringBodyOfMap_json; [done|vm_compute; reflexivity]. Defined.

Lemma node_literal_value_witness :
  template_value (node_literal "a`b$") = Some "a`b$".
Proof. apply node_literal_value. vm_compute. reflexivity. Defined.
