(* ===== verification/SwWebpack.v ===== *)
(** The module loader of the Swagger UI bundles: the webpack runtime at the head of each bundle,
    [n(id)] with its cache, the export helpers [n.d], [n.r], [n.o] and [n.n], the start of the entry
    module, and the wrapper that hands the result to CommonJS, AMD or the global object. Modules are
    programs over a heap of export objects, so that cycles see partly filled exports. *)

From S2P Require Import Prelude JsValue.

(** * Values and programs *)

(** Functions are opaque, objects are references to the heap. *)
Inductive value :=
| VData (d : jsval)
| VFun (f : nat)
| VObj (o : nat).

(** A property is a stored value, one that cannot be written, or the getter of a harmony export that reads a variable of the
    scope of a module. *)
Inductive prop :=
| PData (v : value)
| PConst (v : value)
| PGetter (scope : nat) (var : string).

Definition obj := list (string * prop).

(** The body of a module function [(module, exports, n)]. *)
Inductive prog :=
| PEnd
| PThrow (e : jsval)
| PRequire (id : N) (k : value → prog)
| PGet (o : value) (key : string) (k : value → prog)
| PSetProp (o : value) (key : string) (x : value) (k : prog)
| PModuleExports (v : value) (k : prog)
| PVar (x : string) (v : value) (k : prog)
| PDefine (key x : string) (k : prog)
| PMark (k : prog).

(** A module function receives its [exports] object. *)
Definition module_fn := value → prog.

(** [{i: id, l: false, exports: {}}]; the key of the cache is [i]. *)
Record installed := Installed { i_l : bool; i_exports : value }.

(** [w_started] lists the modules whose function was called, newest first. *)
Record wstate := WState { w_cache : gmap N installed; w_heap : list obj; w_started : list N }.

Inductive outcome (A : Type) :=
| Returned (st : wstate) (a : A)
| Threw (st : wstate) (e : jsval)
| OutOfFuel.
Arguments Returned {A} st a.
Arguments Threw {A} st e.
Arguments OutOfFuel {A}.

(** * Objects *)

Fixpoint prop_of (o : obj) (key : string) : option prop :=
  match o with
  | [] => None
  | (k, p) :: r => if String.eqb k key then Some p else prop_of r key
  end.

Fixpoint set_prop (o : obj) (key : string) (p : prop) : obj :=
  match o with
  | [] => [(key, p)]
  | (k, q) :: r => if String.eqb k key then (k, p) :: r else (k, q) :: set_prop r key p
  end.

Definition heap_prop (h : list obj) (o : nat) (key : string) : option prop :=
  ob ← h !! o; prop_of ob key.

Definition heap_set (h : list obj) (o : nat) (key : string) (p : prop) : list obj :=
  alter (λ ob, set_prop ob key p) o h.

(** Variables of a scope hold values only. *)
Definition scope_var (h : list obj) (scope : nat) (x : string) : value :=
  match heap_prop h scope x with Some (PData v) => v | _ => VData JUndef end.

(** [v.key]. *)
Definition get (h : list obj) (v : value) (key : string) : result value :=
  match v with
  | VObj o => Ok match heap_prop h o key with
                 | Some (PData x | PConst x) => x
                 | Some (PGetter s x) => scope_var h s x
                 | None => VData JUndef
                 end
  | VFun _ => Ok (VData JUndef)
  | VData d => x ← getp d key; Ok (VData x)
  end.

(** [v.key = x] outside strict mode: a property with only a getter and a read-only one keep what they have. *)
Definition put (h : list obj) (v : value) (key : string) (x : value) : result (list obj) :=
  match v with
  | VObj o => match heap_prop h o key with
              | Some (PGetter _ _ | PConst _) => Ok h
              | _ => Ok (heap_set h o key (PData x))
              end
  | VFun _ => Ok h
  | VData d => if nullish d
               then Throw (typeError ("Cannot set properties of " +:+ to_string d +:+ " (setting '" +:+ key +:+ "')"))
               else Ok h
  end.

(** * Export helpers *)

(** [n.o(object, property)]. *)
Definition n_o (h : list obj) (o : nat) (key : string) : bool := bool_decide (is_Some (heap_prop h o key)).

(** [n.d(exports, name, getter)]: a name that is already defined is left alone. *)
Definition n_d (h : list obj) (o : nat) (key : string) (scope : nat) (x : string) : list obj :=
  if n_o h o key then h else heap_set h o key (PGetter scope x).

(** [n.r(exports)]: the property that Object.defineProperty makes is read-only; one that is there and can be
    written stays so, and a getter cannot be redefined. *)
Definition n_r (h : list obj) (o : nat) : result (list obj) :=
  let yes := VData (JBool true) in
  match heap_prop h o "__esModule" with
  | None => Ok (heap_set h o "__esModule" (PConst yes))
  | Some (PData _) => Ok (heap_set h o "__esModule" (PData yes))
  | Some (PConst _) => Ok h
  | Some (PGetter _ _) => Throw (typeError "Cannot redefine property: __esModule")
  end.

Definition value_truthy (v : value) : bool := match v with VData d => truthy d | _ => true end.

(** [n.n(module)()]: the default export of a harmony module, any other module itself. *)
Definition n_n (h : list obj) (m : value) : result value :=
  if value_truthy m then
    es ← get h m "__esModule";
    if value_truthy es then get h m "default" else Ok m
  else Ok m.

(** * Loading *)

Section Loader.
Variable modules : gmap N module_fn.

Definition set_entry (st : wstate) (id : N) (f : installed → installed) : wstate :=
  WState (alter f id (w_cache st)) (w_heap st) (w_started st).

Definition set_heap (st : wstate) (h : list obj) : wstate :=
  WState (w_cache st) h (w_started st).

(** The steps of a module function that stay inside the module: [exports] and [scope] are the
    objects made for it, [req] is [n]. *)
Fixpoint run (req : wstate → N → outcome value) (id : N) (exports scope : nat) (p : prog) (st : wstate)
    : outcome unit :=
  match p with
  | PEnd => Returned st tt
  | PThrow e => Threw st e
  | PRequire i k =>
      match req st i with
      | Returned st' v => run req id exports scope (k v) st'
      | Threw st' e => Threw st' e
      | OutOfFuel => OutOfFuel
      end
  | PGet o key k =>
      match get (w_heap st) o key with
      | Ok v => run req id exports scope (k v) st
      | Throw e => Threw st e
      | Hang => OutOfFuel
      end
  | PSetProp o key x k =>
      match put (w_heap st) o key x with
      | Ok h => run req id exports scope k (set_heap st h)
      | Throw e => Threw st e
      | Hang => OutOfFuel
      end
  | PModuleExports v k =>
      run req id exports scope k (set_entry st id (λ m, Installed (i_l m) v))
  | PVar x v k => run req id exports scope k (set_heap st (heap_set (w_heap st) scope x (PData v)))
  | PDefine key x k => run req id exports scope k (set_heap st (n_d (w_heap st) exports key scope x))
  | PMark k =>
      match n_r (w_heap st) exports with
      | Ok h => run req id exports scope k (set_heap st h)
      | Throw e => Threw st e
      | Hang => OutOfFuel
      end
  end.

(** [t[r] = {i: r, l: false, exports: {}}], with the scope of the module function. *)
Definition install (st : wstate) (id : N) : wstate :=
  WState (<[id := Installed false (VObj (length (w_heap st)))]> (w_cache st))
         (w_heap st ++ [[]; []]) (w_started st).

Definition start (st : wstate) (id : N) : wstate :=
  WState (w_cache st) (w_heap st) (id :: w_started st).

Definition no_module : jsval := typeError "Cannot read properties of undefined (reading 'call')".

(** [n(id)]. *)
Fixpoint n (fuel : nat) (st : wstate) (id : N) : outcome value :=
  match w_cache st !! id with
  | Some m => Returned st (i_exports m)
  | None =>
      match fuel with
      | O => OutOfFuel
      | S f =>
          let st1 := install st id in
          let o := length (w_heap st) in
          match modules !! id with
          | None => Threw st1 no_module
          | Some body =>
              match run (n f) id o (S o) (body (VObj o)) (start st1 id) with
              | Returned st2 _ =>
                  let st3 := set_entry st2 id (λ m, Installed true (i_exports m)) in
                  match w_cache st3 !! id with
                  | Some m => Returned st3 (i_exports m)
                  | None => Threw st3 no_module
                  end
              | Threw st2 e => Threw st2 e
              | OutOfFuel => OutOfFuel
              end
          end
      end
  end.

Definition w_init : wstate := WState ∅ [] [].

(** ** Cached entries are never touched again *)

Definition out_state {A} (o : outcome A) : option wstate :=
  match o with Returned st _ | Threw st _ => Some st | OutOfFuel => None end.

(** The modules started between two states: each once, none of them in the cache before. *)
Definition starts_new (st st' : wstate) : Prop :=
  ∃ new, w_started st' = new ++ w_started st ∧ NoDup new ∧
         ∀ i, i ∈ new → w_cache st !! i = None ∧ is_Some (w_cache st' !! i).

(** What a call of [n] may do to the state: entries of the cache stay as they are. *)
Definition grows (st st' : wstate) : Prop :=
  (∀ j m, w_cache st !! j = Some m → w_cache st' !! j = Some m) ∧ starts_new st st'.

(** The same while module [id] runs: its own entry may get other exports. *)
Definition grows_in (id : N) (st st' : wstate) : Prop :=
  (∀ j m, j ≠ id → w_cache st !! j = Some m → w_cache st' !! j = Some m) ∧
  (∃ m, w_cache st' !! id = Some m ∧ i_l m = false) ∧ starts_new st st'.

Definition running (id : N) (st : wstate) : Prop := ∃ m, w_cache st !! id = Some m ∧ i_l m = false.

Lemma starts_new_refl st : starts_new st st.
Proof. exists []. split_and!; [done|constructor|]. intros i Hi. by apply not_elem_of_nil in Hi. Qed.

Lemma starts_new_trans st1 st2 st3 :
  (∀ j, is_Some (w_cache st1 !! j) → is_Some (w_cache st2 !! j)) →
  (∀ j, is_Some (w_cache st2 !! j) → is_Some (w_cache st3 !! j)) →
  starts_new st1 st2 → starts_new st2 st3 → starts_new st1 st3.
Proof.
  intros H12 H23 (n1 & E1 & N1 & F1) (n2 & E2 & N2 & F2). exists (n2 ++ n1). split_and!.
  - by rewrite E2, E1, app_assoc.
  - apply NoDup_app. split_and!; [done| |done]. intros i Hi2 Hi1.
    destruct (F2 i Hi2) as [Hn _]. destruct (F1 i Hi1) as [_ [x Hx]]. congruence.
  - intros i [Hi|Hi]%elem_of_app.
    + destruct (F2 i Hi) as [Hn Hs]. split; [|done]. apply eq_None_not_Some. intros Hi1.
      apply H12 in Hi1 as [x Hx]. congruence.
    + destruct (F1 i Hi). auto.
Qed.

Lemma grows_in_dom id st st' : running id st → grows_in id st st' →
  ∀ j, is_Some (w_cache st !! j) → is_Some (w_cache st' !! j).
Proof.
  intros _ (H & (m & Hm & _) & _) j [x Hx]. destruct (decide (j = id)) as [->|]; [by rewrite Hm|].
  by rewrite (H j x).
Qed.

Lemma grows_in_refl id st : running id st → grows_in id st st.
Proof. intros H. split_and!; [done|done|apply starts_new_refl]. Qed.

Lemma grows_in_running id st st' : grows_in id st st' → running id st'.
Proof. by intros (_ & H & _). Qed.

Lemma grows_in_trans id st1 st2 st3 : running id st1 →
  grows_in id st1 st2 → grows_in id st2 st3 → grows_in id st1 st3.
Proof.
  intros Hr H12 H23. pose proof (grows_in_dom _ _ _ Hr H12) as D12.
  pose proof (grows_in_dom _ _ _ (grows_in_running _ _ _ H12) H23) as D23.
  destruct H12 as (C12 & _ & S12), H23 as (C23 & R3 & S23).
  split_and!; [eauto|done|]. by apply (starts_new_trans _ st2).
Qed.

Lemma grows_grows_in id st st' : running id st → grows st st' → grows_in id st st'.
Proof. intros (m & Hm & Hl) (C & S). split_and!; [eauto|eauto|done]. Qed.

Lemma set_heap_grows_in id st h : running id st → grows_in id st (set_heap st h).
Proof. intros Hr. split_and!; [done|done|]. apply (starts_new_refl st). Qed.

Lemma set_exports_grows_in id st v : running id st →
  grows_in id st (set_entry st id (λ m, Installed (i_l m) v)).
Proof.
  intros (m & Hm & Hl). split_and!; simpl.
  - intros j x Hj Hx. by rewrite lookup_alter_ne.
  - rewrite lookup_alter_eq, Hm. simpl. eauto.
  - exists []. split_and!; [done|constructor|]. intros i Hi. by apply not_elem_of_nil in Hi.
Qed.

Lemma run_grows req id exports scope p : (∀ st i st', out_state (req st i) = Some st' → grows st st') →
  ∀ st st', running id st → out_state (run req id exports scope p st) = Some st' → grows_in id st st'.
Proof.
  intros Hreq. induction p as [|e|i k IH|o key k IH|o key x k IH|v k IH|x v k IH|key x k IH|k IH];
    intros st st' Hr; cbn [run].
  1,2: intros [= <-]; by apply grows_in_refl.
  - destruct (req st i) as [st1 v|st1 e|] eqn:E; [|intros [= <-]|done].
    all: assert (grows_in id st st1) as H1 by (apply grows_grows_in; [done|]; apply (Hreq st i); by rewrite E).
    + intros H. apply (grows_in_trans _ _ st1); [done|done|]. by apply (IH v), H; eapply grows_in_running.
    + done.
  - destruct (get _ o key); [by apply IH|intros [= <-]; by apply grows_in_refl|done].
  - destruct (put _ o key x); [|intros [= <-]; by apply grows_in_refl|done]. intros H.
    eapply grows_in_trans, IH, H; [done| |]; [by apply set_heap_grows_in|done].
  - intros H. pose proof (set_exports_grows_in id st v Hr) as H1.
    eapply grows_in_trans, IH, H; [done|done|]. by eapply grows_in_running.
  - intros H. eapply grows_in_trans, IH, H; [done| |]; [by apply set_heap_grows_in|done].
  - intros H. eapply grows_in_trans, IH, H; [done| |]; [by apply set_heap_grows_in|done].
  - destruct (n_r _ exports); [|intros [= <-]; by apply grows_in_refl|done]. intros H.
    eapply grows_in_trans, IH, H; [done| |]; [by apply set_heap_grows_in|done].
Qed.

Lemma install_grows st id st' : w_cache st !! id = None → grows_in id (start (install st id) id) st' →
  ∀ f, grows st (set_entry st' id f).
Proof.
  intros Hid (C & (m & Hm & _) & (new & Es & Nd & Fr)) f. split.
  - intros j x Hx. assert (j ≠ id) by congruence. simpl. rewrite lookup_alter_ne by done.
    apply C; [done|]. simpl. by rewrite lookup_insert_ne.
  - exists (new ++ [id]). split_and!.
    + simpl. by rewrite Es, <- app_assoc.
    + apply NoDup_app. split_and!; [done| |apply NoDup_singleton]. intros i Hi Hin.
      apply list_elem_of_singleton in Hin as ->. destruct (Fr id Hi) as [Hn _]. simpl in Hn.
      by rewrite lookup_insert_eq in Hn.
    + intros i [Hi|Hi]%elem_of_app.
      * destruct (Fr i Hi) as [Hn [x Hx]]. simpl in Hn. apply lookup_insert_None in Hn as [Hn Hne].
        split; [done|]. simpl. rewrite lookup_alter_ne by done. eauto.
      * apply list_elem_of_singleton in Hi as ->. split; [done|]. simpl.
        rewrite lookup_alter_eq, Hm. simpl. eauto.
Qed.

Lemma set_entry_id st id : set_entry st id (λ m, m) = st.
Proof.
  destruct st as [c h s]. unfold set_entry. simpl. f_equal. apply map_eq. intros i.
  destruct (decide (i = id)) as [->|]; [rewrite lookup_alter_eq; by destruct (c !! id)|by rewrite lookup_alter_ne].
Qed.

Lemma install_running st id : running id (start (install st id) id).
Proof. exists (Installed false (VObj (length (w_heap st)))). simpl. by rewrite lookup_insert_eq. Qed.

Lemma n_grows fuel st id st' : out_state (n fuel st id) = Some st' → grows st st'.
Proof.
  revert st id st'. induction fuel as [|f IH]; intros st id st'; cbn [n];
    (destruct (w_cache st !! id) as [m|] eqn:Ec;
     [intros [= <-]; split; [done|apply starts_new_refl]|]); [done|].
  destruct (modules !! id) as [body|].
  - destruct (run _ _ _ _ _ _) as [st2 []|st2 e|] eqn:Er; [|intros [= <-]|done].
    all: assert (grows_in id (start (install st id) id) st2) as H2
      by (eapply run_grows; [exact IH|apply install_running|by rewrite Er]).
    + cbn zeta; destruct (w_cache (set_entry st2 id _) !! id); intros [= <-]; by apply install_grows.
    + rewrite <- (set_entry_id st2 id). by apply install_grows.
  - intros [= <-]. split.
    + intros j x Hx. simpl. rewrite lookup_insert_ne; [done|congruence].
    + exists []. split_and!; [done|constructor|]. intros i Hi. by apply not_elem_of_nil in Hi.
Qed.

(** [n(n.s = entry).default], the value of the whole bundle. *)
Definition bundle_value (fuel : nat) (entry : N) : outcome value :=
  match n fuel w_init entry with
  | Returned st v => match get (w_heap st) v "default" with
                     | Ok d => Returned st d
                     | Throw e => Threw st e
                     | Hang => OutOfFuel
                     end
  | Threw st e => Threw st e
  | OutOfFuel => OutOfFuel
  end.

End Loader.

(** * What the loader guarantees *)

Section Guarantees.
Variable modules : gmap N module_fn.

(** One call of [n] from outside, returning or throwing. *)
Definition call (st st' : wstate) : Prop := ∃ fuel id, out_state (n modules fuel st id) = Some st'.

Lemma calls_keep st st' : rtc call st st' →
  ∀ j m, w_cache st !! j = Some m → w_cache st' !! j = Some m.
Proof.
  induction 1 as [|st1 st2 st3 (fuel & id & Hc) _ IH]; [done|].
  intros j m Hj. apply IH. by apply (n_grows modules fuel st1 id st2 Hc).
Qed.

Definition started_once (st : wstate) : Prop :=
  NoDup (w_started st) ∧ ∀ i, i ∈ w_started st → is_Some (w_cache st !! i).

Lemma grows_started st st' : grows st st' → started_once st → started_once st'.
Proof.
  intros (C & new & E & Nd & F) (Nd0 & H0). split.
  - rewrite E. apply NoDup_app. split_and!; [done| |done]. intros i Hi Hi0.
    destruct (F i Hi) as [Hn _]. destruct (H0 i Hi0) as [x Hx]. congruence.
  - rewrite E. intros i [Hi|Hi]%elem_of_app; [by apply F|].
    destruct (H0 i Hi) as [x Hx]. exists x. by apply C.
Qed.

Lemma calls_started st st' : rtc call st st' → started_once st → started_once st'.
Proof.
  induction 1 as [|st1 st2 st3 (fuel & id & Hc) _ IH]; [done|].
  intros H. apply IH. eapply grows_started; [|exact H]. by apply (n_grows modules fuel st1 id).
Qed.

(** ** Termination *)

(** The modules that are not in the cache yet. *)
Definition pending (st : wstate) : nat := size (dom modules ∖ dom (w_cache st)).

Lemma pending_le st st' : (∀ j, is_Some (w_cache st !! j) → is_Some (w_cache st' !! j)) →
  pending st' ≤ pending st.
Proof.
  intros H. unfold pending. apply subseteq_size. intros i. rewrite !elem_of_difference, !elem_of_dom.
  intros [Hi Hn]. split; [done|]. intros Hs. by apply Hn, H.
Qed.

Lemma pending_install st id : is_Some (modules !! id) → w_cache st !! id = None →
  pending (start (install st id) id) < pending st.
Proof.
  intros Hm Hc. unfold pending. apply subset_size. split.
  - intros i. rewrite !elem_of_difference, !elem_of_dom. simpl. intros [Hi Hn]. split; [done|].
    intros Hs. apply Hn. destruct (decide (i = id)) as [->|]; [by rewrite lookup_insert_eq; eauto|].
    by rewrite lookup_insert_ne.
  - intros Hsub. specialize (Hsub id). rewrite !elem_of_difference, !elem_of_dom in Hsub. simpl in Hsub.
    rewrite lookup_insert_eq in Hsub. destruct Hsub as [_ Hn]; [|apply Hn; eauto].
    split; [done|]. rewrite Hc. by intros [??].
Qed.

Lemma get_not_hang h v key : get h v key ≠ Hang.
Proof. destruct v as [d| |]; simpl; try done. unfold getp. by destruct (nullish d). Qed.

Lemma put_not_hang h v key x : put h v key x ≠ Hang.
Proof. unfold put. by repeat case_goal. Qed.

Lemma n_r_not_hang h o : n_r h o ≠ Hang.
Proof. unfold n_r. by repeat case_goal. Qed.

Lemma run_fuel f id exports scope p : (∀ st i, pending st < f → n modules f st i ≠ OutOfFuel) →
  ∀ st, running id st → pending st < f → run (n modules f) id exports scope p st ≠ OutOfFuel.
Proof.
  intros Hreq. induction p as [|e|i k IH|o key k IH|o key x k IH|v k IH|x v k IH|key x k IH|k IH];
    intros st Hr Hp; cbn [run]; try done.
  - pose proof (Hreq st i Hp) as Hn. destruct (n modules f st i) as [st1 v|st1 e|] eqn:E; [|done|done].
    assert (grows st st1) as Hg by (apply (n_grows modules f st i); by rewrite E).
    pose proof (grows_grows_in id st st1 Hr Hg) as Hi. apply IH; [by eapply grows_in_running|].
    pose proof (pending_le st st1 (grows_in_dom id st st1 Hr Hi)). lia.
  - pose proof (get_not_hang (w_heap st) o key). destruct (get _ o key); [by apply IH|done|done].
  - pose proof (put_not_hang (w_heap st) o key x). destruct (put _ o key x); [by apply IH|done|done].
  - pose proof (set_exports_grows_in id st v Hr) as H1. apply IH; [by eapply grows_in_running|].
    pose proof (pending_le _ _ (grows_in_dom id _ _ Hr H1)). lia.
  - by apply IH.
  - by apply IH.
  - pose proof (n_r_not_hang (w_heap st) exports). destruct (n_r _ exports); [by apply IH|done|done].
Qed.

Lemma n_fuel f st id : pending st < f → n modules f st id ≠ OutOfFuel.
Proof.
  revert st id. induction f as [|f IH]; intros st id Hp; [lia|]. cbn [n].
  destruct (w_cache st !! id) eqn:Ec; [done|]. destruct (modules !! id) as [body|] eqn:Em; [|done].
  assert (run (n modules f) id (length (w_heap st)) (S (length (w_heap st))) (body (VObj (length (w_heap st))))
            (start (install st id) id) ≠ OutOfFuel) as Hrun.
  { apply run_fuel; [exact IH|apply install_running|].
    pose proof (pending_install st id (mk_is_Some _ _ Em) Ec). lia. }
  destruct (run _ _ _ _ _ _); [|done|done]. cbn zeta. by destruct (w_cache (set_entry _ _ _) !! id).
Qed.

Lemma pending_size st : pending st ≤ size modules.
Proof. unfold pending. rewrite <- size_dom. apply subseteq_size. set_solver. Qed.

(** ** Results *)

Lemma n_result fuel st id st' : out_state (n modules fuel st id) = Some st' → is_Some (w_cache st' !! id).
Proof.
  destruct fuel as [|f]; cbn [n]; (destruct (w_cache st !! id) as [m|] eqn:Ec; [intros [= <-]; eauto|]); [done|].
  destruct (modules !! id) as [body|].
  - destruct (run _ _ _ _ _ _) as [st2 []|st2 e|] eqn:Er; [|intros [= <-]|done].
    all: assert (grows_in id (start (install st id) id) st2) as H2
      by (eapply run_grows; [apply n_grows|apply install_running|by rewrite Er]).
    all: destruct H2 as (_ & (m & Hm & _) & _).
    + cbn zeta. simpl. rewrite lookup_alter_eq, Hm. simpl. intros [= <-]. simpl.
      rewrite lookup_alter_eq, Hm. eauto.
    + eauto.
  - intros [= <-]. simpl. rewrite lookup_insert_eq. eauto.
Qed.

Lemma n_returns_exports fuel st id st' v : n modules fuel st id = Returned st' v →
  ∃ m, w_cache st' !! id = Some m ∧ i_exports m = v.
Proof.
  destruct fuel as [|f]; cbn [n]; (destruct (w_cache st !! id) as [m|] eqn:Ec; [intros [= <- <-]; eauto|]); [done|].
  destruct (modules !! id) as [body|]; [|done].
  destruct (run _ _ _ _ _ _) as [st2 []|st2 e|] eqn:Er; [|done|done]. cbn zeta.
  destruct (w_cache (set_entry st2 id _) !! id) as [m|] eqn:Em; [|done]. intros [= <- <-]. eauto.
Qed.

Lemma n_cached fuel st id m : w_cache st !! id = Some m → n modules fuel st id = Returned st (i_exports m).
Proof. intros H. destruct fuel; cbn [n]; by rewrite H. Qed.
End Guarantees.

(** C1: in every state that calls of the loader can reach, whatever the modules do and whether the
    calls returned or threw, no module function has been called twice: the list of started modules
    has no duplicate and every started module is in the cache. *)
Theorem modules_run_once (modules : gmap N module_fn) st : rtc (call modules) w_init st →
  NoDup (w_started st) ∧ ∀ i, i ∈ w_started st → is_Some (w_cache st !! i).
Proof.
  intros H. apply (calls_started modules w_init st H). split; [constructor|].
  intros i Hi. by apply not_elem_of_nil in Hi.
Qed.

(** C35: loading terminates, also when modules require each other in cycles: from any state, nested
    calls as deep as the number of modules plus one are enough, and the value of the bundle is
    reached or an exception is thrown. *)
Theorem loading_terminates (modules : gmap N module_fn) st id :
  n modules (S (size modules)) st id ≠ OutOfFuel ∧
  bundle_value modules (S (size modules)) id ≠ OutOfFuel.
Proof.
  assert (∀ s, n modules (S (size modules)) s id ≠ OutOfFuel) as H.
  { intros s. apply n_fuel. pose proof (pending_size modules s). lia. }
  split; [apply H|]. unfold bundle_value. specialize (H w_init).
  destruct (n modules (S (size modules)) w_init id) as [s v|s e|]; [|done|done].
  pose proof (get_not_hang (w_heap s) v "default"). by destruct (get _ v "default").
Qed.

(** A module has one exports value for the rest of the program: after a call returned a value,
    every later call for the same module returns that value at once and changes nothing. A module
    whose function threw is not run again either: later calls return what it had exported and do
    not throw. *)
Theorem exports_stable (modules : gmap N module_fn) fuel st id st' st'' :
  out_state (n modules fuel st id) = Some st' → rtc (call modules) st' st'' →
  ∃ v, (∀ u, n modules fuel st id = Returned st' u → u = v) ∧
       ∀ fuel', n modules fuel' st'' id = Returned st'' v.
Proof.
  intros Hc Hr. destruct (n_result modules fuel st id st' Hc) as [m Hm].
  exists (i_exports m). split.
  - intros u Hu. apply n_returns_exports in Hu as (m' & Hm' & <-). congruence.
  - intros fuel'. apply n_cached. by apply (calls_keep modules st').
Qed.

(** * The wrapper of the bundles *)

(** The host: whether [exports], [module] and [define.amd] exist, what [require("esprima")] gives
    ([None] when it throws) and the property [esprima] of the global object. *)
Record host := Host {
  h_exports : bool; h_module : bool; h_define : bool;
  h_require : option value; h_global : value
}.

(** Where the bundle goes. *)
Inductive placement :=
| ToModule (v : value)
| ToDefine (deps : list string)
| ToExports (name : string) (v : value)
| ToGlobal (name : string) (v : value).

(** [function(){try{return require("esprima")}catch(e){}}()]. *)
Definition optional_require (h : host) : value := default (VData JUndef) (h_require h).

Definition umd_bundle (h : host) (factory : value → result value) : result placement :=
  if h_exports h && h_module h then v ← factory (optional_require h); Ok (ToModule v)
  else if h_define h then Ok (ToDefine ["esprima"])
  else if h_exports h then v ← factory (optional_require h); Ok (ToExports "SwaggerUIBundle" v)
  else v ← factory (h_global h); Ok (ToGlobal "SwaggerUIBundle" v).

Definition umd_standalone (h : host) (factory : value → result value) : result placement :=
  if h_exports h && h_module h then v ← factory (optional_require h); Ok (ToModule v)
  else if h_define h then Ok (ToDefine ["esprima"])
  else if h_exports h then v ← factory (optional_require h); Ok (ToExports "SwaggerUIStandalonePreset" v)
  else v ← factory (h_global h); Ok (ToGlobal "SwaggerUIStandalonePreset" v).

Definition umd_core (h : host) (factory : result value) : result placement :=
  if h_exports h && h_module h then v ← factory; Ok (ToModule v)
  else if h_define h then Ok (ToDefine [])
  else if h_exports h then v ← factory; Ok (ToExports "SwaggerUICore" v)
  else v ← factory; Ok (ToGlobal "SwaggerUICore" v).

(** * Examples and witnesses *)

(** A cycle: the entry 0 requires 1, which requires 0 while it is loading and then exports the
    default of the half-loaded entry next to its own. *)
Definition cyclic : gmap N module_fn :=
  {[ 0%N := λ _, PMark (PRequire 1 (λ v, PGet v "own" (λ x, PVar "d" x (PDefine "default" "d" PEnd))));
     1%N := λ e, PRequire 0 (λ v, PGet v "default" (λ x,
              PSetProp e "seen" x (PSetProp e "own" (VFun 7) PEnd))) ]}.

Example cyclic_value :
  bundle_value cyclic (S (size cyclic)) 0 = 
  Returned (WState {[ 0%N := Installed true (VObj 0); 1%N := Installed true (VObj 2) ]}
    [[("__esModule", PConst (VData (JBool true))); ("default", PGetter 1 "d")];
     [("d", PData (VFun 7))];
     [("seen", PData (VData JUndef)); ("own", PData (VFun 7))]; []] [1%N; 0%N]) (VFun 7).
Proof. vm_compute. reflexivity. Qed.

(** A module that exports something and then throws. *)
Definition failing : gmap N module_fn :=
  {[ 0%N := λ e, PSetProp e "half" (VFun 1) (PThrow (mkError "boom")) ]}.

Definition failing_end : wstate :=
  WState {[ 0%N := Installed false (VObj 0) ]} [[("half", PData (VFun 1))]; []] [0%N].

Lemma call_failing : out_state (n failing 1 w_init 0) = Some failing_end.
Proof. vm_compute. reflexivity. Qed.

Lemma modules_run_once_witness :
  NoDup (w_started failing_end) ∧ ∀ i, i ∈ w_started failing_end → is_Some (w_cache failing_end !! i).
Proof. apply (modules_run_once failing). apply rtc_once. exists 1%nat, 0%N. exact call_failing. Defined.

Lemma exports_stable_witness : ∃ v,
  (∀ u, n failing 1 w_init 0 = Returned failing_end u → u = v) ∧
  ∀ fuel', n failing fuel' failing_end 0 = Returned failing_end v.
Proof. apply (exports_stable failing 1 w_init 0 _ _ call_failing). constructor. Defined.
