(* ===== verification/SwEncode.v ===== *)
(** Swagger UI, the encodings of src/core/utils.js: query strings (parseSearch, serializeSearch),
    form bodies (buildFormData), base64 and its URL alphabet for the PKCE verifier and challenge,
    over a model of encodeURIComponent and decodeURIComponent. *)

From S2P Require Import Prelude JsValue Json Buffer JsString.

(** * encodeURIComponent and decodeURIComponent *)

Definition unreserved (c : Ascii.ascii) : bool :=
  is_alnum c || existsb (N.eqb (code c)) [33; 39; 40; 41; 42; 45; 46; 95; 126]%N.

Definition upper_hex (n : N) : Ascii.ascii := if (n <? 10)%N then ch (48 + n) else ch (55 + n).

(** One byte of the UTF-8 encoding. *)
Definition hex_pct (c : Ascii.ascii) : string :=
  String (ch 37) (String (upper_hex (code c / 16)) (String (upper_hex (code c mod 16)) "")).

Definition pct (c : Ascii.ascii) : string := if unreserved c then String c "" else hex_pct c.

Fixpoint encodeURIComponent (s : string) : string :=
  match s with EmptyString => "" | String c r => pct c +:+ encodeURIComponent r end.

Fixpoint unpct (s : string) : option string :=
  match s with
  | EmptyString => Some ""
  | String c r =>
      if (code c =? 37)%N then
        match r with
        | String h (String l r') =>
            match hex_val h, hex_val l with
            | Some a, Some b => String (ch (a * 16 + b)) <$> unpct r'
            | _, _ => None
            end
        | _ => None
        end
      else String c <$> unpct r
  end.

Definition uriError : jsval := JErr "URIError" "URI malformed" [].

(** The escapes must form whole characters: the decoded bytes are UTF-8. *)
Definition decodeURIComponent (s : string) : result string :=
  match unpct s with
  | Some t => if String.eqb (utf8_decode t) t then Ok t else Throw uriError
  | None => Throw uriError
  end.

(** The strings of the language are sequences of characters: their bytes are UTF-8. *)
Definition text (s : string) : Prop := utf8_decode s = s.

Lemma text_app s t : text s → text t → text (s +:+ t).
Proof. unfold text, utf8_decode. intros Hs Ht. by rewrite utf8_go_app, Ht. Qed.
#[export] Hint Resolve text_app : js.

(** * Query strings *)

(** [map[k] = v] for a string value: assigning a string to [__proto__] has no effect. *)
Definition assign (fs : list (string * jsval)) (k : string) (v : jsval) : list (string * jsval) :=
  if String.eqb k "__proto__" then fs else oset fs k v.

(** One pair of the query: [i[1] && decodeURIComponent(i[1]) || ""]. *)
Definition parse_pair (map_ : list (string * jsval)) (p : string) : result (list (string * jsval)) :=
  let i := split "=" p in
  k ← decodeURIComponent (default "" (i !! 0%nat));
  v ← match i !! 1%nat with
      | Some w => if String.eqb w "" then Ok "" else decodeURIComponent w
      | None => Ok ""
      end;
  Ok (assign map_ k (JStr v)).

Fixpoint parse_pairs (map_ : list (string * jsval)) (ps : list string) : result (list (string * jsval)) :=
  match ps with
  | [] => Ok map_
  | p :: r => m ← parse_pair map_ p; parse_pairs m r
  end.

(** [search] is [window.location.search]. *)
Definition parseSearch (search : string) : result (list (string * jsval)) :=
  if String.eqb search "" then Ok []
  else parse_pairs [] (split "&" (String.substring 1 (String.length search - 1) search)).

Definition serializeSearch (searchMap : list (string * jsval)) : string :=
  join "&" (map (λ kv, encodeURIComponent kv.1 +:+ "=" +:+ encodeURIComponent (to_string kv.2)) searchMap).

(** * Form bodies *)

Definition form_pair (kv : string * jsval) : option string :=
  let '(name, val) := kv in
  match val with
  | JUndef | JStr EmptyString => None
  | _ => Some (join "" [name; "="; replace_all "%20" "+" (encodeURIComponent (to_string val))])
  end.

Definition buildFormData (data : list (string * jsval)) : string := join "&" (omap form_pair data).

(** * base64 *)

(** [btoa(str)]. *)
Definition btoa (str : jsval) : result string := s ← toString_call str; Ok (b64_encode s).

Definition b64toB64UrlEncoded (str : string) : string :=
  replace_char (ch 61) "" (replace_char (ch 47) "_" (replace_char (ch 43) "-" str)).

(** randombytes and sha.js: the generator gives the requested number of bytes, the hash 32. *)
Class Crypto := { randomBytes : nat → string; sha256 : string → string }.
Class CryptoLaws `(Crypto) := {
  randomBytes_length k : String.length (randomBytes k) = k;
  sha256_length s : String.length (sha256 s) = 32%nat
}.

Definition generateCodeVerifier `{Crypto} : string := b64toB64UrlEncoded (b64_encode (randomBytes 32)).
Definition createCodeChallenge `{Crypto} (codeVerifier : string) : string :=
  b64toB64UrlEncoded (b64_encode (sha256 codeVerifier)).

(** * Lemmas: percent encoding *)

Lemma upper_hex_val n : (n < 16)%N → hex_val (upper_hex n) = Some n.
Proof.
  intros H. assert (n ∈ [0;1;2;3;4;5;6;7;8;9;10;11;12;13;14;15]%N) as Hin.
  { rewrite !elem_of_cons. lia. }
  rewrite !elem_of_cons in Hin. repeat destruct Hin as [->|Hin]; try reflexivity. by apply not_elem_of_nil in Hin.
Qed.

Lemma unreserved_not_pct c : unreserved c = true → (code c =? 37)%N = false.
Proof. destruct c as [[] [] [] [] [] [] [] []]; by vm_compute. Qed.

Lemma unpct_hex c r : unpct (hex_pct c +:+ r) = String c <$> unpct r.
Proof.
  assert (code c < 256)%N as Hc by apply code_lt.
  change (hex_pct c +:+ r) with (String (ch 37) (String (upper_hex (code c / 16)) (String (upper_hex (code c mod 16)) r))).
  cbn [unpct]. change (code (ch 37) =? 37)%N with true. cbv iota.
  rewrite !upper_hex_val; [|apply N.mod_lt; lia|apply N.Div0.div_lt_upper_bound; lia].
  replace (code c / 16 * 16 + code c mod 16)%N with (code c); [by rewrite ch_code|].
  rewrite (N.div_mod (code c) 16) at 1; lia.
Qed.

Lemma unpct_plain c r : (code c =? 37)%N = false → unpct (String c r) = String c <$> unpct r.
Proof. intros H. cbn [unpct]. by rewrite H. Qed.

Lemma unpct_pct c r : unpct (pct c +:+ r) = String c <$> unpct r.
Proof.
  unfold pct. destruct (unreserved c) eqn:E; [|apply unpct_hex]. apply (unpct_plain c r), unreserved_not_pct, E.
Qed.

Lemma unpct_encode s : unpct (encodeURIComponent s) = Some s.
Proof. induction s as [|c s IH]; [done|]. cbn [encodeURIComponent]. by rewrite unpct_pct, IH. Qed.

Lemma decode_encode s : text s → decodeURIComponent (encodeURIComponent s) = Ok s.
Proof. intros H. unfold decodeURIComponent. rewrite unpct_encode, H, String.eqb_refl. done. Qed.

(** The characters of an encoded string. *)
Definition uri_char (c : Ascii.ascii) : bool := unreserved c || (code c =? 37)%N.

Lemma upper_hex_unreserved n : (n < 16)%N → unreserved (upper_hex n) = true.
Proof.
  intros H. assert (n ∈ [0;1;2;3;4;5;6;7;8;9;10;11;12;13;14;15]%N) as Hin.
  { rewrite !elem_of_cons. lia. }
  rewrite !elem_of_cons in Hin. repeat destruct Hin as [->|Hin]; try reflexivity. by apply not_elem_of_nil in Hin.
Qed.

Lemma encode_chars s : sforall uri_char (encodeURIComponent s) = true.
Proof.
  induction s as [|c s IH]; [done|]. cbn [encodeURIComponent]. rewrite sforall_app, IH, andb_true_r.
  unfold pct, hex_pct. destruct (unreserved c) eqn:E; cbn [sforall]; unfold uri_char; [by rewrite E|].
  assert (code c < 256)%N as Hc by apply code_lt.
  rewrite !upper_hex_unreserved; [done|apply N.mod_lt; lia|apply N.Div0.div_lt_upper_bound; lia].
Qed.

Lemma encode_nil s : encodeURIComponent s = "" → s = "".
Proof. destruct s as [|c s]; [done|]. cbn. unfold pct. by destruct (unreserved c). Qed.

(** A one-character separator that an encoded string cannot contain. *)
Lemma encode_no_sep e s : uri_char e = false → includes (encodeURIComponent s) (String e "") = false.
Proof.
  intros He. pose proof (encode_chars s) as H. revert H. generalize (encodeURIComponent s) as t.
  induction t as [|c t IH]; [done|]. cbn [sforall includes strip_prefix]. rewrite andb_true_iff. intros [Hc Ht].
  destruct (Ascii.eqb_spec e c) as [->|]; [congruence|]. auto.
Qed.

(** * Query strings: round trip *)

Lemma split_join e l : l ≠ [] → Forall (λ x, includes x (String e "") = false) l →
  split (String e "") (join (String e "") l) = l.
Proof.
  intros Hne H. unfold split. induction H as [|x l Hx Hl IH]; [done|].
  destruct l as [|y l]; [by apply split_aux_none|].
  rewrite join_cons by done. change (String e "" +:+ join (String e "") (y :: l)) with (String e (join (String e "") (y :: l))).
  rewrite split_aux_app1, split_aux_none, IH by done. done.
Qed.

Lemma substring_all s : String.substring 0 (String.length s) s = s.
Proof. induction s as [|c s IH]; [done|]. simpl. by rewrite IH. Qed.

Lemma parse_pair_encoded acc k v : text k → text v → k ≠ "__proto__" →
  parse_pair acc (encodeURIComponent k +:+ "=" +:+ encodeURIComponent v) = Ok (oset acc k (JStr v)).
Proof.
  intros Hk Hv Hp. unfold parse_pair.
  change (encodeURIComponent k +:+ "=" +:+ encodeURIComponent v)
    with (join "=" [encodeURIComponent k; encodeURIComponent v]).
  change "=" with (String (ch 61) "").
  rewrite split_join by (try done; repeat constructor; by apply encode_no_sep).
  simpl. rewrite (decode_encode k) by done.
  assert (∀ w, assign acc k w = oset acc k w) as Ha.
  { intros w. unfold assign. apply String.eqb_neq in Hp. by rewrite Hp. }
  destruct (String.eqb_spec (encodeURIComponent v) "") as [E|_].
  - simpl. by rewrite Ha, (encode_nil v E).
  - rewrite (decode_encode v) by done. simpl. by rewrite Ha.
Qed.

(** The objects that a query string can carry. *)
Definition search_ok (m : list (string * jsval)) : Prop :=
  NoDup (map fst m) ∧ Forall (λ kv, text kv.1 ∧ kv.1 ≠ "__proto__" ∧ ∃ s, kv.2 = JStr s ∧ text s) m.

Lemma parse_pairs_encoded m acc :
  Forall (λ kv, text kv.1 ∧ kv.1 ≠ "__proto__" ∧ ∃ s, kv.2 = JStr s ∧ text s) m →
  parse_pairs acc (map (λ kv, encodeURIComponent kv.1 +:+ "=" +:+ encodeURIComponent (to_string kv.2)) m) =
  Ok (foldl (λ acc kv, oset acc kv.1 kv.2) acc m).
Proof.
  intros H. revert acc. induction H as [|[k v] m (Hk & Hp & s & Hs & Ht) _ IH]; intros acc; [done|].
  cbn [fst snd] in Hk, Hp, Hs. subst v. cbn [map parse_pairs fst snd to_string]. rewrite parse_pair_encoded by done. apply IH.
Qed.

Lemma pairs_no_amp m : Forall (λ x, includes x "&" = false)
  (map (λ kv : string * jsval, encodeURIComponent kv.1 +:+ "=" +:+ encodeURIComponent (to_string kv.2)) m).
Proof.
  apply Forall_map, Forall_forall. intros [k v] _. cbn [fst snd].
  assert (sforall (λ c, negb (Ascii.eqb (ch 38) c))
    (encodeURIComponent k +:+ "=" +:+ encodeURIComponent (to_string v)) = true) as H.
  { assert (∀ s, sforall (λ c, negb (Ascii.eqb (ch 38) c)) (encodeURIComponent s) = true) as He.
    { intros s. eapply sforall_impl; [|apply encode_chars]. intros c. by destruct c as [[] [] [] [] [] [] [] []]. }
    by rewrite !sforall_app, !He. }
  revert H. generalize (encodeURIComponent k +:+ "=" +:+ encodeURIComponent (to_string v)) as t.
  induction t as [|c t IH]; [done|]. cbn [sforall]. rewrite andb_true_iff, negb_true_iff. intros [Hc Ht].
  change "&" with (String (ch 38) "") in *. cbn [includes strip_prefix]. rewrite Hc. auto.
Qed.

Lemma parse_serialize m : m ≠ [] → search_ok m → parseSearch ("?" +:+ serializeSearch m) = Ok m.
Proof.
  intros Hne [Hnd Hm]. unfold parseSearch. simpl String.eqb. cbv iota. simpl String.substring.
  rewrite Nat.sub_0_r, substring_all. unfold serializeSearch.
  change "&" with (String (ch 38) ""). rewrite split_join; [|by destruct m|apply pairs_no_amp].
  rewrite parse_pairs_encoded by done. by rewrite (oset_rebuild m []).
Qed.

(** A query string written by serializeSearch is read back by parseSearch as the same
    object, key by key, for every non-empty object of text values; keys and values may contain any
    character, also the separators and the percent sign. *)
Theorem search_roundtrip m : m ≠ [] → search_ok m →
  ∃ m', parseSearch ("?" +:+ serializeSearch m) = Ok m' ∧ ∀ k, assoc m' k = assoc m k.
Proof. intros Hne Hm. exists m. split; [by apply parse_serialize|done]. Qed.

Lemma search_roundtrip_witness :
  ∃ m', parseSearch ("?" +:+ serializeSearch [("urls.primaryName", JStr "a&b=c"); ("x y", JStr "100%")]) = Ok m' ∧
        ∀ k, assoc m' k = assoc [("urls.primaryName", JStr "a&b=c"); ("x y", JStr "100%")] k.
Proof.
  apply search_roundtrip; [done|]. split.
  - apply (bool_decide_unpack _). vm_compute. exact I.
  - repeat constructor; try (vm_compute; reflexivity); try (vm_compute; discriminate);
      eexists; (split; [reflexivity|]); vm_compute; reflexivity.
Defined.

(** * Form bodies: round trip *)

(** How a server reads a form body: pairs at the ampersands, plus signs are spaces. *)
Definition form_value (s : string) : option string := unpct (replace_char (ch 43) " " s).

Definition form_decode_pair (p : string) : option (string * string) :=
  match split "=" p with
  | [n; v] => n' ← form_value n; v' ← form_value v; Some (n', v')
  | _ => None
  end.

Definition form_decode (s : string) : option (list (string * string)) :=
  if String.eqb s "" then Some [] else mapM form_decode_pair (split "&" s).

(** The encoding with a plus sign for every space. *)
Definition plus_pct (c : Ascii.ascii) : string := if (code c =? 32)%N then "+" else pct c.
Fixpoint plus_encode (s : string) : string :=
  match s with EmptyString => "" | String c r => plus_pct c +:+ plus_encode r end.

Lemma split_unit c rest cur :
  split_aux "%20" 0 cur (pct c +:+ rest) =
  if (code c =? 32)%N then cur :: split_aux "%20" 0 "" rest else split_aux "%20" 0 (cur +:+ pct c) rest.
Proof.
  destruct c as [[] [] [] [] [] [] [] []]; cbv; try reflexivity; rewrite ?sapp_assoc; reflexivity.
Qed.

Lemma plus_of_encode s cur : join "+" (split_aux "%20" 0 cur (encodeURIComponent s)) = cur +:+ plus_encode s.
Proof.
  revert cur. induction s as [|c s IH]; intros cur; [simpl; by rewrite sapp_nil_r|].
  cbn [encodeURIComponent plus_encode]. rewrite split_unit. unfold plus_pct.
  destruct (code c =? 32)%N.
  - rewrite join_cons by apply split_aux_ne. by rewrite IH.
  - by rewrite IH, sapp_assoc.
Qed.

Lemma plus_unit c r : unpct (replace_char (ch 43) " " (plus_pct c) +:+ r) = String c <$> unpct r.
Proof.
  unfold plus_pct. destruct (N.eqb_spec (code c) 32) as [E|_].
  - by rewrite (code_inj c (ch 32) E).
  - rewrite replace_char_none; [apply unpct_pct|]. by destruct c as [[] [] [] [] [] [] [] []].
Qed.

Lemma form_value_encode s : form_value (replace_all "%20" "+" (encodeURIComponent s)) = Some s.
Proof.
  unfold replace_all, split. rewrite plus_of_encode. unfold form_value. change ("" +:+ plus_encode s) with (plus_encode s).
  induction s as [|c s IH]; [done|]. cbn [plus_encode]. by rewrite replace_char_app, plus_unit, IH.
Qed.

Lemma form_value_name s : sforall unreserved s = true → form_value s = Some s.
Proof.
  unfold form_value. intros H. rewrite replace_char_none.
  - revert H. induction s as [|c s IH]; [done|]. cbn [sforall unpct]. rewrite andb_true_iff. intros [Hc Hs].
    by rewrite (unreserved_not_pct c Hc), IH.
  - eapply sforall_impl; [|exact H]. intros c. by destruct c as [[] [] [] [] [] [] [] []].
Qed.

(** The characters of an encoded form value. *)
Definition form_char (c : Ascii.ascii) : bool := uri_char c || (code c =? 43)%N.

Lemma plus_encode_chars s : sforall form_char (replace_all "%20" "+" (encodeURIComponent s)) = true.
Proof.
  unfold replace_all, split. rewrite plus_of_encode. change ("" +:+ plus_encode s) with (plus_encode s).
  induction s as [|c s IH]; [done|]. cbn [plus_encode]. rewrite sforall_app, IH, andb_true_r.
  by destruct c as [[] [] [] [] [] [] [] []].
Qed.

Lemma sforall_no_char (p : Ascii.ascii → bool) e s : p e = false → sforall p s = true →
  includes s (String e "") = false.
Proof.
  intros He. induction s as [|c s IH]; [done|]. cbn [sforall includes strip_prefix]. rewrite andb_true_iff.
  intros [Hc Hs]. destruct (Ascii.eqb_spec e c) as [->|]; [congruence|]. auto.
Qed.

Definition form_sent (kv : string * jsval) : bool :=
  match kv.2 with JUndef | JStr EmptyString => false | _ => true end.

Lemma form_pair_Some kv : form_pair kv =
  if form_sent kv then Some (join "=" [kv.1; replace_all "%20" "+" (encodeURIComponent (to_string kv.2))]) else None.
Proof. destruct kv as [k [| | | | |[]| | |]]; done. Qed.

Lemma form_decode_pair_sent k v : sforall unreserved k = true →
  form_decode_pair (join "=" [k; replace_all "%20" "+" (encodeURIComponent v)]) = Some (k, v).
Proof.
  intros Hk. unfold form_decode_pair. change "=" with (String (ch 61) "").
  rewrite split_join; [|done|].
  - cbv beta iota. rewrite (form_value_name k) by done. rewrite (form_value_encode v). done.
  - repeat constructor; [by apply (sforall_no_char unreserved)|].
    apply (sforall_no_char form_char); [done|apply plus_encode_chars].
Qed.

Lemma form_pieces data : Forall (λ kv, sforall unreserved kv.1 = true) data →
  Forall (λ x, includes x "&" = false) (omap form_pair data) ∧
  mapM form_decode_pair (omap form_pair data) =
    Some (map (λ kv, (kv.1, to_string kv.2)) (filter (λ kv, form_sent kv = true) data)).
Proof.
  induction 1 as [|kv data Hk _ [IH1 IH2]]; [done|]. cbn [omap list_omap]. rewrite form_pair_Some, filter_cons.
  destruct (form_sent kv); [|done]. split.
  - constructor; [|exact IH1].
    apply (sforall_no_char (λ c, form_char c || (code c =? 61)%N) (ch 38)); [done|].
    cbn [join]. rewrite !sforall_app. rewrite !andb_true_iff. split_and!; [|done|].
    + eapply sforall_impl; [|exact Hk]. intros c Hc. unfold form_char, uri_char. by rewrite Hc.
    + eapply sforall_impl; [|apply plus_encode_chars]. intros c Hc. by rewrite Hc.
  - cbn [mapM]. rewrite form_decode_pair_sent by done. simpl. change (omap form_pair data) with (list_omap _ _ form_pair data) in *.
    by rewrite IH2.
Qed.

Lemma form_roundtrip data : Forall (λ kv, sforall unreserved kv.1 = true) data →
  form_decode (buildFormData data) =
  Some (map (λ kv, (kv.1, to_string kv.2)) (filter (λ kv, form_sent kv = true) data)).
Proof.
  intros H. destruct (form_pieces data H) as [H1 H2]. unfold form_decode, buildFormData.
  destruct (omap form_pair data) as [|x l] eqn:E; [by rewrite <- H2|].
  destruct (String.eqb_spec (join "&" (x :: l)) "") as [Ej|_].
  - exfalso. assert (x ∈ omap form_pair data) as Hx by (rewrite E; left).
    apply list_elem_of_omap in Hx as (kv & _ & Hkv). rewrite form_pair_Some in Hkv.
    destruct (form_sent kv); simplify_eq. cbn [join] in Ej. destruct l; destruct kv as [[] ?]; done.
  - change "&" with (String (ch 38) ""). rewrite split_join; done.
Qed.

(** A form body that buildFormData writes is read by a server as exactly the fields that have
    a value, in order, whatever characters the values contain. Names are not encoded, so they must
    consist of characters that need no encoding. *)
Theorem buildFormData_decoded data : Forall (λ kv, sforall unreserved kv.1 = true) data →
  form_decode (buildFormData data) =
  Some (map (λ kv, (kv.1, to_string kv.2)) (filter (λ kv, form_sent kv = true) data)).
Proof. apply form_roundtrip. Qed.

Lemma buildFormData_decoded_witness :
  form_decode (buildFormData [("grant_type", JStr "authorization_code"); ("scope", JStr "read write&all");
                              ("client_secret", JStr "")]) =
  Some (map (λ kv, (kv.1, to_string kv.2)) (filter (λ kv, form_sent kv = true)
    [("grant_type", JStr "authorization_code"); ("scope", JStr "read write&all"); ("client_secret", JStr "")])).
Proof. apply buildFormData_decoded. repeat constructor. Defined.

(** * PKCE *)

(** The characters of a code verifier (a subset of those RFC 7636 allows). *)
Definition verifier_char (c : Ascii.ascii) : bool := is_alnum c || (code c =? 45)%N || (code c =? 95)%N.

(** What the three replacements do to one character. *)
Definition url_char (c : Ascii.ascii) : string :=
  if (code c =? 61)%N then "" else if (code c =? 47)%N then "_" else if (code c =? 43)%N then "-" else String c "".

Lemma b64url_cons c s : b64toB64UrlEncoded (String c s) = url_char c +:+ b64toB64UrlEncoded s.
Proof.
  unfold b64toB64UrlEncoded. cbn [replace_char]. rewrite !replace_char_app. f_equal.
  by destruct c as [[] [] [] [] [] [] [] []].
Qed.

Lemma sextets_app s t : sextets (s +:+ t) = sextets s ++ sextets t.
Proof. induction s as [|c s IH]; [done|]. simpl. destruct (b64_val c); simpl; by rewrite IH. Qed.

Lemma sextets_url s : sextets (b64toB64UrlEncoded s) = sextets s.
Proof.
  induction s as [|c s IH]; [done|]. rewrite b64url_cons, sextets_app, IH.
  by destruct c as [[] [] [] [] [] [] [] []].
Qed.

Lemma b64_char_url n : (n < 64)%N →
  ∃ c, url_char (b64_char n) = String c "" ∧ verifier_char c = true.
Proof.
  intros H. assert (∃ k : nat, (k < 64)%nat ∧ n = N.of_nat k) as (k & Hk & ->).
  { exists (N.to_nat n). split; lia. }
  do 64 (destruct k as [|k]; [eexists; split; [vm_compute; reflexivity|reflexivity]|]). lia.
Qed.

(** One group of base64 digits after the replacements. *)
Lemma url_group (P : string → Prop) n r : (n < 64)%N →
  (∀ c, verifier_char c = true → P (String c "" +:+ r)) → P (url_char (b64_char n) +:+ r).
Proof. intros Hn HP. destruct (b64_char_url n Hn) as (c & -> & Hc). by apply HP. Qed.

Lemma b64url_spec s :
  sforall verifier_char (b64toB64UrlEncoded (b64_encode s)) = true ∧
  (String.length (b64toB64UrlEncoded (b64_encode s)) = (4 * String.length s + 2) / 3)%nat.
Proof.
  induction s as [s IH] using (induction_ltof1 _ String.length).
  destruct s as [|a [|b [|c r]]]; cbn [b64_encode]; [done| | |]; rewrite !b64url_cons;
    pose proof (byte_bound a).
  - do 2 (apply url_group; [solve_sextet|]; intros ? ?). simpl.
    by repeat match goal with H : verifier_char _ = true |- _ => rewrite H; clear H end.
  - pose proof (byte_bound b). do 3 (apply url_group; [solve_sextet|]; intros ? ?). simpl.
    by repeat match goal with H : verifier_char _ = true |- _ => rewrite H; clear H end.
  - pose proof (byte_bound b). pose proof (byte_bound c).
    destruct (IH r) as [Hr1 Hr2]; [unfold ltof; simpl; lia|].
    do 4 (apply url_group; [solve_sextet|]; intros ? ?).
    rewrite !sforall_app, !slength_app, Hr1, Hr2. cbn [sforall String.length].
    repeat match goal with H : verifier_char _ = true |- _ => rewrite H; clear H end.
    split; [done|]. replace (4 * S (S (S (String.length r))) + 2)%nat with (4 * 3 + (4 * String.length r + 2))%nat by lia.
    replace (4 * 3 + (4 * String.length r + 2))%nat with (4 * String.length r + 2 + 4 * 3)%nat by lia.
    rewrite Nat.div_add by lia. lia.
Qed.

(** The code verifier has exactly 43 characters, the least RFC 7636 allows, all of them
    letters, digits, dashes or underscores; decoding it gives back all 32 random bytes. The
    challenge has the same shape and decodes to the hash of the verifier. *)
Theorem pkce_shape `{CryptoLaws} :
  String.length generateCodeVerifier = 43%nat ∧ sforall verifier_char generateCodeVerifier = true ∧
  b64_decode generateCodeVerifier = randomBytes 32 ∧
  ∀ v, String.length (createCodeChallenge v) = 43%nat ∧ sforall verifier_char (createCodeChallenge v) = true ∧
       b64_decode (createCodeChallenge v) = sha256 v.
Proof.
  assert (∀ s, String.length s = 32%nat →
    String.length (b64toB64UrlEncoded (b64_encode s)) = 43%nat ∧
    sforall verifier_char (b64toB64UrlEncoded (b64_encode s)) = true ∧
    b64_decode (b64toB64UrlEncoded (b64_encode s)) = s) as Hs.
  { intros s Hl. destruct (b64url_spec s) as [Hc Hn]. rewrite Hn, Hl. split_and!; [done|done|].
    unfold b64_decode. rewrite sextets_url. apply b64_decode_encode. }
  destruct (Hs (randomBytes 32) (randomBytes_length 32)) as (? & ? & ?).
  split_and!; try done. intros v. apply Hs, sha256_length.
Qed.

(** A generator and a hash that keep the laws. *)
Fixpoint srepeat (c : Ascii.ascii) (k : nat) : string :=
  match k with O => "" | S k => String c (srepeat c k) end.
#[export] Instance crypto_const : Crypto := {| randomBytes := srepeat (ch 251); sha256 := λ _, srepeat (ch 7) 32 |}.
#[export] Instance crypto_const_laws : CryptoLaws crypto_const.
Proof. split; [|done]. intros k. simpl. induction k as [|k IH]; [done|]. simpl. by rewrite IH. Qed.

Lemma pkce_shape_witness : String.length (@generateCodeVerifier crypto_const) = 43%nat.
Proof. exact (proj1 (@pkce_shape crypto_const crypto_const_laws)). Defined.
