(* ===== verification/SwUtils.v ===== *)
(** Swagger UI, helpers of src/core/utils.js: form data with repeated names
    (createObjWithHashedKeys and its inverse extractKey) and deeplyStripKey. *)

From S2P Require Import Prelude JsValue Json JsString SwSnippets.

(** * Plain objects with values of any type *)

Section Obj.
Context {A : Type}.
Implicit Types o : list (string * A).

Fixpoint aget o (k : string) : option A :=
  match o with [] => None | (k', v) :: r => if String.eqb k' k then Some v else aget r k end.

Fixpoint aset o (k : string) (v : A) : list (string * A) :=
  match o with
  | [] => [(k, v)]
  | (k', v') :: r => if String.eqb k' k then (k', v) :: r else (k', v') :: aset r k v
  end.

Definition adel o (k : string) : list (string * A) := filter (λ kv, String.eqb kv.1 k = false) o.

Lemma aget_aset_eq o k v : aget (aset o k v) k = Some v.
Proof.
  induction o as [|[j u] o IH]; simpl; [by rewrite String.eqb_refl|].
  destruct (String.eqb_spec j k) as [->|Hn]; simpl; [by rewrite String.eqb_refl|].
  apply String.eqb_neq in Hn. by rewrite Hn.
Qed.

Lemma aget_aset_ne o k j v : j ≠ k → aget (aset o k v) j = aget o j.
Proof.
  intros Hne. induction o as [|[i u] o IH]; simpl.
  - destruct (String.eqb_spec k j); [congruence|done].
  - destruct (String.eqb_spec i k) as [->|]; simpl.
    + destruct (String.eqb_spec k j); [congruence|done].
    + by rewrite IH.
Qed.

Lemma aset_fresh o k v : aget o k = None → aset o k v = o ++ [(k, v)].
Proof. induction o as [|[j u] o IH]; simpl; [done|]. destruct (String.eqb j k); [done|]. intros H. by rewrite IH. Qed.

Lemma aget_In o k v : aget o k = Some v → (k, v) ∈ o.
Proof.
  induction o as [|[j u] o IH]; simpl; [done|]. destruct (String.eqb_spec j k) as [->|].
  - intros [= ->]. left.
  - intros H. right. auto.
Qed.

Lemma aget_None o k : aget o k = None ↔ k ∉ map fst o.
Proof.
  induction o as [|[j u] o IH]; simpl; [split; [intros _; apply not_elem_of_nil|done]|].
  destruct (String.eqb_spec j k) as [->|]; [set_solver|]. set_solver.
Qed.
End Obj.

(** * Form data with repeated names *)

(** The functions that every object inherits. *)
Definition inherited : list string :=
  ["constructor"; "hasOwnProperty"; "isPrototypeOf"; "propertyIsEnumerable"; "toLocaleString"; "toString";
   "valueOf"; "__defineGetter__"; "__defineSetter__"; "__lookupGetter__"; "__lookupSetter__"].

Definition is_inherited (k : string) : bool := existsb (String.eqb k) inherited.

Definition entry_truthy (e : entry) : bool := match e with EFile _ _ => true | EVal v => truthy v end.

(** [`${k}${hashIdx}${i}`]. *)
Definition hashed (k : string) (i : nat) : string := k +:+ hashIdx +:+ N_to_string (N.of_nat i).

(** [newObj] and the lengths of [trackKeys]. *)
Record hstate := HState { newObj : list (string * entry); trackKeys : list (string * nat) }.

Definition not_writable (k : string) : jsval :=
  typeError ("Cannot assign to read only property 'length' of function '" +:+ k +:+ "'").

(** One iteration of the loop; the name [__proto__] is not considered. A name that objects inherit
    is taken for a repeated one, and the counter of an inherited function cannot be written. *)
Definition add_pair (st : hstate) (pair : string * entry) : result hstate :=
  let '(k, v) := pair in
  let present := match aget (newObj st) k with Some u => entry_truthy u | None => is_inherited k end in
  match aget (trackKeys st) k with
  | None =>
      if negb present then Ok (HState (aset (newObj st) k v) (trackKeys st))
      else if is_inherited k then Throw (not_writable k)
      else
        let first := default (EVal JUndef) (aget (newObj st) k) in
        let obj := adel (aset (newObj st) (hashed k 1) first) k in
        Ok (HState (aset obj (hashed k 2) v) (aset (trackKeys st) k 2))
  | Some len => Ok (HState (aset (newObj st) (hashed k (S len)) v) (aset (trackKeys st) k (S len)))
  end.

Fixpoint add_pairs (st : hstate) (l : list (string * entry)) : result hstate :=
  match l with [] => Ok st | p :: r => st' ← add_pair st p; add_pairs st' r end.

Definition createObjWithHashedKeys (fd : list (string * entry)) : result (list (string * entry)) :=
  st ← add_pairs (HState [] []) fd; Ok (newObj st).

(** ** Reading the names back *)

(** A field name that the encoding can carry. *)
Definition plain_key (k : string) : Prop :=
  includes k hashIdx = false ∧ trim k = k ∧ is_inherited k = false.

Lemma hashIdx_overlap k : includes k hashIdx = false → includes (k +:+ "_**[") hashIdx = false.
Proof.
  unfold hashIdx. induction k as [|c k IH]; [done|]. intros H.
  cbn [includes] in H. destruct (strip_prefix "_**[]" (String c k)) eqn:Ep; [done|].
  change (String c k +:+ "_**[") with (String c (k +:+ "_**[")). cbn [includes]. rewrite (IH H).
  destruct (strip_prefix "_**[]" (String c (k +:+ "_**["))) eqn:E; [exfalso|done].
  destruct k as [|c1 [|c2 [|c3 [|c4 k]]]]; cbn [strip_prefix String.append] in E, Ep;
    repeat match goal with H : context [if Ascii.eqb ?a ?b then _ else _] |- _ => destruct (Ascii.eqb a b) eqn:?; try done end.
Qed.

Lemma extractKey_hashed k i : plain_key k → extractKey (hashed k i) = k.
Proof.
  intros (Hi & Ht & _). unfold extractKey, hashed. rewrite includes_middle. simpl negb. cbv iota.
  unfold split. change hashIdx with ("_**[" +:+ String (ch 93) "").
  rewrite split_aux_first by (by apply hashIdx_overlap). exact Ht.
Qed.

Lemma extractKey_plain k : plain_key k → extractKey k = k.
Proof. intros (Hi & _). unfold extractKey. by rewrite Hi. Qed.

Lemma hashed_ne k i : plain_key k → hashed k i ≠ k.
Proof.
  intros (Hi & _) E. rewrite <- E in Hi. unfold hashed in Hi. by rewrite includes_middle in Hi.
Qed.

Lemma hashed_inj k i j : hashed k i = hashed k j → i = j.
Proof.
  unfold hashed. intros H. apply sapp_inv_head, sapp_inv_head in H.
  pose proof (read_digits_N (N.of_nat i) "" eq_refl) as Hi. pose proof (read_digits_N (N.of_nat j) "" eq_refl) as Hj.
  rewrite sapp_nil_r in Hi, Hj. rewrite H in Hi. rewrite Hi in Hj. simplify_eq. lia.
Qed.

(** The entries of an object that stand for the field [k]. *)
Definition under (k : string) (o : list (string * entry)) : list (string * entry) :=
  filter (λ kv, extractKey kv.1 = k) o.

(** The values of the field [k] in the form, in order. *)
Definition vals (k : string) (fd : list (string * entry)) : list entry := map snd (filter (λ kv, kv.1 = k) fd).

(** How the field [k] with the given values is stored. *)
Definition stored (k : string) (vs : list entry) : list (string * entry) :=
  match vs with
  | [] => []
  | [v] => [(k, v)]
  | _ => imap (λ i v, (hashed k (S i), v)) vs
  end.

Lemma under_app k o p : under k (o ++ p) = under k o ++ under k p.
Proof. apply filter_app. Qed.

Lemma aget_under o x : aget o x = aget (under (extractKey x) o) x.
Proof.
  unfold under. induction o as [|[j u] o IH]; [done|]. rewrite filter_cons. simpl.
  destruct (String.eqb_spec j x) as [->|Hne].
  - rewrite decide_True by done. simpl. by rewrite String.eqb_refl.
  - destruct (decide (extractKey j = extractKey x)); simpl; [|done].
    apply String.eqb_neq in Hne. by rewrite Hne.
Qed.

Lemma under_aset_other j o x v : extractKey x ≠ j → under j (aset o x v) = under j o.
Proof.
  intros Hne. unfold under. induction o as [|[i u] o IH]; simpl.
  - by rewrite filter_cons, decide_False.
  - destruct (String.eqb_spec i x) as [->|]; rewrite !filter_cons; simpl; [by rewrite !decide_False|].
    by rewrite IH.
Qed.

Lemma under_adel j o x : under j (adel o x) = adel (under j o) x.
Proof.
  unfold under, adel. rewrite !list_filter_filter. apply list_filter_iff. intros [i u]. simpl. tauto.
Qed.

Lemma adel_notin (o : list (string * entry)) x : aget o x = None → adel o x = o.
Proof.
  unfold adel. induction o as [|[i u] o IH]; simpl; [done|]. destruct (String.eqb i x) eqn:E; [done|].
  intros H. rewrite filter_cons. simpl. rewrite E, decide_True, IH; done.
Qed.

Lemma under_aset_fresh k o x v : extractKey x = k → aget (under k o) x = None →
  under k (aset o x v) = under k o ++ [(x, v)].
Proof.
  intros Hx Hn. rewrite aset_fresh by (by rewrite aget_under, Hx). rewrite under_app.
  unfold under at 2. by rewrite filter_cons, decide_True.
Qed.

Lemma aget_stored_hashed k vs i : plain_key k → length vs ≤ i → aget (stored k vs) (hashed k (S i)) = None.
Proof.
  intros Hk Hi. apply aget_None. intros Hin. apply list_elem_of_fmap in Hin as ([x v] & Hx & Hin).
  simpl in Hx. subst x. destruct vs as [|v0 [|v1 vs]]; simpl in Hin, Hi.
  - by apply not_elem_of_nil in Hin.
  - apply list_elem_of_singleton in Hin as [= Hh _]. by apply hashed_ne in Hh.
  - apply (elem_of_lookup_imap (λ i v, (hashed k (S i), v)) (v0 :: v1 :: vs)) in Hin as (j & w & Hj & Hl).
    injection Hj as Hj _. apply hashed_inj in Hj. apply lookup_lt_Some in Hl. simpl in Hl. lia.
Qed.

Lemma stored_snoc k vs v : 2 ≤ length vs → stored k (vs ++ [v]) = stored k vs ++ [(hashed k (S (length vs)), v)].
Proof.
  intros Hl. destruct vs as [|v0 [|v1 vs]]; simpl in Hl; [lia|lia|].
  change (stored k ((v0 :: v1 :: vs) ++ [v])) with (imap (λ i v, (hashed k (S i), v)) ((v0 :: v1 :: vs) ++ [v])).
  rewrite imap_app. f_equal. simpl. by rewrite Nat.add_0_r.
Qed.

Lemma vals_snoc k fd j v : vals k (fd ++ [(j, v)]) = if decide (j = k) then vals k fd ++ [v] else vals k fd.
Proof.
  unfold vals. rewrite filter_app, map_app, filter_cons. simpl. destruct (decide (j = k)); [done|].
  simpl. by rewrite app_nil_r.
Qed.

(** What the loop has built from the prefix [fd] of the form. *)
Definition hinv (fd : list (string * entry)) (st : hstate) : Prop :=
  Forall (λ kv, entry_truthy kv.2 = true) fd ∧
  ∀ k, plain_key k →
    under k (newObj st) = stored k (vals k fd) ∧
    aget (trackKeys st) k = if decide (2 ≤ length (vals k fd)) then Some (length (vals k fd)) else None.

Lemma vals_truthy k fd : Forall (λ kv, entry_truthy kv.2 = true) fd →
  Forall (λ e, entry_truthy e = true) (vals k fd).
Proof.
  intros H. apply Forall_map, Forall_forall. intros kv Hin. apply list_elem_of_filter in Hin as [_ Hin].
  by apply (proj1 (Forall_forall _ _) H).
Qed.

(** Objects built by changes to entries of the field [k] only. *)
Lemma hinv_intro fd st st' k v : hinv fd st → plain_key k → entry_truthy v = true →
  (∀ j, plain_key j → j ≠ k → under j (newObj st') = under j (newObj st) ∧ aget (trackKeys st') j = aget (trackKeys st) j) →
  under k (newObj st') = stored k (vals k fd ++ [v]) →
  aget (trackKeys st') k = (if decide (2 ≤ length (vals k fd ++ [v])) then Some (length (vals k fd ++ [v])) else None) →
  hinv (fd ++ [(k, v)]) st'.
Proof.
  intros [Ht Hinv] Hk Hv Hother Hu Ha. split; [apply Forall_app; split; [done|by repeat constructor]|].
  intros j Hj. rewrite vals_snoc. destruct (decide (k = j)) as [<-|Hne]; [done|].
  destruct (Hother j Hj) as [-> ->]; [congruence|]. by apply Hinv.
Qed.

Lemma add_pair_hinv fd st k v : hinv fd st → plain_key k → entry_truthy v = true →
  ∃ st', add_pair st (k, v) = Ok st' ∧ hinv (fd ++ [(k, v)]) st'.
Proof.
  intros Hh Hk Hv. pose proof Hh as [Ht Hinv]. destruct (Hinv k Hk) as [Hu Ha].
  pose proof (vals_truthy k fd Ht) as Hvt. pose proof (aget_under (newObj st) k) as Hg.
  rewrite extractKey_plain, Hu in Hg by done. destruct Hk as (Hk1 & Hk2 & Hin).
  assert (plain_key k) as Hk by done.
  assert (∀ j i, plain_key j → j ≠ k → extractKey (hashed k i) ≠ j) as Hhash
    by (intros; rewrite extractKey_hashed; congruence).
  unfold add_pair. rewrite Ha, Hg, Hin. destruct (vals k fd) as [|v0 [|v1 vs]] eqn:Ev.
  - rewrite decide_False by (simpl; lia). simpl. eexists; split; [done|].
    apply (hinv_intro fd st _ k v Hh Hk Hv); rewrite ?Ev; simpl.
    + intros j Hj Hne. rewrite under_aset_other by (rewrite extractKey_plain; congruence). done.
    + by rewrite under_aset_fresh, Hu by (rewrite ?Hu; try done; by apply extractKey_plain).
    + rewrite Ha. by rewrite decide_False by (simpl; lia).
  - rewrite decide_False by (simpl; lia). simpl. rewrite String.eqb_refl. simpl.
    apply Forall_cons in Hvt as [Hv0 _]. rewrite Hv0. simpl. eexists; split; [done|].
    apply (hinv_intro fd st _ k v Hh Hk Hv); rewrite ?Ev; simpl.
    + intros j Hj Hne. split; [|by apply aget_aset_ne].
      rewrite under_aset_other, under_adel, under_aset_other by auto. apply adel_notin.
      apply aget_None. intros Hx. apply list_elem_of_fmap in Hx as ([x u] & Hx & Hin').
      apply list_elem_of_filter in Hin' as [Hx' _]. simpl in *. subst x. rewrite extractKey_plain in Hx'; done.
    + assert (under k (adel (aset (newObj st) (hashed k 1) v0) k) = [(hashed k 1, v0)]) as E1.
      { assert (under k (aset (newObj st) (hashed k 1) v0) = [(k, v0); (hashed k 1, v0)]) as E0.
        { rewrite under_aset_fresh, Hu; [done|by apply extractKey_hashed|]. rewrite Hu. simpl.
          destruct (String.eqb_spec k (hashed k 1)) as [E|]; [|done]. by destruct (hashed_ne k 1 Hk). }
        rewrite under_adel, E0. unfold adel. rewrite !filter_cons. simpl.
        rewrite String.eqb_refl, decide_False, decide_True; [done| |done].
        apply String.eqb_neq. by apply hashed_ne. }
      rewrite under_aset_fresh, E1; [done|by apply extractKey_hashed|]. rewrite E1. simpl aget.
      destruct (String.eqb_spec (hashed k 1) (hashed k 2)) as [E|]; [|done]. by apply hashed_inj in E.
    + by rewrite aget_aset_eq.
  - rewrite decide_True by (simpl; lia). eexists; split; [done|].
    apply (hinv_intro fd st _ k v Hh Hk Hv); rewrite ?Ev; simpl newObj; simpl trackKeys.
    + intros j Hj Hne. split; [by apply under_aset_other; auto|by apply aget_aset_ne].
    + rewrite under_aset_fresh, Hu; [by rewrite stored_snoc by (simpl; lia)|by apply extractKey_hashed|].
      rewrite Hu. by apply aget_stored_hashed.
    + rewrite aget_aset_eq, decide_True by (rewrite length_app; simpl; lia). rewrite length_app. simpl. f_equal. lia.
Qed.

Lemma add_pairs_hinv l fd st : hinv fd st →
  Forall (λ kv, plain_key kv.1 ∧ entry_truthy kv.2 = true) l →
  ∃ st', add_pairs st l = Ok st' ∧ hinv (fd ++ l) st'.
Proof.
  intros Hh H. revert fd st Hh. induction H as [|[k v] l [Hk Hv] _ IH]; intros fd st Hh.
  - exists st. by rewrite app_nil_r.
  - destruct (add_pair_hinv fd st k v Hh Hk Hv) as (st1 & E1 & H1).
    destruct (IH _ _ H1) as (st2 & E2 & H2). exists st2. rewrite <- app_assoc in H2. split; [|exact H2].
    cbn [add_pairs]. by rewrite E1.
Qed.

Lemma stored_vals k vs : map snd (stored k vs) = vs.
Proof.
  destruct vs as [|v0 [|v1 vs]]; [done|done|]. unfold stored. generalize (v0 :: v1 :: vs) as l. intros l.
  apply list_eq. intros i. rewrite list_lookup_fmap, list_lookup_imap. by destruct (l !! i).
Qed.

(** Form fields with repeated names survive the conversion to an object with unique keys: the
    conversion succeeds, and the values found under the keys that extractKey maps to a name are the
    values of that name in the form, in order. The fields must have non-empty values and names
    that are trimmed, do not contain the marker and are not names of inherited functions. *)
Theorem hashed_keys_roundtrip (fd : list (string * entry)) :
  Forall (λ kv, plain_key kv.1 ∧ entry_truthy kv.2 = true) fd →
  ∃ o, createObjWithHashedKeys fd = Ok o ∧
       ∀ k, plain_key k → map snd (filter (λ kv, extractKey kv.1 = k) o) = map snd (filter (λ kv, kv.1 = k) fd).
Proof.
  intros H. destruct (add_pairs_hinv fd [] (HState [] [])) as (st & E & [_ Hinv]); [by split|done|].
  exists (newObj st). unfold createObjWithHashedKeys. rewrite E. split; [done|]. intros k Hk.
  destruct (Hinv k Hk) as [Hu _]. fold (under k (newObj st)). rewrite Hu. apply stored_vals.
Qed.

(** An empty value is lost when its name comes again, and a field named like an inherited function
    makes the conversion fail. *)
Lemma hashed_keys_empty_lost :
  createObjWithHashedKeys [("a", EVal (JStr "")); ("a", EVal (JStr "x"))] = Ok [("a", EVal (JStr "x"))].
Proof. reflexivity. Qed.

Lemma hashed_keys_constructor v :
  createObjWithHashedKeys [("constructor", v)] = Throw (not_writable "constructor").
Proof. reflexivity. Qed.

Lemma hashed_keys_roundtrip_witness :
  ∃ o, createObjWithHashedKeys [("f[]", EVal (JStr "apple")); ("v", EVal (JStr "carrot")); ("f[]", EFile "b" "")] = Ok o ∧
       ∀ k, plain_key k → map snd (filter (λ kv, extractKey kv.1 = k) o) =
         map snd (filter (λ kv, kv.1 = k) [("f[]", EVal (JStr "apple")); ("v", EVal (JStr "carrot")); ("f[]", EFile "b" "")]).
Proof. apply hashed_keys_roundtrip. repeat constructor; vm_compute; reflexivity. Defined.

(** * deeplyStripKey *)

(** Objects lose the key wherever the predicate accepts its value; arrays are returned as they are.
    An Error object becomes a plain object of its own properties. *)
Section Strip.
Variable keyToStrip : string.
Variable predicate : jsval → string → bool.

Fixpoint strip (input : jsval) : jsval :=
  let fields := fix fields (fs : list (string * jsval)) : list (string * jsval) :=
    match fs with
    | [] => []
    | (k, v) :: r =>
        if String.eqb k keyToStrip && predicate v k then fields r else (k, strip v) :: fields r
    end in
  match input with
  | JObj fs | JErr _ _ fs => JObj (fields fs)
  | v => v
  end.

Definition deeplyStripKey (input : jsval) : jsval := if String.eqb keyToStrip "" then input else strip input.
End Strip.

(** No object of [v] outside arrays has the key. *)
Fixpoint lacks_key (key : string) (v : jsval) : bool :=
  match v with
  | JObj fs => forallb (λ kv, negb (String.eqb kv.1 key) && lacks_key key kv.2) fs
  | JErr _ _ _ => false
  | _ => true
  end.

Lemma strip_obj key p fs : strip key p (JObj fs) =
  JObj (omap (λ kv, if String.eqb kv.1 key && p kv.2 kv.1 then None else Some (kv.1, strip key p kv.2)) fs).
Proof.
  cbn [strip]. f_equal. induction fs as [|[k v] fs IH]; [done|]. cbn [omap list_omap fst snd].
  destruct (String.eqb k key && p v k); [exact IH|]. f_equal. exact IH.
Qed.

Lemma strip_lacks key v : lacks_key key (strip key (λ _ _, true) v) = true.
Proof.
  induction v as [| | | | | | |fs IH|n m fs IH] using jsval_ind; try done.
  all: try change (strip key (λ _ _, true) (JErr n m fs)) with (strip key (λ _ _, true) (JObj fs)).
  all: rewrite strip_obj; cbn [lacks_key]; induction IH as [|[k v] fs Hv _ IHfs]; [done|];
    cbn [omap list_omap fst snd]; rewrite andb_true_r; destruct (String.eqb k key) eqn:E; [exact IHfs|];
    cbn [forallb fst snd]; simpl in Hv; rewrite E, Hv; exact IHfs.
Qed.

Lemma strip_id key p v : lacks_key key v = true → strip key p v = v.
Proof.
  induction v as [| | | | | | |fs IH|] using jsval_ind; try done. cbn [lacks_key]. rewrite strip_obj. intros H.
  f_equal. induction IH as [|[k v] fs Hv _ IHfs]; [done|].
  cbn [forallb fst snd] in H. rewrite !andb_true_iff, negb_true_iff in H. destruct H as [[Hk Hl] Hr].
  cbn [omap list_omap fst snd]. rewrite Hk. simpl in Hv. rewrite (Hv Hl). cbn. f_equal. by apply IHfs.
Qed.

(** Stripping a key with the default predicate removes it from every object outside arrays,
    leaves a value that does not have it unchanged, and is therefore idempotent. *)
Theorem deeplyStripKey_spec key v : key ≠ "" →
  let strip_all := deeplyStripKey key (λ _ _, true) in
  lacks_key key (strip_all v) = true ∧ (lacks_key key v = true → strip_all v = v) ∧
  strip_all (strip_all v) = strip_all v.
Proof.
  intros Hk. unfold deeplyStripKey. apply String.eqb_neq in Hk. rewrite Hk. cbv zeta.
  split_and!; [apply strip_lacks|apply strip_id|apply strip_id, strip_lacks].
Qed.

Lemma deeplyStripKey_spec_witness :
  let strip_all := deeplyStripKey "$$ref" (λ _ _, true) in
  let v := JObj [("a", JObj [("$$ref", JStr "x"); ("b", JInt 1)]); ("$$ref", JStr "y")] in
  lacks_key "$$ref" (strip_all v) = true ∧ (lacks_key "$$ref" v = true → strip_all v = v) ∧
  strip_all (strip_all v) = strip_all v.
Proof. apply deeplyStripKey_spec. discriminate. Defined.
