(* ===== verification/SwTopbar.v ===== *)
(** Swagger UI, the standalone preset (swagger-ui-standalone-preset.js): the Topbar component that
    chooses a definition (src/plugins/topbar/topbar.jsx), remembers the choice in the query string
    and clears the authorizations before another definition is loaded, and the plugin for
    configurations (src/core/plugins/configs). *)

From S2P Require Import Prelude JsValue Json Buffer JsString SwEncode.

(** * State of the page *)

(** An element of the configuration [urls]. *)
Record spec := Spec { s_url : string; s_name : string }.

(** The configuration values the preset reads. *)
Record configs := Configs {
  c_urls : option (list spec);
  c_primaryName : jsval;
  c_persistAuthorization : jsval
}.

Record location := Location { l_protocol : string; l_host : string; l_pathname : string; l_search : string }.

(** What the handlers ask the rest of the system to do. *)
Inductive action :=
| RestoreAuthorization (authorized : jsval)
| UpdateUrl (url : string)
| Download (url : string)
| ReplaceState (url : string)
| UpdateFilter (value : string)
| UpdateLoadingStatus (status : string)
| ConsoleError (msg : string)
| NewThrownErr (e : jsval).

(** The state of the component, the address bar and the actions so far, in order. *)
Record topbar := Topbar { t_url : string; t_selectedIndex : nat; t_location : location; t_log : list action }.

Definition emit (a : action) (st : topbar) : topbar :=
  Topbar (t_url st) (t_selectedIndex st) (t_location st) (t_log st ++ [a]).

Definition select_index (i : nat) (st : topbar) : topbar :=
  Topbar (t_url st) i (t_location st) (t_log st).

Section Handlers.
Variable cfg : configs.

Definition onUrlChange (value : string) (st : topbar) : topbar :=
  Topbar value (t_selectedIndex st) (t_location st) (t_log st).

Definition flushAuthData (st : topbar) : topbar :=
  if negb (truthy (c_persistAuthorization cfg)) then emit (RestoreAuthorization (JObj [])) st else st.

Definition loadSpec (url : string) (st : topbar) : topbar :=
  emit (Download url) (emit (UpdateUrl url) (flushAuthData st)).

(** [history.replaceState] puts the new address in the address bar. *)
Definition replaceState (base query : string) (st : topbar) : topbar :=
  let l := t_location st in
  Topbar (t_url st) (t_selectedIndex st) (Location (l_protocol l) (l_host l) (l_pathname l) ("?" +:+ query))
         (t_log st ++ [ReplaceState (base +:+ "?" +:+ query)]).

Definition setSearch (s : spec) (st : topbar) : result topbar :=
  let l := t_location st in
  search ← parseSearch (l_search l);
  let search := oset search "urls.primaryName" (JStr (s_name s)) in
  let newUrl := l_protocol l +:+ "//" +:+ l_host l +:+ l_pathname l in
  Ok (replaceState newUrl (serializeSearch search) st).

(** [urls.forEach((spec, i) => ...)]. *)
Fixpoint select_each (selectedUrl : string) (i : nat) (urls : list spec) (st : topbar) : result topbar :=
  match urls with
  | [] => Ok st
  | s :: r =>
      st' ← (if String.eqb (s_url s) selectedUrl then setSearch s (select_index i st) else Ok st);
      select_each selectedUrl (S i) r st'
  end.

Definition setSelectedUrl (selectedUrl : string) (st : topbar) : result topbar :=
  let urls := default [] (c_urls cfg) in
  if bool_decide (urls ≠ []) && negb (String.eqb selectedUrl "") then select_each selectedUrl 0 urls st else Ok st.

(** [value] and [href] are the properties of the event target. *)
Definition onUrlSelect (value href : string) (st : topbar) : result topbar :=
  let url := if String.eqb value "" then href else value in
  setSelectedUrl url (loadSpec url st).

Definition downloadUrl (st : topbar) : topbar := loadSpec (t_url st) st.

Definition onFilterChange (value : string) (st : topbar) : topbar := emit (UpdateFilter value) st.

(** The scan for the primary name: the state and the target index. *)
Fixpoint primary_scan (primaryName : string) (i : nat) (urls : list spec) (acc : topbar * nat) : topbar * nat :=
  match urls with
  | [] => acc
  | s :: r => primary_scan primaryName (S i) r
                (if String.eqb (s_name s) primaryName then (select_index i acc.1, i) else acc)
  end.

Definition componentDidMount (st : topbar) : result topbar :=
  match default [] (c_urls cfg) with
  | [] => Ok st
  | urls =>
      let '(st', targetIndex) :=
        match c_primaryName cfg with
        | JStr EmptyString => (st, t_selectedIndex st)
        | JStr p => primary_scan p 0 urls (st, t_selectedIndex st)
        | _ => (st, t_selectedIndex st)
        end in
      match urls !! targetIndex with
      | Some s => Ok (loadSpec (s_url s) st')
      | None => Throw (cannot_read JUndef "url")
      end
  end.
End Handlers.

(** * The configuration plugin *)

Definition UPDATE_CONFIGS (state payload : list (string * jsval)) : list (string * jsval) :=
  foldl (λ acc kv, oset acc kv.1 kv.2) state payload.

Definition TOGGLE_CONFIGS (state : list (string * jsval)) (configName : string) : list (string * jsval) :=
  oset state configName (JBool (negb (truthy (default JUndef (assoc state configName))))).

Definition config_get (state : list (string * jsval)) (key : string) : jsval := default JUndef (assoc state key).

(** js-yaml. *)
Class Yaml := safeLoad : jsval → result jsval.

(** The error is reported only when the caller passes the system. *)
Definition parseYamlConfig `{Yaml} (system : bool) (yaml : jsval) : jsval * list action :=
  match safeLoad yaml with
  | Ok v => (v, [])
  | Throw e => (JObj [], if system then [NewThrownErr (mkError (to_string e))] else [])
  | Hang => (JObj [], [])
  end.

(** [loaded]: restores what the browser stored, if authorizations persist. *)
Definition loaded (persistAuthorization : jsval) (stored : option string) : result (list action) :=
  if truthy persistAuthorization then
    match stored with
    | Some s => if String.eqb s "" then Ok [] else v ← parse (JStr s); Ok [RestoreAuthorization v]
    | None => Ok []
    end
  else Ok [].

(** What the download of a configuration settles with: an Error, or a response. *)
Inductive fetched :=
| FError (msg : string)
| FResponse (status : Z) (statusText : string) (text : jsval).

(** The argument of the callback, and the actions before it. *)
Definition config_next `{Yaml} (url : string) (res : fetched) : jsval * list action :=
  let fail (statusText : string) :=
    (JNull, [UpdateLoadingStatus "failedConfig"; UpdateLoadingStatus "failedConfig"; UpdateUrl "";
             ConsoleError (statusText +:+ " " +:+ url)]) in
  match res with
  | FError _ => fail "undefined"
  | FResponse status statusText text =>
      if (400 <=? status)%Z then fail statusText else parseYamlConfig false text
  end.

(** * The query string and the configuration of the page *)

(** The configuration a page starts with: the values of the query string come last in the merge of
    downloadSpec. A query that sets [urls] itself replaces the list by a string and is left out. *)
Definition page_configs (opts : configs) (query : list (string * jsval)) : option configs :=
  match assoc query "urls" with
  | Some _ => None
  | None => Some (Configs (c_urls opts) (default (c_primaryName opts) (assoc query "urls.primaryName"))
                          (default (c_persistAuthorization opts) (assoc query "persistAuthorization")))
  end.

Lemma decodeURIComponent_text s t : decodeURIComponent s = Ok t → text t.
Proof.
  unfold decodeURIComponent, text. destruct (unpct s); [|done].
  destruct (String.eqb_spec (utf8_decode s0) s0); intros [= <-]; done.
Qed.

Lemma assign_search_ok m k v : search_ok m → text k → text v → search_ok (assign m k (JStr v)).
Proof.
  intros [Hnd Hm] Hk Hv. unfold assign. destruct (String.eqb_spec k "__proto__") as [|Hp]; [done|].
  split; [by apply oset_NoDup|]. clear Hnd.
  induction Hm as [|[j u] m Hj Hm IH]; simpl.
  - repeat constructor; simpl; eauto.
  - destruct (String.eqb_spec j k) as [->|]; constructor; eauto.
Qed.

Lemma parse_pair_ok m p m' : search_ok m → parse_pair m p = Ok m' → search_ok m'.
Proof.
  unfold parse_pair. intros Hm H. apply result_bind_Ok in H as (k & Hk & H).
  apply result_bind_Ok in H as (v & Hv & H). injection H as <-.
  apply assign_search_ok; [done|by eapply decodeURIComponent_text|].
  destruct (split "=" p !! 1%nat) as [w|]; [|by injection Hv as <-].
  destruct (String.eqb w ""); [by injection Hv as <-|by eapply decodeURIComponent_text].
Qed.

Lemma parse_pairs_ok ps m m' : search_ok m → parse_pairs m ps = Ok m' → search_ok m'.
Proof.
  revert m. induction ps as [|p ps IH]; intros m Hm H; simpl in H; [by injection H as <-|].
  apply result_bind_Ok in H as (m1 & H1 & H). eapply IH, H. by eapply parse_pair_ok.
Qed.

Lemma parseSearch_ok s m : parseSearch s = Ok m → search_ok m.
Proof.
  unfold parseSearch. assert (search_ok []) as H0 by (split; [constructor|constructor]).
  destruct (String.eqb s ""); [by intros [= <-]|]. by apply parse_pairs_ok.
Qed.

(** The query after the choice of a definition called [name]. *)
Lemma primary_query m name : search_ok m → text name →
  parseSearch ("?" +:+ serializeSearch (oset m "urls.primaryName" (JStr name))) =
  Ok (oset m "urls.primaryName" (JStr name)).
Proof.
  intros Hm Hn. apply parse_serialize; [by destruct m as [|[k v] m]; simpl; [|destruct (String.eqb k _)]|].
  apply (assign_search_ok m "urls.primaryName" name); done.
Qed.

(** ** One definition has the chosen address, one has the chosen name *)

Lemma select_each_none u i urls st : u ∉ map s_url urls → select_each u i urls st = Ok st.
Proof.
  revert i. induction urls as [|s urls IH]; intros i H; [done|]. simpl in *.
  destruct (String.eqb_spec (s_url s) u); [set_solver|]. simpl. apply IH. set_solver.
Qed.

Lemma select_each_one s i k urls st : NoDup (map s_url urls) → urls !! k = Some s →
  select_each (s_url s) i urls st = setSearch s (select_index (i + k) st).
Proof.
  revert i k. induction urls as [|s0 urls IH]; intros i k Hnd Hk; [done|].
  apply NoDup_cons in Hnd as [Hn Hnd]. destruct k as [|k]; simpl in Hk |- *.
  - injection Hk as ->. rewrite String.eqb_refl, Nat.add_0_r.
    destruct (setSearch s (select_index i st)); try done. simpl. by apply select_each_none.
  - destruct (String.eqb_spec (s_url s0) (s_url s)) as [E|].
    + exfalso. apply Hn. rewrite E. apply list_elem_of_fmap. exists s. split; [done|].
      by apply list_elem_of_lookup_2 in Hk.
    + simpl. rewrite (IH (S i) k Hnd Hk). do 2 f_equal. lia.
Qed.

Lemma primary_scan_none p i urls acc : p ∉ map s_name urls → primary_scan p i urls acc = acc.
Proof.
  revert i. induction urls as [|s urls IH]; intros i H; [done|]. simpl in *.
  destruct (String.eqb_spec (s_name s) p); [set_solver|]. apply IH. set_solver.
Qed.

Lemma primary_scan_one s i k urls acc : NoDup (map s_name urls) → urls !! k = Some s →
  primary_scan (s_name s) i urls acc = (select_index (i + k) acc.1, i + k).
Proof.
  revert i k acc. induction urls as [|s0 urls IH]; intros i k acc Hnd Hk; [done|].
  apply NoDup_cons in Hnd as [Hn Hnd]. destruct k as [|k]; simpl in Hk |- *.
  - injection Hk as ->. rewrite String.eqb_refl, Nat.add_0_r. by apply primary_scan_none.
  - destruct (String.eqb_spec (s_name s0) (s_name s)) as [E|].
    + exfalso. apply Hn. rewrite E. apply list_elem_of_fmap. exists s. split; [done|].
      by apply list_elem_of_lookup_2 in Hk.
    + rewrite (IH (S i) k acc Hnd Hk). simpl. do 2 f_equal; [f_equal|]; lia.
Qed.

Definition distinct_urls (cfg : configs) (urls : list spec) : Prop :=
  c_urls cfg = Some urls ∧ NoDup (map s_url urls) ∧ NoDup (map s_name urls).

Lemma mount_primary cfg urls k s st : distinct_urls cfg urls → urls !! k = Some s → s_name s ≠ "" →
  c_primaryName cfg = JStr (s_name s) →
  componentDidMount cfg st = Ok (loadSpec cfg (s_url s) (select_index k st)).
Proof.
  intros (Hu & _ & Hnd) Hk Hne Hp. unfold componentDidMount. rewrite Hu, Hp. simpl default.
  destruct urls as [|s0 urls]; [done|].
  destruct (s_name s) as [|c n] eqn:En; [done|]. rewrite <- En.
  rewrite (primary_scan_one s 0 k (s0 :: urls)) by done. cbn [fst]. rewrite Nat.add_0_l, Hk. done.
Qed.

(** C27: choosing a definition in the top bar loads it, marks it as selected and writes its name
    into the query string without changing any other parameter; a page opened with the resulting
    address selects and loads the same definition, whatever its own configuration says. The
    addresses and the names of the definitions must be distinct and the current query readable. *)
Theorem choice_survives_reload cfg urls k s href st m opts st0 :
  distinct_urls cfg urls → urls !! k = Some s → s_url s ≠ "" → s_name s ≠ "" → text (s_name s) →
  parseSearch (l_search (t_location st)) = Ok m → c_urls opts = Some urls → assoc m "urls" = None →
  ∃ st' m' cfg', onUrlSelect cfg (s_url s) href st = Ok st' ∧
    t_selectedIndex st' = k ∧ Download (s_url s) ∈ t_log st' ∧
    parseSearch (l_search (t_location st')) = Ok m' ∧
    (∀ j, j ≠ "urls.primaryName" → assoc m' j = assoc m j) ∧
    page_configs opts m' = Some cfg' ∧
    componentDidMount cfg' st0 = Ok (loadSpec cfg' (s_url s) (select_index k st0)).
Proof.
  intros Hd Hk Hu Hne Ht Hm Ho Hnourls. pose proof Hd as (Hc & Hnd1 & Hnd2).
  pose proof (parseSearch_ok _ _ Hm) as Hok.
  assert (assoc (oset m "urls.primaryName" (JStr (s_name s))) "urls" = None) as Hn by (by rewrite assoc_oset_ne).
  eexists _, _, _. split_and!.
  - unfold onUrlSelect, setSelectedUrl. apply String.eqb_neq in Hu. rewrite Hu, Hc, Hu. simpl default.
    rewrite bool_decide_true by (by intros ->). simpl negb. cbv iota. simpl andb. cbv iota.
    rewrite (select_each_one s 0 k urls) by done. unfold setSearch.
    assert (t_location (select_index (0 + k) (loadSpec cfg (s_url s) st)) = t_location st) as ->.
    { unfold loadSpec, flushAuthData. by destruct (negb _). }
    rewrite Hm. reflexivity.
  - done.
  - simpl. apply elem_of_app. left. apply elem_of_app. right. by left.
  - simpl. by apply primary_query.
  - intros j Hj. by apply assoc_oset_ne.
  - unfold page_configs. rewrite Hn. reflexivity.
  - apply (mount_primary _ urls); [by split|done|done|]. simpl. by rewrite assoc_oset_eq.
Qed.

(** * Authorizations and downloads *)

(** What happens on the page: events of the top bar, and the user authorizing in the dialog. *)
Inductive event :=
| EMount
| EUrlChange (value : string)
| EUrlSelect (value href : string)
| EDownload
| EFilter (value : string)
| EAuthorize (authorized : jsval).

Definition handle (cfg : configs) (e : event) (st : topbar) : result topbar :=
  match e with
  | EMount => componentDidMount cfg st
  | EUrlChange v => Ok (onUrlChange v st)
  | EUrlSelect v h => onUrlSelect cfg v h st
  | EDownload => Ok (downloadUrl cfg st)
  | EFilter v => Ok (onFilterChange v st)
  | EAuthorize a => Ok (emit (RestoreAuthorization a) st)
  end.

Fixpoint handle_all (cfg : configs) (es : list event) (st : topbar) : result topbar :=
  match es with [] => Ok st | e :: r => st' ← handle cfg e st; handle_all cfg r st' end.

(** The authorizations after the actions, starting from [auth]; [None] if a definition was
    downloaded while there were some. *)
Fixpoint auth_after (auth : jsval) (log : list action) : option jsval :=
  match log with
  | [] => Some auth
  | RestoreAuthorization a :: r => auth_after a r
  | Download _ :: r => match auth with JObj [] => auth_after auth r | _ => None end
  | _ :: r => auth_after auth r
  end.

Lemma auth_after_app auth l1 l2 : auth_after auth (l1 ++ l2) = auth_after auth l1 ≫= λ a, auth_after a l2.
Proof.
  revert auth. induction l1 as [|a l1 IH]; intros auth; [done|]. destruct a; simpl; try apply IH.
  destruct auth as [| | | | | | |[|]|]; try done.
Qed.

(** The state [st'] has more actions than [st], none of which downloads with authorizations. *)
Definition clean_step (st st' : topbar) : Prop :=
  ∃ new, t_log st' = t_log st ++ new ∧ ∀ auth, is_Some (auth_after auth new).

Lemma clean_refl st : clean_step st st.
Proof. exists []. rewrite app_nil_r. split; [done|]. simpl. eauto. Qed.

Lemma clean_trans st1 st2 st3 : clean_step st1 st2 → clean_step st2 st3 → clean_step st1 st3.
Proof.
  intros (n1 & E1 & H1) (n2 & E2 & H2). exists (n1 ++ n2). rewrite E2, E1, app_assoc. split; [done|].
  intros auth. rewrite auth_after_app. destruct (H1 auth) as [a ->]. apply H2.
Qed.

Lemma clean_emit a st : (∀ u, a ≠ Download u) → clean_step st (emit a st).
Proof. intros Ha. exists [a]. split; [done|]. intros auth. destruct a; simpl; eauto. by destruct (Ha url). Qed.

Section Clean.
Variable cfg : configs.
Hypothesis not_persisted : truthy (c_persistAuthorization cfg) = false.

Lemma clean_load u st : clean_step st (loadSpec cfg u st).
Proof.
  exists [RestoreAuthorization (JObj []); UpdateUrl u; Download u]. unfold loadSpec, flushAuthData.
  rewrite not_persisted. split; [|by eauto]. simpl. by rewrite <- !app_assoc.
Qed.

Lemma clean_setSearch s st st' : setSearch s st = Ok st' → clean_step st st'.
Proof.
  unfold setSearch. intros H. apply result_bind_Ok in H as (m & _ & H). injection H as <-.
  eexists; split; [reflexivity|]. simpl. eauto.
Qed.

Lemma clean_select u i urls st st' : select_each u i urls st = Ok st' → clean_step st st'.
Proof.
  revert i st. induction urls as [|s urls IH]; intros i st H; simpl in H; [injection H as <-; apply clean_refl|].
  apply result_bind_Ok in H as (st1 & H1 & H). apply (clean_trans _ st1); [|by apply (IH (S i))].
  destruct (String.eqb _ _); [by apply (clean_setSearch s (select_index i st))|injection H1 as <-; apply clean_refl].
Qed.

Lemma primary_scan_log p i urls acc : t_log (primary_scan p i urls acc).1 = t_log acc.1.
Proof.
  revert i acc. induction urls as [|s urls IH]; intros i acc; [done|]. simpl. rewrite IH.
  by destruct (String.eqb _ _).
Qed.

Lemma clean_mount st st' : componentDidMount cfg st = Ok st' → clean_step st st'.
Proof.
  unfold componentDidMount. destruct (default [] (c_urls cfg)) as [|s urls]; [intros [= <-]; apply clean_refl|].
  set (scan := match c_primaryName cfg with JStr p => _ | _ => _ end).
  assert (t_log scan.1 = t_log st) as Hl.
  { unfold scan. destruct (c_primaryName cfg) as [| | | | |[]| | |]; try done. apply primary_scan_log. }
  destruct scan as [st1 i]. destruct (_ !! i) as [s0|]; [|done]. intros [= <-].
  destruct (clean_load (s_url s0) st1) as (new & E & Hn). exists new. simpl in Hl. by rewrite E, Hl.
Qed.

Lemma clean_handle e st st' : handle cfg e st = Ok st' → clean_step st st'.
Proof.
  destruct e as [|v|v h| |v|a]; simpl; intros H.
  - by apply clean_mount.
  - injection H as <-. exact (clean_refl st).
  - unfold onUrlSelect, setSelectedUrl in H. eapply clean_trans; [apply clean_load|].
    destruct (_ && _); [by eapply clean_select|injection H as <-; apply clean_refl].
  - injection H as <-. apply clean_load.
  - injection H as <-. by apply clean_emit.
  - injection H as <-. by apply clean_emit.
Qed.

Lemma clean_handle_all es st st' : handle_all cfg es st = Ok st' → clean_step st st'.
Proof.
  revert st. induction es as [|e es IH]; intros st H; simpl in H; [injection H as <-; apply clean_refl|].
  apply result_bind_Ok in H as (st1 & H1 & H). eapply clean_trans; [by eapply clean_handle|by apply IH].
Qed.
End Clean.

(** C3: unless the configuration keeps authorizations, no definition is ever downloaded while the
    page holds authorizations, in any sequence of events of the top bar and of logins by the
    user in between. *)
Theorem downloads_without_authorization cfg es st st' :
  truthy (c_persistAuthorization cfg) = false → handle_all cfg es st = Ok st' →
  ∃ new, t_log st' = t_log st ++ new ∧ ∀ auth, is_Some (auth_after auth new).
Proof. intros Hp H. exact (clean_handle_all cfg Hp es st st' H). Qed.

(** * The configuration store *)

(** Values written to the configuration are the ones read: an update sets exactly the keys of
    its payload (the last value of a repeated key), a toggle inverts one key and no other, and two
    toggles restore a boolean. *)
Theorem configs_store state payload key :
  (∀ k, config_get (UPDATE_CONFIGS state payload) k =
        default (config_get state k) (assoc (rev payload) k)) ∧
  config_get (TOGGLE_CONFIGS state key) key = JBool (negb (truthy (config_get state key))) ∧
  (∀ k, k ≠ key → config_get (TOGGLE_CONFIGS state key) k = config_get state k) ∧
  (∀ b, config_get state key = JBool b →
        config_get (TOGGLE_CONFIGS (TOGGLE_CONFIGS state key) key) key = JBool b).
Proof.
  unfold config_get, UPDATE_CONFIGS, TOGGLE_CONFIGS. split_and!.
  - intros k. rewrite assoc_foldl_oset. by destruct (assoc (rev payload) k).
  - by rewrite assoc_oset_eq.
  - intros k Hk. by rewrite assoc_oset_ne.
  - intros b Hb. rewrite !assoc_oset_eq. simpl. rewrite Hb. simpl. by rewrite negb_involutive.
Qed.

(** * Witnesses *)

Definition example_urls : list spec := [Spec "/v1.yaml" "broker"; Spec "/v2.yaml" "runtimes & orchestrations"].
Definition example_cfg : configs := Configs (Some example_urls) JUndef (JBool false).
Definition example_page : topbar := Topbar "" 0 (Location "https:" "keb" "/index.html" "?filter=a%20b") [].

Lemma choice_survives_reload_witness :
  ∃ st' m' cfg', onUrlSelect example_cfg "/v2.yaml" "" example_page = Ok st' ∧
    t_selectedIndex st' = 1%nat ∧ Download "/v2.yaml" ∈ t_log st' ∧
    parseSearch (l_search (t_location st')) = Ok m' ∧
    (∀ j, j ≠ "urls.primaryName" → assoc m' j = assoc [("filter", JStr "a b")] j) ∧
    page_configs example_cfg m' = Some cfg' ∧
    componentDidMount cfg' example_page = Ok (loadSpec cfg' "/v2.yaml" (select_index 1 example_page)).
Proof.
  apply (choice_survives_reload example_cfg example_urls 1 (Spec "/v2.yaml" "runtimes & orchestrations") ""
           example_page [("filter", JStr "a b")] example_cfg example_page); try done;
    try (vm_compute; reflexivity).
  split_and!; [done| |]; apply (bool_decide_unpack _); vm_compute; exact I.
Defined.

Lemma downloads_without_authorization_witness :
  ∃ new, t_log (Topbar "/v3.yaml" 0 (t_location example_page)
           [RestoreAuthorization (JStr "token"); RestoreAuthorization (JObj []); UpdateUrl "/v3.yaml"; Download "/v3.yaml"]) =
         t_log example_page ++ new ∧ ∀ auth, is_Some (auth_after auth new).
Proof.
  apply (downloads_without_authorization example_cfg [EAuthorize (JStr "token"); EUrlChange "/v3.yaml"; EDownload]);
    reflexivity.
Defined.
