(* ===== verification/SwErr.v ===== *)
(** Swagger UI, the err plugin (src/core/plugins/err): the reducers that collect, transform and
    clear errors. The object DEFAULT_ERROR_STRUCTURE of the module is the target of Object.assign,
    so it is part of the state: what one error writes into it is inherited by later ones. *)

From S2P Require Import Prelude JsValue Json JsString.
From Stdlib Require Import Sorting.Permutation Sorting.Sorted.

Definition fields := list (string * jsval).

(** The module object and the branch [err] of the store. *)
Record err_state := ErrState { DEFAULT_ERROR_STRUCTURE : fields; errors : option (list fields) }.

Definition err_init : err_state :=
  ErrState [("line", JInt 0); ("level", JStr "error"); ("message", JStr "Unknown error")] None.

Definition allErrors (st : err_state) : list fields := default [] (errors st).
Definition lastError (st : err_state) : option fields := last (allErrors st).

(** * Transformers *)

(** One call of the reducer in [makeNewMessage(types)]: [n] is the length of the array, [i] the
    index, [r] the types after [c]. *)
Definition message_step (n i : nat) (p c : string) (r : list string) : string :=
  let next := match r with d :: _ => negb (String.eqb d "") | [] => false end in
  if bool_decide (i = n - 1 ∧ 1 < n) then p +:+ "or " +:+ c
  else if next && bool_decide (2 < n) then p +:+ c +:+ ", "
  else if next then p +:+ c +:+ " "
  else p +:+ c.

Fixpoint new_message (n i : nat) (p : string) (types : list string) : string :=
  match types with
  | [] => p
  | c :: r => new_message n (S i) (message_step n i p c r) r
  end.

Definition makeNewMessage (types : list string) : string := new_message (length types) 0 "should be a" types.

Definition seekStr : string := "is not of a type(s)".

(** The text before the first occurrence of [sub] and the text after it. *)
Fixpoint cut_at (sub pre s : string) : option (string * string) :=
  match strip_prefix sub s with
  | Some r => Some (pre, r)
  | None => match s with EmptyString => None | String c r => cut_at sub (pre +:+ String c "") r end
  end.

Definition not_of_type (err : fields) : result fields :=
  match assoc err "message" with
  | Some (JStr msg) =>
      match cut_at seekStr "" msg with
      | Some (pre, rest) => Ok (oset err "message" (JStr (pre +:+ makeNewMessage (split "," rest))))
      | None => Ok err
      end
  | v => Throw (not_a_function (default JUndef v) "indexOf")
  end.

(** A transformer that throws leaves the list as it was; the second transformer is disabled. *)
Definition transformErrors (errs : list fields) : list fields :=
  match mapM not_of_type errs with Ok r => r | _ => errs end.

(** * Reducers *)

(** [Object.assign(DEFAULT_ERROR_STRUCTURE, payload, {type})]. *)
Definition assign_default (def : fields) (payload : jsval) (type : string) : fields :=
  oset (spread def payload) "type" (JStr type).

Definition push_errors (st : err_state) (def : fields) (new : list fields) : err_state :=
  ErrState def (Some (transformErrors (allErrors st ++ new))).

Definition NEW_THROWN_ERR (st : err_state) (payload : jsval) : err_state :=
  let error := assign_default (DEFAULT_ERROR_STRUCTURE st) payload "thrown" in
  push_errors st error [error].

(** [payload.map(...)]: each element is copied before the next one is assigned. *)
Fixpoint assign_batch (def : fields) (payload : list jsval) (type : string) : fields * list fields :=
  match payload with
  | [] => (def, [])
  | p :: r => let e := assign_default def p type in
              let '(def', es) := assign_batch e r type in (def', e :: es)
  end.

Definition NEW_THROWN_ERR_BATCH (st : err_state) (payload : list jsval) : err_state :=
  let '(def, es) := assign_batch (DEFAULT_ERROR_STRUCTURE st) payload "thrown" in push_errors st def es.

Definition NEW_SPEC_ERR_BATCH (st : err_state) (payload : list jsval) : err_state :=
  let '(def, es) := assign_batch (DEFAULT_ERROR_STRUCTURE st) payload "spec" in push_errors st def es.

(** [sortBy(err => err.get("line"))]: a stable sort; errors without a line come last. *)
Definition line_le (a b : fields) : bool :=
  match assoc a "line", assoc b "line" with
  | Some (JNum m1 e1), Some (JNum m2 e2) => negb (num_lt m2 e2 m1 e1)
  | Some (JNum _ _), _ => true
  | _, Some (JNum _ _) => false
  | _, _ => true
  end.

Fixpoint insert_line (e : fields) (l : list fields) : list fields :=
  match l with
  | [] => [e]
  | x :: r => if line_le e x then e :: x :: r else x :: insert_line e r
  end.

Fixpoint sort_lines (l : list fields) : list fields :=
  match l with [] => [] | e :: r => insert_line e (sort_lines r) end.

Definition NEW_SPEC_ERR (st : err_state) (payload : fields) : err_state :=
  let error := oset payload "type" (JStr "spec") in
  ErrState (DEFAULT_ERROR_STRUCTURE st)
           (Some (transformErrors (sort_lines (allErrors st ++ [error])))).

Definition NEW_AUTH_ERR (st : err_state) (payload : jsval) : err_state :=
  let error := oset (spread [] payload) "type" (JStr "auth") in
  push_errors st (DEFAULT_ERROR_STRUCTURE st) [error].

(** An error is kept when no truthy value of the filter equals its own. *)
Definition kept (filter_ : fields) (err : fields) : bool :=
  forallb (λ kv, let filterValue := default JUndef (assoc filter_ kv.1) in
                 negb (truthy filterValue) || negb (strict_eq kv.2 filterValue)) err.

Definition CLEAR (st : err_state) (payload : option fields) : err_state :=
  match payload, errors st with
  | Some f, Some es => ErrState (DEFAULT_ERROR_STRUCTURE st) (Some (filter (λ e, kept f e = true) es))
  | _, _ => st
  end.

(** The payload is a function; without errors in the state the reducer throws. *)
Definition CLEAR_BY (st : err_state) (payload : option (fields → bool)) : result err_state :=
  match payload with
  | Some p => match errors st with
              | Some es => Ok (ErrState (DEFAULT_ERROR_STRUCTURE st) (Some (filter (λ e, p e = true) es)))
              | None => Throw (cannot_read JUndef "filter")
              end
  | None => Ok st
  end.

(** * Messages *)

Lemma new_message_prefix n i p types : new_message n i p types = p +:+ new_message n i "" types.
Proof.
  revert i p. induction types as [|c r IH]; intros i p; [simpl; by rewrite sapp_nil_r|].
  cbn [new_message]. rewrite IH. symmetry. rewrite IH. symmetry. unfold message_step.
  repeat case_match; by rewrite ?sapp_assoc.
Qed.

Lemma new_message_many n types : 2 < n → types ≠ [] → length types ≤ n →
  forallb (λ t, negb (String.eqb t "")) types = true →
  new_message n (n - length types) "" types =
    String.concat "" (map (λ t, t +:+ ", ") (removelast types)) +:+
    "or " +:+ List.last types "".
Proof.
  intros Hn. induction types as [|c [|d r] IH]; intros Hne Hl Hall; [done| |].
  - cbn [new_message]. unfold message_step. rewrite bool_decide_true by (simpl; lia). done.
  - cbn [forallb] in Hall. rewrite !andb_true_iff in Hall. destruct Hall as [Hc [Hd Hr]].
    cbn [length] in Hl |- *.
    assert (∀ i p l, new_message n i p (c :: l) = new_message n (S i) (message_step n i p c l) l) as -> by done.
    unfold message_step. rewrite bool_decide_false by (intros [H _]; lia).
    rewrite Hd, (bool_decide_true (2 < n)) by done. simpl andb. cbv iota.
    replace (S (n - S (S (length r)))) with (n - length (d :: r)) by (simpl; lia).
    rewrite new_message_prefix, IH; [|done|simpl; lia|cbn [forallb]; by rewrite Hd, Hr].
    change (removelast (c :: d :: r)) with (c :: removelast (d :: r)).
    change (List.last (c :: d :: r) "") with (List.last (d :: r) ""). cbn [map].
    destruct (removelast (d :: r)); cbn [map String.concat]; by rewrite ?sapp_nil_r, ?sapp_assoc.
Qed.

(** The text for an error about types lists them in English: one type as it is, two types
    joined by "or", and more types separated by commas with "or" before the last, for types that
    are not empty. *)
Theorem makeNewMessage_text (types : list string) : forallb (λ t, negb (String.eqb t "")) types = true →
  makeNewMessage types =
    "should be a" +:+
    match types with
    | [] => ""
    | [a] => a
    | [a; b] => a +:+ " or " +:+ b
    | _ => String.concat "" (map (λ t, t +:+ ", ") (removelast types)) +:+ "or " +:+ List.last types ""
    end.
Proof.
  intros Hall. unfold makeNewMessage. rewrite new_message_prefix. f_equal.
  destruct types as [|a [|b [|c r]]]; [done|by rewrite ?sapp_nil_r| |].
  - cbn [forallb] in Hall. rewrite !andb_true_iff in Hall. destruct Hall as (_ & Hb & _).
    cbn [new_message length]. unfold message_step. rewrite Hb. cbn. repeat case_bool_decide; try lia. by rewrite sapp_assoc.
  - rewrite <- (new_message_many (length (a :: b :: c :: r))); [by rewrite Nat.sub_diag|simpl; lia|done|done|done].
Qed.

Lemma makeNewMessage_text_witness :
  makeNewMessage [" object"; "array"; "string"] = "should be a object, array, or string".
Proof. rewrite makeNewMessage_text by reflexivity. reflexivity. Defined.

(** * Clearing *)

(** An error has the value [v] in the field [k]. *)
Definition has_field (k v : string) (e : fields) : bool :=
  match assoc e k with Some (JStr s) => String.eqb s v | _ => false end.

Lemma assoc_In e k v : assoc e k = Some v → (k, v) ∈ e.
Proof.
  induction e as [|[j u] e IH]; simpl; [done|]. destruct (String.eqb_spec j k) as [->|].
  - intros [= ->]. left.
  - intros H. right. auto.
Qed.

Lemma assoc_nodup (e : fields) k v : NoDup (map fst e) → (k, v) ∈ e → assoc e k = Some v.
Proof.
  induction e as [|[j u] e IH]; simpl; intros Hnd Hin; [by apply not_elem_of_nil in Hin|].
  apply NoDup_cons in Hnd as [Hj Hnd]. apply elem_of_cons in Hin as [[= <- <-]|Hin]; [by rewrite String.eqb_refl|].
  destruct (String.eqb_spec j k) as [->|]; [|by apply IH]. exfalso. apply Hj.
  apply list_elem_of_fmap. by exists (k, v).
Qed.

Lemma kept_one k v e : NoDup (map fst e) → v ≠ "" → kept [(k, JStr v)] e = negb (has_field k v e).
Proof.
  intros Hnd Hv. unfold kept, has_field. destruct (assoc e k) as [x|] eqn:E.
  - destruct (match x with JStr s => String.eqb s v | _ => false end) eqn:Ex.
    + destruct x as [| | | | |s| | |]; try done. apply String.eqb_eq in Ex as ->.
      apply not_true_iff_false. intros H. rewrite forallb_forall in H.
      specialize (H (k, JStr v)). simpl in H. rewrite !String.eqb_refl in H. simpl in H.
      apply String.eqb_neq in Hv. rewrite Hv in H. simpl in H.
      rewrite String.eqb_refl in H. enough (false = true) by done. apply H, list_elem_of_In. by apply assoc_In.
    + apply forallb_forall. intros [j u] Hin%list_elem_of_In. simpl.
      destruct (String.eqb_spec k j) as [<-|]; [|done]. simpl.
      apply (assoc_nodup e k u Hnd) in Hin. rewrite E in Hin. injection Hin as ->.
      apply orb_true_iff. right. destruct u as [| | | | |s| | |]; simpl in *; try done. by rewrite Ex.
  - apply forallb_forall. intros [j u] Hin%list_elem_of_In. simpl.
    destruct (String.eqb_spec k j) as [<-|]; [|done]. apply (assoc_nodup e k u Hnd) in Hin. congruence.
Qed.

(** Every error in the state has each field once. *)
Definition err_wf (st : err_state) : Prop :=
  NoDup (map fst (DEFAULT_ERROR_STRUCTURE st)) ∧ Forall (λ e, NoDup (map fst e)) (allErrors st).

Lemma spread_NoDup def v : NoDup (map fst def) → NoDup (map fst (spread def v)).
Proof.
  intros H. assert (∀ gs : fields, NoDup (map fst (foldl (λ acc kv, oset acc kv.1 kv.2) def gs))) as Hf.
  { intros gs. revert def H. induction gs as [|kv gs IH]; intros def H; [done|]. simpl. apply IH. by apply oset_NoDup. }
  destruct v; simpl; auto.
Qed.

Lemma not_of_type_keys e e' : not_of_type e = Ok e' → map fst e' = map fst e.
Proof.
  unfold not_of_type. destruct (assoc e "message") as [[| | | | |msg| | |]|] eqn:E; try done.
  destruct (cut_at _ _ _) as [[pre rest]|]; intros [= <-]; [|done].
  rewrite oset_keys, bool_decide_true; [done|]. apply list_elem_of_fmap.
  exists ("message", JStr msg). split; [done|]. by apply assoc_In.
Qed.

Lemma transform_NoDup es : Forall (λ e, NoDup (map fst e)) es → Forall (λ e, NoDup (map fst e)) (transformErrors es).
Proof.
  intros H. unfold transformErrors. destruct (mapM not_of_type es) as [r| |] eqn:E; [|done|done].
  apply result_mapM in E. induction E as [|e e' es r He _ IH]; [constructor|].
  inversion_clear H. constructor; [|auto]. by rewrite (not_of_type_keys e e' He).
Qed.

Lemma push_wf st def new : NoDup (map fst def) → Forall (λ e, NoDup (map fst e)) (allErrors st) →
  Forall (λ e, NoDup (map fst e)) new → err_wf (push_errors st def new).
Proof. intros Hd Hs Hn. split; [done|]. apply transform_NoDup. by apply Forall_app. Qed.

Lemma assign_default_NoDup def p t : NoDup (map fst def) → NoDup (map fst (assign_default def p t)).
Proof. intros H. by apply oset_NoDup, spread_NoDup. Qed.

Lemma assign_batch_NoDup def ps t : NoDup (map fst def) →
  NoDup (map fst (assign_batch def ps t).1) ∧ Forall (λ e, NoDup (map fst e)) (assign_batch def ps t).2.
Proof.
  revert def. induction ps as [|p ps IH]; intros def H; simpl; [by split|].
  pose proof (assign_default_NoDup def p t H) as Hd. destruct (IH _ Hd) as [H1 H2].
  destruct (assign_batch (assign_default def p t) ps t). simpl in *. split; [done|]. by constructor.
Qed.

Lemma sort_lines_perm l : Permutation (sort_lines l) l.
Proof.
  assert (∀ e l, Permutation (insert_line e l) (e :: l)) as Hi.
  { intros e k. induction k as [|x r IH]; simpl; [done|]. destruct (line_le e x); [done|].
    rewrite IH. constructor. }
  induction l as [|e l IH]; simpl; [done|]. rewrite Hi. by constructor.
Qed.

(** What dispatching one action of the plugin does. *)
Inductive err_step : err_state → err_state → Prop :=
| step_thrown st p : err_step st (NEW_THROWN_ERR st p)
| step_thrown_batch st ps : err_step st (NEW_THROWN_ERR_BATCH st ps)
| step_spec st p : NoDup (map fst p) → err_step st (NEW_SPEC_ERR st p)
| step_spec_batch st ps : err_step st (NEW_SPEC_ERR_BATCH st ps)
| step_auth st p : err_step st (NEW_AUTH_ERR st p)
| step_clear st p : err_step st (CLEAR st p)
| step_clear_by st p st' : CLEAR_BY st p = Ok st' → err_step st st'.

Lemma filter_NoDup_errs (p : fields → bool) es : Forall (λ e, NoDup (map fst e)) es →
  Forall (λ e, NoDup (map fst e)) (filter (λ e, p e = true) es).
Proof.
  intros H. apply Forall_forall. intros e Hin. apply list_elem_of_filter in Hin as [_ Hin].
  by apply (proj1 (Forall_forall _ _) H).
Qed.

Lemma err_step_wf st st' : err_step st st' → err_wf st → err_wf st'.
Proof.
  intros H [Hd He]. destruct H as [st p|st ps|st p Hp|st ps|st p|st p|st p st' H].
  - apply push_wf; [by apply assign_default_NoDup|done|]. repeat constructor. by apply assign_default_NoDup.
  - unfold NEW_THROWN_ERR_BATCH. destruct (assign_batch_NoDup (DEFAULT_ERROR_STRUCTURE st) ps "thrown" Hd).
    destruct (assign_batch _ ps _). by apply push_wf.
  - split; [done|]. apply transform_NoDup. rewrite sort_lines_perm. apply Forall_app. split; [done|].
    repeat constructor. by apply oset_NoDup.
  - unfold NEW_SPEC_ERR_BATCH. destruct (assign_batch_NoDup (DEFAULT_ERROR_STRUCTURE st) ps "spec" Hd).
    destruct (assign_batch _ ps _). by apply push_wf.
  - apply push_wf; [done|done|]. repeat constructor. apply oset_NoDup, spread_NoDup. constructor.
  - unfold CLEAR. destruct p as [f|]; [|done]. unfold err_wf, allErrors in *.
    destruct (errors st) as [es|] eqn:E; [|by rewrite E]. split; [done|]. simpl in *. by apply filter_NoDup_errs.
  - unfold CLEAR_BY in H. destruct p as [p|]; [|by injection H as <-]. unfold err_wf, allErrors in *.
    destruct (errors st) as [es|]; [|done]. injection H as <-. split; [done|]. simpl in *. by apply filter_NoDup_errs.
Qed.

Lemma err_steps_wf st : rtc err_step err_init st → err_wf st.
Proof.
  assert (err_wf err_init) as H0.
  { split; [|constructor]. apply (bool_decide_unpack _). vm_compute. exact I. }
  intros H. revert H0. induction H as [|st1 st2 st3 H1 _ IH]; [done|]. intros H0. apply IH. by eapply err_step_wf.
Qed.

Lemma clear_filter st k v : err_wf st → v ≠ "" →
  allErrors (CLEAR st (Some [(k, JStr v)])) = filter (λ e, has_field k v e = false) (allErrors st).
Proof.
  intros [_ Hwf] Hv. unfold CLEAR, allErrors in *.
  destruct (errors st) as [es|] eqn:E; [|by rewrite E]. simpl in *. clear E.
  induction Hwf as [|e es He _ IH]; [done|]. rewrite !filter_cons, (kept_one k v e He Hv), IH.
  by destruct (has_field k v e).
Qed.

(** In every state the reducers can reach, clearing by one field removes exactly the errors
    whose field has the given text and keeps the others in their order. *)
Theorem clear_exact st k v : rtc err_step err_init st → v ≠ "" →
  allErrors (CLEAR st (Some [(k, JStr v)])) = filter (λ e, has_field k v e = false) (allErrors st).
Proof. intros Hr. apply clear_filter. by apply err_steps_wf. Qed.

Lemma line_le_total a b : line_le a b = false → line_le b a = true.
Proof.
  unfold line_le. destruct (assoc a "line") as [[]|], (assoc b "line") as [[]|]; try done.
  unfold num_lt. rewrite negb_false_iff, negb_true_iff, Z.ltb_lt, Z.ltb_ge. lia.
Qed.

Lemma insert_sorted e l : Sorted (λ a b, line_le a b = true) l → Sorted (λ a b, line_le a b = true) (insert_line e l).
Proof.
  induction 1 as [|x l Hs IH Hh]; simpl; [by repeat constructor|].
  destruct (line_le e x) eqn:E; [by repeat constructor|]. constructor; [exact IH|].
  destruct l as [|y l]; simpl in *; [constructor; by apply line_le_total|].
  destruct (line_le e y); constructor; [by apply line_le_total|]. by inversion Hh.
Qed.

Lemma transform_lines es : Forall2 (λ a b, assoc a "line" = assoc b "line") es (transformErrors es).
Proof.
  unfold transformErrors. destruct (mapM not_of_type es) as [r| |] eqn:E; idtac.
  - apply result_mapM in E. eapply Forall2_impl; [exact E|]. intros a b. unfold not_of_type.
    destruct (assoc a "message") as [[]|]; try done. destruct (cut_at _ _ _) as [[]|]; intros [= <-]; [|done].
    by rewrite assoc_oset_ne.
  - clear E. by induction es; constructor.
  - clear E. by induction es; constructor.
Qed.

Lemma sorted_transfer l l' : Forall2 (λ a b, assoc a "line" = assoc b "line") l l' →
  Sorted (λ a b, line_le a b = true) l → Sorted (λ a b, line_le a b = true) l'.
Proof.
  induction 1 as [|a b l l' Hab H IH]; [done|]. intros Hs. inversion_clear Hs as [|? ? Hs' Hh]. constructor; [auto|].
  destruct H as [|c d l l' Hcd H]; constructor. inversion_clear Hh as [|? ? Hle]. unfold line_le in *. by rewrite <- Hab, <- Hcd.
Qed.

(** Adding an error never drops one: after a thrown, spec or authorization error the list
    has one more element, and a spec error leaves the list sorted by line. *)
Theorem new_error_added st p fs :
  length (allErrors (NEW_THROWN_ERR st p)) = S (length (allErrors st)) ∧
  length (allErrors (NEW_AUTH_ERR st p)) = S (length (allErrors st)) ∧
  length (allErrors (NEW_SPEC_ERR st fs)) = S (length (allErrors st)) ∧
  Sorted (λ a b, line_le a b = true) (allErrors (NEW_SPEC_ERR st fs)).
Proof.
  assert (∀ es, length (transformErrors es) = length es) as Ht.
  { intros es. unfold transformErrors. destruct (mapM not_of_type es) eqn:E; try done.
    apply result_mapM in E. by rewrite (Forall2_length _ _ _ E). }
  assert (∀ def e, length (allErrors (push_errors st def [e])) = S (length (allErrors st))) as Hp.
  { intros def e. change (allErrors (push_errors st def [e])) with (transformErrors (allErrors st ++ [e])). rewrite Ht, length_app. simpl. lia. }
  change (allErrors (NEW_SPEC_ERR st fs)) with (transformErrors (sort_lines (allErrors st ++ [oset fs "type" (JStr "spec")]))).
  split_and!; [apply Hp|apply Hp| |].
  - rewrite Ht, sort_lines_perm, length_app. simpl. lia.
  - eapply sorted_transfer; [apply transform_lines|].
    generalize (allErrors st ++ [oset fs "type" (JStr "spec")]) as l. intros l.
    induction l as [|e l IH]; simpl; [constructor|]. apply insert_sorted. exact IH.
Qed.

(** An error without a source of its own inherits the source of the error before it, and is then
    cleared together with it. *)
Lemma thrown_inherits_source :
  let fetch_failed := JObj [("message", JStr "Not Found /x"); ("source", JStr "fetch")] in
  let other := JObj [("message", JStr "boom")] in
  let st := NEW_THROWN_ERR (NEW_THROWN_ERR err_init fetch_failed) other in
  map (λ e, (assoc e "message", assoc e "source")) (allErrors st) =
    [(Some (JStr "Not Found /x"), Some (JStr "fetch")); (Some (JStr "boom"), Some (JStr "fetch"))] ∧
  allErrors (CLEAR st (Some [("source", JStr "fetch")])) = [].
Proof. by vm_compute. Qed.

Lemma clear_exact_witness :
  allErrors (CLEAR (NEW_THROWN_ERR err_init (JObj [("source", JStr "fetch")])) (Some [("source", JStr "parser")])) =
  filter (λ e, has_field "source" "parser" e = false) (allErrors (NEW_THROWN_ERR err_init (JObj [("source", JStr "fetch")]))).
Proof. apply clear_exact; [|discriminate]. apply rtc_once, step_thrown. Defined.
