(* ===== verification/SwAuth.v ===== *)
(** Swagger UI, the auth plugin (src/core/plugins/auth): the reducers of the authorizations, the
    selector that decides whether a request is authorized, persistence in the local storage of the
    browser, and the token requests of the OAuth flows with their error handling. *)

From S2P Require Import Prelude JsValue Json Buffer JsString SwEncode SwErr.

(** The branch [auth] of the store; [a_authorized] is undefined or a map from names to maps. *)
Record auth_state := AuthState {
  a_showDefinitions : jsval;
  a_authorized : jsval;
  a_configs : jsval
}.

(** * Reducers *)

Definition set_authorized (st : auth_state) (m : jsval) : auth_state :=
  AuthState (a_showDefinitions st) m (a_configs st).

Definition SHOW_AUTH_POPUP (st : auth_state) (payload : jsval) : auth_state :=
  AuthState payload (a_authorized st) (a_configs st).

Definition CONFIGURE_AUTH (st : auth_state) (payload : jsval) : auth_state :=
  AuthState (a_showDefinitions st) (a_authorized st) payload.

(** [m.set(k, v)] of a map; other values have no such method. *)
Definition map_set (m : jsval) (k : string) (v : jsval) : result jsval :=
  match m with JObj fs => Ok (JObj (oset fs k v)) | _ => Throw (not_a_function m "set") end.

Definition map_get (m : jsval) (k : string) : jsval :=
  match m with JObj fs => default JUndef (assoc fs k) | _ => JUndef end.

(** [getIn]: the value at a path of map keys. *)
Fixpoint getIn (v : jsval) (ks : list string) : jsval :=
  match ks with
  | [] => v
  | k :: r => match v with JObj fs => getIn (default JUndef (assoc fs k)) r | _ => JUndef end
  end.

Definition is_str (v : jsval) (s : string) : bool := match v with JStr t => String.eqb t s | _ => false end.

(** The fields of the map stored under [key]. *)
Definition sub_map (m : jsval) (key : string) : fields :=
  match map_get m key with JObj fs => fs | _ => [] end.

(** One iteration over the securities of the payload. *)
Definition authorize_one (m : jsval) (kv : string * jsval) : result jsval :=
  let '(key, security) := kv in
  match security with
  | JObj _ =>
      let type := getIn security ["schema"; "type"] in
      if is_str type "apiKey" || is_str type "http" then map_set m key security
      else if is_str type "basic" then
        let username := getIn security ["value"; "username"] in
        let password := getIn security ["value"; "password"] in
        let value := JObj [("username", username);
          ("header", JStr ("Basic " +:+ b64_encode (to_string username +:+ ":" +:+ to_string password)))] in
        m1 ← map_set m key (JObj (oset (sub_map m key) "value" value));
        map_set m1 key (JObj (oset (sub_map m1 key) "schema" (getIn security ["schema"])))
      else Ok m
  | _ => Ok m
  end.

Fixpoint authorize_all (m : jsval) (payload : fields) : result jsval :=
  match payload with [] => Ok m | kv :: r => m' ← authorize_one m kv; authorize_all m' r end.

(** [state.get("authorized") || Map()], also the selector [authorized]. *)
Definition authorized (st : auth_state) : jsval :=
  if truthy (a_authorized st) then a_authorized st else JObj [].

Definition AUTHORIZE (st : auth_state) (payload : fields) : result auth_state :=
  m ← authorize_all (authorized st) payload; Ok (set_authorized st m).

(** [auth] is an object with a name; the token is copied into it. *)
Definition AUTHORIZE_OAUTH2 (st : auth_state) (auth : fields) (token : jsval) : result auth_state :=
  let parsedAuth := oset auth "token" (JObj (spread [] token)) in
  m ← map_set (authorized st) (to_string (default JUndef (assoc auth "name"))) (JObj parsedAuth);
  Ok (set_authorized st m).

Definition LOGOUT (st : auth_state) (payload : list string) : result auth_state :=
  match a_authorized st with
  | JObj m => Ok (set_authorized st (JObj (foldl odelete m payload)))
  | v => Throw (not_a_function v "withMutations")
  end.

Definition RESTORE_AUTHORIZATION (st : auth_state) (payload : jsval) : auth_state := set_authorized st payload.

(** * Selectors *)

(** [isAuthorized(securities)]: [None] stands for null, the answer for anything but a list. *)
Definition isAuthorized (st : auth_state) (securities : option (list fields)) : option bool :=
  match securities with
  | None => None
  | Some l => Some (bool_decide (filter (λ security,
      forallb (λ kv, truthy (map_get (authorized st) kv.1)) security = true) l ≠ []))
  end.

(** * Persistence *)

(** [persistAuthorizationIfNeeded]: [storage] is the item "authorized" of the local storage. *)
Definition persistAuthorizationIfNeeded (persistAuthorization : jsval) (st : auth_state) (storage : option string)
    : option string :=
  if truthy persistAuthorization
  then match stringify "" (authorized st) with JStr s => Some s | _ => storage end
  else storage.

(** [configsActions.loaded()] with the reducer of its action. *)
Definition restore_loaded (persistAuthorization : jsval) (st : auth_state) (storage : option string) : result auth_state :=
  if truthy persistAuthorization then
    match storage with
    | Some s => if String.eqb s "" then Ok st
                else v ← parse (JStr s); Ok (RESTORE_AUTHORIZATION st v)
    | None => Ok st
    end
  else Ok st.

(** * Token requests *)

(** What the request for a token settles with. *)
Inductive token_result :=
| TokenResponse (data : jsval) (ok : bool) (statusText : jsval)
| TokenRejected (e : jsval).

Inductive auth_action :=
| NewAuthErr (err : fields)
| AuthorizeOauth2 (token : jsval).

Definition auth_err (name : string) (message : jsval) : auth_action :=
  NewAuthErr [("authId", JStr name); ("level", JStr "error"); ("source", JStr "auth"); ("message", message)].

(** [token && (token.k || "")] for a parsed token. *)
Definition token_field (token : jsval) (k : string) : bool :=
  truthy token && truthy (default JUndef (own token k)).

(** The details of a failed request; a text that is not JSON is ignored. *)
Definition error_details (errData : jsval) : string :=
  let json := match errData with JStr _ => parse errData | v => Ok v end in
  match json with
  | Ok v =>
      if nullish v then "" else
      let field k label := let x := default JUndef (own v k) in
                           if truthy x then label +:+ to_string x else "" in
      field "error" ", error: " +:+ field "error_description" ", description: "
  | _ => ""
  end.

(** The handler of a rejection, also of an exception in the handler of the response. *)
Definition token_catch (name : string) (e : jsval) : result auth_action :=
  let message := to_string e in
  response ← getp e "response";
  let errData := if truthy response then default JUndef (own response "data") else JUndef in
  Ok (auth_err name (JStr (message +:+ (if truthy errData then error_details errData else "")))).

Definition token_then (name : string) (data : jsval) (ok : bool) (statusText : jsval) : result auth_action :=
  token ← parse data;
  if negb ok then Ok (auth_err name statusText)
  else if token_field token "error" || token_field token "parseError"
  then Ok (auth_err name (stringify "" token))
  else Ok (AuthorizeOauth2 token).

(** The promise chain of [authorizeRequest]. *)
Definition authorizeRequest_settled (name : string) (r : token_result) : result auth_action :=
  match r with
  | TokenResponse data ok statusText =>
      match token_then name data ok statusText with
      | Ok a => Ok a
      | Throw e => token_catch name e
      | Hang => Hang
      end
  | TokenRejected e => token_catch name e
  end.

(** The form of each flow. *)
Definition with_client (form : fields) (clientId clientSecret : jsval) : fields :=
  let form := if truthy clientId then oset form "client_id" clientId else form in
  if truthy clientSecret then oset form "client_secret" clientSecret else form.

Definition basic_header (clientId clientSecret : jsval) : string :=
  "Basic " +:+ b64_encode (to_string clientId +:+ ":" +:+ to_string clientSecret).

(** [authorizePassword]: the body and the Authorization header. *)
Definition authorizePassword (scopes : list string) (username password : jsval) (passwordType : string)
    (clientId clientSecret : jsval) : string * option string :=
  let form := [("grant_type", JStr "password"); ("scope", JStr (join " " scopes));
               ("username", username); ("password", password)] in
  if String.eqb passwordType "request-body" then (buildFormData (with_client form clientId clientSecret), None)
  else if String.eqb passwordType "basic" then (buildFormData form, Some (basic_header clientId clientSecret))
  else (buildFormData form, None).

Definition authorizeApplication (scopes : list string) (clientId clientSecret : jsval) : string * option string :=
  (buildFormData [("grant_type", JStr "client_credentials"); ("scope", JStr (join " " scopes))],
   Some (basic_header clientId clientSecret)).

Definition authorizeAccessCodeWithFormParams (code clientId clientSecret redirectUrl codeVerifier : jsval)
    : string * option string :=
  (buildFormData [("grant_type", JStr "authorization_code"); ("code", code); ("client_id", clientId);
                  ("client_secret", clientSecret); ("redirect_uri", redirectUrl); ("code_verifier", codeVerifier)],
   None).

Definition authorizeAccessCodeWithBasicAuthentication (code clientId clientSecret redirectUrl codeVerifier : jsval)
    : string * option string :=
  (buildFormData [("grant_type", JStr "authorization_code"); ("code", code); ("client_id", clientId);
                  ("redirect_uri", redirectUrl); ("code_verifier", codeVerifier)],
   Some (basic_header clientId clientSecret)).

(** [preAuthorizeImplicit]: the errors reported, and whether the token is stored. *)
Definition preAuthorizeImplicit (name : string) (flow : jsval) (isValid : bool) (token : jsval) : list auth_action :=
  (if negb (is_str flow "accessCode") && negb isValid
   then [NewAuthErr [("authId", JStr name); ("source", JStr "auth"); ("level", JStr "warning");
          ("message", JStr "Authorization may be unsafe, passed state was changed in server Passed state wasn't returned from auth server")]]
   else []) ++
  (if truthy (default JUndef (own token "error"))
   then [NewAuthErr [("authId", JStr name); ("source", JStr "auth"); ("level", JStr "error");
          ("message", stringify "" token)]]
   else [AuthorizeOauth2 token]).

(** * Authorizations *)

Definition map_wf (st : auth_state) : Prop := ∃ m, authorized st = JObj m.

Lemma map_get_set m k v m' : map_set m k v = Ok m' → map_get m' k = v ∧ ∀ j, j ≠ k → map_get m' j = map_get m j.
Proof.
  destruct m; try done. intros [= <-]. simpl. split; [by rewrite assoc_oset_eq|].
  intros j Hj. by rewrite assoc_oset_ne.
Qed.

(** Authorizing with a user name and a password stores the name and a header whose base64
    part decodes to name, colon and password; nothing else is stored for the security but its
    schema, in particular not the password itself, and the other authorizations stay. *)
Theorem basic_authorization st fs key username password schema st' :
  authorized st = JObj fs → assoc fs key = None → is_str (getIn schema ["type"]) "basic" = true →
  AUTHORIZE st [(key, JObj [("schema", schema); ("value", JObj [("username", JStr username); ("password", JStr password)])])] = Ok st' →
  ∃ code, map_get (authorized st') key =
            JObj [("value", JObj [("username", JStr username); ("header", JStr ("Basic " +:+ code))]); ("schema", schema)] ∧
          b64_decode code = username +:+ ":" +:+ password ∧
          ∀ j, j ≠ key → map_get (authorized st') j = map_get (authorized st) j.
Proof.
  intros Hm Hk Ht H. unfold AUTHORIZE in H. rewrite Hm in *. cbn [authorize_all] in H.
  assert (getIn schema ["type"] = getIn (JObj [("schema", schema);
    ("value", JObj [("username", JStr username); ("password", JStr password)])]) ["schema"; "type"]) as E by done.
  rewrite E in Ht. unfold authorize_one in H.
  assert (∀ s, String.eqb s "basic" = false → is_str (getIn (JObj [("schema", schema);
    ("value", JObj [("username", JStr username); ("password", JStr password)])]) ["schema"; "type"]) s = false) as Hn.
  { intros s Hs. revert Ht. destruct (getIn _ ["schema"; "type"]); try done. simpl. intros Ht%String.eqb_eq. subst.
    by rewrite String.eqb_sym. }
  rewrite Ht, (Hn "apiKey" eq_refl), (Hn "http" eq_refl) in H. cbn [orb map_set] in H.
  unfold sub_map, map_get in H. rewrite Hk in H. cbn [default from_option] in H. simpl in H.
  rewrite assoc_oset_eq in H. simpl in H. injection H as <-.
  exists (b64_encode (username +:+ ":" +:+ password)). unfold authorized, set_authorized. simpl.
  split_and!.
  - by rewrite assoc_oset_eq.
  - apply b64_decode_encode.
  - intros j Hj. by rewrite !assoc_oset_ne.
Qed.

(** A request is authorized exactly when for one of its alternative security requirements
    every security it names has an authorization. *)
Theorem isAuthorized_iff st securities :
  isAuthorized st (Some securities) = Some true ↔
  ∃ security, security ∈ securities ∧
    ∀ name v, (name, v) ∈ security → truthy (map_get (authorized st) name) = true.
Proof.
  unfold isAuthorized.
  assert (∀ security : fields, forallb (λ kv, truthy (map_get (authorized st) kv.1)) security = true ↔
    ∀ name v, (name, v) ∈ security → truthy (map_get (authorized st) name) = true) as Hs.
  { intros security. rewrite forallb_forall. split.
    - intros H name v Hin. apply (H (name, v)). by apply list_elem_of_In.
    - intros H [name v] Hin. by apply (H name v), list_elem_of_In. }
  split.
  - intros [= H]. apply bool_decide_eq_true_1 in H.
    destruct (filter _ securities) as [|x l] eqn:E; [done|]. exists x.
    assert (x ∈ filter (λ security, forallb (λ kv, truthy (map_get (authorized st) kv.1)) security = true) securities) as Hx
      by (rewrite E; left).
    apply list_elem_of_filter in Hx as [Hx Hin]. split; [done|]. by apply Hs.
  - intros (x & Hin & Hx). f_equal. apply bool_decide_true. intros E.
    apply (not_elem_of_nil x). rewrite <- E. apply list_elem_of_filter. split; [by apply Hs|done].
Qed.

Lemma odelete_list m names k :
  assoc (foldl odelete m names) k = if bool_decide (k ∈ names) then None else assoc m k.
Proof.
  revert m. induction names as [|n names IH]; intros m; simpl; [done|]. rewrite IH.
  destruct (decide (k = n)) as [->|Hne].
  - rewrite assoc_odelete_eq, (bool_decide_true (n ∈ n :: names)) by left. by destruct (bool_decide _).
  - rewrite assoc_odelete_ne by done. case_bool_decide as H1; case_bool_decide as H2; try done; set_solver.
Qed.

(** Logging out removes exactly the named authorizations. *)
Theorem logout_exact st m names : a_authorized st = JObj m →
  ∃ st', LOGOUT st names = Ok st' ∧
    ∀ k, map_get (authorized st') k = if bool_decide (k ∈ names) then JUndef else map_get (authorized st) k.
Proof.
  intros Hm. unfold LOGOUT. rewrite Hm. eexists; split; [done|]. intros k.
  unfold authorized, set_authorized. rewrite Hm. simpl. rewrite odelete_list. by destruct (bool_decide _).
Qed.

Lemma stringify_obj gap fs : ∃ s, stringify gap (JObj fs) = JStr s ∧ s ≠ "".
Proof.
  unfold stringify. cbn [ser]. eexists; split; [reflexivity|]. unfold wrap. repeat case_match; done.
Qed.

(** Authorizations that are kept in the local storage survive a reload of the page: what
    persistAuthorizationIfNeeded wrote is restored by loaded, for every map of JSON values. *)
Theorem authorization_persists persist st fs storage st0 :
  truthy persist = true → authorized st = JObj fs → json_ok (JObj fs) →
  ∃ st', restore_loaded persist st0 (persistAuthorizationIfNeeded persist st storage) = Ok st' ∧
         authorized st' = authorized st.
Proof.
  intros Hp Ha Hok. unfold restore_loaded, persistAuthorizationIfNeeded. rewrite Hp, Ha.
  pose proof (parse_stringify "" (JObj fs) Hok eq_refl) as Hr.
  destruct (stringify_obj "" fs) as (s & Hs & Hne). rewrite Hs in *. apply String.eqb_neq in Hne. rewrite Hne, Hr.
  eexists; split; [reflexivity|]. done.
Qed.

(** * Token requests *)

Lemma parse_throws v e : parse v = Throw e → nullish e = false ∧ own e "response" = None.
Proof.
  unfold parse, parse_text. repeat case_match; intros; simplify_eq; done.
Qed.

Lemma token_catch_ok name e : nullish e = false →
  ∃ msg, token_catch name e = Ok (auth_err name (JStr msg)).
Proof. intros He. unfold token_catch, getp. rewrite He. simpl. eauto. Qed.

(** The token is usable: the response is a success and its JSON reports no error. *)
Definition token_granted (r : token_result) (token : jsval) : Prop :=
  ∃ data statusText, r = TokenResponse data true statusText ∧ parse data = Ok token ∧
    token_field token "error" = false ∧ token_field token "parseError" = false.

(** C25: every token request ends in exactly one action: the token is stored if and only if the
    response is a success with JSON that reports no error, and otherwise an error of level error is
    recorded under the name of the authorization. This holds for network failures, error
    statuses, texts that are not JSON and errors inside the token. *)
Theorem token_request_outcome name r :
  (∀ e, r = TokenRejected e → nullish e = false) →
  ∃ a, authorizeRequest_settled name r = Ok a ∧
    match a with
    | AuthorizeOauth2 token => token_granted r token
    | NewAuthErr err => (¬ ∃ token, token_granted r token) ∧
        assoc err "authId" = Some (JStr name) ∧ assoc err "level" = Some (JStr "error")
    end.
Proof.
  intros Hr. destruct r as [data ok statusText|e].
  - unfold authorizeRequest_settled, token_then. destruct (parse data) as [token|e|] eqn:Ep.
    + simpl. destruct ok; simpl.
      * destruct (token_field token "error") eqn:E1; simpl.
        { eexists; split; [done|]. split_and!; try done. intros (t & d & s & H & Hp & H1 & _). simplify_eq. congruence. }
        destruct (token_field token "parseError") eqn:E2; simpl.
        { eexists; split; [done|]. split_and!; try done. intros (t & d & s & H & Hp & _ & H1). simplify_eq. congruence. }
        eexists; split; [done|]. by exists data, statusText.
      * eexists; split; [done|]. split_and!; try done. by intros (t & d & s & H & _).
    + simpl. destruct (parse_throws data e Ep) as [He _]. destruct (token_catch_ok name e He) as [msg ->].
      eexists; split; [done|]. split_and!; try done. intros (t & d & s & H & Hp & _). simplify_eq. congruence.
    + by destruct (parse_not_hang data).
  - simpl. destruct (token_catch_ok name e (Hr e eq_refl)) as [msg ->].
    eexists; split; [done|]. split_and!; try done. by intros (t & d & s & H & _).
Qed.

(** The request of the authorization code flow carries exactly its parameters: a server reads
    the code, the client, the redirect address and the verifier back as they are, whatever
    characters they contain, and the Basic header of the other variant decodes to the client and
    its secret. *)
Theorem access_code_request code id secret redirect verifier :
  code ≠ "" → id ≠ "" → secret ≠ "" → redirect ≠ "" → verifier ≠ "" →
  form_decode (authorizeAccessCodeWithFormParams (JStr code) (JStr id) (JStr secret) (JStr redirect) (JStr verifier)).1 =
    Some [("grant_type", "authorization_code"); ("code", code); ("client_id", id); ("client_secret", secret);
          ("redirect_uri", redirect); ("code_verifier", verifier)] ∧
  ∃ b, authorizeAccessCodeWithBasicAuthentication (JStr code) (JStr id) (JStr secret) (JStr redirect) (JStr verifier) =
       (b, Some ("Basic " +:+ b64_encode (id +:+ ":" +:+ secret))) ∧
       b64_decode (b64_encode (id +:+ ":" +:+ secret)) = id +:+ ":" +:+ secret ∧
       form_decode b = Some [("grant_type", "authorization_code"); ("code", code); ("client_id", id);
                             ("redirect_uri", redirect); ("code_verifier", verifier)].
Proof.
  intros. assert (∀ k s, s ≠ "" → form_sent (k, JStr s) = true) as Hs by (intros k []; done).
  split; [|eexists; split_and!; [reflexivity|apply b64_decode_encode|]];
    (cbn [fst authorizeAccessCodeWithFormParams]; rewrite form_roundtrip by (repeat constructor));
    rewrite !filter_cons, !Hs by done; reflexivity.
Qed.

(** * Witnesses *)

Definition no_auth : auth_state := AuthState JUndef JUndef JUndef.

Lemma basic_authorization_witness :
  ∃ code, map_get (authorized (set_authorized no_auth (JObj [("b", JObj
            [("value", JObj [("username", JStr "kyma"); ("header", JStr "Basic a3ltYTpwdw==")]); ("schema", JObj [("type", JStr "basic")])])]))) "b" =
            JObj [("value", JObj [("username", JStr "kyma"); ("header", JStr ("Basic " +:+ code))]); ("schema", JObj [("type", JStr "basic")])] ∧
          b64_decode code = "kyma" +:+ ":" +:+ "pw" ∧
          ∀ j, j ≠ "b" → map_get (authorized (set_authorized no_auth (JObj [("b", JObj
            [("value", JObj [("username", JStr "kyma"); ("header", JStr "Basic a3ltYTpwdw==")]); ("schema", JObj [("type", JStr "basic")])])]))) j =
            map_get (authorized no_auth) j.
Proof.
  apply (basic_authorization no_auth [] "b" "kyma" "pw" (JObj [("type", JStr "basic")])); vm_compute; reflexivity.
Defined.

Lemma logout_exact_witness :
  ∃ st', LOGOUT (set_authorized no_auth (JObj [("a", JObj []); ("b", JObj [])])) ["a"] = Ok st' ∧
    ∀ k, map_get (authorized st') k = if bool_decide (k ∈ ["a"]) then JUndef
         else map_get (authorized (set_authorized no_auth (JObj [("a", JObj []); ("b", JObj [])]))) k.
Proof. apply (logout_exact _ [("a", JObj []); ("b", JObj [])]). reflexivity. Defined.

Lemma authorization_persists_witness :
  ∃ st', restore_loaded (JBool true) no_auth
           (persistAuthorizationIfNeeded (JBool true) (set_authorized no_auth (JObj [("k", JObj [("value", JStr "t")])])) None) = Ok st' ∧
         authorized st' = authorized (set_authorized no_auth (JObj [("k", JObj [("value", JStr "t")])])).
Proof.
  apply (authorization_persists (JBool true) _ [("k", JObj [("value", JStr "t")])]); [done|done|].
  cbn. split; [apply NoDup_singleton|]. split; [|done]. split; [apply NoDup_singleton|done].
Defined.

Lemma token_request_outcome_witness :
  ∃ a, authorizeRequest_settled "oauth" (TokenResponse (JStr "<html>") true (JStr "OK")) = Ok a ∧
    match a with
    | AuthorizeOauth2 token => token_granted (TokenResponse (JStr "<html>") true (JStr "OK")) token
    | NewAuthErr err => (¬ ∃ token, token_granted (TokenResponse (JStr "<html>") true (JStr "OK")) token) ∧
        assoc err "authId" = Some (JStr "oauth") ∧ assoc err "level" = Some (JStr "error")
    end.
Proof. apply token_request_outcome. discriminate. Defined.

Lemma access_code_request_witness :
  form_decode (authorizeAccessCodeWithFormParams (JStr "a+b c") (JStr "id") (JStr "&") (JStr "https://x/y") (JStr "v")).1 =
    Some [("grant_type", "authorization_code"); ("code", "a+b c"); ("client_id", "id"); ("client_secret", "&");
          ("redirect_uri", "https://x/y"); ("code_verifier", "v")].
Proof. apply (access_code_request "a+b c" "id" "&" "https://x/y" "v"); discriminate. Defined.
