(* ===== verification/SwStore.v ===== *)
(** Swagger UI, the store (src/core/system.js) and two plugins that work on it: the reducers are
    wrapped so that one that throws changes nothing; the download plugin (plugins/download-url.js)
    loads a definition asynchronously; the layout plugin keeps what is shown. Downloads may overlap:
    the page is a transition system in which responses arrive in any order. *)

From S2P Require Import Prelude JsValue Json JsString SwErr.

(** * Reducers of the system *)

Section System.
Context {S A : Type}.

(** [wrapWithTryCatch(fn)(...)]: [None] is null, the result after an exception. *)
Definition wrapWithTryCatch {B} (r : result B) : option B := match r with Ok b => Some b | _ => None end.

(** [makeReducer(reducerObj)]: the reducers are looked up by the type of the action. *)
Definition makeReducer (reducerObj : string → option (S → A → result S)) (state : S) (type : string) (action : A) : S :=
  match reducerObj type with
  | Some redFn => default state (wrapWithTryCatch (redFn state action))
  | None => state
  end.
End System.

(** [objMap] and [objReduce] of core/utils.js, with which the system is assembled. *)
Definition objMap {A B} (obj : list (string * A)) (fn : A → string → B) : list (string * B) :=
  map (λ kv, (kv.1, fn kv.2 kv.1)) obj.

Definition objReduce {A} (obj : list (string * A)) (fn : A → string → jsval) : fields :=
  foldl (λ newObj kv, match fn kv.2 kv.1 with
                      | JObj fs => foldl (λ acc p, oset acc p.1 p.2) newObj fs
                      | _ => newObj
                      end) [] obj.

(** * The state a download works on *)

Record page := Page { p_spec : option string; p_url : string; p_loadingStatus : option string; p_err : err_state }.

Definition UPDATE_SPEC (st : page) (payload : string) : page :=
  Page (Some payload) (p_url st) (p_loadingStatus st) (p_err st).
Definition UPDATE_URL (st : page) (payload : string) : page :=
  Page (p_spec st) payload (p_loadingStatus st) (p_err st).
Definition spec_update_loading_status (st : page) (payload : string) : page :=
  Page (p_spec st) (p_url st) (Some payload) (p_err st).
Definition set_err (st : page) (e : err_state) : page :=
  Page (p_spec st) (p_url st) (p_loadingStatus st) e.

(** [updateSpec(spec)]: tabs become two spaces. *)
Definition cleanSpec (spec : string) : string := replace_char (ch 9) "  " spec.
Definition updateSpec (st : page) (spec : string) : page := UPDATE_SPEC st (cleanSpec spec).

(** serialize-error: a plain object with the properties of the error. *)
Class SerializeError := serializeError : jsval → fields.
Class SerializeErrorLaws `(SerializeError) : Prop := {
  serializeError_own n m fs k v : own (JErr n m fs) k = Some v → assoc (serializeError (JErr n m fs)) k = Some v;
  serializeError_new n m fs k : own (JErr n m fs) k = None → k ∉ ["stack"; "code"] →
    assoc (serializeError (JErr n m fs)) k = None;
  serializeError_NoDup e : NoDup (map fst (serializeError e))
}.

Definition newThrownErr `{SerializeError} (st : page) (e : jsval) : page :=
  set_err st (NEW_THROWN_ERR (p_err st) (JObj (serializeError e))).

Definition fetch_error (msg : string) : jsval := JErr "Error" msg [("source", JStr "fetch")].

(** What the request settles with, and the URL parser of the browser ([None] when it throws). *)
Record fetch_result := FetchResult {
  f_isError : bool; f_message : jsval; f_statusText : jsval; f_status : jsval; f_text : string
}.
Record url_parts := UrlParts { up_protocol : string; up_origin : string }.
Class Browser := { new_URL : string → option url_parts; page_protocol : string; page_origin : string }.

Section Download.
Context `{Ser : SerializeError, Br : Browser}.

(** [url || specSelectors.url()], and the synchronous part of [download]. *)
Definition download_url (st : page) (url : string) : string := if String.eqb url "" then p_url st else url.

Definition download (st : page) : page :=
  let st := spec_update_loading_status st "loading" in
  set_err st (CLEAR (p_err st) (Some [("source", JStr "fetch")])).

Definition checkPossibleFailReasons (st : page) (url : string) : page :=
  match new_URL url with
  | None => st
  | Some specUrl =>
      if negb (String.eqb (up_protocol specUrl) "https:") && String.eqb page_protocol "https:" then
        newThrownErr st (fetch_error ("Possible mixed-content issue? The page was loaded over https:// but a " +:+
          up_protocol specUrl +:+
          "// URL was specified. Check that you are not attempting to load mixed content."))
      else if negb (String.eqb (up_origin specUrl) page_origin) then
        newThrownErr st (fetch_error ("Possible cross-origin (CORS) issue? The URL origin (" +:+
          up_origin specUrl +:+ ") does not match the page (" +:+ page_origin +:+
          "). Check the server returns the correct 'Access-Control-Allow-*' headers."))
      else st
  end.

(** [res.status >= 400]. *)
Definition bad_status (res : fetch_result) : bool :=
  match to_number (f_status res) with JNum m e => negb (num_lt m e 400 0) | _ => false end.

Definition fetch_failed (res : fetch_result) : bool := f_isError res || bad_status res.

(** The continuation of the request, for a response and for a failure. *)
Definition next (st : page) (url : string) (res : fetch_result) : page :=
  if fetch_failed res then
    let st := spec_update_loading_status st "failed" in
    let st := newThrownErr st (fetch_error
      (to_string (if truthy (f_message res) then f_message res else f_statusText res) +:+ " " +:+ url)) in
    if negb (truthy (f_status res)) && f_isError res then checkPossibleFailReasons st url else st
  else
    let st := spec_update_loading_status st "success" in
    let st := updateSpec st (f_text res) in
    if negb (String.eqb (p_url st) url) then UPDATE_URL st url else st.

(** ** Overlapping downloads *)

(** The page, the addresses of the requests that are not settled yet, and the successful responses
    so far. *)
Record loading := Loading { ld_page : page; ld_pending : list string; ld_arrived : list (string * string) }.

(** A definition is chosen (its address is set and the download starts), or the response of a
    pending request arrives. *)
Inductive lstep : loading → loading → Prop :=
| lstep_load st pend arr url : url ≠ "" →
    lstep (Loading st pend arr) (Loading (download (UPDATE_URL st url)) (url :: pend) arr)
| lstep_arrive st pend1 pend2 arr url res :
    lstep (Loading st (pend1 ++ url :: pend2) arr)
          (Loading (next st url res) (pend1 ++ pend2)
                   (if fetch_failed res then arr else (url, cleanSpec (f_text res)) :: arr)).

Lemma newThrownErr_rest st e : p_spec (newThrownErr st e) = p_spec st ∧ p_url (newThrownErr st e) = p_url st ∧
  p_loadingStatus (newThrownErr st e) = p_loadingStatus st.
Proof. done. Qed.

Lemma reasons_rest st url : p_spec (checkPossibleFailReasons st url) = p_spec st ∧
  p_url (checkPossibleFailReasons st url) = p_url st ∧
  p_loadingStatus (checkPossibleFailReasons st url) = p_loadingStatus st.
Proof. unfold checkPossibleFailReasons. by repeat case_match. Qed.

Lemma next_failed st url res : fetch_failed res = true →
  p_loadingStatus (next st url res) = Some "failed" ∧ p_spec (next st url res) = p_spec st ∧
  p_url (next st url res) = p_url st.
Proof.
  intros Hf. unfold next. rewrite Hf. destruct (negb _ && _); [|done].
  match goal with |- context [checkPossibleFailReasons ?s url] => destruct (reasons_rest s url) as (-> & -> & ->) end.
  done.
Qed.

Lemma next_success st url res : fetch_failed res = false →
  p_loadingStatus (next st url res) = Some "success" ∧ p_spec (next st url res) = Some (cleanSpec (f_text res)) ∧
  p_url (next st url res) = url ∧ p_err (next st url res) = p_err st.
Proof.
  intros Hf. unfold next. rewrite Hf. simpl. destruct (String.eqb_spec (p_url st) url); simpl; done.
Qed.

Definition load_inv (l : loading) : Prop :=
  (p_loadingStatus (ld_page l) = Some "success" →
     ∃ t, p_spec (ld_page l) = Some t ∧ (p_url (ld_page l), t) ∈ ld_arrived l) ∧
  (p_loadingStatus (ld_page l) = Some "loading" → ld_pending l ≠ []).

Lemma lstep_inv l l' : lstep l l' → load_inv l → load_inv l'.
Proof.
  intros H _. destruct H as [st pend arr url Hu|st pend1 pend2 arr url res].
  - split; simpl; done.
  - destruct (fetch_failed res) eqn:Ef.
    + destruct (next_failed st url res Ef) as (Hs & _ & _). split; simpl; by rewrite Hs.
    + destruct (next_success st url res Ef) as (Hs & Ht & Hu & _). split; simpl; rewrite Hs; [|done].
      intros _. rewrite Ht, Hu. eexists; split; [done|]. left.
Qed.
End Download.

Lemma load_inv_reach `{Ser : SerializeError, Br : Browser} l0 l :
  p_loadingStatus (ld_page l0) ≠ Some "success" → p_loadingStatus (ld_page l0) ≠ Some "loading" →
  rtc lstep l0 l → load_inv l.
Proof.
  intros H1 H2 Hr. assert (load_inv l0) as H0 by (by split). clear H1 H2.
  induction Hr as [|l1 l2 l3 Hs _ IH]; [done|]. apply IH. by eapply lstep_inv.
Qed.

(** C4: whatever definitions are chosen and in whatever order their responses arrive, a page that
    reports success shows a definition together with its own address: text and address come from the
    same successful response. *)
Theorem shown_definition_consistent `{Ser : SerializeError, Br : Browser} l0 l :
  p_loadingStatus (ld_page l0) ≠ Some "success" → p_loadingStatus (ld_page l0) ≠ Some "loading" →
  rtc lstep l0 l → p_loadingStatus (ld_page l) = Some "success" →
  ∃ t, p_spec (ld_page l) = Some t ∧ (p_url (ld_page l), t) ∈ ld_arrived l.
Proof.
  intros H1 H2 Hr. exact (proj1 (load_inv_reach l0 l H1 H2 Hr)).
Qed.

Lemma lstep_pending `{Ser : SerializeError, Br : Browser} l res :
  rtc lstep l (Loading (foldl (λ st u, next st u (res u)) (ld_page l) (ld_pending l)) []
    (rev (omap (λ u, if fetch_failed (res u) then None else Some (u, cleanSpec (f_text (res u)))) (ld_pending l)) ++ ld_arrived l)).
Proof.
  destruct l as [st pend arr]. simpl. revert st arr. induction pend as [|u pend IH]; intros st arr; [constructor|].
  eapply rtc_l; [apply (lstep_arrive st [] pend arr u (res u))|]. simpl.
  destruct (fetch_failed (res u)); [apply IH|]. simpl. rewrite <- app_assoc. apply IH.
Qed.

(** C30: loading always comes to an end: from any reachable page, once each pending request has
    been answered, whatever the answers and their order, the page no longer reports that it is
    loading, and the answers can always be delivered. *)
Theorem loading_ends `{Ser : SerializeError, Br : Browser} l0 l :
  p_loadingStatus (ld_page l0) ≠ Some "success" → p_loadingStatus (ld_page l0) ≠ Some "loading" →
  rtc lstep l0 l →
  (ld_pending l = [] → p_loadingStatus (ld_page l) ≠ Some "loading") ∧
  ∀ res : string → fetch_result, ∃ l', rtc lstep l l' ∧ ld_pending l' = [] ∧
    p_loadingStatus (ld_page l') ≠ Some "loading".
Proof.
  intros H1 H2 Hr. assert (∀ k, rtc lstep l0 k → ld_pending k = [] → p_loadingStatus (ld_page k) ≠ Some "loading") as Hk.
  { intros k Hk Hp Hl. by apply (proj2 (load_inv_reach l0 k H1 H2 Hk)) in Hl. }
  split; [by apply Hk|]. intros res. pose proof (lstep_pending l res) as Hp. eexists; split_and!; [exact Hp|done|].
  apply Hk; [|done]. by etrans.
Qed.

(** ** One download *)

Lemma own_source_assoc `{Ser : SerializeError} `{!SerializeErrorLaws Ser} msg :
  assoc (serializeError (fetch_error msg)) "source" = Some (JStr "fetch").
Proof. by apply serializeError_own. Qed.

Lemma assign_default_source def v k x t : k ≠ "type" → assoc (rev v) k = Some x →
  assoc (assign_default def (JObj v) t) k = Some x.
Proof.
  intros Hk Hx. unfold assign_default. rewrite assoc_oset_ne by done. simpl. by rewrite assoc_foldl_oset, Hx.
Qed.

Lemma transform_source es e : e ∈ es → has_field "source" "fetch" e = true →
  ∃ e', e' ∈ transformErrors es ∧ has_field "source" "fetch" e' = true.
Proof.
  intros Hin He. unfold transformErrors. destruct (mapM not_of_type es) as [r| |] eqn:E; [|by exists e|by exists e].
  apply result_mapM in E. apply list_elem_of_lookup_1 in Hin as [i Hi].
  destruct (Forall2_lookup_l _ _ _ i e E Hi) as (e' & Hi' & Hn). exists e'.
  split; [by eapply list_elem_of_lookup_2|]. unfold not_of_type in Hn.
  destruct (assoc e "message") as [[]|]; try done. destruct (cut_at _ _ _) as [[]|]; injection Hn as <-; [|done].
  unfold has_field in *. by rewrite assoc_oset_ne.
Qed.

Lemma newThrownErr_source `{Ser : SerializeError} `{!SerializeErrorLaws Ser} st msg :
  ∃ e, e ∈ allErrors (p_err (newThrownErr st (fetch_error msg))) ∧ has_field "source" "fetch" e = true.
Proof.
  set (e := assign_default (DEFAULT_ERROR_STRUCTURE (p_err st)) (JObj (serializeError (fetch_error msg))) "thrown").
  apply (transform_source (allErrors (p_err st) ++ [e]) e); [apply elem_of_app; right; left|].
  unfold has_field, e. rewrite (assign_default_source _ _ _ (JStr "fetch")); [done|done|].
  rewrite assoc_rev by apply serializeError_NoDup. apply own_source_assoc.
Qed.

Lemma transform_length es : length (transformErrors es) = length es.
Proof.
  unfold transformErrors. destruct (mapM not_of_type es) eqn:E; try done.
  apply result_mapM in E. by rewrite (Forall2_length _ _ _ E).
Qed.

(** Adding an error keeps the source of the errors already there. *)
Lemma thrown_keeps_source st p e : e ∈ allErrors st → has_field "source" "fetch" e = true →
  ∃ e', e' ∈ allErrors (NEW_THROWN_ERR st p) ∧ has_field "source" "fetch" e' = true.
Proof.
  intros Hin He. apply (transform_source (allErrors st ++ [assign_default (DEFAULT_ERROR_STRUCTURE st) p "thrown"]) e); [|done].
  apply elem_of_app. by left.
Qed.

Lemma reasons_keep_source `{Ser : SerializeError, Br : Browser} st url e :
  e ∈ allErrors (p_err st) → has_field "source" "fetch" e = true →
  ∃ e', e' ∈ allErrors (p_err (checkPossibleFailReasons st url)) ∧ has_field "source" "fetch" e' = true.
Proof.
  intros Hin He. unfold checkPossibleFailReasons. repeat case_match; eauto; by eapply thrown_keeps_source.
Qed.

(** A download that nothing interrupts ends in one of two ways. Success: the status says so,
    the text and the address are those of the response, and no error of an earlier download is
    left. Failure: the status says so, the definition shown before stays, and an error with the
    source "fetch" is recorded. *)
Theorem download_outcome `{Ser : SerializeError, Br : Browser} `{!SerializeErrorLaws Ser} st url res :
  err_wf (p_err st) →
  let st' := next (download (UPDATE_URL st url)) url res in
  if fetch_failed res then
    p_loadingStatus st' = Some "failed" ∧ p_spec st' = p_spec st ∧ p_url st' = url ∧
    ∃ e, e ∈ allErrors (p_err st') ∧ has_field "source" "fetch" e = true
  else
    p_loadingStatus st' = Some "success" ∧ p_spec st' = Some (cleanSpec (f_text res)) ∧ p_url st' = url ∧
    ∀ e, e ∈ allErrors (p_err st') → has_field "source" "fetch" e = false.
Proof.
  intros Hwf st'. destruct (fetch_failed res) eqn:Ef.
  - destruct (next_failed (download (UPDATE_URL st url)) url res Ef) as (Hs & Ht & Hu).
    split_and!; [done|done|done|]. unfold st', next. rewrite Ef.
    set (st1 := newThrownErr _ _).
    assert (∃ e, e ∈ allErrors (p_err st1) ∧ has_field "source" "fetch" e = true) as He by apply newThrownErr_source.
    destruct (negb _ && _); [|exact He]. destruct He as (e & Hin & He). by eapply reasons_keep_source.
  - destruct (next_success (download (UPDATE_URL st url)) url res Ef) as (Hs & Ht & Hu & He).
    split_and!; [done|done|done|]. unfold st'. rewrite He. intros e Hin.
    assert (e ∈ filter (λ e, has_field "source" "fetch" e = false) (allErrors (p_err st))) as Hin'.
    { rewrite <- (clear_filter (p_err st) "source" "fetch") by done. exact Hin. }
    by apply list_elem_of_filter in Hin' as [H _].
Qed.

(** * Layout *)

(** The branch [layout]: what is shown, by the path of the thing. *)
Record layout_state := LayoutState { lo_layout : jsval; lo_filter : jsval; lo_shown : gmap (list string) jsval }.

Definition UPDATE_LAYOUT (st : layout_state) (payload : jsval) : layout_state :=
  LayoutState payload (lo_filter st) (lo_shown st).
Definition UPDATE_FILTER (st : layout_state) (payload : jsval) : layout_state :=
  LayoutState (lo_layout st) payload (lo_shown st).
Definition SHOW (st : layout_state) (thing : list string) (shown : jsval) : layout_state :=
  LayoutState (lo_layout st) (lo_filter st) (<[thing := shown]> (lo_shown st)).

Definition normalizeArray (thing : string + list string) : list string :=
  match thing with inl s => [s] | inr l => l end.

(** The action [show] with its default and the reducer. *)
Definition show (st : layout_state) (thing : string + list string) (shown : option jsval) : layout_state :=
  SHOW st (normalizeArray thing) (default (JBool true) shown).

Definition isShown (st : layout_state) (thing : string + list string) (def : jsval) : jsval :=
  default def (lo_shown st !! normalizeArray thing).

(** What the layout was told to show is what it reports: the last value for the same thing,
    given as a name or as a path, and the old answer for every other thing; the layout and the
    filter are not affected. *)
Theorem show_isShown st thing other shown def :
  isShown (show st thing shown) other def =
    (if decide (normalizeArray other = normalizeArray thing) then default (JBool true) shown else isShown st other def) ∧
  lo_layout (show st thing shown) = lo_layout st ∧ lo_filter (show st thing shown) = lo_filter st.
Proof.
  split_and!; [|done|done]. unfold isShown, show. simpl.
  destruct (decide _) as [->|Hne]; [by rewrite lookup_insert_eq|by rewrite lookup_insert_ne].
Qed.

(** * Witnesses *)

(** The properties of an error without repetitions, [name] and [message] first. *)
#[export] Instance serialize_plain : SerializeError := λ e,
  match e with
  | JErr n m fs => foldl (λ acc kv, oset acc kv.1 kv.2) [] (rev fs ++ [("name", JStr n); ("message", JStr m)])
  | _ => []
  end.

#[export] Instance browser_none : Browser := {| new_URL := λ _, None; page_protocol := "https:"; page_origin := "https://keb" |}.

Definition empty_page : page := Page None "" None err_init.
Definition ok_response : fetch_result := FetchResult false JUndef (JStr "OK") (JInt 200) "openapi: 3.0.0".

#[export] Instance serialize_plain_laws : SerializeErrorLaws serialize_plain.
Proof.
  split.
  - intros n m fs k v. unfold serializeError, serialize_plain. rewrite assoc_foldl_oset, rev_app_distr, rev_involutive.
    unfold own. destruct (String.eqb_spec k "name") as [->|Hn]; [by intros [= <-]|].
    destruct (String.eqb_spec k "message") as [->|Hm]; [by intros [= <-]|]. intros Hv. cbn [rev app assoc].
    destruct (String.eqb_spec "message" k); [congruence|]. destruct (String.eqb_spec "name" k); [congruence|]. by rewrite Hv.
  - intros n m fs k. unfold serializeError, serialize_plain. rewrite assoc_foldl_oset, rev_app_distr, rev_involutive.
    unfold own. destruct (String.eqb_spec k "name") as [->|Hn]; [done|].
    destruct (String.eqb_spec k "message") as [->|Hm]; [done|]. intros Hv _. cbn [rev app assoc].
    destruct (String.eqb_spec "message" k); [congruence|]. destruct (String.eqb_spec "name" k); [congruence|]. by rewrite Hv.
  - intros e. unfold serializeError, serialize_plain. destruct e; try (by constructor).
    generalize (rev fs ++ [("name", JStr name); ("message", JStr msg)]) as l. intros l.
    assert (NoDup (map fst ([] : fields))) as H by constructor. revert H. generalize ([] : fields) as acc.
    induction l as [|kv l IH]; intros acc H; [done|]. simpl. apply IH. by apply oset_NoDup.
Qed.

Lemma err_init_wf : err_wf err_init.
Proof. split; [|constructor]. apply (bool_decide_unpack _). vm_compute. exact I. Qed.

Lemma load_once : rtc lstep (Loading empty_page [] [])
  (Loading (next (download (UPDATE_URL empty_page "/a.yaml")) "/a.yaml" ok_response) [] [("/a.yaml", "openapi: 3.0.0")]).
Proof.
  eapply rtc_l; [by apply (lstep_load empty_page [] [] "/a.yaml")|].
  eapply rtc_l; [apply (lstep_arrive _ [] [] [] "/a.yaml" ok_response)|]. constructor.
Qed.

Lemma shown_definition_consistent_witness :
  ∃ t, p_spec (next (download (UPDATE_URL empty_page "/a.yaml")) "/a.yaml" ok_response) = Some t ∧
       ("/a.yaml", t) ∈ [("/a.yaml", "openapi: 3.0.0")].
Proof.
  pose proof (shown_definition_consistent (Loading empty_page [] [])
    (Loading (next (download (UPDATE_URL empty_page "/a.yaml")) "/a.yaml" ok_response) [] [("/a.yaml", "openapi: 3.0.0")])
    ltac:(discriminate) ltac:(discriminate) load_once) as H.
  apply H. vm_compute. reflexivity.
Defined.

Lemma loading_ends_witness :
  p_loadingStatus (next (download (UPDATE_URL empty_page "/a.yaml")) "/a.yaml" ok_response) ≠ Some "loading".
Proof.
  exact (proj1 (loading_ends (Loading empty_page [] [])
    (Loading (next (download (UPDATE_URL empty_page "/a.yaml")) "/a.yaml" ok_response) [] [("/a.yaml", "openapi: 3.0.0")])
    ltac:(discriminate) ltac:(discriminate) load_once) eq_refl).
Defined.

Lemma download_outcome_witness :
  let st' := next (download (UPDATE_URL empty_page "/a.yaml")) "/a.yaml" ok_response in
  p_loadingStatus st' = Some "success" ∧ p_spec st' = Some (cleanSpec "openapi: 3.0.0") ∧ p_url st' = "/a.yaml" ∧
  ∀ e, e ∈ allErrors (p_err st') → has_field "source" "fetch" e = false.
Proof. exact (download_outcome empty_page "/a.yaml" ok_response err_init_wf). Defined.

(** Two definitions chosen in a row: the response that arrives last is shown, even if its
    definition was chosen first. *)
Example last_response_wins :
  let st := download (UPDATE_URL (download (UPDATE_URL empty_page "/a.yaml")) "/b.yaml") in
  let st := next (next st "/b.yaml" (FetchResult false JUndef JUndef (JInt 200) "b")) "/a.yaml"
                 (FetchResult false JUndef JUndef (JInt 200) "a") in
  (p_spec st, p_url st) = (Some "a", "/a.yaml").
Proof. reflexivity. Qed.
