(* ===== verification/SwDeepLink.v ===== *)
(** Swagger UI, links to operations: the plugin core/plugins/deep-linking, which writes what the
    user opens into the fragment of the address, and opens it again when the page is loaded; with
    createDeepLinkPath of core/utils.js and the links of core/components/deep-link.jsx. The state is
    the layout branch of the store, the fragment of the address and what the page scrolled to. *)

From S2P Require Import Prelude JsValue Json Buffer JsString SwEncode SwStore.

(** * The fragment of the address *)

(** What the browser does with the fragment of a new address: white space and control characters
    at the end, tabs and line breaks are dropped, and the characters below are percent-encoded. *)
Definition url_break (c : Ascii.ascii) : bool := existsb (N.eqb (code c)) [9; 10; 13]%N.

Definition fragment_char (c : Ascii.ascii) : bool :=
  ((32 <? code c) && (code c <? 127))%N && negb (existsb (N.eqb (code c)) [34; 60; 62; 96]%N).

Definition fragment_pct (c : Ascii.ascii) : string :=
  if url_break c then "" else if fragment_char c then String c "" else hex_pct c.

Fixpoint fragment (s : string) : string :=
  match s with EmptyString => "" | String c r => fragment_pct c +:+ fragment r end.

Fixpoint drop_controls (s : string) : string :=
  match s with String c r => if (code c <=? 32)%N then drop_controls r else s | EmptyString => "" end.

Definition url_trim_end (s : string) : string := srev (drop_controls (srev s "")) "".

(** [window.location.hash] after going to [#value]. *)
Definition location_hash (value : string) : string :=
  let f := fragment (url_trim_end value) in if String.eqb f "" then "" else "#" +:+ f.

(** * Paths in links *)

(** [str.replace(/\s/g, "%20")]. *)
Fixpoint replace_white (fuel : nat) (s : string) : string :=
  match fuel with
  | O => s
  | S f => match strip_any white s with
           | Some r => "%20" +:+ replace_white f r
           | None => match s with String c r => String c (replace_white f r) | EmptyString => "" end
           end
  end.

Definition createDeepLinkPath (str : string) : string := let t := trim str in replace_white (String.length t) t.

(** The address of a link: [href={`#/${path}`}]. *)
Definition DeepLink (path : string) : string := "/" +:+ path.

(** * State *)

(** An element of the page, with the position and the overflow of its ancestors, nearest first. *)
Record node := Node { nd_id : nat; nd_position : string; nd_parents : list (string * string) }.

(** [dl_scrolled] records what was scrolled to, in which container: the n-th ancestor, or none for
    the document. *)
Record dlstate := DL {
  dl_layout : layout_state;
  dl_scrollToKey : option (list string);
  dl_hash : string;
  dl_console : list jsval;
  dl_scrolled : list (option nat * nat)
}.

Definition set_layout (l : layout_state) (st : dlstate) : dlstate :=
  DL l (dl_scrollToKey st) (dl_hash st) (dl_console st) (dl_scrolled st).
Definition set_hash (h : string) (st : dlstate) : dlstate :=
  DL (dl_layout st) (dl_scrollToKey st) h (dl_console st) (dl_scrolled st).
Definition log (v : jsval) (st : dlstate) : dlstate :=
  DL (dl_layout st) (dl_scrollToKey st) (dl_hash st) (v :: dl_console st) (dl_scrolled st).

Definition setHash (value : string) (st : dlstate) : dlstate :=
  if String.eqb value "" then set_hash "" st else set_hash (location_hash value) st.

(** The reducers of the plugin. *)
Definition SCROLL_TO (path : list string) (st : dlstate) : dlstate :=
  DL (dl_layout st) (Some path) (dl_hash st) (dl_console st) (dl_scrolled st).
Definition CLEAR_SCROLL_TO (st : dlstate) : dlstate :=
  DL (dl_layout st) None (dl_hash st) (dl_console st) (dl_scrolled st).

(** * Keys of shown things and their place in the address *)

Definition isShownKeyFromUrlHashArray (urlHashArray : list string) : list string :=
  let tag := default "" (urlHashArray !! 0%nat) in
  let operationId := default "" (urlHashArray !! 1%nat) in
  if negb (String.eqb operationId "") then ["operations"; tag; operationId]
  else if negb (String.eqb tag "") then ["operations-tag"; tag] else [].

(** A part that the key does not have is undefined. *)
Definition urlHashArrayFromIsShownKey (isShownKey : list string) : list (option string) :=
  if String.eqb (default "undefined" (isShownKey !! 0%nat)) "operations" then [isShownKey !! 1%nat; isShownKey !! 2%nat]
  else if String.eqb (default "undefined" (isShownKey !! 0%nat)) "operations-tag" then [isShownKey !! 1%nat] else [].

(** [encodeURIComponent(v)], where undefined is the text of that name. *)
Definition encode_part (v : option string) : string := encodeURIComponent (default "undefined" v).

Section DeepLinking.
Context (deepLinking : jsval).

(** The wrapped action [show]: the action itself, then the address. *)
Definition deep_show (thing : string + list string) (shown : option jsval) (st : dlstate) : dlstate :=
  let st := set_layout (show (dl_layout st) thing shown) st in
  if negb (truthy deepLinking) then st
  else match urlHashArrayFromIsShownKey (normalizeArray thing) with
       | [] => st
       | urlHashArray =>
           if negb (truthy (default JUndef shown)) then setHash "/" st
           else match urlHashArray with
                | [type; assetName] =>
                    setHash (createDeepLinkPath ("/" +:+ encode_part type +:+ "/" +:+ encode_part assetName)) st
                | [type] => setHash (createDeepLinkPath ("/" +:+ encode_part type)) st
                | _ => st
                end
       end.

Definition drop_first (c : Ascii.ascii) (s : string) : string :=
  match s with String d r => if Ascii.eqb d c then r else s | EmptyString => "" end.

Definition slice1 (s : string) : string := match s with String _ r => r | EmptyString => "" end.

Definition has_underscore (s : string) : bool := includes s "_".
Definition spaced (key : list string) : list string := map (replace_char (ch 95) " ") key.

Definition deprecated : jsval :=
  JStr "Warning: escaping deep link whitespace with `_` will be unsupported in v4.0, use `%20` instead.".

(** The legacy form of a key is shown too when a part has an underscore. *)
Definition show_legacy (legacy : bool) (key : list string) (st : dlstate) : dlstate :=
  deep_show (inr key) (Some (JBool true))
    (if legacy then deep_show (inr (spaced key)) (Some (JBool true)) (log deprecated st) else st).

Definition parseDeepLinkHash (rawHash : string) (st : dlstate) : dlstate :=
  if negb (truthy deepLinking) || String.eqb rawHash "" then st
  else
    let hash := drop_first (ch 47) (drop_first (ch 33) (slice1 rawHash)) in
    let hashArray := split "/" hash in
    let isShownKey := isShownKeyFromUrlHashArray hashArray in
    let tagId := default "" (isShownKey !! 1%nat) in
    let maybeOperationId := default "" (isShownKey !! 2%nat) in
    let st := if bool_decide (isShownKey !! 0%nat = Some "operations")
              then show_legacy (has_underscore tagId) (isShownKeyFromUrlHashArray [tagId]) st
              else st in
    SCROLL_TO isShownKey (show_legacy (has_underscore tagId || has_underscore maybeOperationId) isShownKey st).

(** The wrapped action [loaded]; the original works on the rest of the store. An exception ends the
    action and is written to the console. *)
Definition deep_loaded {A} (ori : A → result A) (a : A) (st : dlstate) : A * dlstate :=
  match ori a with
  | Ok a' => match decodeURIComponent (dl_hash st) with
             | Ok hash => (a', parseDeepLinkHash hash st)
             | Throw e => (a', log e st)
             | Hang => (a', st)
             end
  | Throw e => (a, log e st)
  | Hang => (a, st)
  end.
End DeepLinking.

(** * Scrolling *)

Definition scrollable (includeHidden : bool) (overflow : string) : bool :=
  includes overflow "auto" || includes overflow "scroll" || (includeHidden && includes overflow "hidden").

Fixpoint scroll_parent (excludeStatic includeHidden : bool) (i : nat) (parents : list (string * string)) : option nat :=
  match parents with
  | [] => None
  | (position, overflow) :: r =>
      if excludeStatic && String.eqb position "static" then scroll_parent excludeStatic includeHidden (S i) r
      else if scrollable includeHidden overflow then Some i
      else scroll_parent excludeStatic includeHidden (S i) r
  end.

Definition getScrollParent (element : node) (includeHidden : bool) : option nat :=
  if String.eqb (nd_position element) "fixed" then None
  else scroll_parent (String.eqb (nd_position element) "absolute") includeHidden 0 (nd_parents element).

(** zenscroll moves the container to the element. *)
Definition scrollToElement (ref : node) (st : dlstate) : dlstate :=
  DL (dl_layout st) (dl_scrollToKey st) (dl_hash st) (dl_console st)
     ((getScrollParent ref false, nd_id ref) :: dl_scrolled st).

Definition readyToScroll (isShownKey : list string) (ref : node) (st : dlstate) : dlstate :=
  if bool_decide (dl_scrollToKey st = Some isShownKey) then CLEAR_SCROLL_TO (scrollToElement ref st) else st.

(** The elements of the page as they are rendered: [onLoad] of the wrapped components. *)
Definition render (elements : list (list string * node)) (st : dlstate) : dlstate :=
  foldl (λ st kn, readyToScroll kn.1 kn.2 st) st elements.

(** * The things a link can name *)

Inductive thing := Tag (tag : string) | Operation (tag operationId : string).

(** [isShownKey] of the components OperationTag and OperationContainer. *)
Definition thing_key (t : thing) : list string :=
  match t with Tag tag => ["operations-tag"; tag] | Operation tag op => ["operations"; tag; op] end.

Definition tag_key (t : thing) : list string :=
  match t with Tag tag | Operation tag _ => ["operations-tag"; tag] end.

Definition parts (t : thing) : list string := match t with Tag tag => [tag] | Operation tag op => [tag; op] end.

Definition linkable (s : string) : Prop := text s ∧ s ≠ "" ∧ includes s "/" = false.

(** The page before anything is opened, at an address. *)
Definition opened_at (hash : string) : dlstate := DL (LayoutState JUndef JUndef ∅) None hash [] [].

(** * Lemmas: addresses that the plugin writes *)

Lemma srev_spec s a b : srev (srev s a) b = srev a (s +:+ b).
Proof. revert a. induction s as [|c s IH]; intros a; [done|]. cbn [srev String.append]. by rewrite IH. Qed.

Lemma srev_involutive s : srev (srev s "") "" = s.
Proof. by rewrite srev_spec, sapp_nil_r. Qed.

Lemma sforall_srev p s a : sforall p (srev s a) = sforall p s && sforall p a.
Proof.
  revert a. induction s as [|c s IH]; intros a; [done|]. cbn [srev sforall]. rewrite IH. cbn [sforall].
  by rewrite andb_assoc, (andb_comm (sforall p s)).
Qed.

(** The characters of an encoded path. *)
Definition path_char (c : Ascii.ascii) : bool := uri_char c || (code c =? 47)%N.

Definition other_head (c : Ascii.ascii) (u : string) : bool :=
  match u with String d _ => negb (Ascii.eqb d c) | EmptyString => false end.

Lemma strip_any_other units c s : forallb (other_head c) units = true → strip_any units (String c s) = None.
Proof.
  unfold strip_any. intros H. replace (omap (λ u, strip_prefix u (String c s)) units) with (@nil string); [done|].
  induction units as [|[|d u] units IH]; [done|done|]. cbn [forallb other_head] in H. apply andb_true_iff in H as [Hd H].
  apply negb_true_iff in Hd. cbn [omap list_omap strip_prefix]. rewrite Hd. by apply IH.
Qed.

Lemma path_char_heads c : path_char c = true →
  forallb (other_head c) white = true ∧ forallb (other_head c) (map (λ u, srev u "") white) = true.
Proof.
  intros H. apply andb_true_iff. revert c H. apply char_implies. vm_compute. reflexivity.
Qed.

Lemma strip_any_path c s : path_char c = true →
  strip_any white (String c s) = None ∧ strip_any (map (λ u, srev u "") white) (String c s) = None.
Proof. intros H. destruct (path_char_heads c H). split; by apply strip_any_other. Qed.

Lemma drop_units_path units f s :
  (∀ c r, path_char c = true → strip_any units (String c r) = None) → strip_any units "" = None →
  sforall path_char s = true → drop_units units f s = s.
Proof.
  intros Hu H0 Hs. destruct f; [done|]. cbn [drop_units]. destruct s as [|c s]; [by rewrite H0|].
  cbn [sforall] in Hs. apply andb_true_iff in Hs as [Hc _]. by rewrite Hu.
Qed.

Lemma trim_path s : sforall path_char s = true → trim s = s.
Proof.
  intros Hs. unfold trim, trim_end, trim_start.
  rewrite (drop_units_path white _ s (λ c r H, proj1 (strip_any_path c r H)) eq_refl Hs).
  rewrite (drop_units_path (map (λ u, srev u "") white) _ (srev s "") (λ c r H, proj2 (strip_any_path c r H)) eq_refl);
    [apply srev_involutive|]. rewrite sforall_srev, Hs. reflexivity.
Qed.

Lemma replace_white_path s : sforall path_char s = true → ∀ f, replace_white f s = s.
Proof.
  induction s as [|c s IH]; intros Hs [|f]; try done. cbn [sforall] in Hs. apply andb_true_iff in Hs as [Hc Hs].
  cbn [replace_white]. rewrite (proj1 (strip_any_path c s Hc)), IH; done.
Qed.

Lemma createDeepLinkPath_path s : sforall path_char s = true → createDeepLinkPath s = s.
Proof. intros Hs. unfold createDeepLinkPath. cbv zeta. rewrite trim_path, replace_white_path; done. Qed.

Lemma fragment_path s : sforall path_char s = true → fragment s = s.
Proof.
  induction s as [|c s IH]; [done|]. cbn [sforall fragment]. rewrite andb_true_iff. intros [Hc Hs]. rewrite (IH Hs).
  replace (fragment_pct c) with (String c ""); [done|]. revert Hc. destruct c as [[] [] [] [] [] [] [] []]; try discriminate; done.
Qed.

Lemma url_trim_end_path s : sforall path_char s = true → url_trim_end s = s.
Proof.
  intros Hs. unfold url_trim_end. replace (drop_controls (srev s "")) with (srev s ""); [apply srev_involutive|].
  assert (sforall path_char (srev s "") = true) as H by (rewrite sforall_srev, Hs; done).
  destruct (srev s "") as [|c r]; [done|]. cbn [sforall drop_controls] in *. apply andb_true_iff in H as [Hc _].
  revert Hc. destruct c as [[] [] [] [] [] [] [] []]; try discriminate; done.
Qed.

Lemma location_hash_path s : sforall path_char s = true → s ≠ "" → location_hash s = "#" +:+ s.
Proof.
  intros Hs Hne. unfold location_hash. rewrite url_trim_end_path, fragment_path by done. cbv zeta.
  apply String.eqb_neq in Hne. by rewrite Hne.
Qed.

(** ** The address of a thing *)

Definition link (t : thing) : string := "/" +:+ join "/" (map encodeURIComponent (parts t)).

Lemma link_chars t : sforall path_char (link t) = true.
Proof.
  assert (∀ s, sforall path_char (encodeURIComponent s) = true) as He.
  { intros s. eapply sforall_impl; [|apply encode_chars]. intros c Hc. unfold path_char. by rewrite Hc. }
  destruct t as [tag|tag op]; unfold link, parts; cbn [map join]; rewrite !sforall_app, !He; done.
Qed.

Lemma setHash_path s st : sforall path_char s = true → s ≠ "" → setHash (createDeepLinkPath s) st = set_hash ("#" +:+ s) st.
Proof.
  intros Hs Hne. unfold setHash. rewrite createDeepLinkPath_path, location_hash_path by done.
  apply String.eqb_neq in Hne. by rewrite Hne.
Qed.

Lemma deep_show_thing dl t st : truthy dl = true →
  deep_show dl (inr (thing_key t)) (Some (JBool true)) st =
  set_hash ("#" +:+ link t) (set_layout (show (dl_layout st) (inr (thing_key t)) (Some (JBool true))) st).
Proof.
  intros Hdl. unfold deep_show. rewrite Hdl.
  destruct t as [tag|tag op]; cbn [negb thing_key normalizeArray];
    [change (urlHashArrayFromIsShownKey ["operations-tag"; tag]) with [Some tag]
    |change (urlHashArrayFromIsShownKey ["operations"; tag; op]) with [Some tag; Some op]];
    cbn [default truthy negb]; unfold encode_part; cbn [default from_option];
    rewrite setHash_path; try done.
  - apply (link_chars (Tag tag)).
  - apply (link_chars (Operation tag op)).
Qed.

Lemma unpct_encode_app s r : unpct (encodeURIComponent s +:+ r) = String.append s <$> unpct r.
Proof.
  induction s as [|c s IH]; [change (encodeURIComponent "" +:+ r) with r; by destruct (unpct r)|].
  cbn [encodeURIComponent]. rewrite sapp_assoc, unpct_pct, IH.
  by destruct (unpct r).
Qed.

Lemma decode_link t : Forall text (parts t) →
  decodeURIComponent ("#" +:+ link t) = Ok ("#/" +:+ join "/" (parts t)).
Proof.
  intros Ht. assert (unpct ("#" +:+ link t) = Some ("#/" +:+ join "/" (parts t))) as Hu.
  { unfold link. change ("#" +:+ "/" +:+ ?x) with (String (ch 35) (String (ch 47) x)). rewrite !unpct_plain by done.
    destruct t as [tag|tag op]; cbn [parts map join]; [by rewrite unpct_encode|].
    rewrite unpct_encode_app. change ("/" +:+ ?x) with (String (ch 47) x). by rewrite unpct_plain, unpct_encode. }
  unfold decodeURIComponent. rewrite Hu.
  assert (text ("#/" +:+ join "/" (parts t))) as H.
  { apply text_app; [done|]. destruct t as [tag|tag op]; cbn [parts join] in *; decompose_Forall_hyps; [done|].
    apply text_app; [done|]. by apply (text_app "/"). }
  rewrite H, String.eqb_refl. done.
Qed.

(** ** Opening an address *)

Lemma split_parts t : Forall linkable (parts t) → split "/" (join "/" (parts t)) = parts t.
Proof.
  intros H. change "/" with (String (ch 47) ""). apply split_join; [by destruct t|].
  eapply Forall_impl; [exact H|]. intros x (_ & _ & Hx). exact Hx.
Qed.

Lemma linkable_ne s : linkable s → String.eqb s "" = false.
Proof. intros (_ & H & _). by apply String.eqb_neq. Qed.

Lemma key_of_parts t : Forall linkable (parts t) → isShownKeyFromUrlHashArray (parts t) = thing_key t.
Proof.
  intros H. unfold isShownKeyFromUrlHashArray.
  destruct t as [tag|tag op]; cbn [parts] in *; decompose_Forall_hyps; simpl; by rewrite linkable_ne.
Qed.

(** What is opened along with the thing. *)
Definition restored (t : thing) : list (list string) :=
  [thing_key t; tag_key t] ++
  (if has_underscore (default "" (parts t !! 0%nat)) then [spaced (tag_key t)] else []) ++
  (if existsb has_underscore (parts t) then [spaced (thing_key t)] else []).

Section Opening.
Context (dl : jsval) (Hdl : truthy dl = true).

Lemma parse_link t st : Forall linkable (parts t) →
  parseDeepLinkHash dl ("#/" +:+ join "/" (parts t)) st =
  SCROLL_TO (thing_key t) (show_legacy dl (existsb has_underscore (parts t)) (thing_key t)
    (match t with
     | Operation tag _ => show_legacy dl (has_underscore tag) ["operations-tag"; tag] st
     | Tag _ => st
     end)).
Proof.
  intros Hp. unfold parseDeepLinkHash. rewrite Hdl.
  change (drop_first (ch 47) (drop_first (ch 33) (slice1 ("#/" +:+ join "/" (parts t))))) with (join "/" (parts t)).
  change (String.eqb ("#/" +:+ join "/" (parts t)) "") with false. cbv iota beta delta [negb orb].
  rewrite split_parts, key_of_parts by done. destruct t as [tag|tag op]; cbn [thing_key parts existsb].
  - reflexivity.
  - cbn [parts] in Hp. decompose_Forall_hyps. unfold isShownKeyFromUrlHashArray. simpl. by rewrite linkable_ne, orb_false_r.
Qed.

Lemma deep_show_shown key v st :
  lo_shown (dl_layout (deep_show dl (inr key) (Some v) st)) = <[key := v]> (lo_shown (dl_layout st)).
Proof. unfold deep_show, setHash. by repeat case_match. Qed.

Lemma show_legacy_shown b key st : lo_shown (dl_layout (show_legacy dl b key st)) =
  <[key := JBool true]> (if b then <[spaced key := JBool true]> (lo_shown (dl_layout st)) else lo_shown (dl_layout st)).
Proof. unfold show_legacy. rewrite deep_show_shown. destruct b; [by rewrite deep_show_shown|done]. Qed.

Lemma parse_link_shown t st key : Forall linkable (parts t) →
  lo_shown (dl_layout (parseDeepLinkHash dl ("#/" +:+ join "/" (parts t)) st)) !! key =
  (if bool_decide (key ∈ restored t) then Some (JBool true) else lo_shown (dl_layout st) !! key).
Proof.
  intros Hp. rewrite parse_link by done. cbn [SCROLL_TO dl_layout]. rewrite show_legacy_shown.
  unfold restored. destruct t as [tag|tag op]; rewrite ?show_legacy_shown; cbn [parts thing_key tag_key existsb];
    change (default "" (?x !! 0%nat)) with tag.
  all: destruct (has_underscore tag); cbn [orb]; try destruct (has_underscore op); cbn [orb app].
  all: rewrite ?lookup_insert; repeat case_decide; case_bool_decide; try done; exfalso; set_solver.
Qed.

Lemma parse_link_rest t st : Forall linkable (parts t) →
  let page := parseDeepLinkHash dl ("#/" +:+ join "/" (parts t)) st in
  dl_hash page = "#" +:+ link t ∧ dl_scrollToKey page = Some (thing_key t) ∧ dl_scrolled page = dl_scrolled st.
Proof.
  intros Hp. cbv zeta. rewrite parse_link by done. unfold show_legacy at 1. rewrite deep_show_thing by done.
  split_and!; [done|done|]. cbn [SCROLL_TO set_hash set_layout dl_scrolled].
  assert (∀ k v s, dl_scrolled (deep_show dl (inr k) v s) = dl_scrolled s) as Hs.
  { intros k v s. unfold deep_show, setHash. by repeat case_match. }
  unfold show_legacy. destruct (existsb _ _), t; rewrite ?Hs; cbn [log dl_scrolled]; rewrite ?Hs; try done;
    destruct (has_underscore _); by rewrite ?Hs.
Qed.
End Opening.

(** ** Scrolling *)

Definition reference (kn : list string * node) : option nat * nat := (getScrollParent kn.2 false, nd_id kn.2).

Lemma render_spec elements st : dl_scrolled (render elements st) =
  match dl_scrollToKey st with
  | Some key => match filter (λ kn, kn.1 = key) elements with kn :: _ => [reference kn] | [] => [] end
  | None => []
  end ++ dl_scrolled st.
Proof.
  unfold render. revert st. induction elements as [|kn l IH]; intros st; [by destruct (dl_scrollToKey st)|].
  cbn [foldl]. rewrite IH. unfold readyToScroll.
  destruct (dl_scrollToKey st) as [key|] eqn:E; [|by rewrite bool_decide_eq_false_2, E].
  rewrite filter_cons.
  case_bool_decide as Hk.
  - injection Hk as ->. cbn [CLEAR_SCROLL_TO scrollToElement dl_scrollToKey dl_scrolled]. by rewrite decide_True.
  - rewrite E, decide_False; [done|]. intros <-. done.
Qed.

(** * Opening an address restores what was opened *)

(** C15: opening a tag or an operation writes an address that opens it again: a page loaded at that
    address shows the thing and its tag, keeps the address, shows nothing else but the spaced form
    of names with an underscore, and scrolls exactly once, to the first element rendered for the
    thing; for all names without a slash. *)
Theorem deep_link_roundtrip {A} (ori : A → result A) a a' dl t st elements :
  truthy dl = true → Forall linkable (parts t) → ori a = Ok a' →
  let h := dl_hash (deep_show dl (inr (thing_key t)) (Some (JBool true)) st) in
  ∃ page, deep_loaded dl ori a (opened_at h) = (a', page) ∧ dl_hash page = h ∧
    (∀ key def, isShown (dl_layout page) (inr key) def = if bool_decide (key ∈ restored t) then JBool true else def) ∧
    dl_scrolled (render elements page) =
      match filter (λ kn, kn.1 = thing_key t) elements with kn :: _ => [reference kn] | [] => [] end.
Proof.
  intros Hdl Hp Ho h. assert (h = "#" +:+ link t) as Hh by (unfold h; by rewrite deep_show_thing).
  assert (Forall text (parts t)) as Ht by (eapply Forall_impl; [exact Hp|]; by intros x [? _]).
  exists (parseDeepLinkHash dl ("#/" +:+ join "/" (parts t)) (opened_at h)).
  destruct (parse_link_rest dl Hdl t (opened_at h) Hp) as (H1 & H2 & H3).
  split_and!; [| by rewrite H1 | |].
  - unfold deep_loaded. rewrite Ho. cbn [opened_at dl_hash]. rewrite Hh, decode_link by done. done.
  - intros key def. unfold isShown. cbn [normalizeArray]. rewrite parse_link_shown by done.
    case_bool_decide; [done|]. cbn [opened_at dl_layout lo_shown]. by rewrite lookup_empty.
  - rewrite render_spec, H2, H3. by rewrite app_nil_r.
Qed.

(** ** Names with a slash *)

Lemma includes_char_app e a b : includes a (String e "") = false → includes b (String e "") = false →
  includes (a +:+ b) (String e "") = false.
Proof.
  induction a as [|c a IH]; [done|]. intros Ha Hb. cbn [String.append includes strip_prefix] in *.
  destruct (Ascii.eqb e c); [done|]. by apply IH.
Qed.

Lemma split_no_sep e s cur : includes cur (String e "") = false →
  Forall (λ x, includes x (String e "") = false) (split_aux (String e "") 0 cur s).
Proof.
  revert cur. induction s as [|c s IH]; intros cur Hc; [by repeat constructor|].
  cbn [split_aux strip_prefix]. destruct (Ascii.eqb e c) eqn:E; [constructor; [done|]; by apply IH|].
  apply IH, includes_char_app; [done|]. cbn [includes strip_prefix]. by rewrite E.
Qed.

Lemma includes_replace_char e d b s : includes b (String e "") = false → includes s (String e "") = false →
  includes (replace_char d b s) (String e "") = false.
Proof.
  intros Hb. induction s as [|c s IH]; [done|]. cbn [includes strip_prefix replace_char].
  destruct (Ascii.eqb e c) eqn:E; [done|]. intros Hs. destruct (Ascii.eqb d c); [by apply includes_char_app; [|apply IH]|].
  apply (includes_char_app e (String c "")); [|by apply IH]. cbn [includes strip_prefix]. by rewrite E.
Qed.

Definition no_slash (key : list string) : Prop := Forall (λ x, includes x "/" = false) key.

Lemma spaced_no_slash key : no_slash key → no_slash (spaced key).
Proof.
  intros H. apply Forall_map. eapply Forall_impl; [exact H|]. intros x Hx. cbn beta.
  by apply (includes_replace_char (ch 47)).
Qed.

Lemma key_no_slash l : no_slash l → no_slash (isShownKeyFromUrlHashArray l).
Proof.
  unfold no_slash, isShownKeyFromUrlHashArray. intros H.
  assert (∀ i, includes (default "" (l !! i)) "/" = false) as Hi.
  { intros i. destruct (l !! i) eqn:E; [by eapply (Forall_lookup_1 _ _ _ _ H)|done]. }
  destruct (negb _); [|destruct (negb _)]; by repeat constructor.
Qed.

Definition shown_no_slash (st : dlstate) : Prop := ∀ key v, lo_shown (dl_layout st) !! key = Some v → no_slash key.

Lemma legacy_no_slash dl b key st : no_slash key → shown_no_slash st → shown_no_slash (show_legacy dl b key st).
Proof.
  intros Hk Hs j v. rewrite show_legacy_shown. intros Hj. pose proof (spaced_no_slash key Hk).
  destruct b; rewrite ?lookup_insert in Hj; repeat case_decide; simplify_eq; eauto.
Qed.

(** A page at any address shows no thing with a slash in its name: the encoded slashes that
    [show] writes are decoded before the address is split at its slashes. *)
Theorem slash_not_restored {A} (ori : A → result A) a dl h key part def :
  part ∈ key → includes part "/" = true →
  isShown (dl_layout (deep_loaded dl ori a (opened_at h)).2) (inr key) def = def.
Proof.
  intros Hin Hpart. assert (shown_no_slash (deep_loaded dl ori a (opened_at h)).2) as H.
  { assert (shown_no_slash (opened_at h)) as H0 by (intros j v; cbn; by rewrite lookup_empty).
    unfold deep_loaded. destruct (ori a); [|done|done]. destruct (decodeURIComponent _) as [hash| |]; [|done|done].
    cbn [snd]. unfold parseDeepLinkHash. destruct (_ || _); [done|]. cbv zeta.
    set (l := split "/" _). assert (no_slash l) as Hl by (by apply (split_no_sep (ch 47))).
    pose proof (key_no_slash l Hl) as Hk. set (k := isShownKeyFromUrlHashArray l) in *.
    intros j v. change (dl_layout (SCROLL_TO k ?x)) with (dl_layout x). revert j v. apply legacy_no_slash; [done|].
    case_bool_decide; [|done]. apply legacy_no_slash; [|done]. apply key_no_slash. constructor; [|constructor].
    destruct (k !! 1%nat) eqn:E; [by eapply (Forall_lookup_1 _ _ _ _ Hk)|done]. }
  unfold isShown. destruct (lo_shown _ !! _) as [v|] eqn:E; [|done]. apply H in E. cbn [normalizeArray] in E.
  eapply Forall_forall in E; [|exact Hin]. cbn beta in E. congruence.
Qed.

(** * The links of the page *)

(** Printable ASCII without the percent sign. *)
Definition href_char (c : Ascii.ascii) : bool := ((32 <=? code c) && (code c <? 127))%N && negb (code c =? 37)%N.

Definition href_unit (c : Ascii.ascii) : string := if (code c =? 32)%N then "%20" else String c "".

Fixpoint href_text (s : string) : string :=
  match s with EmptyString => "" | String c r => href_unit c +:+ href_text r end.

Lemma replace_white_href s : sforall href_char s = true → ∀ f, String.length s ≤ f → replace_white f s = href_text s.
Proof.
  induction s as [|c s IH]; intros Hs f Hf.
  { destruct f; reflexivity. }
  destruct f as [|f]; [cbn in Hf; lia|]. cbn [sforall] in Hs. apply andb_true_iff in Hs as [Hc Hs].
  cbn [replace_white href_text]. unfold href_unit. destruct (code c =? 32)%N eqn:E.
  - apply N.eqb_eq in E. change 32%N with (code (ch 32)) in E. apply code_inj in E as ->.
    change (strip_any white (String (ch 32) s)) with (Some s). cbv iota. rewrite IH; [reflexivity|done|cbn in Hf; lia].
  - rewrite strip_any_ascii. { rewrite IH; [reflexivity|done|cbn in Hf; lia]. }
    cbn [head_in]. rewrite E. unfold href_char in Hc.
    destruct (N.leb_spec 32 (code c)), (N.ltb_spec (code c) 127); try done.
    destruct (N.leb_spec 14 (code c)), (N.ltb_spec (code c) 128); try done; lia.
Qed.

Lemma fragment_app s t : fragment (s +:+ t) = fragment s +:+ fragment t.
Proof. induction s as [|c s IH]; [done|]. cbn [String.append fragment]. by rewrite IH, sapp_assoc. Qed.

Lemma unpct_href_unit c r : href_char c = true → unpct (fragment (href_unit c) +:+ r) = String c <$> unpct r.
Proof.
  intros Hc. unfold href_unit. destruct (code c =? 32)%N eqn:E.
  { apply N.eqb_eq in E. change 32%N with (code (ch 32)) in E. by apply code_inj in E as ->. }
  cbn [fragment]. rewrite sapp_nil_r. unfold fragment_pct.
  assert (url_break c = false) as ->.
  { apply negb_true_iff. clear E. revert c Hc. apply char_implies. vm_compute. reflexivity. }
  destruct (fragment_char c); [|apply unpct_hex]. apply (unpct_plain c r).
  unfold href_char in Hc. by destruct (code c =? 37)%N; [rewrite andb_false_r in Hc|].
Qed.

Lemma unpct_href s : sforall href_char s = true → unpct (fragment (href_text s)) = Some s.
Proof.
  induction s as [|c s IH]; [done|]. cbn [sforall href_text]. rewrite andb_true_iff. intros [Hc Hs].
  by rewrite fragment_app, unpct_href_unit, IH.
Qed.

Lemma drop_controls_none s : sforall (λ c, (32 <? code c)%N) s = true → drop_controls s = s.
Proof.
  destruct s as [|c s]; [done|]. cbn [sforall drop_controls]. rewrite andb_true_iff. intros [Hc _].
  apply N.ltb_lt in Hc. by destruct (N.leb_spec (code c) 32); [lia|].
Qed.

Lemma href_no_controls s : sforall href_char s = true → sforall (λ c, (32 <? code c)%N) (href_text s) = true.
Proof.
  induction s as [|c s IH]; [done|]. cbn [sforall href_text]. rewrite andb_true_iff, sforall_app. intros [Hc Hs].
  rewrite (IH Hs), andb_true_r. revert c Hc. apply char_implies. vm_compute. reflexivity.
Qed.

Lemma location_hash_link p : sforall (λ c, (32 <? code c)%N) p = true → location_hash (DeepLink p) = "#/" +:+ fragment p.
Proof.
  intros Hp. unfold location_hash, DeepLink, url_trim_end.
  rewrite drop_controls_none by (rewrite sforall_srev; cbn [sforall String.append]; by rewrite Hp).
  rewrite srev_involutive. reflexivity.
Qed.

Lemma text_href s : sforall href_char s = true → text s.
Proof.
  induction s as [|c s IH]; [done|]. cbn [sforall]. rewrite andb_true_iff. intros [Hc Hs].
  apply (text_app (String c "")); [|by apply IH]. unfold text. apply String.eqb_eq. revert c Hc.
  apply char_implies. vm_compute. reflexivity.
Qed.

Lemma decode_href s : sforall href_char s = true → trim s = s →
  decodeURIComponent (location_hash (DeepLink (createDeepLinkPath s))) = Ok ("#/" +:+ s).
Proof.
  intros Hs Ht. unfold createDeepLinkPath. rewrite Ht. cbv zeta. rewrite replace_white_href by done.
  rewrite location_hash_link by (by apply href_no_controls).
  assert (unpct ("#/" +:+ fragment (href_text s)) = Some ("#/" +:+ s)) as Hu.
  { change ("#/" +:+ ?x) with (String (ch 35) (String (ch 47) x)). by rewrite !unpct_plain, unpct_href. }
  unfold decodeURIComponent. rewrite Hu.
  assert (text ("#/" +:+ s)) as H by (apply text_app; [done|by apply text_href]).
  rewrite H, String.eqb_refl. done.
Qed.

(** Pages that differ at most in their address. *)
Definition same_page (s s' : dlstate) : Prop := set_hash "" s = set_hash "" s'.

#[export] Instance same_page_equiv : Equivalence same_page.
Proof. unfold same_page. split; [by intros s|by intros s s'|]. intros a b c Hab Hbc. by rewrite Hab. Qed.

Lemma same_page_hash h s : same_page (set_hash h s) s.
Proof. done. Qed.

Lemma same_page_fields s s' : same_page s s' → dl_layout s = dl_layout s' ∧ dl_scrollToKey s = dl_scrollToKey s' ∧
  dl_console s = dl_console s' ∧ dl_scrolled s = dl_scrolled s'.
Proof. unfold same_page, set_hash. by intros [= -> -> -> ->]. Qed.

#[export] Instance set_hash_same h : Proper (same_page ==> eq) (set_hash h).
Proof. intros s s' (H1 & H2 & H3 & H4)%same_page_fields. unfold set_hash. by rewrite H1, H2, H3, H4. Qed.

#[export] Instance log_same v : Proper (same_page ==> same_page) (log v).
Proof. intros s s' (H1 & H2 & H3 & H4)%same_page_fields. unfold same_page, log, set_hash. cbn. by rewrite H1, H2, H3, H4. Qed.

#[export] Instance deep_show_same dl thing v : Proper (same_page ==> same_page) (deep_show dl thing v).
Proof.
  intros s s' (H1 & H2 & H3 & H4)%same_page_fields. unfold same_page, deep_show, setHash, set_layout, set_hash.
  rewrite H1, H2, H3, H4. by repeat case_match.
Qed.

#[export] Instance show_legacy_same dl b key : Proper (same_page ==> same_page) (show_legacy dl b key).
Proof.
  intros s s' H. unfold show_legacy. apply deep_show_same. destruct b; [|done]. apply deep_show_same. by apply log_same.
Qed.

Lemma deep_show_thing_same dl t s s' : truthy dl = true → same_page s s' →
  deep_show dl (inr (thing_key t)) (Some (JBool true)) s = deep_show dl (inr (thing_key t)) (Some (JBool true)) s'.
Proof.
  intros Hdl (H1 & H2 & H3 & H4)%same_page_fields. rewrite !deep_show_thing by done. unfold set_layout, set_hash.
  by rewrite H1, H2, H3, H4.
Qed.

(** The address before does not matter. *)
Lemma parse_forgets dl t s s' : truthy dl = true → Forall linkable (parts t) → same_page s s' →
  parseDeepLinkHash dl ("#/" +:+ join "/" (parts t)) s = parseDeepLinkHash dl ("#/" +:+ join "/" (parts t)) s'.
Proof.
  intros Hdl Hp H. rewrite !parse_link by done. f_equal. unfold show_legacy at 1 3. apply deep_show_thing_same; [done|].
  destruct (existsb _ _), t; by rewrite H.
Qed.

(** The link of a tag or of an operation leads to the same page as the address that opening it
    writes: same things shown, same address, same place to scroll to; for names of printable ASCII
    characters without slash and percent sign and without white space at the ends. *)
Theorem link_opens_same {A} (ori : A → result A) a a' dl t st :
  truthy dl = true → Forall linkable (parts t) → ori a = Ok a' →
  sforall href_char (join "/" (parts t)) = true → trim (join "/" (parts t)) = join "/" (parts t) →
  deep_loaded dl ori a (opened_at (location_hash (DeepLink (createDeepLinkPath (join "/" (parts t)))))) =
  deep_loaded dl ori a (opened_at (dl_hash (deep_show dl (inr (thing_key t)) (Some (JBool true)) st))).
Proof.
  intros Hdl Hp Ho Hc Ht. assert (Forall text (parts t)) as Htx by (eapply Forall_impl; [exact Hp|]; by intros x [? _]).
  rewrite deep_show_thing by done. unfold deep_loaded. rewrite Ho. cbn [opened_at dl_hash set_hash].
  rewrite decode_href, decode_link by done. f_equal. by apply parse_forgets.
Qed.

(** * Witnesses and examples *)

Definition provision : thing := Operation "Service Instances" "serviceInstance.provision".
Definition provision_node : node := Node 7 "static" [("static", "visible"); ("relative", "auto scroll")].

Lemma provision_linkable : Forall linkable (parts provision).
Proof. repeat constructor; vm_compute; first [reflexivity|discriminate]. Qed.

Lemma deep_link_roundtrip_witness :
  ∃ page, deep_loaded (JBool true) Ok tt
      (opened_at (dl_hash (deep_show (JBool true) (inr (thing_key provision)) (Some (JBool true)) (opened_at "")))) = (tt, page) ∧
    dl_hash page = "#/Service%20Instances/serviceInstance.provision" ∧
    dl_scrolled (render [(["operations-tag"; "Service Instances"], provision_node); (thing_key provision, provision_node);
                         (thing_key provision, provision_node)] page) = [(Some 1, 7)].
Proof.
  destruct (deep_link_roundtrip Ok tt tt (JBool true) provision (opened_at "")
    [(["operations-tag"; "Service Instances"], provision_node); (thing_key provision, provision_node);
     (thing_key provision, provision_node)] eq_refl provision_linkable eq_refl) as (page & H1 & H2 & _ & H4).
  exists page. split_and!; [exact H1|rewrite H2; vm_compute; reflexivity|rewrite H4; vm_compute; reflexivity].
Defined.

Lemma link_opens_same_witness :
  deep_loaded (JBool true) Ok tt
    (opened_at (location_hash (DeepLink (createDeepLinkPath "Service Instances/serviceInstance.provision")))) =
  deep_loaded (JBool true) Ok tt
    (opened_at (dl_hash (deep_show (JBool true) (inr (thing_key provision)) (Some (JBool true)) (opened_at "")))).
Proof.
  apply (link_opens_same Ok tt tt (JBool true) provision (opened_at "") eq_refl provision_linkable eq_refl); vm_compute; reflexivity.
Defined.

(** Opening the tag "a/b" writes an address that opens the operation b of the tag a. *)
Example slash_opens_other :
  let h := dl_hash (deep_show (JBool true) (inr ["operations-tag"; "a/b"]) (Some (JBool true)) (opened_at "")) in
  let page := (deep_loaded (JBool true) Ok tt (opened_at h)).2 in
  (h, isShown (dl_layout page) (inr ["operations"; "a"; "b"]) (JBool false), isShown (dl_layout page) (inr ["operations-tag"; "a/b"]) (JBool false))
  = ("#/a%2Fb", JBool true, JBool false).
Proof. vm_compute. reflexivity. Qed.

(** The link of the tag "100%" cannot be decoded, while the address that opening it writes can. *)
Example percent_link :
  (decodeURIComponent (location_hash (DeepLink (createDeepLinkPath "100%"))),
   decodeURIComponent (dl_hash (deep_show (JBool true) (inr ["operations-tag"; "100%"]) (Some (JBool true)) (opened_at ""))))
  = (Throw uriError, Ok "#/100%").
Proof. vm_compute. reflexivity. Qed.

(** Without its second argument the action shows the thing, and the address is reset. *)
Example show_default_address :
  let st := deep_show (JBool true) (inr ["operations-tag"; "pet"]) None (opened_at "") in
  (isShown (dl_layout st) (inr ["operations-tag"; "pet"]) (JBool false), dl_hash st) = (JBool true, "#/").
Proof. vm_compute. reflexivity. Qed.
