(* ===== verification/SwValidate.v ===== *)
(** Swagger UI, the validation of request parameters (src/core/utils.js: the validators,
    validateValueBySchema, validateParam; src/helpers/get-parameter-schema.js). Values are the plain
    values the store holds (parameterValues(...).toJS()); a chosen file is an object of class File.
    Schemas are maps as the definition gives them. *)

From S2P Require Import Prelude JsValue Json RegExp JsString.

(** * Values *)

Definition is_file (v : jsval) : bool := match v with JErr "File" _ _ => true | _ => false end.

(** [typeof v === "object"] for a value that is not null; an inherited function can get here as the
    value of a parameter that has its name. *)
Definition is_object (v : jsval) : bool :=
  match v with JArr _ | JObj _ => true | JErr n _ _ => negb (String.eqb n "Function") | _ => false end.

(** The length of a string in UTF-16 code units. *)
Fixpoint utf16_length (s : string) : nat :=
  match s with
  | EmptyString => 0
  | String c r =>
      ((if (code c <? 128)%N then 1 else if (code c <? 192)%N then 0 else if (code c <? 240)%N then 1 else 2)
       + utf16_length r)%nat
  end.

(** [v.length]. *)
Definition length_of (v : jsval) : result jsval :=
  match v with
  | JStr s => Ok (JInt (Z.of_nat (utf16_length s)))
  | _ => getp v "length"
  end.

(** [a < b]: two strings are compared as strings. *)
Definition less (a b : jsval) : bool :=
  match a, b with
  | JStr s, JStr t => String.ltb s t
  | _, _ => js_lt a b
  end.

(** [a >= 1]. *)
Definition at_least_one (v : jsval) : bool :=
  match to_number v with JNum m e => negb (num_lt m e 1 0) | _ => false end.

Definition plural (n : jsval) : string := if strict_eq n (JInt 1) then "" else "s".

(** Date.parse of the browser, as far as [isNaN] sees it. *)
Class DateParse := date_is_nan : jsval → bool.

(** * Regular expressions of the validators *)

Fixpoint drop_digits (s : string) : string :=
  match s with String c r => if is_digit c then drop_digits r else s | EmptyString => s end.

Definition drop_minus (s : string) : string := default s (strip_prefix "-" s).

(** [/^-?\d+$/]. *)
Definition re_integer (s : string) : bool :=
  let s := drop_minus s in head_in is_digit s && String.eqb (drop_digits s) "".

(** [/^-?\d+(\.?\d+)?$/]. *)
Definition re_number (s : string) : bool :=
  let s := drop_minus s in
  head_in is_digit s &&
  match drop_digits s with
  | EmptyString => true
  | r => match strip_prefix "." r with
         | Some f => head_in is_digit f && String.eqb (drop_digits f) ""
         | None => false
         end
  end.

Definition is_hex (c : Ascii.ascii) : bool := is_digit c || ((97 <=? code c) && (code c <=? 102))%N.

Fixpoint take_hex (n : nat) (s : string) : option string :=
  match n, s with
  | O, _ => Some s
  | S n, String c r => if is_hex c then take_hex n r else None
  | S _, EmptyString => None
  end.

Definition drop_one (p : Ascii.ascii → bool) (s : string) : string :=
  match s with String c r => if p c then r else s | EmptyString => s end.

(** [/^[{(]?[0-9a-f]{8}-[0-9a-f]{4}-[0-9a-f]{4}-[0-9a-f]{4}-[0-9a-f]{12}[)}]?$/]. *)
Definition re_guid (s : string) : bool :=
  let tail : option string :=
    s1 ← take_hex 8 (drop_one (λ c, (code c =? 123) || (code c =? 40))%N s);
    s2 ← (strip_prefix "-" s1 ≫= take_hex 4);
    s3 ← (strip_prefix "-" s2 ≫= take_hex 4);
    s4 ← (strip_prefix "-" s3 ≫= take_hex 4);
    strip_prefix "-" s4 ≫= take_hex 12 in
  match tail with
  | Some r => String.eqb (drop_one (λ c, (code c =? 125) || (code c =? 41))%N r) ""
  | None => false
  end.

(** * Validators: the message, if the value is rejected *)

Definition validateMaximum (val max : jsval) : option string :=
  if less max val then Some ("Value must be less than " +:+ to_string max) else None.

Definition validateMinimum (val min : jsval) : option string :=
  if less val min then Some ("Value must be greater than " +:+ to_string min) else None.

Definition validateNumber (val : jsval) : option string :=
  if negb (re_number (to_string val)) then Some "Value must be a number" else None.

Definition validateInteger (val : jsval) : option string :=
  if negb (re_integer (to_string val)) then Some "Value must be an integer" else None.

Definition validateFile (val : jsval) : option string :=
  if truthy val && negb (is_file val) then Some "Value must be a file" else None.

Definition validateBoolean (val : jsval) : option string :=
  match val with
  | JBool _ => None
  | JStr s => if String.eqb s "true" || String.eqb s "false" then None else Some "Value must be a boolean"
  | _ => Some "Value must be a boolean"
  end.

Definition validateString (val : jsval) : option string :=
  match val with
  | JStr _ => None
  | _ => if truthy val then Some "Value must be a string" else None
  end.

Definition validateDateTime `{DateParse} (val : jsval) : option string :=
  if date_is_nan val then Some "Value must be a DateTime" else None.

Definition validateGuid (val : jsval) : result (option string) :=
  s ← toString_call val;
  Ok (if negb (re_guid (to_lower s)) then Some "Value must be a Guid" else None).

Definition validateMaxLength (val max : jsval) : result (option string) :=
  len ← length_of val;
  Ok (if less max len
      then Some ("Value must be no longer than " +:+ to_string max +:+ " character" +:+ plural max) else None).

Definition validateMinLength (val min : jsval) : result (option string) :=
  len ← length_of val;
  Ok (if less len min
      then Some ("Value must be at least " +:+ to_string min +:+ " character" +:+ plural min) else None).

Definition validateMinItems (val min : jsval) : result (option string) :=
  bad ← (if truthy val then len ← length_of val; Ok (less len min) else Ok (at_least_one min));
  Ok (if (bad : bool)
      then Some ("Array must contain at least " +:+ to_string min +:+ " item" +:+ plural min) else None).

Definition validateMaxItems (val max : jsval) : result (option string) :=
  bad ← (if truthy val then len ← length_of val; Ok (less max len) else Ok false);
  Ok (if (bad : bool)
      then Some ("Array must not contain more then " +:+ to_string max +:+ " item" +:+ plural max) else None).

Definition validatePattern `{RegExpRest} (val rxPattern : jsval) : result (option string) :=
  ok ← regexp_test (to_string rxPattern) (to_string val);
  Ok (if negb (ok : bool) then Some ("Value must follow pattern " +:+ to_string rxPattern) else None).

(** [Immutable.is] on converted values: structural, maps by key. *)
Fixpoint im_is (a b : jsval) {struct a} : bool :=
  match a, b with
  | JNaN, JNaN => true
  | JArr l, JArr m =>
      (fix go (l m : list jsval) : bool :=
         match l, m with [], [] => true | x :: l, y :: m => im_is x y && go l m | _, _ => false end) l m
  | JObj fs, JObj gs =>
      Nat.eqb (length fs) (length gs) &&
      (fix go (fs : list (string * jsval)) : bool :=
         match fs with
         | [] => true
         | (k, x) :: r => match assoc gs k with Some y => im_is x y | None => false end && go r
         end) fs
  | _, _ => strict_eq a b
  end.

(** The number of elements of [list.toSet()]. *)
Fixpoint set_size (l : list jsval) : nat :=
  match l with [] => 0 | x :: r => ((if existsb (im_is x) r then 0 else 1) + set_size r)%nat end.

(** [isFunc(v.equals) ? v.equals(item) : v === item]. *)
Definition item_equals (item v : jsval) : result bool :=
  match v with
  | JUndef | JNull => Throw (cannot_read v "equals")
  | JArr _ | JObj _ => Ok (im_is v item)
  | _ => Ok (strict_eq v item)
  end.

Fixpoint count_equal (item : jsval) (l : list jsval) : result nat :=
  match l with
  | [] => Ok 0%nat
  | v :: r => b ← item_equals item v; n ← count_equal item r; Ok (if (b : bool) then S n else n)
  end.

Fixpoint duplicate_indices (all l : list jsval) (i : nat) : result (list nat) :=
  match l with
  | [] => Ok []
  | x :: r => n ← count_equal x all; ix ← duplicate_indices all r (S i);
              Ok (if Nat.ltb 1 n then i :: ix else ix)
  end.

(** [uniqueItems === "true" || uniqueItems === true]. *)
Definition is_true_or (v : jsval) : bool :=
  match v with JBool b => b | JStr s => String.eqb s "true" | _ => false end.

(** The indices of the repeated items, here in ascending order: the code keeps them in a Set. *)
Definition validateUniqueItems (val uniqueItems : jsval) : result (list nat) :=
  if negb (truthy val) then Ok []
  else if is_true_or uniqueItems then
    match val with
    | JArr l => if Nat.ltb (set_size l) (length l) then duplicate_indices l l 0 else Ok []
    | JObj _ => Ok []
    | _ => Throw (not_a_function val "toSet")
    end
  else Ok [].

(** * Validation by a schema *)

(** The entries of the array of errors: a message, an error of a property or of an item, or a
    message that asks to remove items. *)
Inductive verror :=
| VMsg (s : string)
| VProp (key : string) (e : verror)
| VIndex (i : nat) (e : verror)
| VRemove (s : string).

Definition sget (schema : jsval) (k : string) : jsval :=
  match schema with JObj fs => default JUndef (assoc fs k) | _ => JUndef end.

Definition shas (schema : jsval) (k : string) : bool :=
  match schema with JObj fs => bool_decide (is_Some (assoc fs k)) | _ => false end.

#[global] Arguments sget : simpl never.
#[global] Arguments shas : simpl never.

Definition is_type (schema : jsval) (t : string) : bool :=
  match sget schema "type" with JStr s => String.eqb s t | _ => false end.

Definition msg (o : option string) : list verror := match o with Some s => [VMsg s] | None => [] end.

(** [x || x === 0] for the bounds of a schema. *)
Definition given (v : jsval) : bool := truthy v || strict_eq v (JInt 0).

(** One of [allChecks]: the value is there in the form the type asks for. *)
Definition passedAnyCheck (schema value : jsval) : bool :=
  (is_type schema "string" && truthy value) ||
  (is_type schema "array" && match value with JArr l => negb (Nat.eqb (length l) 0) | JStr s => negb (String.eqb s "") | _ => false end) ||
  (is_type schema "file" && is_file value) ||
  (is_type schema "boolean" && (truthy value || strict_eq value (JBool false))) ||
  (is_type schema "number" && given value) ||
  (is_type schema "integer" && given value) ||
  (is_type schema "object" && (is_object value || match value with JStr s => negb (String.eqb s "") | _ => false end)).

Section Validate.
Context `{DateParse, RegExpRest}.

(** The required properties of an object value that are not found. *)
Fixpoint missing (objectVal : jsval) (keys : list jsval) : result (list verror) :=
  match keys with
  | [] => Ok []
  | k :: r =>
      v ← getp objectVal (to_string k);
      es ← missing objectVal r;
      Ok (match v with JUndef => VProp (to_string k) (VMsg "Required property not found") :: es | _ => es end)
  end.

Definition required_list (schema objectVal : jsval) : result (list verror) :=
  if shas schema "required" then
    match sget schema "required" with
    | JUndef | JNull => Throw (cannot_read (sget schema "required") "isList")
    | JArr keys => missing objectVal keys
    | _ => Ok []
    end
  else Ok [].

(** The checks against the keywords of the schema, in the order of the code. *)
Definition keyword_checks (value schema : jsval) : result (list verror) :=
  let array := is_type schema "array" in
  e1 ← (if truthy (sget schema "pattern") then o ← validatePattern value (sget schema "pattern"); Ok (msg o) else Ok []);
  e2 ← (if truthy (sget schema "minItems") && array then o ← validateMinItems value (sget schema "minItems"); Ok (msg o) else Ok []);
  e3 ← (if truthy (sget schema "maxItems") && array
        then o ← validateMaxItems value (sget schema "maxItems");
             Ok (match o with Some s => [VRemove s] | None => [] end) else Ok []);
  e4 ← (if truthy (sget schema "uniqueItems") && array
        then ix ← validateUniqueItems value (sget schema "uniqueItems");
             Ok (map (λ i, VIndex i (VMsg "No duplicates allowed.")) ix) else Ok []);
  e5 ← (if given (sget schema "maxLength") then o ← validateMaxLength value (sget schema "maxLength"); Ok (msg o) else Ok []);
  e6 ← (if truthy (sget schema "minLength") then o ← validateMinLength value (sget schema "minLength"); Ok (msg o) else Ok []);
  let e7 := if given (sget schema "maximum") then msg (validateMaximum value (sget schema "maximum")) else [] in
  let e8 := if given (sget schema "minimum") then msg (validateMinimum value (sget schema "minimum")) else [] in
  Ok (e1 ++ e2 ++ e3 ++ e4 ++ e5 ++ e6 ++ e7 ++ e8).

(** The check of a value of a simple type. *)
Definition type_check (value schema : jsval) : result (list verror) :=
  if is_type schema "string" then
    match sget schema "format" with
    | JStr "date-time" => Ok (msg (validateDateTime value))
    | JStr "uuid" => o ← validateGuid value; Ok (msg o)
    | _ => Ok (msg (validateString value))
    end
  else if is_type schema "boolean" then Ok (msg (validateBoolean value))
  else if is_type schema "number" then Ok (msg (validateNumber value))
  else if is_type schema "integer" then Ok (msg (validateInteger value))
  else if is_type schema "file" then Ok (msg (validateFile value))
  else Ok [].

(** No further validation is needed. *)
Definition skip_validation (value schema : jsval) (schemaRequiresValue : bool) : bool :=
  (truthy (sget schema "nullable") && match value with JNull => true | _ => false end) ||
  negb (truthy (sget schema "type")) ||
  negb (schemaRequiresValue || negb (nullish value)).

(** [media] is null, or the media type of the parameter. *)
Definition json_media (media : option string) : bool :=
  match media with None => true | Some m => String.eqb m "application/json" end.

(** The properties of an object value, checked with [rec]. *)
Fixpoint properties_errors (rec : jsval → jsval → result (list verror)) (objectVal : jsval)
    (props : list (string * jsval)) : result (list verror) :=
  match props with
  | [] => Ok []
  | (key, sub) :: r =>
      x ← getp objectVal key;
      errs ← rec x sub;
      es ← properties_errors rec objectVal r;
      Ok (map (VProp key) errs ++ es)
  end.

Fixpoint items_errors (rec : jsval → jsval → result (list verror)) (items : jsval) (i : nat) (l : list jsval)
    : result (list verror) :=
  match l with
  | [] => Ok []
  | x :: r => errs ← rec x items; es ← items_errors rec items (S i) r; Ok (map (VIndex i) errs ++ es)
  end.

(** [None]: the value is a string that is not JSON. *)
Definition object_value (value : jsval) : option jsval :=
  match value with JStr _ => match parse value with Ok v => Some v | _ => None end | _ => Some value end.

Fixpoint validateValueBySchema (fuel : nat) (value schema : jsval) (requiredByParam : bool)
    (bypassRequiredCheck : bool) (media : option string) : result (list verror) :=
  match fuel with
  | O => Hang
  | S f =>
      if negb (truthy schema) then Ok [] else
      match schema with
      | JObj _ =>
          let schemaRequiresValue := requiredByParam || truthy (sget schema "required") in
          if skip_validation value schema schemaRequiresValue then Ok []
          else if schemaRequiresValue && negb (passedAnyCheck schema value) && negb bypassRequiredCheck
          then Ok [VMsg "Required field is not provided"]
          else
            let rec x sub := validateValueBySchema f x sub false bypassRequiredCheck media in
            let rest (es0 : list verror) :=
              es1 ← keyword_checks value schema;
              es2 ← (if is_type schema "array" then
                       match value with
                       | JArr l => items_errors rec (sget schema "items") 0 l
                       | _ => Ok []
                       end
                     else type_check value schema);
              Ok (es0 ++ es1 ++ es2) in
            if is_type schema "object" && json_media media then
              match object_value value with
              | None => Ok [VMsg "Parameter string value must be valid JSON"]
              | Some objectVal =>
                  e1 ← required_list schema objectVal;
                  e2 ← (if shas schema "properties" then
                          match sget schema "properties" with
                          | JObj props => properties_errors rec objectVal props
                          | p => Throw (not_a_function p "forEach")
                          end
                        else Ok []);
                  rest (e1 ++ e2)
              end
            else rest []
      | _ => Throw (not_a_function schema "get")
      end
  end.
End Validate.

(** * Schemas of parameters *)

Definition swagger2SchemaKeys : list string :=
  ["type"; "format"; "items"; "default"; "maximum"; "exclusiveMaximum"; "minimum"; "exclusiveMinimum"; "maxLength";
   "minLength"; "pattern"; "maxItems"; "minItems"; "uniqueItems"; "enum"; "multipleOf"].

(** The schema and the media type; [m.get(k, d)] gives the default only when the key is absent. *)
Definition get_or_map (fs : list (string * jsval)) (k : string) : jsval := default (JObj []) (assoc fs k).

Definition getParameterSchema (parameter : jsval) (isOAS3 : bool) : jsval * option string :=
  match parameter with
  | JObj fs =>
      if negb isOAS3 then
        if strict_eq (default JUndef (assoc fs "in")) (JStr "body") then (get_or_map fs "schema", None)
        else (JObj (filter (λ kv, kv.1 ∈ swagger2SchemaKeys) fs), None)
      else
        match assoc fs "content" with
        | Some (JObj ((m, entry) :: _)) =>
            (match entry with JObj es => get_or_map es "schema" | _ => JObj [] end, Some m)
        | Some v => if truthy v then (JObj [], Some "undefined") else (get_or_map fs "schema", None)
        | None => (get_or_map fs "schema", None)
        end
  | _ => (JObj [], None)
  end.

(** Nesting of a schema, the depth of the recursion. *)
Fixpoint depth (v : jsval) : nat :=
  match v with
  | JArr l => S (foldr (λ x n, Nat.max (depth x) n) 0%nat l)
  | JObj fs | JErr _ _ fs => S (foldr (λ kv n, Nat.max (depth kv.2) n) 0%nat fs)
  | _ => 0%nat
  end.

Definition validateParam `{DateParse, RegExpRest} (param value : jsval) (isOAS3 bypassRequiredCheck : bool)
    : result (list verror) :=
  let '(schema, media) := getParameterSchema param isOAS3 in
  validateValueBySchema (S (depth schema)) value schema (truthy (sget param "required")) bypassRequiredCheck media.

(** * The recursion ends *)

Lemma depth_assoc fs k v : assoc fs k = Some v → (depth v < depth (JObj fs))%nat.
Proof.
  cbn [depth]. induction fs as [|[j u] fs IH]; simpl; [done|]. destruct (String.eqb j k).
  - intros [= ->]. lia.
  - intros Hv. apply IH in Hv. lia.
Qed.

Lemma depth_sget fs k : sget (JObj fs) k = JUndef ∨ (depth (sget (JObj fs) k) < depth (JObj fs))%nat.
Proof. unfold sget. destruct (assoc fs k) as [v|] eqn:E; [right; by apply (depth_assoc fs k)|by left]. Qed.

Lemma depth_prop props k sub : (k, sub) ∈ props → (depth sub < depth (JObj props))%nat.
Proof.
  cbn [depth]. induction props as [|[j u] props IH]; intros Hin; [by apply not_elem_of_nil in Hin|]. simpl.
  apply elem_of_cons in Hin as [[= -> ->]|Hin]; [lia|]. apply IH in Hin. lia.
Qed.

(** The recursive calls only see smaller schemas. *)
Lemma properties_ext rec1 rec2 o props : (∀ x k sub, (k, sub) ∈ props → rec1 x sub = rec2 x sub) →
  properties_errors rec1 o props = properties_errors rec2 o props.
Proof.
  induction props as [|[k sub] props IH]; intros H; [done|]. simpl. destruct (getp o k) as [x| |]; [|done|done]. simpl.
  rewrite (H x k sub) by left. destruct (rec2 x sub); [|done|done]. simpl. rewrite IH; [done|].
  intros. eapply H. by right.
Qed.

Lemma items_ext rec1 rec2 items i l : (∀ x, rec1 x items = rec2 x items) →
  items_errors rec1 items i l = items_errors rec2 items i l.
Proof. intros H. revert i. induction l as [|x l IH]; intros i; [done|]. simpl. by rewrite H, IH. Qed.

Section Recursion.
Context `{DateParse, RegExpRest}.

Lemma validate_fuel_mono f g value schema req byp media : (depth schema < f)%nat → (f ≤ g)%nat →
  validateValueBySchema f value schema req byp media = validateValueBySchema g value schema req byp media.
Proof.
  revert g value schema req byp media. induction f as [|f IH]; intros g value schema req byp media Hd Hg; [lia|].
  destruct g as [|g]; [lia|]. cbn [validateValueBySchema]. destruct (truthy schema) eqn:Et; [|done]. simpl negb. cbv iota.
  destruct schema as [| | | | | | |fs|]; try done.
  assert (∀ k x, validateValueBySchema f x (sget (JObj fs) k) false byp media =
                 validateValueBySchema g x (sget (JObj fs) k) false byp media) as Hsub.
  { intros k x. destruct (depth_sget fs k) as [E|Hk]; [|apply IH; lia].
    rewrite E. destruct f, g; simpl; try done; simpl in Hd; lia. }
  destruct (skip_validation _ _ _); [done|]. destruct (_ && _ && _); [done|]. cbv zeta.
  assert (∀ l, items_errors (λ x sub, validateValueBySchema f x sub false byp media) (sget (JObj fs) "items") 0 l =
               items_errors (λ x sub, validateValueBySchema g x sub false byp media) (sget (JObj fs) "items") 0 l) as Hit.
  { intros l. apply items_ext. intros x. apply Hsub. }
  assert (∀ o props, sget (JObj fs) "properties" = JObj props →
    properties_errors (λ x sub, validateValueBySchema f x sub false byp media) o props =
    properties_errors (λ x sub, validateValueBySchema g x sub false byp media) o props) as Hpr.
  { intros o props Hp. apply properties_ext. intros x k sub Hin. apply IH; [|lia].
    pose proof (depth_prop props k sub Hin). destruct (depth_sget fs "properties") as [E|Hk]; [congruence|].
    rewrite Hp in Hk. lia. }
  destruct (is_type _ "object" && _).
  - destruct (object_value value) as [o|]; [|done]. destruct (required_list _ o); [|done|done]. simpl.
    destruct (shas (JObj fs) "properties").
    + destruct (sget (JObj fs) "properties") as [| | | | | | |props|] eqn:Ep;
        try (simpl; reflexivity). rewrite (Hpr o props eq_refl).
      destruct (properties_errors _ o props); [|done|done]. simpl. destruct (keyword_checks _ _); [|done|done]. simpl.
      destruct (is_type _ "array"); [|done]. destruct value; try done. by rewrite Hit.
    + simpl. destruct (keyword_checks _ _); [|done|done]. simpl.
      destruct (is_type _ "array"); [|done]. destruct value; try done. by rewrite Hit.
  - destruct (keyword_checks _ _); [|done|done]. simpl.
    destruct (is_type _ "array"); [|done]. destruct value; try done. by rewrite Hit.
Qed.
End Recursion.

Lemma bind_not_hang {A B} (m : result A) (f : A → result B) : m ≠ Hang → (∀ a, m = Ok a → f a ≠ Hang) → m ≫= f ≠ Hang.
Proof. intros Hm Hf. destruct m; simpl; [by apply Hf|done|done]. Qed.

Lemma length_of_not_hang v : length_of v ≠ Hang.
Proof. destruct v; simpl; done. Qed.

(** The steps of the validation that only read properties. *)
Ltac not_hang :=
  repeat first
    [ apply bind_not_hang; [|intros ? ?] | apply length_of_not_hang | apply getp_not_hang | done
    | match goal with |- (if ?b then _ else _) ≠ Hang => destruct b end ].

Lemma count_equal_not_hang x l : count_equal x l ≠ Hang.
Proof.
  induction l as [|v l IH]; simpl; [done|]. not_hang. unfold item_equals. by destruct v.
Qed.

Lemma duplicate_indices_not_hang all l i : duplicate_indices all l i ≠ Hang.
Proof.
  revert i. induction l as [|x l IH]; intros i; simpl; [done|]. not_hang; apply count_equal_not_hang.
Qed.

Lemma missing_not_hang o keys : missing o keys ≠ Hang.
Proof. induction keys as [|k keys IH]; simpl; [done|]. not_hang. Qed.

Section Termination.
Context `{DateParse, RegExpRest}.
Hypothesis regexp_settles : ∀ p s, regexp_rest p s ≠ Hang.

Lemma regexp_test_not_hang p s : regexp_test p s ≠ Hang.
Proof. unfold regexp_test. repeat case_match; try done; apply regexp_settles. Qed.

Lemma keyword_checks_not_hang value schema : keyword_checks value schema ≠ Hang.
Proof.
  unfold keyword_checks, validatePattern, validateMinItems, validateMaxItems, validateUniqueItems, validateMaxLength,
    validateMinLength. not_hang; try apply regexp_test_not_hang.
  destruct value; not_hang. apply duplicate_indices_not_hang.
Qed.

Lemma type_check_not_hang value schema : type_check value schema ≠ Hang.
Proof.
  unfold type_check. not_hang. destruct (sget schema "format") as [| | | | |s| | |]; try done.
  repeat case_match; try done; unfold validateGuid, toString_call; destruct (nullish value); done.
Qed.

Lemma properties_not_hang rec o props : (∀ x k sub, (k, sub) ∈ props → rec x sub ≠ Hang) →
  properties_errors rec o props ≠ Hang.
Proof.
  induction props as [|[k sub] props IH]; intros H1; simpl; [done|]. not_hang; [by apply (H1 _ k); left|].
  apply IH. intros. eapply H1. by right.
Qed.

Lemma items_not_hang rec items i l : (∀ x, rec x items ≠ Hang) → items_errors rec items i l ≠ Hang.
Proof. intros H1. revert i. induction l as [|x l IH]; intros i; simpl; [done|]. not_hang. Qed.

Lemma validate_not_hang f value schema req byp media : (depth schema < f)%nat →
  validateValueBySchema f value schema req byp media ≠ Hang.
Proof.
  revert value schema req byp media. induction f as [|f IH]; intros value schema req byp media Hd; [lia|].
  cbn [validateValueBySchema]. destruct (truthy schema) eqn:Et; [|done]. simpl negb. cbv iota.
  destruct schema as [| | | | | | |fs|]; try done.
  assert (∀ l, items_errors (λ x sub, validateValueBySchema f x sub false byp media) (sget (JObj fs) "items") 0 l ≠ Hang) as Hit.
  { intros l. apply items_not_hang. intros x. destruct (depth_sget fs "items") as [E|Hk]; [|apply IH; lia].
    rewrite E. destruct f; [simpl in Hd; lia|done]. }
  assert (∀ es0 : list verror, (es1 ← keyword_checks value (JObj fs);
     es2 ← (if is_type (JObj fs) "array" then
              match value with
              | JArr l => items_errors (λ x sub, validateValueBySchema f x sub false byp media) (sget (JObj fs) "items") 0 l
              | _ => Ok []
              end
            else type_check value (JObj fs));
     Ok (es0 ++ es1 ++ es2)) ≠ Hang) as Hrest.
  { intros es0. apply bind_not_hang; [apply keyword_checks_not_hang|intros e1 _]. apply bind_not_hang; [|done].
    destruct (is_type _ "array"); [by destruct value|apply type_check_not_hang]. }
  destruct (skip_validation _ _ _); [done|]. destruct (_ && _ && _); [done|]. cbv zeta.
  destruct (is_type _ "object" && _); [|apply Hrest]. destruct (object_value value) as [o|]; [|done].
  apply bind_not_hang.
  - unfold required_list. destruct (shas _ _); [|done]. clear. destruct (sget _ _); try done. apply missing_not_hang.
  - intros e1 _. apply bind_not_hang; [|intros e2 _; apply Hrest]. destruct (shas (JObj fs) "properties"); [|done].
    destruct (sget (JObj fs) "properties") as [| | | | | | |props|] eqn:Ep; try done.
    apply properties_not_hang. intros x k sub Hin. apply IH.
    pose proof (depth_prop props k sub Hin). destruct (depth_sget fs "properties") as [E|Hk]; [congruence|].
    rewrite Ep in Hk. lia.
Qed.
End Termination.

(** C31: the validation of a parameter always ends, with a list of errors or an exception, whatever
    the parameter and its schema are, and a deeper recursion than the nesting of the schema gives
    the same answer. The regular expressions of the schema must come to an end. *)
Theorem validation_terminates `{DateParse, RegExpRest} param value isOAS3 bypass f :
  (∀ p s, regexp_rest p s ≠ Hang) →
  let schema := (getParameterSchema param isOAS3).1 in
  validateParam param value isOAS3 bypass ≠ Hang ∧
  ((depth schema < f)%nat →
     validateValueBySchema f value schema (truthy (sget param "required")) bypass (getParameterSchema param isOAS3).2 =
     validateParam param value isOAS3 bypass).
Proof.
  intros Hrx. unfold validateParam. destruct (getParameterSchema param isOAS3) as [schema media]. cbn [fst snd]. split.
  - apply validate_not_hang; [done|lia].
  - intros Hf. symmetry. apply validate_fuel_mono; lia.
Qed.


Definition date_invalid : DateParse := λ _, true.

Lemma validation_terminates_witness :
  @validateParam date_invalid regexp_none (JObj [("in", JStr "query"); ("type", JStr "array"); ("items", JObj [("type", JStr "integer")])])
    (JArr [JStr "1"; JStr "x"]) false false ≠ Hang ∧
  @validateValueBySchema date_invalid regexp_none 9 (JArr [JStr "1"; JStr "x"])
    (JObj [("type", JStr "array"); ("items", JObj [("type", JStr "integer")])]) false false None =
  Ok [VIndex 1 (VMsg "Value must be an integer")].
Proof.
  destruct (@validation_terminates date_invalid regexp_none
    (JObj [("in", JStr "query"); ("type", JStr "array"); ("items", JObj [("type", JStr "integer")])])
    (JArr [JStr "1"; JStr "x"]) false false 9) as [H1 H2]; [by intros|].
  split; [exact H1|]. etrans; [apply H2; vm_compute; lia|]. vm_compute. reflexivity.
Defined.

(** * The errors address parts of the value *)

(** [located byp schema value e]: the error leads, from the value and its schema, to an item that the array
    has, to a property that the schema declares and the object has, or to one that the object lacks
    although the schema requires it: by its list of required names, or by a mark on the property. The object
    is the value, or what its JSON text stands for. *)
Inductive located (byp : bool) (schema value : jsval) : verror → Prop :=
| at_value m : located byp schema value (VMsg m)
| at_surplus m : truthy value = true → located byp schema value (VRemove m)
| at_duplicate l i x n : value = JArr l → l !! i = Some x → is_true_or (sget schema "uniqueItems") = true →
    count_equal x l = Ok n → (1 < n)%nat → located byp schema value (VIndex i (VMsg "No duplicates allowed."))
| at_item l i x e : value = JArr l → l !! i = Some x → located byp (sget schema "items") x e →
    located byp schema value (VIndex i e)
| at_missing o keys k : object_value value = Some o → sget schema "required" = JArr keys → k ∈ map to_string keys →
    getp o k = Ok JUndef → located byp schema value (VProp k (VMsg "Required property not found"))
| at_property o props k sub x e : object_value value = Some o → sget schema "properties" = JObj props → (k, sub) ∈ props →
    getp o k = Ok x → x ≠ JUndef → located byp sub x e → located byp schema value (VProp k e)
| at_absent o props k sub m : object_value value = Some o → sget schema "properties" = JObj props → (k, sub) ∈ props →
    getp o k = Ok JUndef → truthy (sget sub "required") = true → byp = true ∨ m = "Required field is not provided" →
    located byp schema value (VProp k (VMsg m)).

Lemma msg_Forall (P : verror → Prop) o : (∀ m, P (VMsg m)) → Forall P (msg o).
Proof. intros HP. destruct o; simpl; repeat constructor. apply HP. Qed.

Lemma duplicate_indices_spec all l i ix : duplicate_indices all l i = Ok ix →
  Forall (λ j, ∃ x n, (i ≤ j)%nat ∧ l !! (j - i)%nat = Some x ∧ count_equal x all = Ok n ∧ (1 < n)%nat) ix.
Proof.
  revert i ix. induction l as [|x l IH]; intros i ix E; simpl in E; [injection E as <-; constructor|].
  apply result_bind_Ok in E as (n & En & E). apply result_bind_Ok in E as (jx & Ej & E). injection E as <-.
  assert (Forall (λ j, ∃ y n, (i ≤ j)%nat ∧ (x :: l) !! (j - i)%nat = Some y ∧ count_equal y all = Ok n ∧ (1 < n)%nat) jx) as Hj.
  { eapply Forall_impl; [exact (IH _ _ Ej)|]. simpl. intros j (y & m & Hij & Hy & Hc). exists y, m. split; [lia|].
    replace (j - i)%nat with (S (j - S i)) by lia. done. }
  destruct (Nat.ltb_spec 1 n); [|done]. constructor; [|done]. exists x, n. rewrite Nat.sub_diag. done.
Qed.

Section Located.
Context `{DateParse, RegExpRest}.

(** The checks against the keywords and the type give messages about the value itself, and of the items of an
    array only those that are repeated. *)
Lemma keyword_checks_Forall (P : verror → Prop) value schema es : keyword_checks value schema = Ok es →
  (∀ m, P (VMsg m)) → (truthy value = true → ∀ m, P (VRemove m)) →
  (∀ l i x n, value = JArr l → l !! i = Some x → is_true_or (sget schema "uniqueItems") = true →
     count_equal x l = Ok n → (1 < n)%nat → P (VIndex i (VMsg "No duplicates allowed."))) → Forall P es.
Proof.
  intros E HP HR HD. unfold keyword_checks in E.
  apply result_bind_Ok in E as (e1 & E1 & E). apply result_bind_Ok in E as (e2 & E2 & E). apply result_bind_Ok in E as (e3 & E3 & E).
  apply result_bind_Ok in E as (e4 & E4 & E). apply result_bind_Ok in E as (e5 & E5 & E). apply result_bind_Ok in E as (e6 & E6 & E).
  injection E as <-.
  assert (∀ (b : bool) (m : result (option string)) es, (if b then o ← m; Ok (msg o) else Ok []) = Ok es → Forall P es) as Hm.
  { intros b m es E. destruct b; [apply result_bind_Ok in E as (o & _ & E)|]; injection E as <-; [by apply msg_Forall|constructor]. }
  repeat (apply Forall_app; split); eauto.
  - destruct (truthy (sget schema "maxItems") && _); [|injection E3 as <-; constructor]. apply result_bind_Ok in E3 as (o & Eo & E3). injection E3 as <-.
    unfold validateMaxItems in Eo. destruct (truthy value); [|injection Eo as <-; constructor].
    destruct o; repeat constructor. by apply HR.
  - destruct (truthy (sget schema "uniqueItems") && _); [|injection E4 as <-; constructor]. apply result_bind_Ok in E4 as (ix & Eix & E4). injection E4 as <-.
    unfold validateUniqueItems in Eix. destruct (negb (truthy value)); [injection Eix as <-; constructor|].
    destruct (is_true_or _) eqn:Eu; [|injection Eix as <-; constructor].
    destruct value as [| | | | | |l| |]; try done; [|injection Eix as <-; constructor].
    destruct (Nat.ltb _ _); [|injection Eix as <-; constructor].
    apply Forall_map. eapply Forall_impl; [exact (duplicate_indices_spec _ _ _ _ Eix)|]. simpl. intros i (x & n & _ & Hx & Hc & Hn).
    rewrite Nat.sub_0_r in Hx. by apply (HD l i x n).
  - destruct (given (sget schema "maximum")); [by apply msg_Forall|constructor].
  - destruct (given (sget schema "minimum")); [by apply msg_Forall|constructor].
Qed.

Lemma type_check_Forall (P : verror → Prop) value schema es : type_check value schema = Ok es → (∀ m, P (VMsg m)) → Forall P es.
Proof.
  intros E HP. revert E. unfold type_check. repeat case_match; intros E; try (injection E as <-; first [by apply msg_Forall|constructor]).
  all: apply result_bind_Ok in E as (o & _ & E); injection E as <-; by apply msg_Forall.
Qed.

(** A value that is not there gives a message, and only if its schema requires it. *)
Lemma validate_absent f schema byp media es : validateValueBySchema f JUndef schema false byp media = Ok es →
  Forall (λ e, ∃ m, e = VMsg m ∧ truthy (sget schema "required") = true ∧ (byp = true ∨ m = "Required field is not provided")) es.
Proof.
  destruct f as [|f]; intros E; [done|]. cbn [validateValueBySchema orb] in E. destruct (truthy schema); [|injection E as <-; constructor].
  simpl negb in E. cbv iota in E. destruct schema as [| | | | | | |fs|]; try done. set (schema := JObj fs) in *.
  unfold skip_validation in E. cbn [nullish negb orb] in E. rewrite orb_false_r in E.
  destruct (truthy (sget schema "required")); [|rewrite orb_true_r in E; injection E as <-; constructor]. rewrite orb_false_r in E.
  destruct (_ || _); [injection E as <-; constructor|].
  assert (passedAnyCheck schema JUndef = false) as Hp by (unfold passedAnyCheck; cbn; by rewrite !andb_false_r).
  rewrite Hp in E. cbn [negb andb] in E. destruct byp; cbn [negb] in E.
  2:{ injection E as <-. repeat constructor. eexists. split_and!; [done..|by right]. }
  assert (∀ m, ∃ m', VMsg m = VMsg m' ∧ true = true ∧ (true = true ∨ m' = "Required field is not provided")) as HP by eauto 6.
  assert (∀ es es0 : list verror, es0 = [] → (es1 ← keyword_checks JUndef schema; es2 ← (if is_type schema "array" then Ok [] else type_check JUndef schema);
     Ok (es0 ++ es1 ++ es2)) = Ok es → Forall (λ e, ∃ m, e = VMsg m ∧ true = true ∧ (true = true ∨ m = "Required field is not provided")) es) as Hrest.
  { intros es' es0 -> E'. apply result_bind_Ok in E' as (es1 & E1 & E'). apply result_bind_Ok in E' as (es2 & E2 & E'). injection E' as <-.
    apply Forall_app; split; [by eapply keyword_checks_Forall|].
    destruct (is_type _ "array"); [injection E2 as <-; constructor|by eapply type_check_Forall]. }
  destruct (is_type _ "object" && _); [|by apply (Hrest es [])]. cbn [object_value] in E.
  apply result_bind_Ok in E as (e1 & E1 & E). apply result_bind_Ok in E as (e2 & E2 & E). revert E. apply Hrest.
  assert (e1 = []) as ->.
  { unfold required_list in E1. destruct (shas _ _); [|congruence]. destruct (sget _ _) as [| | | | | |keys| |]; try congruence.
    destruct keys; simpl in E1; congruence. }
  destruct (shas _ _); [|by injection E2 as <-]. destruct (sget _ _) as [| | | | | | |props|]; try done.
  destruct props as [|[k sub] props]; simpl in E2; [by injection E2 as <-|done].
Qed.

Lemma missing_located byp schema value o keys es : object_value value = Some o → sget schema "required" = JArr keys →
  missing o keys = Ok es → Forall (located byp schema value) es.
Proof.
  intros Ho Hk. assert (∀ k, k ∈ keys → to_string k ∈ map to_string keys) as Hin by (intros k Hk'; by apply list_elem_of_fmap_2).
  revert Hin es. generalize keys at 1 3. intros l. induction l as [|k l IH]; intros Hin es E; simpl in E; [injection E as <-; constructor|].
  apply result_bind_Ok in E as (v & Ev & E). apply result_bind_Ok in E as (es' & Ees & E). injection E as <-.
  apply IH in Ees; [|intros k' Hk'; apply Hin; by right].
  destruct v; try done. constructor; [|done]. eapply at_missing; [done..|apply Hin; by left|done].
Qed.

Lemma properties_located rec byp schema value o props es : object_value value = Some o → sget schema "properties" = JObj props →
  (∀ x sub es, rec x sub = Ok es → Forall (located byp sub x) es) →
  (∀ sub es, rec JUndef sub = Ok es →
     Forall (λ e, ∃ m, e = VMsg m ∧ truthy (sget sub "required") = true ∧ (byp = true ∨ m = "Required field is not provided")) es) →
  properties_errors rec o props = Ok es → Forall (located byp schema value) es.
Proof.
  intros Ho Hp Hrec Habs. assert (∀ kv, kv ∈ props → kv ∈ props) as Hin by done.
  revert Hin es. generalize props at 1 3. intros l. induction l as [|[k sub] l IH]; intros Hin es E; simpl in E; [injection E as <-; constructor|].
  apply result_bind_Ok in E as (x & Ex & E). apply result_bind_Ok in E as (er & Er & E). apply result_bind_Ok in E as (es' & Es & E).
  injection E as <-. apply Forall_app; split; [|apply IH; [intros kv Hkv; apply Hin; by right|done]]. apply Forall_map.
  assert ((k, sub) ∈ props) as Hks by (apply Hin; by left). destruct (decide (x = JUndef)) as [->|Hx].
  - eapply Forall_impl; [exact (Habs _ _ Er)|]. intros e (m & -> & Hr & Hm). by eapply at_absent.
  - eapply Forall_impl; [exact (Hrec _ _ _ Er)|]. intros e He. by eapply at_property.
Qed.

Lemma items_located rec byp schema l r i es : (∀ x sub es, rec x sub = Ok es → Forall (located byp sub x) es) →
  drop i l = r → items_errors rec (sget schema "items") i r = Ok es → Forall (located byp schema (JArr l)) es.
Proof.
  intros Hrec. revert i es. induction r as [|x r IH]; intros i es Hr E; simpl in E; [injection E as <-; constructor|].
  apply result_bind_Ok in E as (er & Er & E). apply result_bind_Ok in E as (es' & Es & E). injection E as <-.
  assert (l !! i = Some x) as Hi. { rewrite <- (Nat.add_0_r i), <- lookup_drop, Hr. done. }
  apply Forall_app; split; [apply Forall_map; eapply Forall_impl; [exact (Hrec _ _ _ Er)|]; intros e He; by eapply at_item|].
  apply (IH (S i)); [|done]. by rewrite <- Nat.add_1_r, <- drop_drop, Hr.
Qed.

Lemma validate_located f value schema req byp media es :
  validateValueBySchema f value schema req byp media = Ok es → Forall (located byp schema value) es.
Proof.
  revert value schema req es. induction f as [|f IH]; intros value schema req es E; [done|].
  cbn [validateValueBySchema] in E. destruct (truthy schema); [|injection E as <-; constructor]. simpl negb in E. cbv iota in E.
  destruct schema as [| | | | | | |fs|]; try done. set (schema := JObj fs) in *.
  destruct (skip_validation _ _ _); [injection E as <-; constructor|].
  destruct (_ && _ && _); [injection E as <-; repeat constructor|]. cbv zeta in E.
  assert (∀ es0 es : list verror, Forall (located byp schema value) es0 → (es1 ← keyword_checks value schema;
     es2 ← (if is_type schema "array" then
              match value with
              | JArr l => items_errors (λ x sub, validateValueBySchema f x sub false byp media) (sget schema "items") 0 l
              | _ => Ok []
              end
            else type_check value schema);
     Ok (es0 ++ es1 ++ es2)) = Ok es → Forall (located byp schema value) es) as Hrest.
  { intros es0 es' H0' E'. apply result_bind_Ok in E' as (es1 & E1 & E'). apply result_bind_Ok in E' as (es2 & E2 & E'). injection E' as <-.
    apply Forall_app; split; [done|]. apply Forall_app; split.
    - eapply keyword_checks_Forall; [exact E1|intros; by econstructor..].
    - destruct (is_type _ "array"); [|eapply type_check_Forall; [exact E2|intros; by constructor]].
      destruct value; try (injection E2 as <-; constructor). eapply items_located; [|done|exact E2]. intros ? ? ?. apply IH. }
  destruct (is_type _ "object" && _); [|revert E; apply Hrest; constructor].
  destruct (object_value value) as [o|] eqn:Eo; [|injection E as <-; repeat constructor].
  apply result_bind_Ok in E as (e1 & E1 & E). apply result_bind_Ok in E as (e2 & E2 & E). revert E. apply Hrest. clear Hrest.
  apply Forall_app; split.
  - unfold required_list in E1. destruct (shas _ _); [|injection E1 as <-; constructor].
    destruct (sget schema "required") eqn:Er; try (injection E1 as <-; constructor); try done. by eapply missing_located.
  - destruct (shas _ _); [|injection E2 as <-; constructor]. destruct (sget schema "properties") eqn:Ep; try done.
    eapply properties_located; [done|done| | |exact E2]; [intros ? ? ?; apply IH|intros ? ?; apply validate_absent].
Qed.
End Located.

(** C26: every error the validation reports leads to a place in the value and its schema: an error with an index
    to an item that the array has (a repeated one when it says so), an error with a property key to a
    property that the schema declares and the object has, at every level of nesting. The only errors
    about something the value lacks are those for a property that the object lacks and the schema there requires:
    listed as required, or required by its own schema. *)
Theorem errors_address_value `{DateParse, RegExpRest} param value isOAS3 bypass es :
  validateParam param value isOAS3 bypass = Ok es →
  ∀ e, e ∈ es → located bypass (getParameterSchema param isOAS3).1 value e.
Proof.
  unfold validateParam. destruct (getParameterSchema param isOAS3) as [schema media]. intros Hes%validate_located e He.
  by apply (proj1 (Forall_forall _ _) Hes).
Qed.

Definition listed_schema : jsval :=
  JObj [("type", JStr "object"); ("required", JArr [JStr "name"]);
        ("properties", JObj [("list", JObj [("type", JStr "array"); ("uniqueItems", JBool true)])])].

(** The object lacks a required property and repeats an item. *)
Definition listed_errors : list verror :=
  [VProp "name" (VMsg "Required property not found"); VProp "list" (VIndex 0 (VMsg "No duplicates allowed."));
   VProp "list" (VIndex 1 (VMsg "No duplicates allowed."))].

Lemma errors_address_value_witness :
  Forall (located false listed_schema (stringify "" (JObj [("list", JArr [JInt 1; JInt 1; JInt 2])]))) listed_errors.
Proof.
  apply Forall_forall.
  apply (@errors_address_value date_invalid regexp_none (JObj [("in", JStr "body"); ("schema", listed_schema)])
    (stringify "" (JObj [("list", JArr [JInt 1; JInt 1; JInt 2])])) false false listed_errors).
  vm_compute. reflexivity.
Defined.

(** An error under a key that is neither declared nor required leads nowhere. *)
Example no_place : ¬ located false listed_schema (JObj []) (VProp "other" (VMsg "Required property not found")).
Proof.
  intros Hl. inversion Hl as [| | | |o keys k _ Hk Hin|o props k sub x e _ Hp Hin|o props k sub m _ Hp Hin]; subst.
  - unfold sget in Hk. injection Hk as <-. by apply list_elem_of_singleton in Hin.
  - unfold sget in Hp. injection Hp as <-. by apply list_elem_of_singleton in Hin.
  - unfold sget in Hp. injection Hp as <-. by apply list_elem_of_singleton in Hin.
Qed.

(** * Bounds of integers *)

Lemma is_digit_val c : is_digit c = bool_decide (is_Some (digit_val c)).
Proof. unfold is_digit, digit_val, code. destruct (_ && _); [by rewrite bool_decide_true by eauto|]. rewrite bool_decide_false; [done|by intros []]. Qed.

Lemma head_in_digit s : head_in is_digit s = starts_digit s.
Proof. destruct s; simpl; [done|]. apply is_digit_val. Qed.

Lemma drop_digits_read s : ∀ a, drop_digits s = (read_digits a s).2.
Proof.
  induction s as [|c s IH]; intros a; simpl; [done|]. rewrite is_digit_val.
  destruct (digit_val c); [rewrite bool_decide_true by eauto; apply IH|]. rewrite bool_decide_false; [done|by intros []].
Qed.

Lemma starts_digit_no_sign p s : starts_digit p = false → p ≠ "" → starts_digit s = true → strip_prefix p s = None.
Proof.
  intros Hp Hne Hs. destruct (strip_prefix p s) as [r|] eqn:E; [|done]. apply strip_prefix_Some in E as ->.
  destruct p as [|c p]; [done|]. simpl in *. congruence.
Qed.

Lemma starts_digit_N_to_string n : starts_digit (N_to_string n) = true.
Proof. rewrite <- (sapp_nil_r (N_to_string n)). apply starts_digit_N. Qed.

Lemma read_N_to_string n : read_digits 0 (N_to_string n) = (n, "").
Proof. rewrite <- (sapp_nil_r (N_to_string n)). by apply read_digits_N. Qed.

Lemma str_to_num_digits n : str_to_num (N_to_string n) = JInt (Z.of_N n).
Proof.
  unfold str_to_num. pose proof (starts_digit_N_to_string n) as Hd.
  rewrite !starts_digit_no_sign by done. cbn [default]. rewrite Hd, read_N_to_string.
  destruct (N_to_string n); done.
Qed.

Lemma str_to_num_Z z : str_to_num (Z_to_string z) = JInt z.
Proof.
  destruct z as [|p|p]; [done|apply (str_to_num_digits (Npos p))|]. unfold str_to_num, Z_to_string.
  change (strip_prefix "-" (String (Ascii.ascii_of_N 45) (N_to_string (Npos p)))) with (Some (N_to_string (Npos p))).
  cbv iota beta. rewrite starts_digit_N_to_string, read_N_to_string. done.
Qed.

Lemma re_integer_Z z : re_integer (Z_to_string z) = true.
Proof.
  assert (∀ n, head_in is_digit (N_to_string n) && String.eqb (drop_digits (N_to_string n)) "" = true) as Hn.
  { intros n. by rewrite head_in_digit, starts_digit_N_to_string, (drop_digits_read _ 0), read_N_to_string. }
  unfold re_integer, drop_minus. destruct z as [|p|p]; [done| |apply Hn].
  simpl Z_to_string. rewrite starts_digit_no_sign by (try done; apply starts_digit_N_to_string). apply Hn.
Qed.

Lemma Z_to_string_nonempty z : String.eqb (Z_to_string z) "" = false.
Proof.
  assert (∀ n, String.eqb (N_to_string n) "" = false) as Hn.
  { intros n. pose proof (starts_digit_N_to_string n). by destruct (N_to_string n). }
  destruct z; try apply Hn. done.
Qed.

(** A required integer parameter with bounds, in a Swagger 2 and in an OpenAPI 3 definition. *)
Definition bounded_integer (isOAS3 : bool) (lo hi : Z) : jsval :=
  let schema := [("type", JStr "integer"); ("minimum", JInt lo); ("maximum", JInt hi)] in
  JObj ([("in", JStr "query"); ("required", JBool true)] ++ if isOAS3 then [("schema", JObj schema)] else schema).

Lemma given_int z : given (JInt z) = true.
Proof. unfold given. simpl. unfold num_eq. simpl. destruct z; done. Qed.

Lemma less_text_int z b : less (JStr (Z_to_string z)) (JInt b) = (z <? b)%Z.
Proof. unfold less, js_lt. cbn [to_number to_string]. rewrite str_to_num_Z. unfold num_lt. simpl pow10. by rewrite !Z.mul_1_r. Qed.

Lemma less_int_text z b : less (JInt b) (JStr (Z_to_string z)) = (b <? z)%Z.
Proof. unfold less, js_lt. cbn [to_number to_string]. rewrite str_to_num_Z. unfold num_lt. simpl pow10. by rewrite !Z.mul_1_r. Qed.

Lemma bounded_integer_errors `{DateParse, RegExpRest} lo hi z isOAS3 bypass :
  validateParam (bounded_integer isOAS3 lo hi) (JStr (Z_to_string z)) isOAS3 bypass =
  Ok ((if (hi <? z)%Z then [VMsg ("Value must be less than " +:+ to_string (JInt hi))] else []) ++
      (if (z <? lo)%Z then [VMsg ("Value must be greater than " +:+ to_string (JInt lo))] else [])).
Proof.
  unfold validateParam.
  assert (getParameterSchema (bounded_integer isOAS3 lo hi) isOAS3 =
    (JObj [("type", JStr "integer"); ("minimum", JInt lo); ("maximum", JInt hi)], None)) as -> by by destruct isOAS3.
  assert (truthy (sget (bounded_integer isOAS3 lo hi) "required") = true) as -> by by destruct isOAS3.
  cbn [validateValueBySchema]. set (schema := JObj _).
  assert (truthy (JStr (Z_to_string z)) = true) as Ht by (simpl; by rewrite Z_to_string_nonempty).
  change (negb (truthy schema)) with false. cbv iota. subst schema. cbv iota. set (schema := JObj _).
  change (skip_validation _ schema _) with false. 
  assert (passedAnyCheck schema (JStr (Z_to_string z)) = true) as -> by (unfold passedAnyCheck, given; by rewrite Ht).
  change (is_type schema "object") with false. change (is_type schema "array") with false. cbv iota. cbn [andb orb negb]. cbv zeta iota.
  unfold keyword_checks, type_check, validateMaximum, validateMinimum, validateInteger.
  change (sget schema "maximum") with (JInt hi). change (sget schema "minimum") with (JInt lo).
  rewrite !given_int, less_text_int, less_int_text. cbn [to_string]. rewrite re_integer_Z.
  simpl. by destruct (hi <? z)%Z, (z <? lo)%Z.
Qed.

(** For an integer parameter with a minimum and a maximum, and the text of an integer entered
    for it (all of them integers a double holds exactly), the validation reports exactly the bounds
    that are exceeded, a bound of zero included; it reports nothing exactly when the integer is
    between the bounds. *)
Theorem integer_bounds `{DateParse, RegExpRest} lo hi z isOAS3 bypass :
  (Z.abs lo < 2 ^ 53)%Z → (Z.abs hi < 2 ^ 53)%Z → (Z.abs z < 2 ^ 53)%Z →
  let errors := validateParam (bounded_integer isOAS3 lo hi) (JStr (Z_to_string z)) isOAS3 bypass in
  errors = Ok ((if (hi <? z)%Z then [VMsg ("Value must be less than " +:+ to_string (JInt hi))] else []) ++
               (if (z <? lo)%Z then [VMsg ("Value must be greater than " +:+ to_string (JInt lo))] else [])) ∧
  (errors = Ok [] ↔ (lo ≤ z ≤ hi)%Z).
Proof.
  intros _ _ _ errors.
  assert (errors = Ok ((if (hi <? z)%Z then [VMsg ("Value must be less than " +:+ to_string (JInt hi))] else []) ++
    (if (z <? lo)%Z then [VMsg ("Value must be greater than " +:+ to_string (JInt lo))] else []))) as E.
  { unfold errors. by apply bounded_integer_errors. }
  split; [exact E|]. rewrite E. destruct (Z.ltb_spec hi z), (Z.ltb_spec z lo); simpl; split; try done; lia.
Qed.

Lemma integer_bounds_witness :
  @validateParam date_invalid regexp_none (bounded_integer true 0 10) (JStr (Z_to_string (-1))) true false =
    Ok [VMsg "Value must be greater than 0"] ∧
  @validateParam date_invalid regexp_none (bounded_integer false 0 10) (JStr (Z_to_string 10)) false false = Ok [].
Proof.
  split.
  - apply (@integer_bounds date_invalid regexp_none 0 10 (-1) true false); lia.
  - apply (@integer_bounds date_invalid regexp_none 0 10 10 false false); lia.
Defined.
