(* ===== verification/SwImmutable.v ===== *)
(** The operations of the Immutable library that the plugins of Swagger UI use on the store: nested
    maps are objects, lists are arrays. Shapes describe what a branch of the store looks like; a
    write at a path of a shape succeeds, keeps the shape, is read back, and touches nothing else. *)

From S2P Require Import Prelude JsValue Json JsString SwAuth.

(** * Immutable collections *)

Definition invalid_keyPath : jsval := mkError "invalid keyPath".

(** [m.setIn(path, x)]: missing maps are created; anything else on the way is an error. The lists
    that can be on such a path are only addressed by names, which a list ignores. *)
Fixpoint setIn (v : option jsval) (ks : list string) (x : jsval) : result jsval :=
  match ks with
  | [] => Ok x
  | k :: r =>
      match v with
      | None => y ← setIn None r x; Ok (JObj [(k, y)])
      | Some (JObj fs) => y ← setIn (assoc fs k) r x; Ok (JObj (oset fs k y))
      | Some (JArr l) => Ok (JArr l)
      | Some _ => Throw invalid_keyPath
      end
  end.

(** [m.has] along a path. *)
Fixpoint lookIn (v : jsval) (ks : list string) : option jsval :=
  match ks with
  | [] => Some v
  | k :: r => match v with JObj fs => x ← assoc fs k; lookIn x r | _ => None end
  end.

(** [m.deleteIn(path)]. *)
Fixpoint deleteIn (v : jsval) (ks : list string) : result jsval :=
  match ks with
  | [] => Ok v
  | [k] => match v with JObj fs => Ok (JObj (odelete fs k)) | JArr _ => Ok v | _ => Throw invalid_keyPath end
  | k :: r =>
      match v with
      | JObj fs => match assoc fs k with Some x => y ← deleteIn x r; Ok (JObj (oset fs k y)) | None => Ok v end
      | JArr _ => Ok v
      | _ => Throw invalid_keyPath
      end
  end.

(** The elements that [map], [reduce] and [forEach] visit. *)
Definition elements (v : jsval) (m : string) : result (list jsval) :=
  match v with
  | JArr l => Ok l
  | JObj fs => Ok (map snd fs)
  | JUndef | JNull => Throw (cannot_read v m)
  | _ => Throw (not_a_function v m)
  end.

(** The entries of an argument of [merge] and [mergeWith]. *)
Definition merge_entries (v : jsval) : result (list (string * jsval)) :=
  match v with
  | JObj fs => Ok fs
  | JUndef | JNull => Ok []
  | JArr l => Ok (indexed l)
  | _ => Throw (typeError "Expected Array or iterable object of [k, v] entries, or keyed object")
  end.

Definition set_all (fs new : list (string * jsval)) : list (string * jsval) :=
  foldl (λ acc kv, oset acc kv.1 kv.2) fs new.

(** [x.get(k)] of a map. *)
Definition method_get (v : jsval) (k : string) : result jsval :=
  match v with
  | JObj fs => Ok (default JUndef (assoc fs k))
  | JArr _ => Ok JUndef
  | JUndef | JNull => Throw (cannot_read v "get")
  | _ => Throw (not_a_function v "get")
  end.

(** * Shapes of the store *)

Inductive shape :=
| SAny
| SNone
| SList
| SMap (s : shape)
| SRec (l : list (string * shape)).

(** [SNone] is the shape of a key that must be absent. The shape below a key; [None]: nothing is required there. *)
Definition field_shape (l : list (string * shape)) (k : string) : option shape :=
  (fix go l := match l with [] => None | (j, s) :: r => if String.eqb j k then Some s else go r end) l.

Definition child (s : shape) (k : string) : option shape :=
  match s with SMap t => Some t | SRec l => field_shape l k | _ => None end.

Definition distinct_keys (fs : list (string * jsval)) : bool := bool_decide (NoDup (map fst fs)).

Fixpoint fits (s : shape) (v : jsval) : bool :=
  match s with
  | SAny => true
  | SNone => false
  | SList => match v with JArr _ => true | _ => false end
  | SMap t => match v with JObj fs => distinct_keys fs && forallb (λ kv, fits t kv.2) fs | _ => false end
  | SRec l =>
      match v with
      | JObj fs =>
          distinct_keys fs &&
          forallb (λ kv, (fix go l := match l with
                                      | [] => true
                                      | (j, t) :: r => if String.eqb j kv.1 then fits t kv.2 else go r
                                      end) l) fs
      | _ => false
      end
  end.

Definition is_map_shape (s : shape) : bool := match s with SMap _ | SRec _ => true | _ => false end.

Definition fits_below (s : shape) (k : string) (x : jsval) : Prop :=
  match child s k with Some t => fits t x = true | None => True end.

(** The shape at a path all of whose steps the shape knows. *)
Fixpoint shape_at (s : shape) (ks : list string) : option shape :=
  match ks with [] => Some s | k :: r => match child s k with Some t => shape_at t r | None => None end end.

(** The paths differ at some step. *)
Fixpoint diverge (ks js : list string) : bool :=
  match ks, js with
  | k :: ks, j :: js => if String.eqb k j then diverge ks js else true
  | _, _ => false
  end.

Lemma fits_map s v : is_map_shape s = true →
  fits s v = true ↔ ∃ fs, v = JObj fs ∧ NoDup (map fst fs) ∧ Forall (λ kv, fits_below s kv.1 kv.2) fs.
Proof.
  intros Hs. assert (∀ fs, forallb (λ kv, match child s kv.1 with Some t => fits t kv.2 | None => true end) fs = true ↔
    Forall (λ kv, fits_below s kv.1 kv.2) fs) as Hf.
  { intros fs. rewrite forallb_forall, List.Forall_forall. unfold fits_below.
    split; intros Hx [k x] Hin; specialize (Hx _ Hin); simpl in *; by destruct (child s k). }
  assert (fits s v = match v with
    | JObj fs => distinct_keys fs && forallb (λ kv, match child s kv.1 with Some t => fits t kv.2 | None => true end) fs
    | _ => false end) as ->.
  { destruct s as [| | |t|l]; try done. destruct v as [| | | | | | |fs|]; try done. simpl. f_equal.
    induction fs as [|[k x] fs IH]; simpl; [done|]. rewrite IH. f_equal. clear. unfold field_shape. simpl.
    induction l as [|[j t] l IH]; [done|]. simpl. destruct (String.eqb j k); [done|]. exact IH. }
  destruct v as [| | | | | | |fs|]; try (split; [done|by intros (? & ? & _)]).
  unfold distinct_keys. rewrite andb_true_iff, bool_decide_eq_true, Hf. naive_solver.
Qed.

#[global] Arguments fits : simpl never.

Lemma child_map s k t : child s k = Some t → is_map_shape s = true.
Proof. by destruct s. Qed.

Lemma fits_assoc s fs k x : NoDup (map fst fs) → Forall (λ kv, fits_below s kv.1 kv.2) fs → assoc fs k = Some x →
  fits_below s k x.
Proof. intros _ Hf Hk. apply assoc_Some_elem in Hk. by apply (proj1 (Forall_forall _ _) Hf (k, x)). Qed.

Lemma oset_Forall (P : string → jsval → Prop) fs k y : Forall (λ kv, P kv.1 kv.2) fs → P k y →
  Forall (λ kv, P kv.1 kv.2) (oset fs k y).
Proof.
  intros Hf Hy. induction Hf as [|[j u] fs Hj Hf IH]; simpl; [by repeat constructor|].
  destruct (String.eqb_spec j k) as [->|]; by constructor.
Qed.

(** A write at a path of the shape succeeds, keeps the shape and is read back. *)
Lemma setIn_fits ks s v t x : (∀ u, v = Some u → fits s u = true) → shape_at s ks = Some t → fits t x = true →
  ∃ v', setIn v ks x = Ok v' ∧ fits s v' = true ∧ lookIn v' ks = Some x.
Proof.
  revert s v. induction ks as [|k ks IH]; intros s v Hv Hs Hx; simpl in *; [injection Hs as ->; eauto|].
  destruct (child s k) as [c|] eqn:Ec; [|done]. pose proof (child_map _ _ _ Ec) as Hm. destruct v as [u|].
  - destruct (proj1 (fits_map s u Hm) (Hv u eq_refl)) as (fs & -> & Hnd & Hf).
    destruct (IH c (assoc fs k)) as (y & Hy & Hfy & Hl); [|done|done|].
    { intros u E. pose proof (fits_assoc s fs k u Hnd Hf E) as Hb. unfold fits_below in Hb. by rewrite Ec in Hb. }
    rewrite Hy. simpl. eexists. split_and!; [done| |cbn [lookIn]; by rewrite assoc_oset_eq].
    apply fits_map; [done|]. eexists. split_and!; [done|by apply oset_NoDup|]. apply oset_Forall; [done|].
    unfold fits_below. by rewrite Ec.
  - destruct (IH c None) as (y & Hy & Hfy & Hl); [done|done|done|]. rewrite Hy. simpl. eexists. split_and!; [done| |].
    + apply fits_map; [done|]. eexists. split_and!; [done|apply NoDup_singleton|]. repeat constructor.
      unfold fits_below. simpl. by rewrite Ec.
    + simpl. by rewrite String.eqb_refl.
Qed.

(** A write below a key of which the shape knows nothing keeps the shape. *)
Lemma setIn_fits_other s u k ks x v' : is_map_shape s = true → fits s u = true → child s k = None →
  setIn (Some u) (k :: ks) x = Ok v' → fits s v' = true.
Proof.
  intros Hm Hu Hc E. apply (fits_map s u Hm) in Hu as (fs & -> & Hnd & Hf). simpl in E.
  apply result_bind_Ok in E as (y & _ & [= <-]). apply fits_map; [done|]. eexists.
  split_and!; [done|by apply oset_NoDup|]. apply oset_Forall; [done|]. unfold fits_below. by rewrite Hc.
Qed.

(** A write does not change what is read at another path. *)
Lemma lookIn_setIn_ne ks js v x v' : setIn v ks x = Ok v' → diverge ks js = true →
  lookIn v' js = v ≫= λ u, lookIn u js.
Proof.
  revert js v v'. induction ks as [|k ks IH]; intros [|j js] v v' E Hd; try done. simpl in Hd.
  destruct v as [u|]; cbn [setIn] in E.
  - destruct u as [| | | | | |l|fs|]; try done; [by injection E as <-|].
    apply result_bind_Ok in E as (y & Hy & [= <-]). simpl.
    destruct (String.eqb_spec k j) as [->|Hne].
    + rewrite assoc_oset_eq. simpl. by rewrite (IH _ _ _ Hy Hd).
    + by rewrite assoc_oset_ne.
  - apply result_bind_Ok in E as (y & Hy & [= <-]). simpl.
    destruct (String.eqb_spec k j) as [->|Hne]; simpl; [|done]. by rewrite (IH _ _ _ Hy Hd).
Qed.

Lemma fits_lookIn ks s v t x : fits s v = true → shape_at s ks = Some t → lookIn v ks = Some x → fits t x = true.
Proof.
  revert s v. induction ks as [|k ks IH]; intros s v Hv Hs Hx; simpl in *; [by simplify_eq|].
  destruct (child s k) as [c|] eqn:Ec; [|done]. pose proof (child_map _ _ _ Ec) as Hm.
  apply (fits_map s v Hm) in Hv as (fs & -> & Hnd & Hf). destruct (assoc fs k) as [u|] eqn:Eu; [|done].
  apply (IH c u); [|done|done]. pose proof (fits_assoc s fs k u Hnd Hf Eu) as Hb. unfold fits_below in Hb. by rewrite Ec in Hb.
Qed.

(** A deletion keeps the shape. *)
Lemma odelete_incl fs k : odelete fs k ⊆ fs.
Proof.
  induction fs as [|[j u] fs IH]; simpl; [done|]. destruct (String.eqb j k); set_solver.
Qed.

Lemma odelete_NoDup fs k : NoDup (map fst fs) → NoDup (map fst (odelete fs k)).
Proof.
  induction fs as [|[j u] fs IH]; simpl; [done|]. rewrite NoDup_cons. intros [Hj Hnd].
  destruct (String.eqb j k); [by apply IH|]. simpl. constructor; [|by apply IH]. intros Hin. apply Hj.
  apply list_elem_of_fmap in Hin as (kv & -> & Hin). apply list_elem_of_fmap. exists kv. split; [done|]. by apply (odelete_incl fs k).
Qed.

Lemma fits_obj_sub s fs gs : is_map_shape s = true → fits s (JObj fs) = true → NoDup (map fst gs) → gs ⊆ fs → fits s (JObj gs) = true.
Proof.
  intros Hm Hf Hnd Hsub. apply (fits_map s _ Hm) in Hf as (fs' & [= <-] & _ & Hf). apply fits_map; [done|].
  exists gs. split_and!; [done|done|]. apply Forall_forall. intros kv Hin. apply (proj1 (Forall_forall _ _) Hf). by apply Hsub.
Qed.

Lemma fits_obj_set s fs k y : is_map_shape s = true → fits s (JObj fs) = true → fits_below s k y → fits s (JObj (oset fs k y)) = true.
Proof.
  intros Hm Hf Hy. apply (fits_map s _ Hm) in Hf as (fs' & [= <-] & Hnd & Hf). apply fits_map; [done|].
  eexists. split_and!; [done|by apply oset_NoDup|]. by apply (oset_Forall (fits_below s)).
Qed.

Lemma deleteIn_fits ks s v v' : fits s v = true → is_Some (shape_at s ks) → deleteIn v ks = Ok v' → fits s v' = true.
Proof.
  revert s v v'. induction ks as [|k ks IH]; intros s v v' Hv [t Hs] E; [by injection E as <-|]. simpl in Hs.
  destruct (child s k) as [c|] eqn:Ec; [|done]. pose proof (child_map _ _ _ Ec) as Hm.
  destruct (proj1 (fits_map s v Hm) Hv) as (fs & -> & Hnd & Hf). destruct ks as [|j ks].
  - injection E as <-. apply (fits_obj_sub s fs); [done|done|by apply odelete_NoDup|apply odelete_incl].
  - cbn [deleteIn] in E. destruct (assoc fs k) as [x|] eqn:Ex; [|by injection E as <-].
    apply result_bind_Ok in E as (y & Hy & [= <-]). apply fits_obj_set; [done|done|].
    pose proof (fits_assoc s fs k x Hnd Hf Ex) as Hx. unfold fits_below in *. rewrite Ec in *. by apply (IH c x).
Qed.

(** A deletion removes what is read at its path or below and keeps everything else. *)
Lemma lookIn_deleteIn ks js v v' : length ks = length js → deleteIn v ks = Ok v' →
  lookIn v' js = lookIn v js ∨ lookIn v' js = None.
Proof.
  revert js v v'. induction ks as [|k ks IH]; intros [|j js] v v' Hl E; try done; [injection E as <-; by left|].
  injection Hl as Hl. destruct v as [| | | | | |l|fs|]; try (by destruct ks).
  - left. destruct ks; by injection E as <-.
  - destruct ks as [|k' ks].
    + destruct js; [|done]. injection E as <-. cbn [lookIn]. destruct (decide (j = k)) as [->|Hn].
      * right. by rewrite assoc_odelete_eq.
      * left. by rewrite assoc_odelete_ne.
    + cbn [deleteIn] in E. destruct (assoc fs k) as [x|] eqn:Ex; [|injection E as <-; by left].
      apply result_bind_Ok in E as (y & Hy & [= <-]). cbn [lookIn]. destruct (decide (j = k)) as [->|Hn].
      * rewrite assoc_oset_eq, Ex. by apply (IH js x y).
      * left. by rewrite assoc_oset_ne.
Qed.

Lemma lookIn_deleteIn_ne ks js v v' : deleteIn v ks = Ok v' → diverge ks js = true → lookIn v' js = lookIn v js.
Proof.
  revert js v v'. induction ks as [|k ks IH]; intros [|j js] v v' E Hd; try done. cbn [diverge] in Hd.
  destruct v as [| | | | | |l|fs|]; try (by destruct ks); [by destruct ks; injection E as <-|].
  destruct ks as [|k' ks].
  - injection E as <-. cbn [lookIn]. destruct (String.eqb_spec k j) as [->|Hn]; [done|]. by rewrite assoc_odelete_ne.
  - cbn [deleteIn] in E. destruct (assoc fs k) as [x|] eqn:Ex; [|by injection E as <-].
    apply result_bind_Ok in E as (y & Hy & [= <-]). cbn [lookIn]. destruct (String.eqb_spec k j) as [->|Hn].
    + rewrite assoc_oset_eq, Ex. by apply (IH js x y).
    + by rewrite assoc_oset_ne.
Qed.

#[global] Arguments setIn : simpl never.
#[global] Arguments lookIn : simpl never.
#[global] Arguments deleteIn : simpl never.

Lemma lookIn_cons fs k ks : lookIn (JObj fs) (k :: ks) = (x ← assoc fs k; lookIn x ks).
Proof. done. Qed.

Lemma setIn_cons fs k ks x : setIn (Some (JObj fs)) (k :: ks) x = (y ← setIn (assoc fs k) ks x; Ok (JObj (oset fs k y))).
Proof. done. Qed.
