(* ===== verification/SwSpec.v ===== *)
(** Swagger UI, what a user enters for an operation: the reducers of the spec plugin
    (src/core/plugins/spec/reducers.js), the selectors that join the definition with the entered
    values (src/core/plugins/spec/selectors.js) and the identifiers of parameters (core/utils.js).
    The branch [spec] of the store is a nested Immutable map, here an object. *)

From S2P Require Import Prelude JsValue Json RegExp JsString SwUtils SwAuth SwStore SwValidate SwImmutable.

(** * The definition with its resolved parts *)

(** [mergerFn]: maps are merged key by key, unless the new one was resolved as a whole. *)
Fixpoint mergerFn (oldVal newVal : jsval) {struct newVal} : jsval :=
  match oldVal, newVal with
  | JObj old, JObj new =>
      if truthy (map_get newVal "$$ref") then newVal
      else JObj ((fix go (acc new : list (string * jsval)) : list (string * jsval) :=
                    match new with
                    | [] => acc
                    | (k, v) :: r =>
                        go (oset acc k (match assoc acc k with Some o => mergerFn o v | None => v end)) r
                    end) (set_all [] old) new)
  | _, _ => newVal
  end.

(** A key of [resolvedSubtrees] at the top is merged like any other. *)
Definition specJsonWithResolvedSubtrees (state : jsval) : result jsval :=
  json ← merge_entries (map_get state "json");
  resolved ← merge_entries (map_get state "resolvedSubtrees");
  Ok (JObj (foldl (λ acc kv, oset acc kv.1 (match assoc acc kv.1 with Some o => mergerFn o kv.2 | None => kv.2 end))
                  (set_all [] json) resolved)).

(** * Identifiers of parameters *)

(** [hashCode] of an Immutable map. *)
Class HashCode := hashCode : jsval → Z.

Section Spec.
Context `{HashCode}.

(** [returnAll]: from the most to the least specific. *)
Definition identifiers (param : jsval) (allowHashes : bool) : result (list jsval) :=
  match param with
  | JObj _ =>
      let paramName := map_get param "name" in
      let paramIn := map_get param "in" in
      let both := truthy paramIn && truthy paramName in
      let key := to_string paramIn +:+ "." +:+ to_string paramName in
      Ok ((if both && allowHashes then [JStr (key +:+ ".hash-" +:+ Z_to_string (hashCode param))] else []) ++
          (if both then [JStr key] else []) ++ [paramName])
  | _ => Throw (mkError "paramToIdentifier: received a non-Im.Map parameter as input")
  end.

(** The first identifier, as a key of a map. *)
Definition paramToIdentifier (param : jsval) (allowHashes : bool) : result string :=
  ids ← identifiers param allowHashes;
  Ok (match ids with v :: _ => if truthy v then to_string v else "" | [] => "" end).

(** [paramValues[id]] of a plain object: functions of the prototype are found too. *)
Definition plain_get (o : list (string * jsval)) (k : string) : jsval :=
  match assoc o k with
  | Some v => v
  | None => if is_inherited k then JErr "Function" k [] else JUndef
  end.

(** The first value that is not undefined. *)
Fixpoint first_defined (l : list jsval) : jsval :=
  match l with [] => JUndef | JUndef :: r => first_defined r | v :: _ => v end.

Definition paramToValue (param : jsval) (paramValues : list (string * jsval)) : result jsval :=
  ids ← identifiers param true;
  Ok (first_defined (map (λ id, plain_get paramValues (to_string id)) ids)).

(** * Selectors *)

(** The path of an operation is [path; method]. *)
Definition meta_params (pathMethod : list string) : list string := ["meta"; "paths"] ++ pathMethod ++ ["parameters"].
#[global] Arguments meta_params : simpl never.

(** [getIn(path, default)] for a collection whose elements are visited: the default is empty. *)
Definition elements_in (v : jsval) (path : list string) (m : string) : result (list jsval) :=
  match lookIn v path with None => Ok [] | Some x => elements x m end.

Definition same_param (param curr : jsval) : bool :=
  strict_eq (map_get curr "in") (map_get param "in") && strict_eq (map_get curr "name") (map_get param "name").

(** [OrderedMap().merge(currentParam, inNameKeyedMeta, hashKeyedMeta)]. *)
Definition with_meta (currentParam inNameKeyedMeta hashKeyedMeta : jsval) : result jsval :=
  a ← merge_entries currentParam; b ← merge_entries inNameKeyedMeta; c ← merge_entries hashKeyedMeta;
  Ok (JObj (set_all (set_all (set_all [] a) b) c)).

(** The parameter [param] of the definition with what was entered for it; undefined if there is no
    such parameter. *)
Definition parameterWithMetaByIdentity (state : jsval) (pathMethod : list string) (param : jsval) : result jsval :=
  spec ← specJsonWithResolvedSubtrees state;
  opParams ← elements_in spec (["paths"] ++ pathMethod ++ ["parameters"]) "map";
  let metaParams := default (JObj []) (lookIn state (meta_params pathMethod)) in
  merged ← mapM (λ currentParam,
    name ← method_get param "name"; in_ ← method_get param "in";
    let key := to_string in_ +:+ "." +:+ to_string name in
    byName ← method_get metaParams key;
    byHash ← method_get metaParams (key +:+ ".hash-" +:+ Z_to_string (hashCode param));
    with_meta currentParam byName byHash) opParams;
  Ok (default JUndef (List.find (same_param param) merged)).

Definition parameterInclusionSettingFor (state : jsval) (pathMethod : list string) (paramName paramIn : jsval) : jsval :=
  default (JBool false) (lookIn state (["meta"; "paths"] ++ pathMethod ++
    ["parameter_inclusions"; to_string paramIn +:+ "." +:+ to_string paramName])).

(** [op.get("parameters", List())]. *)
Definition op_parameters (op : jsval) : result (list jsval) :=
  match op with
  | JObj fs => match assoc fs "parameters" with Some x => elements x "map" | None => Ok [] end
  | JArr _ => Ok []
  | JUndef | JNull => Throw (cannot_read op "get")
  | _ => Throw (not_a_function op "get")
  end.

(** The part [parameters] of [operationWithMeta]. *)
Definition operationWithMeta_params (state : jsval) (pathMethod : list string) : result (list jsval) :=
  spec ← specJsonWithResolvedSubtrees state;
  let op := default (JObj []) (lookIn spec (["paths"] ++ pathMethod)) in
  params ← op_parameters op;
  merged ← mapM (parameterWithMetaByIdentity state pathMethod) params;
  _ ← merge_entries op;
  _ ← merge_entries (default (JObj []) (lookIn state (["meta"; "paths"] ++ pathMethod)));
  Ok merged.

(** The values that the user filled out, by identifier. *)
Definition parameterValues (state : jsval) (pathMethod : list string) (isXml : bool) : result (list (string * jsval)) :=
  params ← operationWithMeta_params state pathMethod;
  pairs ← mapM (λ p,
    in_ ← method_get p "in";
    value ← method_get p (if isXml && strict_eq in_ (JStr "body") then "value_xml" else "value");
    id ← paramToIdentifier p false;
    Ok (id, value)) params;
  Ok (set_all [] pairs).

(** [errors && errors.count()] is zero. *)
Definition no_errors (errors : jsval) : result bool :=
  match errors with
  | JArr l => Ok (Nat.eqb (length l) 0)
  | JObj fs => Ok (Nat.eqb (length fs) 0)
  | v => if truthy v then Throw (not_a_function v "count") else Ok true
  end.

(** True when no parameter of the operation has errors. *)
Definition validateBeforeExecute (state : jsval) (pathMethod : list string) : result bool :=
  metas ← elements_in state (meta_params pathMethod) "forEach";
  flags ← mapM (λ p, errors ← method_get p "errors"; no_errors errors) metas;
  Ok (forallb id flags).

(** * Reducers *)

(** A payload that is not a text changes nothing. *)
Definition UPDATE_SPEC (state payload : jsval) : result jsval :=
  match payload with JStr _ => setIn (Some state) ["spec"] payload | _ => Ok state end.
Definition UPDATE_URL (state payload : jsval) : result jsval := setIn (Some state) ["url"] (JStr (to_string payload)).

(** The reducer that the plugin download-url adds to the branch. *)
Definition spec_update_loading_status (state payload : jsval) : result jsval :=
  match payload with JStr _ => setIn (Some state) ["loadingStatus"] payload | _ => Ok state end.

Definition UPDATE_JSON (state payload : jsval) : result jsval := setIn (Some state) ["json"] payload.
Definition UPDATE_RESOLVED (state payload : jsval) : result jsval := setIn (Some state) ["resolved"] payload.
Definition UPDATE_RESOLVED_SUBTREE (state : jsval) (path : list string) (value : jsval) : result jsval :=
  setIn (Some state) ("resolvedSubtrees" :: path) value.

(** The parameter is given itself or by name and place. *)
Definition UPDATE_PARAM (state : jsval) (pathMethod : list string) (param : jsval + string * string) (value : jsval)
    (isXml : bool) : result jsval :=
  paramKey ← match param with
             | inl p => paramToIdentifier p true
             | inr (paramIn, paramName) => Ok (paramIn +:+ "." +:+ paramName)
             end;
  setIn (Some state) (meta_params pathMethod ++ [paramKey; if isXml then "value_xml" else "value"]) value.

Definition UPDATE_EMPTY_PARAM_INCLUSION (state : jsval) (pathMethod : list string) (paramName paramIn : string)
    (includeEmptyValue : jsval) : result jsval :=
  if String.eqb paramName "" || String.eqb paramIn "" then Ok state
  else setIn (Some state) (["meta"; "paths"] ++ pathMethod ++ ["parameter_inclusions"; paramIn +:+ "." +:+ paramName])
             includeEmptyValue.

(** An error as the store keeps it. *)
Fixpoint verror_js (e : verror) : jsval :=
  match e with
  | VMsg s => JStr s
  | VProp k e => JObj [("propKey", JStr k); ("error", verror_js e)]
  | VIndex i e => JObj [("index", JInt (Z.of_nat i)); ("error", verror_js e)]
  | VRemove s => JObj [("needRemove", JBool true); ("error", JStr s)]
  end.

Section Validation.
Context `{DateParse, RegExpRest}.

(** One step of the reduction over the parameters. *)
Definition validate_one (state : jsval) (pathMethod : list string) (paramValues : list (string * jsval)) (isOAS3 : bool)
    (res param : jsval) : result jsval :=
  value ← paramToValue param paramValues;
  name ← method_get param "name"; in_ ← method_get param "in";
  errors ← validateParam param value isOAS3 (truthy (parameterInclusionSettingFor state pathMethod name in_));
  id ← paramToIdentifier param true;
  setIn (Some res) [id; "errors"] (JArr (map verror_js errors)).

Fixpoint validate_each (state : jsval) (pathMethod : list string) (paramValues : list (string * jsval)) (isOAS3 : bool)
    (res : jsval) (params : list jsval) : result jsval :=
  match params with
  | [] => Ok res
  | p :: r => res' ← validate_one state pathMethod paramValues isOAS3 res p;
              validate_each state pathMethod paramValues isOAS3 res' r
  end.

(** Without parameters the map is not changed, so that nothing is written. *)
Definition VALIDATE_PARAMS (state : jsval) (pathMethod : list string) (isOAS3 : bool) : result jsval :=
  spec ← specJsonWithResolvedSubtrees state;
  paramValues ← parameterValues state pathMethod false;
  params ← op_parameters (default JUndef (lookIn spec (["paths"] ++ pathMethod)));
  meta ← validate_each state pathMethod paramValues isOAS3 (default (JObj []) (lookIn state (meta_params pathMethod))) params;
  match params with [] => Ok state | _ => setIn (Some state) (meta_params pathMethod) meta end.
End Validation.

(** [parameters.map(param => param.set("errors", []))]. *)
Definition clear_errors (param : jsval) : result jsval := map_set param "errors" (JArr []).

Definition CLEAR_VALIDATE_PARAMS (state : jsval) (pathMethod : list string) : result jsval :=
  match lookIn state (meta_params pathMethod) with
  | None => Ok state
  | Some (JObj fs) =>
      fs' ← mapM (λ kv, p ← clear_errors kv.2; Ok (kv.1, p)) fs;
      setIn (Some state) (meta_params pathMethod) (JObj fs')
  | Some (JArr l) => l' ← mapM clear_errors l; setIn (Some state) (meta_params pathMethod) (JArr l')
  | Some v => Throw (not_a_function v "map")
  end.

(** The stored result: a failed request gives the fields of its error. *)
Definition response_result (res : jsval) : result jsval :=
  error ← getp res "error";
  fs ← (if truthy error then
          err ← getp res "err";
          name ← getp err "name"; message ← getp err "message"; statusCode ← getp err "statusCode";
          response ← getp err "response";
          Ok (spread [("error", JBool true); ("name", name); ("message", message); ("statusCode", statusCode)] response)
        else match res with JObj fs => Ok fs | _ => Ok (spread [] res) end);
  Ok (JObj (oset fs "headers" (match assoc fs "headers" with Some h => if truthy h then h else JObj [] | None => JObj [] end))).

Definition SET_RESPONSE (state : jsval) (path method : string) (res : jsval) : result jsval :=
  result ← response_result res; setIn (Some state) ["responses"; path; method] result.
Definition SET_REQUEST (state : jsval) (path method : string) (req : jsval) : result jsval :=
  setIn (Some state) ["requests"; path; method] req.
Definition SET_MUTATED_REQUEST (state : jsval) (path method : string) (req : jsval) : result jsval :=
  setIn (Some state) ["mutatedRequests"; path; method] req.

Definition UPDATE_OPERATION_META_VALUE (state : jsval) (path : list string) (value : jsval) (key : string) : result jsval :=
  let operationPath := ["paths"] ++ path in
  if negb (truthy (getIn state ("json" :: operationPath))) && negb (truthy (getIn state ("resolved" :: operationPath)))
     && negb (truthy (getIn state ("resolvedSubtrees" :: operationPath)))
  then Ok state
  else setIn (Some state) (["meta"; "paths"] ++ path ++ [key]) value.

Definition CLEAR_RESPONSE (state : jsval) (path method : string) : result jsval := deleteIn state ["responses"; path; method].
Definition CLEAR_REQUEST (state : jsval) (path method : string) : result jsval := deleteIn state ["requests"; path; method].

(** A path without a method, or the reverse, gives undefined. *)
Definition SET_SCHEME (state : jsval) (scheme : jsval) (path method : string) : result jsval :=
  let p := negb (String.eqb path "") in let m := negb (String.eqb method "") in
  if p && m then setIn (Some state) ["scheme"; path; method] scheme
  else if negb p && negb m then setIn (Some state) ["scheme"; "_defaultScheme"] scheme
  else Ok JUndef.

Definition responseFor (state : jsval) (path method : string) : jsval :=
  default JNull (lookIn (default (JObj []) (lookIn state ["responses"])) [path; method]).
End Spec.

(** * The shape of the store *)

(** What is kept about a parameter: never its name or place, and a list of errors. *)
Definition param_shape : shape :=
  SRec [("value", SAny); ("value_xml", SAny); ("errors", SList); ("in", SNone); ("name", SNone)].
Definition op_shape : shape := SRec [("parameters", SMap param_shape); ("parameter_inclusions", SMap SAny);
  ("consumes_value", SAny); ("produces_value", SAny)].
Definition spec_shape : shape :=
  SRec [("meta", SRec [("paths", SMap (SMap op_shape))]); ("responses", SMap (SMap SAny)); ("requests", SMap (SMap SAny));
        ("mutatedRequests", SMap (SMap SAny))].

(** A reducer that throws leaves the state as it is (makeReducer). *)
Definition reduced (state : jsval) (r : result jsval) : jsval := default state (wrapWithTryCatch r).

Section Store.
Context `{HashCode, DateParse, RegExpRest}.

(** The branch when the page starts (core/index.js); [url] is the address of the configuration. *)
Definition spec_init (url : jsval) : jsval := JObj [("spec", JStr ""); ("url", url)].

(** The actions on the branch other than storing an answer. A scheme is set for an operation or for all, so that path and method are
    both given or both missing. *)
Inductive edit_step : jsval → jsval → Prop :=
| step_spec st v : edit_step st (reduced st (UPDATE_SPEC st v))
| step_url st v : edit_step st (reduced st (UPDATE_URL st v))
| step_loading st v : edit_step st (reduced st (spec_update_loading_status st v))
| step_json st v : edit_step st (reduced st (UPDATE_JSON st v))
| step_resolved st v : edit_step st (reduced st (UPDATE_RESOLVED st v))
| step_subtree st p v : edit_step st (reduced st (UPDATE_RESOLVED_SUBTREE st p v))
| step_param st path method p v isXml : edit_step st (reduced st (UPDATE_PARAM st [path; method] p v isXml))
| step_inclusion st path method n i v : edit_step st (reduced st (UPDATE_EMPTY_PARAM_INCLUSION st [path; method] n i v))
| step_validate st path method isOAS3 : edit_step st (reduced st (VALIDATE_PARAMS st [path; method] isOAS3))
| step_clear_validate st path method : edit_step st (reduced st (CLEAR_VALIDATE_PARAMS st [path; method]))
| step_request st path method req : edit_step st (reduced st (SET_REQUEST st path method req))
| step_mutated st path method req : edit_step st (reduced st (SET_MUTATED_REQUEST st path method req))
| step_consumes st path method v : edit_step st (reduced st (UPDATE_OPERATION_META_VALUE st [path; method] v "consumes_value"))
| step_produces st path method v : edit_step st (reduced st (UPDATE_OPERATION_META_VALUE st [path; method] v "produces_value"))
| step_clear_response st path method : edit_step st (reduced st (CLEAR_RESPONSE st path method))
| step_clear_request st path method : edit_step st (reduced st (CLEAR_REQUEST st path method))
| step_scheme st s path method : (path = "" ↔ method = "") → edit_step st (reduced st (SET_SCHEME st s path method)).

(** One action on the branch. *)
Inductive spec_step : jsval → jsval → Prop :=
| step_edit st st' : edit_step st st' → spec_step st st'
| step_response st path method res : spec_step st (reduced st (SET_RESPONSE st path method res)).

Lemma reduced_fits s st r : fits s st = true → (∀ st', r = Ok st' → fits s st' = true) → fits s (reduced st r) = true.
Proof. intros Hst Hr. unfold reduced, wrapWithTryCatch. destruct r; simpl; [by apply Hr|done|done]. Qed.

(** A write at a path of the shape, or below an unknown key. *)
Lemma setIn_keeps st ks x st' t : fits spec_shape st = true → shape_at spec_shape ks = Some t → fits t x = true →
  setIn (Some st) ks x = Ok st' → fits spec_shape st' = true.
Proof.
  intros Hst Hs Hx E. destruct (setIn_fits ks spec_shape (Some st) t x) as (v' & E' & Hf & _); [by intros ? [= <-]|done|done|].
  rewrite E in E'. by injection E' as <-.
Qed.

Lemma setIn_keeps_other st k ks x st' : fits spec_shape st = true → child spec_shape k = None →
  setIn (Some st) (k :: ks) x = Ok st' → fits spec_shape st' = true.
Proof. intros. by eapply setIn_fits_other. Qed.

Lemma params_shape path method : shape_at spec_shape (meta_params [path; method]) = Some (SMap param_shape).
Proof. done. Qed.

Lemma meta_default_fits st path method : fits spec_shape st = true →
  fits (SMap param_shape) (default (JObj []) (lookIn st (meta_params [path; method]))) = true.
Proof.
  intros Hst. destruct (lookIn st _) as [v|] eqn:E; [|done]. cbn [default]. by eapply fits_lookIn; [|apply params_shape|].
Qed.

Lemma validate_each_fits st pm vals isOAS3 res params res' : fits (SMap param_shape) res = true →
  validate_each st pm vals isOAS3 res params = Ok res' → fits (SMap param_shape) res' = true.
Proof.
  revert res. induction params as [|p params IH]; intros res Hres E; simpl in E; [by injection E as <-|].
  apply result_bind_Ok in E as (r1 & E1 & E). apply (IH r1); [|done]. unfold validate_one in E1.
  repeat (apply result_bind_Ok in E1 as (? & _ & E1)).
  destruct (setIn_fits [x3; "errors"] (SMap param_shape) (Some res) SList (JArr (map verror_js x2))) as (v' & E' & Hf & _);
    [by intros ? [= <-]|done|done|]. rewrite E1 in E'. by injection E' as <-.
Qed.

(** The meta of a parameter without its errors. *)
Definition cleared (v : jsval) : jsval := match v with JObj gs => JObj (oset gs "errors" (JArr [])) | _ => v end.

Lemma fits_smap t v : fits (SMap t) v = true ↔
  ∃ fs, v = JObj fs ∧ NoDup (map fst fs) ∧ ∀ kv, kv ∈ fs → fits t kv.2 = true.
Proof.
  rewrite fits_map by done. split; intros (fs & -> & Hnd & Hf); exists fs; (split_and!; [done|done|]).
  - intros kv Hin. exact (proj1 (Forall_forall _ _) Hf kv Hin).
  - apply Forall_forall. intros kv Hin. by apply Hf.
Qed.

Lemma clear_all_params fs : fits (SMap param_shape) (JObj fs) = true →
  mapM (λ kv : string * jsval, p ← clear_errors kv.2; Ok (kv.1, p)) fs = Ok (map (λ kv, (kv.1, cleared kv.2)) fs) ∧
  fits (SMap param_shape) (JObj (map (λ kv, (kv.1, cleared kv.2)) fs)) = true.
Proof.
  intros (fs' & [= <-] & Hnd & Hf)%fits_smap. split.
  - clear Hnd. induction fs as [|[k v] fs IH]; [done|]. simpl. pose proof (Hf (k, v) ltac:(left)) as Hv. simpl in Hv.
    apply (fits_map param_shape v eq_refl) in Hv as (gs & -> & _). simpl.
    rewrite IH; [done|]. intros kv Hin. apply Hf. by right.
  - apply fits_smap. eexists. split_and!; [done|by rewrite map_map|].
    intros kv Hin. apply list_elem_of_fmap in Hin as ([k v] & -> & Hin). simpl.
    pose proof (Hf _ Hin) as Hv. simpl in Hv. destruct (proj1 (fits_map param_shape v eq_refl) Hv) as (gs & -> & _).
    by apply fits_obj_set.
Qed.

Lemma clear_validate_fits st path method st' : fits spec_shape st = true →
  CLEAR_VALIDATE_PARAMS st [path; method] = Ok st' → fits spec_shape st' = true.
Proof.
  intros Hst E. unfold CLEAR_VALIDATE_PARAMS in E. pose proof (meta_default_fits st path method Hst) as Hm.
  destruct (lookIn st _) as [v|]; [|by injection E as <-]. simpl in Hm.
  destruct (proj1 (fits_smap _ _) Hm) as (fs & -> & _). destruct (clear_all_params fs Hm) as [Hc Hf].
  rewrite Hc in E. simpl in E. by eapply setIn_keeps; [|apply params_shape| |].
Qed.

Lemma validate_fits st path method isOAS3 st' : fits spec_shape st = true →
  VALIDATE_PARAMS st [path; method] isOAS3 = Ok st' → fits spec_shape st' = true.
Proof.
  intros Hst E. unfold VALIDATE_PARAMS in E. apply result_bind_Ok in E as (sp & _ & E).
  apply result_bind_Ok in E as (vals & _ & E). apply result_bind_Ok in E as (ps & _ & E).
  apply result_bind_Ok in E as (m & Hm & E). apply validate_each_fits in Hm; [|by apply meta_default_fits].
  destruct ps; [by injection E as <-|]. by eapply setIn_keeps; [|apply params_shape| |].
Qed.

Lemma edit_step_fits st st' : edit_step st st' → fits spec_shape st = true → fits spec_shape st' = true.
Proof.
  intros Hs Hst. destruct Hs; apply reduced_fits; try done; intros st' E.
  - destruct v; try (by injection E as <-). by eapply setIn_keeps_other; [| |exact E].
  - by eapply setIn_keeps_other; [| |exact E].
  - destruct v; try (by injection E as <-). by eapply setIn_keeps_other; [| |exact E].
  - by eapply setIn_keeps_other; [| |exact E].
  - by eapply setIn_keeps_other; [| |exact E].
  - by eapply setIn_keeps_other; [| |exact E].
  - unfold UPDATE_PARAM in E. apply result_bind_Ok in E as (key & _ & E).
    eapply (setIn_keeps st _ v _ SAny); [done| |done|exact E]. by destruct isXml.
  - unfold UPDATE_EMPTY_PARAM_INCLUSION in E. destruct (_ || _); [by injection E as <-|].
    by eapply (setIn_keeps st _ v _ SAny); [| | |exact E].
  - by eapply validate_fits.
  - by eapply clear_validate_fits.
  - by eapply (setIn_keeps st _ req _ SAny); [| | |exact E].
  - by eapply (setIn_keeps st _ req _ SAny); [| | |exact E].
  - unfold UPDATE_OPERATION_META_VALUE in E. destruct (_ && _); [by injection E as <-|].
    by eapply (setIn_keeps st _ v _ SAny); [| | |exact E].
  - unfold UPDATE_OPERATION_META_VALUE in E. destruct (_ && _); [by injection E as <-|].
    by eapply (setIn_keeps st _ v _ SAny); [| | |exact E].
  - eapply deleteIn_fits; [exact Hst| |exact E]. by eexists.
  - eapply deleteIn_fits; [exact Hst| |exact E]. by eexists.
  - unfold SET_SCHEME in E. destruct (String.eqb_spec path "") as [->|Hp], (String.eqb_spec method "") as [->|Hm]; simpl in E.
    all: try (by eapply setIn_keeps_other; [| |exact E]); tauto.
Qed.

Lemma spec_step_fits st st' : spec_step st st' → fits spec_shape st = true → fits spec_shape st' = true.
Proof.
  intros [? ? He|? path method res] Hst; [by eapply edit_step_fits|]. apply reduced_fits; [done|]. intros s' E.
  apply result_bind_Ok in E as (res' & _ & E). by eapply (setIn_keeps _ _ res' _ SAny); [| | |exact E].
Qed.

(** An action that stores no answer keeps each stored answer or removes it. *)
Lemma edit_step_responses st st' path method : edit_step st st' →
  lookIn st' ["responses"; path; method] = lookIn st ["responses"; path; method] ∨
  lookIn st' ["responses"; path; method] = None.
Proof.
  assert (∀ st k ks x st', k ≠ "responses" → setIn (Some st) (k :: ks) x = Ok st' →
    lookIn st' ["responses"; path; method] = lookIn st ["responses"; path; method]) as Hset.
  { intros s k ks x s' Hk E. rewrite (lookIn_setIn_ne _ _ _ _ _ E); [done|]. cbn [diverge]. by destruct (String.eqb_spec k "responses"). }
  assert (∀ st r, (∀ st', r = Ok st' → lookIn st' ["responses"; path; method] = lookIn st ["responses"; path; method] ∨
                       lookIn st' ["responses"; path; method] = None) →
    lookIn (reduced st r) ["responses"; path; method] = lookIn st ["responses"; path; method] ∨
    lookIn (reduced st r) ["responses"; path; method] = None) as Hred.
  { intros s r Hr. unfold reduced, wrapWithTryCatch. destruct r; [by apply Hr|by left..]. }
  intros Hs. destruct Hs; apply Hred; intros st' E.
  - left. destruct v; first [by injection E as <-|by eapply Hset; [|exact E]].
  - left. by eapply Hset; [|exact E].
  - left. destruct v; first [by injection E as <-|by eapply Hset; [|exact E]].
  - left. by eapply Hset; [|exact E].
  - left. by eapply Hset; [|exact E].
  - left. by eapply Hset; [|exact E].
  - left. apply result_bind_Ok in E as (key & _ & E). by eapply Hset; [|exact E].
  - left. unfold UPDATE_EMPTY_PARAM_INCLUSION in E. destruct (_ || _); [by injection E as <-|by eapply Hset; [|exact E]].
  - left. unfold VALIDATE_PARAMS in E. do 4 (apply result_bind_Ok in E as (? & _ & E)).
    destruct x1; [by injection E as <-|by eapply Hset; [|exact E]].
  - left. unfold CLEAR_VALIDATE_PARAMS in E. destruct (lookIn st (meta_params _)) as [v|]; [|by injection E as <-].
    destruct v; try done; apply result_bind_Ok in E as (? & _ & E); by eapply Hset; [|exact E].
  - left. by eapply Hset; [|exact E].
  - left. by eapply Hset; [|exact E].
  - left. unfold UPDATE_OPERATION_META_VALUE in E. destruct (_ && _); [by injection E as <-|by eapply Hset; [|exact E]].
  - left. unfold UPDATE_OPERATION_META_VALUE in E. destruct (_ && _); [by injection E as <-|by eapply Hset; [|exact E]].
  - by eapply lookIn_deleteIn; [|exact E].
  - left. by eapply lookIn_deleteIn_ne; [exact E|].
  - left. unfold SET_SCHEME in E. destruct (String.eqb_spec path0 "") as [->|Hp], (String.eqb_spec method0 "") as [->|Hm]; simpl in E.
    all: first [by eapply Hset; [|exact E]|tauto].
Qed.

Lemma spec_steps_fits st st' : rtc spec_step st st' → fits spec_shape st = true → fits spec_shape st' = true.
Proof. induction 1; eauto using spec_step_fits. Qed.

(** Every state of a page fits. *)
Lemma page_fits url st : rtc spec_step (spec_init url) st → fits spec_shape st = true.
Proof. intros Hr. by eapply spec_steps_fits. Qed.
End Store.

(** * What is entered for a parameter *)

Lemma lookIn_app v ks js : lookIn v (ks ++ js) = lookIn v ks ≫= λ u, lookIn u js.
Proof.
  revert v. induction ks as [|k ks IH]; intros v; [done|]. destruct v as [| | | | | | |fs|]; try done.
  simpl app. unfold lookIn; fold lookIn. destruct (assoc fs k); [apply IH|done].
Qed.

Definition fields_of (v : jsval) : list (string * jsval) := match v with JObj fs => fs | _ => [] end.

Definition nonempty_str (v : jsval) : bool := match v with JStr s => negb (String.eqb s "") | _ => false end.

Section Entered.
Context `{HashCode}.

Definition param_key (p : jsval) : string := to_string (map_get p "in") +:+ "." +:+ to_string (map_get p "name").
Definition param_hkey (p : jsval) : string := param_key p +:+ ".hash-" +:+ Z_to_string (hashCode p).

(** A parameter of a definition: a map with a place and a name that no object inherits. *)
Definition param_ok (p : jsval) : bool :=
  match p with
  | JObj fs => distinct_keys fs && nonempty_str (map_get p "in") && nonempty_str (map_get p "name")
               && negb (is_inherited (to_string (map_get p "name")))
  | _ => false
  end.

(** The parameters of an operation: their identifiers are distinct and no name is an identifier of
    another one. *)
Definition params_ok (ps : list jsval) : bool :=
  forallb param_ok ps && bool_decide (NoDup (map param_key ps ++ map param_hkey ps)) &&
  forallb (λ p, negb (existsb (String.eqb (to_string (map_get p "name"))) (map param_key ps))) ps.

(** The definition has the operation with the parameters [ps]. *)
Definition has_params (st : jsval) (pm : list string) (ps : list jsval) : Prop :=
  ∃ spec os, specJsonWithResolvedSubtrees st = Ok spec ∧ lookIn spec ("paths" :: pm) = Some (JObj os) ∧
             op_parameters (JObj os) = Ok ps.

Definition meta_of (st : jsval) (pm : list string) : jsval := default (JObj []) (lookIn st (meta_params pm)).

Definition merged_param (st : jsval) (pm : list string) (p cur : jsval) : jsval :=
  JObj (set_all (set_all (set_all [] (fields_of cur)) (fields_of (map_get (meta_of st pm) (param_key p))))
                (fields_of (map_get (meta_of st pm) (param_hkey p)))).

(** The value entered for a parameter: the one kept for this very parameter, else the one kept for
    its place and name. *)
Definition entered (st : jsval) (pm : list string) (p : jsval) : jsval := map_get (merged_param st pm p p) "value".

Lemma param_ok_inv p : param_ok p = true → ∃ fs i n, p = JObj fs ∧ NoDup (map fst fs) ∧ map_get p "in" = JStr i ∧
  map_get p "name" = JStr n ∧ i ≠ "" ∧ n ≠ "" ∧ is_inherited n = false.
Proof.
  destruct p as [| | | | | | |fs|]; try done. unfold param_ok, distinct_keys.
  rewrite !andb_true_iff, bool_decide_eq_true, negb_true_iff. intros [[[Hnd Hi] Hn] Hh].
  destruct (map_get (JObj fs) "in") as [| | | | |i| | |] eqn:Ei; try done.
  destruct (map_get (JObj fs) "name") as [| | | | |n| | |] eqn:En; try done. simpl in *.
  exists fs, i, n. split_and!; try done; intros ->; done.
Qed.

Lemma meta_get st path method k : fits spec_shape st = true →
  method_get (meta_of st [path; method]) k = Ok (map_get (meta_of st [path; method]) k) ∧
  ∃ fs, merge_entries (map_get (meta_of st [path; method]) k) = Ok fs ∧ fs = fields_of (map_get (meta_of st [path; method]) k) ∧
        NoDup (map fst fs) ∧ assoc fs "in" = None ∧ assoc fs "name" = None.
Proof.
  intros Hst. pose proof (meta_default_fits st path method Hst) as Hm. fold (meta_of st [path; method]) in Hm.
  destruct (proj1 (fits_smap _ _) Hm) as (ms & Em & Hnd & Hf). rewrite Em. split; [done|]. simpl.
  destruct (assoc ms k) as [v|] eqn:E; [|exists []; split_and!; done || constructor].
  apply assoc_Some_elem, Hf in E. simpl in E. destruct (proj1 (fits_map param_shape v eq_refl) E) as (fs & -> & Hnd' & Hf').
  exists fs. split_and!; try done.
  - destruct (assoc fs "in") eqn:E'; [|done]. by apply (fits_assoc param_shape) in E'.
  - destruct (assoc fs "name") eqn:E'; [|done]. by apply (fits_assoc param_shape) in E'.
Qed.

Lemma assoc_set_all fs new k : NoDup (map fst new) →
  assoc (set_all fs new) k = match assoc new k with Some v => Some v | None => assoc fs k end.
Proof. intros Hnd. unfold set_all. by rewrite assoc_foldl_oset, assoc_rev. Qed.

(** The entered values never hide the place and the name. *)
Lemma merged_param_key st path method p cur k : fits spec_shape st = true → param_ok cur = true → k = "in" ∨ k = "name" →
  map_get (merged_param st [path; method] p cur) k = map_get cur k.
Proof.
  intros Hst Hc Hk. destruct (param_ok_inv _ Hc) as (fs & _ & _ & -> & Hnd & _). unfold merged_param. simpl.
  destruct (meta_get st path method (param_key p) Hst) as (_ & a & _ & <- & Ha & Ha1 & Ha2).
  destruct (meta_get st path method (param_hkey p) Hst) as (_ & b & _ & <- & Hb & Hb1 & Hb2).
  rewrite !assoc_set_all by done. destruct Hk as [-> | ->].
  - rewrite Ha1, Hb1. by destruct (assoc fs "in").
  - rewrite Ha2, Hb2. by destruct (assoc fs "name").
Qed.

Lemma params_ok_inv ps p : params_ok ps = true → p ∈ ps → param_ok p = true.
Proof.
  unfold params_ok. rewrite !andb_true_iff. intros [[Hf _] _] Hin. rewrite forallb_forall in Hf.
  apply Hf. by apply list_elem_of_In.
Qed.

Lemma params_ok_keys ps : params_ok ps = true → NoDup (map param_key ps) ∧ NoDup (map param_hkey ps) ∧
  ∀ p q, p ∈ ps → q ∈ ps → param_hkey p ≠ param_key q ∧ to_string (map_get p "name") ≠ param_key q.
Proof.
  unfold params_ok. rewrite !andb_true_iff, bool_decide_eq_true, !forallb_forall. intros [[_ Hnd] Hn].
  apply NoDup_app in Hnd as (H1 & H2 & H3). split_and!; [done|done|]. intros p q Hp Hq. split.
  - intros E. apply (H2 (param_key q)); [|rewrite <- E]; apply list_elem_of_fmap; eauto.
  - intros E. apply list_elem_of_In, Hn in Hp. apply negb_true_iff in Hp. rewrite E in Hp.
    assert (existsb (String.eqb (param_key q)) (map param_key ps) = true) as Hx; [|congruence].
    apply existsb_exists. exists (param_key q). split; [|apply String.eqb_refl]. apply in_map. by apply list_elem_of_In.
Qed.
End Entered.

Lemma mapM_pure {A B} (f : A → result B) (g : A → B) l : (∀ x, x ∈ l → f x = Ok (g x)) → mapM f l = Ok (map g l).
Proof.
  induction l as [|x l IH]; intros Hf; [done|]. simpl. rewrite Hf by left. simpl. rewrite IH; [done|].
  intros y Hy. apply Hf. by right.
Qed.

Lemma find_map_one {A B} (f : A → B) (c : B → bool) l x : x ∈ l → c (f x) = true →
  (∀ y, y ∈ l → c (f y) = true → y = x) → List.find c (map f l) = Some (f x).
Proof.
  intros Hx Hc Hu. induction l as [|y l IH]; [by apply elem_of_nil in Hx|]. simpl. destruct (c (f y)) eqn:E.
  - by rewrite (Hu y ltac:(left) E).
  - apply elem_of_cons in Hx as [->|Hx]; [congruence|]. apply IH; [done|]. intros z Hz. apply Hu. by right.
Qed.

Lemma NoDup_map_inj {A B} (f : A → B) l x y : NoDup (map f l) → x ∈ l → y ∈ l → f x = f y → x = y.
Proof.
  induction l as [|z l IH]; intros Hnd Hx Hy E; [by apply elem_of_nil in Hx|]. apply NoDup_cons in Hnd as [Hz Hnd].
  apply elem_of_cons in Hx as [Hx|Hx]; apply elem_of_cons in Hy as [Hy|Hy]; subst; try done.
  - destruct Hz. rewrite E. apply list_elem_of_fmap; eauto.
  - destruct Hz. rewrite <- E. apply list_elem_of_fmap; eauto.
  - by apply IH.
Qed.

Section Values.
Context `{HashCode}.

Lemma has_params_elements st path method ps : has_params st [path; method] ps →
  ∃ spec os, specJsonWithResolvedSubtrees st = Ok spec ∧ lookIn spec ["paths"; path; method] = Some (JObj os) ∧
             op_parameters (JObj os) = Ok ps ∧ elements_in spec (["paths"; path; method] ++ ["parameters"]) "map" = Ok ps.
Proof.
  intros (spec & os & Hs & Hl & Hp). exists spec, os. split_and!; try done. unfold elements_in. rewrite lookIn_app, Hl.
  simpl in Hp. unfold mbind, option_bind, lookIn. by destruct (assoc os "parameters").
Qed.

Lemma param_by_identity st path method ps p : fits spec_shape st = true → has_params st [path; method] ps →
  params_ok ps = true → p ∈ ps →
  parameterWithMetaByIdentity st [path; method] p = Ok (merged_param st [path; method] p p).
Proof.
  intros Hst Hps Hok Hp. destruct (has_params_elements _ _ _ _ Hps) as (spec & os & Hs & Hl & Ho & He).
  unfold parameterWithMetaByIdentity. rewrite Hs, ok_bind.
  change (["paths"] ++ [path; method] ++ ["parameters"]) with (["paths"; path; method] ++ ["parameters"]).
  destruct (param_ok_inv p (params_ok_inv _ _ Hok Hp)) as (fs & i & n & Ep & Hnd & Hi & Hn & _).
  assert (mapM (λ currentParam, name ← method_get p "name"; in_ ← method_get p "in";
    byName ← method_get (meta_of st [path; method]) (to_string in_ +:+ "." +:+ to_string name);
    byHash ← method_get (meta_of st [path; method]) ((to_string in_ +:+ "." +:+ to_string name) +:+ ".hash-" +:+ Z_to_string (hashCode p));
    with_meta currentParam byName byHash) ps = Ok (map (merged_param st [path; method] p) ps)) as Hm.
  { apply mapM_pure. intros cur Hcur. destruct (param_ok_inv cur (params_ok_inv _ _ Hok Hcur)) as (cs & _ & _ & Ec & _).
    assert (∀ k, method_get p k = Ok (map_get p k)) as Hget by (intros k; by rewrite Ep).
    rewrite !Hget, !ok_bind. fold (param_key p). fold (param_hkey p).
    destruct (meta_get st path method (param_key p) Hst) as (-> & a & Ha & Ea & _).
    destruct (meta_get st path method (param_hkey p) Hst) as (-> & b & Hb & Eb & _). rewrite !ok_bind.
    unfold with_meta. rewrite Ha, Hb, Ec. simpl. unfold merged_param. by rewrite <- Ea, <- Eb. }
  rewrite He, ok_bind. cbv zeta. fold (meta_of st [path; method]). rewrite Hm, ok_bind.
  rewrite (find_map_one _ _ _ p); [done|done| |].
  - unfold same_param. rewrite !(merged_param_key st path method p p) by (eauto using params_ok_inv).
    rewrite Hi, Hn. simpl. by rewrite !String.eqb_refl.
  - intros q Hq Hsame. unfold same_param in Hsame.
    rewrite !(merged_param_key st path method p q) in Hsame by (eauto using params_ok_inv).
    apply andb_true_iff in Hsame as [H1 H2]. rewrite Hi in H1. rewrite Hn in H2. rewrite strict_eq_str in H1, H2.
    destruct (params_ok_keys _ Hok) as (Hk & _). apply (NoDup_map_inj param_key ps); try done.
    unfold param_key. by rewrite H1, H2, Hi, Hn.
Qed.

Lemma dotted_not_inherited a b : is_inherited (a +:+ "." +:+ b) = false.
Proof.
  unfold is_inherited. apply not_true_iff_false. rewrite existsb_exists. intros (s & Hs & E). apply String.eqb_eq in E.
  assert (forallb (sforall (λ c, negb (code c =? 46)%N)) inherited = true) as Hd by (vm_compute; reflexivity).
  rewrite forallb_forall in Hd. apply Hd in Hs. rewrite <- E, !sforall_app, !andb_true_iff in Hs. by destruct Hs as (_ & Hs & _).
Qed.

Lemma param_identifiers p : param_ok p = true →
  identifiers p true = Ok [JStr (param_hkey p); JStr (param_key p); map_get p "name"].
Proof.
  intros (fs & i & n & -> & _ & Hi & Hn & Hne & Hnn & _)%param_ok_inv. unfold identifiers, param_hkey, param_key.
  rewrite Hi, Hn. simpl. destruct (String.eqb_spec i ""); [done|]. by destruct (String.eqb_spec n "").
Qed.

Lemma param_key_truthy p : truthy (JStr (param_key p)) = true ∧ truthy (JStr (param_hkey p)) = true.
Proof. unfold param_hkey, param_key. by destruct (to_string (map_get p "in")). Qed.

Lemma param_identifier p : param_ok p = true → paramToIdentifier p true = Ok (param_hkey p).
Proof.
  intros Hp. unfold paramToIdentifier. rewrite param_identifiers, ok_bind by done.
  by rewrite (proj2 (param_key_truthy p)).
Qed.

Lemma merged_identifier st path method p : fits spec_shape st = true → param_ok p = true →
  paramToIdentifier (merged_param st [path; method] p p) false = Ok (param_key p).
Proof.
  intros Hst Hp. pose proof (λ k, merged_param_key st path method p p k Hst Hp) as Hk.
  destruct (param_ok_inv p Hp) as (fs & i & n & _ & _ & Hi & Hn & Hne & Hnn & _).
  unfold paramToIdentifier, identifiers. unfold merged_param at 1. fold (merged_param st [path; method] p p).
  rewrite (Hk "in"), (Hk "name"), Hi, Hn by auto. unfold param_key. rewrite Hi, Hn. simpl.
  destruct (String.eqb_spec i ""); [done|]. destruct (String.eqb_spec n ""); [done|]. simpl. by destruct i.
Qed.

Lemma parameterValues_spec st path method ps : fits spec_shape st = true → has_params st [path; method] ps →
  params_ok ps = true →
  parameterValues st [path; method] false = Ok (map (λ p, (param_key p, entered st [path; method] p)) ps).
Proof.
  intros Hst Hps Hok. destruct (has_params_elements _ _ _ _ Hps) as (spec & os & Hs & Hl & Ho & _).
  assert (operationWithMeta_params st [path; method] = Ok (map (λ p, merged_param st [path; method] p p) ps)) as Hw.
  { unfold operationWithMeta_params. rewrite Hs, ok_bind. change (["paths"] ++ [path; method]) with ["paths"; path; method].
    rewrite Hl. cbv zeta. simpl default. rewrite Ho, ok_bind.
    rewrite (mapM_pure _ (λ p, merged_param st [path; method] p p)), ok_bind
      by (intros p Hp; by apply (param_by_identity _ _ _ ps)).
    change (merge_entries (JObj os)) with (Ok os). rewrite ok_bind.
    destruct (lookIn st ["meta"; "paths"; path; method]) as [v|] eqn:Ev; [|done].
    apply (fits_lookIn _ spec_shape st op_shape) in Ev; [|done|done].
    apply (fits_map op_shape v eq_refl) in Ev as (vs & -> & _). done. }
  unfold parameterValues. rewrite Hw, ok_bind.
  rewrite (mapM_pure _ (λ m, (param_key m, map_get m "value"))).
  - rewrite ok_bind. rewrite map_map. f_equal.
    assert (map (λ x, (param_key (merged_param st [path; method] x x), map_get (merged_param st [path; method] x x) "value")) ps =
            map (λ p, (param_key p, entered st [path; method] p)) ps) as ->.
    { apply map_ext_in. intros p Hp. apply list_elem_of_In, (params_ok_inv _ _ Hok) in Hp. f_equal. unfold param_key.
      by rewrite !(merged_param_key st path method p p) by auto. }
    unfold set_all. rewrite oset_rebuild; [done|]. simpl. rewrite map_map. simpl. apply (params_ok_keys _ Hok).
  - intros m Hm. apply list_elem_of_fmap in Hm as (p & -> & Hp). pose proof (params_ok_inv _ _ Hok Hp) as Hpo.
    rewrite merged_identifier by done. unfold merged_param at 1 2. simpl andb. cbn [method_get]. rewrite !ok_bind. simpl.
    do 2 f_equal. unfold param_key. by rewrite !(merged_param_key st path method p p) by auto.
Qed.

(** Every parameter is validated, and sent, with the value entered for it. *)
Lemma paramToValue_spec st path method ps p : params_ok ps = true → p ∈ ps →
  paramToValue p (map (λ p, (param_key p, entered st [path; method] p)) ps) = Ok (entered st [path; method] p).
Proof.
  intros Hok Hp. destruct (params_ok_keys _ Hok) as (Hk & _ & Hd). set (vals := map _ ps).
  assert (∀ k, k ∉ map param_key ps → is_inherited k = false → plain_get vals k = JUndef) as Hno.
  { intros k Hk' Hi. unfold plain_get. destruct (assoc vals k) as [v|] eqn:E; [|by rewrite Hi].
    destruct Hk'. apply assoc_Some_elem in E. apply list_elem_of_fmap in E as (q & [= -> _] & Hq).
    apply list_elem_of_fmap; eauto. }
  pose proof (params_ok_inv _ _ Hok Hp) as Hpo. unfold paramToValue. rewrite param_identifiers, ok_bind by done.
  cbn [map to_string]. rewrite (Hno (param_hkey p)), (Hno (to_string (map_get p "name"))).
  - unfold plain_get. rewrite (assoc_elem vals (param_key p) (entered st [path; method] p)).
    + by destruct (entered st [path; method] p).
    + unfold vals. by rewrite map_map.
    + apply list_elem_of_fmap. eauto.
  - intros (q & E & Hq)%list_elem_of_fmap. by apply (proj2 (Hd p q Hp Hq)).
  - destruct (param_ok_inv p Hpo) as (? & ? & n & _ & _ & _ & Hn & _ & _ & Hi). by rewrite Hn.
  - intros (q & E & Hq)%list_elem_of_fmap. by apply (proj1 (Hd p q Hp Hq)).
  - unfold param_hkey, param_key. rewrite !sapp_assoc. apply dotted_not_inherited.
Qed.
End Values.

(** * Writing what is entered *)

Lemma diverge_app l k j r s : k ≠ j → diverge (l ++ k :: r) (l ++ j :: s) = true.
Proof.
  intros Hne. induction l as [|x l IH]; simpl; [|by rewrite String.eqb_refl]. by destruct (String.eqb_spec k j).
Qed.

(** The definition is not touched by what is written under [meta]. *)
Lemma spec_of_meta st r x st' : setIn (Some st) ("meta" :: r) x = Ok st' →
  specJsonWithResolvedSubtrees st' = specJsonWithResolvedSubtrees st.
Proof.
  unfold setIn; fold setIn. destruct st as [| | | | | |l|fs|]; try done; [by intros [= <-]|].
  intros (y & _ & [= <-])%result_bind_Ok. unfold specJsonWithResolvedSubtrees, map_get.
  by rewrite !assoc_oset_ne by done.
Qed.

Lemma has_params_meta st r x st' pm ps : setIn (Some st) ("meta" :: r) x = Ok st' → has_params st pm ps → has_params st' pm ps.
Proof. intros E (spec & os & Hs & Hr). exists spec, os. by rewrite (spec_of_meta _ _ _ _ E). Qed.

Lemma meta_of_get st pm k : map_get (meta_of st pm) k = default JUndef (lookIn st (meta_params pm ++ [k])).
Proof.
  unfold meta_of. rewrite lookIn_app. destruct (lookIn st (meta_params pm)) as [u|]; [|done]. simpl.
  unfold lookIn, map_get. destruct u; try done. by destruct (assoc fs k).
Qed.

Section Writing.
Context `{HashCode}.

(** A write for one parameter: the others keep what they have. *)
Lemma entered_frame (st : jsval) (path method : string) (st' p : jsval) (f : string) (x q : jsval) : setIn (Some st) (meta_params [path; method] ++ [param_hkey p; f]) x = Ok st' →
  param_hkey q ≠ param_hkey p → param_key q ≠ param_hkey p → entered st' [path; method] q = entered st [path; method] q.
Proof.
  intros E Hh Hk. unfold entered, merged_param. rewrite !meta_of_get.
  rewrite !(lookIn_setIn_ne _ _ _ _ _ E) by (by apply diverge_app). done.
Qed.

Lemma entered_same path method st' p x : fits spec_shape st' = true →
  lookIn st' (meta_params [path; method] ++ [param_hkey p; "value"]) = Some x → entered st' [path; method] p = x.
Proof.
  intros Hst Hl. unfold entered, merged_param, map_get at 1.
  destruct (meta_get st' path method (param_hkey p) Hst) as (_ & b & _ & Eb & Hb & _).
  rewrite assoc_set_all by (by rewrite <- Eb). rewrite meta_of_get in Eb |- *.
  change [param_hkey p; "value"] with ([param_hkey p] ++ ["value"]) in Hl. rewrite app_assoc, lookIn_app in Hl.
  destruct (lookIn st' (meta_params [path; method] ++ [param_hkey p])) as [u|]; [|done]. simpl in Hl |- *.
  unfold lookIn in Hl. destruct u; try done. simpl. by destruct (assoc fs "value"); simplify_eq/=.
Qed.

Lemma update_param_entered st path method ps p v : fits spec_shape st = true → has_params st [path; method] ps →
  params_ok ps = true → p ∈ ps →
  ∃ st', UPDATE_PARAM st [path; method] (inl p) v false = Ok st' ∧ fits spec_shape st' = true ∧
         has_params st' [path; method] ps ∧ entered st' [path; method] p = v ∧
         ∀ q, q ∈ ps → q ≠ p → entered st' [path; method] q = entered st [path; method] q.
Proof.
  intros Hst Hps Hok Hp. unfold UPDATE_PARAM. rewrite param_identifier, ok_bind by (by eapply params_ok_inv).
  destruct (setIn_fits (meta_params [path; method] ++ [param_hkey p; "value"]) spec_shape (Some st) SAny v)
    as (st' & E & Hf & Hl); [by intros ? [= <-]|done|done|].
  exists st'. split_and!; [done|done|eapply has_params_meta; [exact E|done]|by apply entered_same|].
  intros q Hq Hne. destruct (params_ok_keys _ Hok) as (_ & Hh & Hd). eapply entered_frame; [exact E| |].
  - intros Eq. apply Hne. by apply (NoDup_map_inj param_hkey ps).
  - intros Eq. by apply (proj1 (Hd p q Hp Hq)).
Qed.
End Writing.

(** C29: a value entered for a parameter is the one that is validated and sent for it, and the
    values of the other parameters of the operation stay as they are: this holds in every state
    that actions lead a page to, for operations whose parameters are maps with a place and a name, no
    two with the same place and name or the same hash, and no name equal to place.name of another one
    or to a name that objects inherit. *)
Theorem entered_value_used `{HashCode, DateParse, RegExpRest} url st path method ps p v :
  rtc spec_step (spec_init url) st → has_params st [path; method] ps → params_ok ps = true → p ∈ ps →
  ∃ st' vals vals', UPDATE_PARAM st [path; method] (inl p) v false = Ok st' ∧
    parameterValues st [path; method] false = Ok vals ∧ parameterValues st' [path; method] false = Ok vals' ∧
    paramToValue p vals' = Ok v ∧ ∀ q, q ∈ ps → q ≠ p → paramToValue q vals' = paramToValue q vals.
Proof.
  intros Hr Hps Hok Hp. assert (fits spec_shape st = true) as Hst by (by eapply page_fits).
  destruct (update_param_entered st path method ps p v) as (st' & E & Hf & Hps' & He & Ho); [done..|].
  eexists st', _, _. split_and!; [done|by apply parameterValues_spec|by apply parameterValues_spec| |].
  - by rewrite (paramToValue_spec st' path method ps p), He.
  - intros q Hq Hne. by rewrite !(paramToValue_spec _ path method ps q), Ho.
Qed.

(** * Validating an operation *)

(** The errors kept under an identifier. *)
Definition errors_at (st : jsval) (pm : list string) (k : string) : option jsval := lookIn st (meta_params pm ++ [k; "errors"]).

(** A parameter meta has no errors exactly when its list is absent or empty. *)
Lemma no_errors_iff m : fits param_shape m = true →
  ∃ b, (errors ← method_get m "errors"; no_errors errors) = Ok b ∧ (b = true ↔ ∀ l, lookIn m ["errors"] = Some (JArr l) → l = []).
Proof.
  intros Hm. destruct (proj1 (fits_map param_shape m eq_refl) Hm) as (fs & -> & Hnd & Hf). simpl.
  change (lookIn (JObj fs) ["errors"]) with (x ← assoc fs "errors"; Some x).
  destruct (assoc fs "errors") as [x|] eqn:E; simpl; [|exists true; done].
  apply (fits_assoc param_shape) in E; [|done|done]. destruct x as [| | | | | |l| |]; try done. simpl.
  exists (Nat.eqb (length l) 0). split; [done|]. destruct l; simpl; split; try done; [by intros _ l' [= <-]|].
  intros Hl. by specialize (Hl _ eq_refl).
Qed.

Lemma before_execute_iff st path method : fits spec_shape st = true →
  ∃ b, validateBeforeExecute st [path; method] = Ok b ∧
       (b = true ↔ ∀ k l, errors_at st [path; method] k = Some (JArr l) → l = []).
Proof.
  intros Hst. unfold validateBeforeExecute, elements_in, errors_at.
  pose proof (meta_default_fits st path method Hst) as Hm.
  assert (∀ k, lookIn st (meta_params [path; method] ++ [k; "errors"]) =
    lookIn st (meta_params [path; method]) ≫= λ u, lookIn u [k; "errors"]) as Hlk by (intros; apply lookIn_app).
  destruct (lookIn st (meta_params [path; method])) as [v|].
  2:{ exists true. split; [done|]. split; [|done]. intros _ k l E. by rewrite Hlk in E. }
  simpl in Hm. destruct (proj1 (fits_smap _ _) Hm) as (ms & -> & Hnd & Hf). cbn [elements]. rewrite ok_bind.
  assert (∃ flags, mapM (λ p, errors ← method_get p "errors"; no_errors errors) (map snd ms) = Ok flags ∧
    (forallb id flags = true ↔ ∀ kv, kv ∈ ms → ∀ l, lookIn kv.2 ["errors"] = Some (JArr l) → l = [])) as (flags & Hfl & Hall).
  { clear Hm Hnd Hlk. induction ms as [|[k m] ms IH]; [exists []; split; [done|]; split; [|done]; set_solver|].
    destruct IH as (flags & Hfl & Hall); [intros; apply Hf; by right|].
    destruct (no_errors_iff m (Hf (k, m) ltac:(left))) as (b & Hb & Hbi). exists (b :: flags). simpl. rewrite Hb. simpl. rewrite Hfl.
    split; [done|]. simpl. rewrite andb_true_iff, Hbi, Hall. split.
    - intros [H1 H2] kv [->|Hin]%elem_of_cons; [done|by apply H2].
    - intros Hx. split; [exact (Hx (k, m) ltac:(left))|]. intros kv Hin. apply Hx. by right. }
  exists (forallb id flags). rewrite Hfl. split; [done|]. rewrite Hall. split.
  - intros Hx k l E. rewrite Hlk in E. change (Some (JObj ms) ≫= λ u, lookIn u [k; "errors"]) with (x ← assoc ms k; lookIn x ["errors"]) in E.
    destruct (assoc ms k) as [m|] eqn:Ek; [|done]. apply assoc_Some_elem in Ek. by apply (Hx (k, m) Ek l).
  - intros Hx [k m] Hin l E. apply (Hx k l). rewrite Hlk.
    change (Some (JObj ms) ≫= λ u, lookIn u [k; "errors"]) with (x ← assoc ms k; lookIn x ["errors"]).
    by rewrite (assoc_elem ms k m).
Qed.

Section ValidateSpec.
Context `{HashCode, DateParse, RegExpRest}.

(** Whether a parameter may be sent empty. *)
Definition may_be_empty (st : jsval) (pm : list string) (p : jsval) : bool :=
  truthy (parameterInclusionSettingFor st pm (map_get p "name") (map_get p "in")).

(** The result of the validation of one parameter in a state. *)
Definition param_errors (st : jsval) (pm : list string) (isOAS3 : bool) (p : jsval) : result (list verror) :=
  validateParam p (entered st pm p) isOAS3 (may_be_empty st pm p).

Lemma validate_one_spec st path method vals isOAS3 res p : param_ok p = true →
  paramToValue p vals = Ok (entered st [path; method] p) →
  validate_one st [path; method] vals isOAS3 res p =
  es ← param_errors st [path; method] isOAS3 p; setIn (Some res) [param_hkey p; "errors"] (JArr (map verror_js es)).
Proof.
  intros Hp Hv. destruct (param_ok_inv p Hp) as (fs & _ & _ & Ep & _). unfold validate_one, param_errors, may_be_empty.
  assert (∀ k, method_get p k = Ok (map_get p k)) as Hget by (intros k; by rewrite Ep).
  rewrite Hv, !Hget, !ok_bind. destruct (validateParam _ _ _ _) as [es| |]; [|done|done]. rewrite !ok_bind.
  by rewrite param_identifier, ok_bind.
Qed.

Lemma validate_each_spec st path method vals isOAS3 errs ps : NoDup (map param_hkey ps) →
  (∀ p, p ∈ ps → param_ok p = true ∧ paramToValue p vals = Ok (entered st [path; method] p) ∧
                 param_errors st [path; method] isOAS3 p = Ok (errs p)) →
  ∀ res, fits (SMap param_shape) res = true →
  ∃ res', validate_each st [path; method] vals isOAS3 res ps = Ok res' ∧ fits (SMap param_shape) res' = true ∧
    (∀ p, p ∈ ps → lookIn res' [param_hkey p; "errors"] = Some (JArr (map verror_js (errs p)))) ∧
    (∀ k f, (k ∉ map param_hkey ps ∨ f ≠ "errors") → lookIn res' [k; f] = lookIn res [k; f]).
Proof.
  induction ps as [|p ps IH]; intros Hnd Hps res Hres; [exists res; split_and!; try done; set_solver|].
  simpl in Hnd. apply NoDup_cons in Hnd as [Hp Hnd]. destruct (Hps p ltac:(left)) as (Hpo & Hv & He).
  destruct (setIn_fits [param_hkey p; "errors"] (SMap param_shape) (Some res) SList (JArr (map verror_js (errs p))))
    as (r1 & E1 & Hf1 & Hl1); [by intros ? [= <-]|done|done|].
  destruct (IH Hnd (λ q Hq, Hps q (list_elem_of_further _ _ _ Hq)) r1 Hf1) as (r2 & E2 & Hf2 & Hn2 & Ho2).
  exists r2. simpl. rewrite validate_one_spec, He, ok_bind, E1, ok_bind by done. split_and!; [done|done| |].
  - intros q [->|Hq]%elem_of_cons; [|by apply Hn2]. rewrite Ho2 by (left; exact Hp). done.
  - intros k f Hk. rewrite Ho2 by set_solver. rewrite (lookIn_setIn_ne _ _ _ _ _ E1); [done|]. cbn [diverge].
    destruct (String.eqb_spec (param_hkey p) k) as [<-|]; [|done]. destruct Hk as [Hk|Hk]; [set_solver|].
    by destruct (String.eqb_spec "errors" f) as [<-|].
Qed.

(** Validation and clearing do not change what was entered. *)
Definition same_inputs (st st' : jsval) (pm : list string) : Prop :=
  ∀ p, param_ok p = true → entered st' pm p = entered st pm p ∧ may_be_empty st' pm p = may_be_empty st pm p.

Lemma entered_eq st path method p : fits spec_shape st = true → param_ok p = true →
  entered st [path; method] p =
  default (default (map_get p "value") (lookIn (meta_of st [path; method]) [param_key p; "value"]))
          (lookIn (meta_of st [path; method]) [param_hkey p; "value"]).
Proof.
  intros Hst Hp. destruct (param_ok_inv p Hp) as (fs & _ & _ & -> & Hnd & _). set (p := JObj fs).
  destruct (meta_get st path method (param_key p) Hst) as (_ & a & _ & Ea & Ha & _).
  destruct (meta_get st path method (param_hkey p) Hst) as (_ & b & _ & Eb & Hb & _).
  unfold entered, merged_param, map_get at 1. rewrite <- Ea, <- Eb. rewrite !assoc_set_all by done.
  assert (∀ k c, c = fields_of (map_get (meta_of st [path; method]) k) →
    lookIn (meta_of st [path; method]) [k; "value"] = assoc c "value") as Hlk.
  { intros k c ->. destruct (proj1 (fits_smap _ _) (meta_default_fits st path method Hst)) as (ms & Em & Hndm & Hf).
    fold (meta_of st [path; method]) in Em. rewrite Em. unfold lookIn, map_get. destruct (assoc ms k) as [m|] eqn:E; [|done].
    apply assoc_Some_elem, Hf in E. simpl in E. destruct (proj1 (fits_map param_shape m eq_refl) E) as (gs & -> & _).
    simpl. by destruct (assoc gs "value"). }
  rewrite (Hlk _ a Ea), (Hlk _ b Eb). cbn [assoc]. destruct (assoc b "value"); [done|]. destruct (assoc a "value"); [done|].
  simpl. by destruct (assoc fs "value").
Qed.

Lemma same_inputs_intro st path method m st' : fits spec_shape st = true → fits spec_shape st' = true →
  setIn (Some st) (meta_params [path; method]) m = Ok st' → lookIn st' (meta_params [path; method]) = Some m →
  (∀ k, lookIn m [k; "value"] = lookIn (meta_of st [path; method]) [k; "value"]) → same_inputs st st' [path; method].
Proof.
  intros Hst Hst' E Hl Hv p Hp. assert (meta_of st' [path; method] = m) as Hm by (unfold meta_of; by rewrite Hl). split.
  - by rewrite !entered_eq, Hm, !Hv by done.
  - unfold may_be_empty, parameterInclusionSettingFor. do 2 f_equal.
    rewrite (lookIn_setIn_ne _ _ _ _ _ E); [done|].
    apply (diverge_app ["meta"; "paths"; path; method] "parameters" "parameter_inclusions" [] [_]). done.
Qed.

(** Where no parameter raises an exception, the reducer stores the errors of every parameter of
    the operation and changes nothing else. *)
Lemma validate_params_spec st path method isOAS3 ps errs : fits spec_shape st = true → has_params st [path; method] ps →
  params_ok ps = true → (∀ p, p ∈ ps → param_errors st [path; method] isOAS3 p = Ok (errs p)) →
  ∃ st', VALIDATE_PARAMS st [path; method] isOAS3 = Ok st' ∧ fits spec_shape st' = true ∧ has_params st' [path; method] ps ∧
    (∀ p, p ∈ ps → errors_at st' [path; method] (param_hkey p) = Some (JArr (map verror_js (errs p)))) ∧
    (∀ k, k ∉ map param_hkey ps → errors_at st' [path; method] k = errors_at st [path; method] k) ∧
    same_inputs st st' [path; method].
Proof.
  intros Hst Hps Hok Herr. destruct (has_params_elements _ _ _ _ Hps) as (spec & os & Hs & Hl & Ho & _).
  destruct (validate_each_spec st path method (map (λ p, (param_key p, entered st [path; method] p)) ps) isOAS3 errs ps)
    with (res := meta_of st [path; method]) as (m & Em & Hfm & Hnew & Hold).
  { by apply params_ok_keys. }
  { intros p Hp. split_and!; [by eapply params_ok_inv|by apply paramToValue_spec|by apply Herr]. }
  { by apply meta_default_fits. }
  unfold VALIDATE_PARAMS. rewrite Hs, ok_bind, (parameterValues_spec st path method ps), ok_bind by done.
  change (["paths"] ++ [path; method]) with ["paths"; path; method]. rewrite Hl. simpl default. rewrite Ho, ok_bind.
  fold (meta_of st [path; method]). rewrite Em, ok_bind. destruct ps as [|p0 ps]; [exists st; split_and!; try done; set_solver|].
  destruct (setIn_fits (meta_params [path; method]) spec_shape (Some st) (SMap param_shape) m)
    as (st' & E & Hf & Hlk); [by intros ? [= <-]|done|done|].
  exists st'. unfold errors_at. split_and!; [done|done|eapply has_params_meta; [exact E|done]| | |].
  - intros p Hp. rewrite lookIn_app, Hlk. by apply Hnew.
  - intros k Hk. rewrite !lookIn_app, Hlk. change (lookIn m [k; "errors"] = lookIn st (meta_params [path; method]) ≫= λ u, lookIn u [k; "errors"]).
    rewrite Hold by (left; done). unfold meta_of. by destruct (lookIn st (meta_params [path; method])).
  - eapply same_inputs_intro; try done. intros k. apply Hold. by right.
Qed.

Lemma clear_validate_spec st path method : fits spec_shape st = true →
  ∃ st', CLEAR_VALIDATE_PARAMS st [path; method] = Ok st' ∧ fits spec_shape st' = true ∧
    (∀ ps, has_params st [path; method] ps → has_params st' [path; method] ps) ∧
    (∀ k l, errors_at st' [path; method] k = Some (JArr l) → l = []) ∧ same_inputs st st' [path; method].
Proof.
  intros Hst. unfold CLEAR_VALIDATE_PARAMS. pose proof (meta_default_fits st path method Hst) as Hm.
  assert (∀ k, errors_at st [path; method] k = lookIn st (meta_params [path; method]) ≫= λ u, lookIn u [k; "errors"]) as Hlk
    by (intros; apply lookIn_app).
  destruct (lookIn st (meta_params [path; method])) as [v|] eqn:Ev.
  2:{ exists st. split_and!; try done. intros k l E. by rewrite Hlk in E. }
  simpl in Hm. destruct (proj1 (fits_smap _ _) Hm) as (ms & -> & Hnd & Hf). destruct (clear_all_params ms Hm) as [Hc Hfc].
  rewrite Hc, ok_bind. set (m := JObj (map _ ms)) in *.
  destruct (setIn_fits (meta_params [path; method]) spec_shape (Some st) (SMap param_shape) m)
    as (st' & E & Hst' & Hl); [by intros ? [= <-]|done|done|].
  assert (∀ k, assoc (map (λ kv : string * jsval, (kv.1, cleared kv.2)) ms) k = cleared <$> assoc ms k) as Ha.
  { clear. intros k. induction ms as [|[j u] ms IH]; simpl; [done|]. by destruct (String.eqb j k). }
  exists st'. split_and!; [done|done|intros ps Hps; eapply has_params_meta; [exact E|done]| |].
  - intros k l El. unfold errors_at in El. rewrite lookIn_app, Hl in El.
    change ((x ← assoc (map (λ kv : string * jsval, (kv.1, cleared kv.2)) ms) k; lookIn x ["errors"]) = Some (JArr l)) in El.
    rewrite Ha in El. destruct (assoc ms k) as [u|] eqn:Eu; [|done]. apply assoc_Some_elem, Hf in Eu. simpl in Eu.
    destruct (proj1 (fits_map param_shape u eq_refl) Eu) as (gs & -> & _). simpl in El. unfold lookIn in El.
    rewrite assoc_oset_eq in El. by injection El as <-.
  - eapply same_inputs_intro; try done. intros k. unfold meta_of. rewrite Ev.
    change ((x ← assoc (map (λ kv : string * jsval, (kv.1, cleared kv.2)) ms) k; lookIn x ["value"]) =
            (x ← assoc ms k; lookIn x ["value"])). rewrite Ha. destruct (assoc ms k) as [u|] eqn:Eu; [|done]. simpl.
    apply assoc_Some_elem, Hf in Eu. simpl in Eu. destruct (proj1 (fits_map param_shape u eq_refl) Eu) as (gs & -> & _).
    unfold lookIn, cleared. by rewrite assoc_oset_ne.
Qed.
End ValidateSpec.

(** C28: in every state that actions lead a page to, from the address and the empty text it starts with,
    the spec branch of the store has its shape: what is kept for a parameter is a map whose errors are a
    list, for every operation. Therefore entering a
    value, keeping a request and clearing the errors never fail, a value is found again where it was
    put, and the check before a request gives an answer. *)
Theorem spec_store_typed `{HashCode, DateParse, RegExpRest} url st path method i n v :
  rtc spec_step (spec_init url) st →
  fits spec_shape st = true ∧
  (∃ st', UPDATE_PARAM st [path; method] (inr (i, n)) v false = Ok st' ∧
          lookIn st' (meta_params [path; method] ++ [i +:+ "." +:+ n; "value"]) = Some v) ∧
  (∃ st', SET_REQUEST st path method v = Ok st' ∧ lookIn st' ["requests"; path; method] = Some v) ∧
  (∃ st', CLEAR_VALIDATE_PARAMS st [path; method] = Ok st' ∧ validateBeforeExecute st' [path; method] = Ok true) ∧
  (∃ b, validateBeforeExecute st [path; method] = Ok b).
Proof.
  intros Hr. assert (fits spec_shape st = true) as Hst by (by eapply page_fits).
  assert (∀ ks, shape_at spec_shape ks = Some SAny → ∃ st', setIn (Some st) ks v = Ok st' ∧ lookIn st' ks = Some v) as Hset.
  { intros ks Hs. destruct (setIn_fits ks spec_shape (Some st) SAny v) as (st' & E & _ & Hl); [by intros ? [= <-]|done|done|]. eauto. }
  split_and!; [done|by apply Hset|by apply Hset| |destruct (before_execute_iff st path method Hst) as (b & E & _); eauto].
  destruct (clear_validate_spec st path method Hst) as (st' & E & Hst' & _ & Hno & _). exists st'. split; [done|].
  destruct (before_execute_iff st' path method Hst') as (b & -> & Hb). f_equal. by apply Hb.
Qed.
