(* ===== verification/SwExecute.v ===== *)
(** Swagger UI, trying an operation out: the reducers and selectors of the oas3 plugin
    (src/core/plugins/oas3) that keep the body of a request, and the Execute component
    (src/core/components/execute.jsx), which validates parameters and body on a click and then
    executes the request or shows the errors. *)

From S2P Require Import Prelude JsValue Json RegExp JsString SwUtils SwAuth SwStore SwValidate SwImmutable SwSpec.

(** * The oas3 plugin *)

(** [isOAS3(jsSpec)] of helpers.jsx. *)
Definition isOAS3Helper (jsSpec : jsval) : result bool :=
  v ← method_get jsSpec "openapi";
  Ok (match v with
      | JStr s => bool_decide (is_Some (strip_prefix "3.0." s)) && Nat.ltb 4 (utf16_length s)
      | _ => false
      end).

Definition is_map (v : jsval) : bool := match v with JObj _ => true | _ => false end.

Definition body_path (path method : string) : list string := ["requestData"; path; method; "bodyValue"].

Definition UPDATE_SELECTED_SERVER (state : jsval) (selectedServerUrl : jsval) (namespace : string) : result jsval :=
  setIn (Some state) (if String.eqb namespace "" then ["selectedServer"] else [namespace; "selectedServer"]) selectedServerUrl.

(** The loop over the keys of a form value. Each round starts from [currentVal]. *)
Fixpoint form_values (currentVal : list (string * jsval)) (newVal : jsval) (value : list (string * jsval)) : result jsval :=
  match value with
  | [] => Ok newVal
  | (valueKey, valueKeyVal) :: r =>
      newVal' ← (if bool_decide (assoc currentVal valueKey = None) || negb (is_map valueKeyVal)
                 then setIn (Some (JObj currentVal)) [valueKey; "value"] valueKeyVal
                 else Ok newVal);
      form_values currentVal newVal' r
  end.

Definition UPDATE_REQUEST_BODY_VALUE (state : jsval) (value : jsval) (path method : string) : result jsval :=
  match value with
  | JObj vs =>
      newVal ← form_values (fields_of (getIn state (body_path path method))) JUndef vs;
      setIn (Some state) (body_path path method) newVal
  | _ => setIn (Some state) (body_path path method) value
  end.

Definition UPDATE_REQUEST_BODY_VALUE_RETAIN_FLAG (state value : jsval) (path method : string) : result jsval :=
  setIn (Some state) ["requestData"; path; method; "retainBodyValue"] value.
Definition UPDATE_REQUEST_BODY_INCLUSION (state value : jsval) (path method name : string) : result jsval :=
  setIn (Some state) ["requestData"; path; method; "bodyInclusion"; name] value.
Definition UPDATE_ACTIVE_EXAMPLES_MEMBER (state name : jsval) (path method contextType contextName : string) : result jsval :=
  setIn (Some state) ["examples"; path; method; contextType; contextName; "activeExample"] name.
Definition UPDATE_REQUEST_CONTENT_TYPE (state value : jsval) (path method : string) : result jsval :=
  setIn (Some state) ["requestData"; path; method; "requestContentType"] value.
Definition UPDATE_RESPONSE_CONTENT_TYPE (state value : jsval) (path method : string) : result jsval :=
  setIn (Some state) ["requestData"; path; method; "responseContentType"] value.
Definition UPDATE_SERVER_VARIABLE_VALUE (state : jsval) (server namespace key : string) (val : jsval) : result jsval :=
  setIn (Some state) (if String.eqb namespace "" then ["serverVariableValues"; server; key]
                      else [namespace; "serverVariableValues"; server; key]) val.

Definition not_provided : jsval := JArr [JStr "Required field is not provided"].

(** [keys.reduce((bodyValue, k) => bodyValue.setIn([k, "errors"], errors), bodyValue)]. *)
Fixpoint set_errors (errors : jsval) (bodyValue : jsval) (keys : list string) : result jsval :=
  match keys with
  | [] => Ok bodyValue
  | k :: r => b ← setIn (Some bodyValue) [k; "errors"] errors; set_errors errors b r
  end.

Definition SET_REQUEST_BODY_VALIDATE_ERROR (state : jsval) (path method : string) (missingBodyValue : bool)
    (missingRequiredKeys : list string) : result jsval :=
  if missingBodyValue then setIn (Some state) ["requestData"; path; method; "errors"] not_provided
  else match missingRequiredKeys with
       | [] => Ok state
       | _ => b ← set_errors not_provided (default (JObj []) (lookIn state (body_path path method))) missingRequiredKeys;
              setIn (Some state) (body_path path method) b
       end.

Definition CLEAR_REQUEST_BODY_VALIDATE_ERROR (state : jsval) (path method : string) : result jsval :=
  match getIn state (body_path path method) with
  | JObj fs =>
      match fs with
      | [] => Ok state
      | _ => b ← set_errors (JArr []) (JObj fs) (map fst fs); setIn (Some state) (body_path path method) b
      end
  | _ => setIn (Some state) ["requestData"; path; method; "errors"] (JArr [])
  end.

Definition CLEAR_REQUEST_BODY_VALUE (state : jsval) (path method : string) : result jsval :=
  let requestBodyValue := getIn state (body_path path method) in
  if negb (truthy requestBodyValue) then Ok state
  else setIn (Some state) (body_path path method) (if is_map requestBodyValue then JObj [] else JStr "").

(** [null] where the definition is not OpenAPI 3. *)
Definition onlyOAS3 (json : jsval) (v : jsval) : result jsval :=
  b ← isOAS3Helper json; Ok (if (b : bool) then v else JNull).

Definition or_null (v : jsval) : jsval := if truthy v then v else JNull.

Definition requestBodyValue (json state : jsval) (path method : string) : result jsval :=
  onlyOAS3 json (or_null (getIn state (body_path path method))).
Definition requestContentType (json state : jsval) (path method : string) : result jsval :=
  onlyOAS3 json (or_null (getIn state ["requestData"; path; method; "requestContentType"])).

(** A body is there unless the definition does not ask for one. *)
Definition oas3_validateBeforeExecute (json state : jsval) (path method : string) : result bool :=
  match json with
  | JObj _ | JArr _ =>
      Ok (if truthy (getIn json ["paths"; path; method; "requestBody"; "required"])
          then truthy (getIn state (body_path path method)) else true)
  | JUndef | JNull => Throw (cannot_read json "getIn")
  | _ => Throw (not_a_function json "getIn")
  end.

(** The required keys by content type, of the resolved request body. *)
Definition required_entry (kv : string * jsval) : result (list (string * jsval)) :=
  match kv.2 with
  | JObj _ | JArr _ =>
      let required := getIn kv.2 ["schema"; "required"] in
      if truthy required then
        match required with JArr _ | JObj _ => Ok [(kv.1, required)] | v => Throw (not_a_function v "toJS") end
      else Ok []
  | JUndef | JNull => Throw (cannot_read kv.2 "getIn")
  | _ => Throw (not_a_function kv.2 "getIn")
  end.

Definition getOAS3RequiredRequestBodyContentType (spec : jsval) (path method : string) : result (list (string * jsval)) :=
  match lookIn spec ["resolvedSubtrees"; "paths"; path; method; "requestBody"] with
  | None | Some (JArr []) | Some (JObj []) => Ok []
  | Some (JObj fs) =>
      match default JUndef (assoc fs "content") with
      | JObj cs => es ← mapM required_entry cs; Ok (concat es)
      | JArr l => es ← mapM required_entry (indexed l); Ok (concat es)
      | JUndef | JNull => Throw (cannot_read (default JUndef (assoc fs "content")) "entrySeq")
      | v => Throw (not_a_function v "entrySeq")
      end
  | Some (JArr _) => Throw (cannot_read JUndef "entrySeq")
  | Some JUndef => Throw (cannot_read JUndef "size")
  | Some JNull => Throw (cannot_read JNull "size")
  | Some v => Throw (not_a_function v "getIn")
  end.

(** The required keys of the chosen content type without repetitions, and those without a value. *)
Fixpoint dedup (seen l : list string) : list string :=
  match l with
  | [] => []
  | k :: r => if existsb (String.eqb k) seen then dedup seen r else k :: dedup (k :: seen) r
  end.

Definition required_keys (required : list (string * jsval)) (contentType : jsval) : result (list string) :=
  match contentType with
  | JStr ct =>
      match assoc required ct with
      | Some (JArr l) => Ok (dedup [] (map to_string l))
      | Some v => Throw (not_a_function v "forEach")
      | None => Ok []
      end
  | _ => Ok []
  end.

Definition validateShallowRequired (required : list (string * jsval)) (contentType bodyValue : jsval) : result (list string) :=
  match bodyValue with
  | JObj _ =>
      keys ← required_keys required contentType;
      Ok (List.filter (λ k, negb (truthy (getIn bodyValue [k; "value"]))) keys)
  | _ => Ok []
  end.

(** * The Execute component *)

(** The two branches of the store, the requests that were executed and the timers set. *)
Record tryout := Tryout { x_spec : jsval; x_oas3 : jsval; x_executed : list (string * string); x_timers : list (string * string) }.

Definition specJson (spec : jsval) : jsval := default (JObj []) (lookIn spec ["json"]).

Section Execute.
Context `{HashCode, DateParse, RegExpRest}.

(** [specSelectors.isOAS3()]. *)
Definition isOAS3 (spec : jsval) : bool :=
  match isOAS3Helper (if is_map (specJson spec) then specJson spec else JObj []) with Ok b => b | _ => false end.

Definition validateParams (path method : string) (st : tryout) : tryout :=
  Tryout (reduced (x_spec st) (VALIDATE_PARAMS (x_spec st) [path; method] (isOAS3 (x_spec st))))
         (x_oas3 st) (x_executed st) (x_timers st).

Definition clearValidateParams (path method : string) (st : tryout) : tryout :=
  Tryout (reduced (x_spec st) (CLEAR_VALIDATE_PARAMS (x_spec st) [path; method])) (x_oas3 st) (x_executed st) (x_timers st).

Definition with_oas3 (st : tryout) (r : result jsval) : tryout :=
  Tryout (x_spec st) (reduced (x_oas3 st) r) (x_executed st) (x_timers st).

(** A selector that throws gives null, which counts as false. *)
Definition selected (r : result bool) : bool := default false (wrapWithTryCatch r).

Definition handleValidateParameters (path method : string) (st : tryout) : tryout * bool :=
  let st := validateParams path method st in
  (st, selected (validateBeforeExecute (x_spec st) [path; method])).

Definition handleValidateRequestBody (path method : string) (st : tryout) : tryout * bool :=
  let st := with_oas3 st (CLEAR_REQUEST_BODY_VALIDATE_ERROR (x_oas3 st) path method) in
  let json := specJson (x_spec st) in
  let required := wrapWithTryCatch (getOAS3RequiredRequestBodyContentType (x_spec st) path method) in
  let bodyValue := default JNull (wrapWithTryCatch (requestBodyValue json (x_oas3 st) path method)) in
  let contentType := default JNull (wrapWithTryCatch (requestContentType json (x_oas3 st) path method)) in
  if negb (selected (oas3_validateBeforeExecute json (x_oas3 st) path method)) then
    (with_oas3 st (SET_REQUEST_BODY_VALIDATE_ERROR (x_oas3 st) path method true []), false)
  else
    match required with
    | None => (st, true)
    | Some required =>
        match wrapWithTryCatch (validateShallowRequired required contentType bodyValue) with
        | None | Some [] => (st, true)
        | Some keys => (with_oas3 st (SET_REQUEST_BODY_VALIDATE_ERROR (x_oas3 st) path method false keys), false)
        end
    end.

Definition handleValidationResultPass (path method : string) (st : tryout) : tryout :=
  Tryout (x_spec st) (x_oas3 st) (x_executed st ++ [(path, method)]) (x_timers st).

(** The errors are cleared now and set again after 40 ms. *)
Definition handleValidationResultFail (path method : string) (st : tryout) : tryout :=
  let st := clearValidateParams path method st in
  Tryout (x_spec st) (x_oas3 st) (x_executed st) (x_timers st ++ [(path, method)]).

Definition handleValidationResult (isPass : bool) (path method : string) (st : tryout) : tryout :=
  if isPass then handleValidationResultPass path method st else handleValidationResultFail path method st.

Definition onClick (path method : string) (st : tryout) : tryout :=
  let '(st, paramsResult) := handleValidateParameters path method st in
  let '(st, requestBodyResult) := handleValidateRequestBody path method st in
  handleValidationResult (paramsResult && requestBodyResult) path method st.

(** The oldest timer fires. *)
Definition onTimer (st : tryout) : tryout :=
  match x_timers st with
  | [] => st
  | (path, method) :: r => validateParams path method (Tryout (x_spec st) (x_oas3 st) (x_executed st) r)
  end.
End Execute.

(** * The check of the body *)

Lemma getIn_lookIn ks v : getIn v ks = default JUndef (lookIn v ks).
Proof.
  revert v. induction ks as [|k ks IH]; intros v; [done|]. destruct v as [| | | | | | |fs|]; try done.
  cbn [getIn]. unfold lookIn; fold lookIn. rewrite IH. destruct (assoc fs k) as [x|]; [done|]. by destruct ks.
Qed.

(** A write at a path that exists succeeds and is read back. *)
Lemma setIn_existing ks v y x : lookIn v ks = Some y → ∃ v', setIn (Some v) ks x = Ok v' ∧ lookIn v' ks = Some x.
Proof.
  revert v. induction ks as [|k ks IH]; intros v; [by exists x|].
  destruct v as [| | | | | | |fs|]; try done. rewrite lookIn_cons, setIn_cons. destruct (assoc fs k) as [u|]; [|done]. intros Hl.
  destruct (IH u Hl) as (y' & E & Hl'). rewrite E. eexists. split; [done|]. rewrite lookIn_cons, assoc_oset_eq. exact Hl'.
Qed.

(** Errors written into a form do not change its values. *)
Lemma set_errors_keeps errors keys b fs : set_errors errors (JObj fs) keys = Ok b →
  ∃ gs, b = JObj gs ∧ ∀ k, lookIn (JObj gs) [k; "value"] = lookIn (JObj fs) [k; "value"].
Proof.
  revert fs. induction keys as [|j keys IH]; intros fs E; cbn [set_errors] in E; [injection E as <-; eauto|].
  apply result_bind_Ok in E as (b1 & E1 & E). assert (∃ gs, b1 = JObj gs) as (gs & ->).
  { unfold setIn in E1. apply result_bind_Ok in E1 as (y & _ & [= <-]). eauto. }
  destruct (IH gs E) as (hs & -> & Hh). exists hs. split; [done|]. intros k. rewrite Hh.
  rewrite (lookIn_setIn_ne _ _ _ _ _ E1); [done|]. cbn [diverge]. by destruct (String.eqb j k).
Qed.

Lemma reduced_keeps (P : jsval → Prop) st r : P st → (∀ st', r = Ok st' → P st') → P (reduced st r).
Proof. intros H1 H2. unfold reduced, wrapWithTryCatch. destruct r; simpl; auto. Qed.

(** Two states with the same content type and body, but for errors inside a form. *)
Definition same_body (o o' : jsval) (path method : string) : Prop :=
  getIn o' ["requestData"; path; method; "requestContentType"] = getIn o ["requestData"; path; method; "requestContentType"] ∧
  match getIn o (body_path path method) with
  | JObj fs => ∃ gs, getIn o' (body_path path method) = JObj gs ∧ ∀ k, getIn (JObj gs) [k; "value"] = getIn (JObj fs) [k; "value"]
  | v => getIn o' (body_path path method) = v
  end.

Lemma same_body_refl o path method : same_body o o path method.
Proof. split; [done|]. destruct (getIn o (body_path path method)); eauto. Qed.

Lemma same_body_trans o1 o2 o3 path method : same_body o1 o2 path method → same_body o2 o3 path method → same_body o1 o3 path method.
Proof.
  intros [Hc1 Hb1] [Hc2 Hb2]. split; [congruence|].
  destruct (getIn o1 (body_path path method)) as [| | | | | | |fs|]; try (by rewrite Hb1 in Hb2).
  destruct Hb1 as (gs & Eg & Hg). rewrite Eg in Hb2. destruct Hb2 as (hs & Eh & Hh). exists hs. split; [done|].
  intros k. by rewrite Hh.
Qed.

(** Writes next to the body, and errors written into a form. *)
Lemma same_body_beside o k x o' path method : setIn (Some o) ["requestData"; path; method; k] x = Ok o' →
  k ≠ "bodyValue" → k ≠ "requestContentType" → same_body o o' path method.
Proof.
  intros E H1 H2. assert (∀ j, k ≠ j → getIn o' ["requestData"; path; method; j] = getIn o ["requestData"; path; method; j]) as Hne.
  { intros j Hj. rewrite !getIn_lookIn. by rewrite (lookIn_setIn_ne _ _ _ _ _ E) by (by apply (diverge_app [_; _; _] k j [] [])). }
  split; [by apply Hne|]. unfold body_path. rewrite (Hne "bodyValue") by done.
  destruct (getIn o ["requestData"; path; method; "bodyValue"]); eauto.
Qed.

Lemma same_body_errors o errors keys fs b o' path method : lookIn o (body_path path method) = Some (JObj fs) →
  set_errors errors (JObj fs) keys = Ok b → setIn (Some o) (body_path path method) b = Ok o' → same_body o o' path method.
Proof.
  intros Hl Hb E. apply set_errors_keeps in Hb as (gs & -> & Hg). destruct (setIn_existing _ _ _ (JObj gs) Hl) as (v' & E' & Hl').
  rewrite E in E'. injection E' as <-. split.
  - rewrite !getIn_lookIn. by rewrite (lookIn_setIn_ne _ _ _ _ _ E)
      by (by apply (diverge_app ["requestData"; path; method] "bodyValue" "requestContentType" [] [])).
  - rewrite (getIn_lookIn _ o), Hl. exists gs. rewrite getIn_lookIn, Hl'. split; [done|]. intros k. by rewrite !getIn_lookIn, Hg.
Qed.

Lemma clear_same_body o path method : same_body o (reduced o (CLEAR_REQUEST_BODY_VALIDATE_ERROR o path method)) path method.
Proof.
  apply (reduced_keeps (λ o', same_body o o' path method)); [apply same_body_refl|]. intros o' E.
  unfold CLEAR_REQUEST_BODY_VALIDATE_ERROR in E. destruct (getIn o (body_path path method)) as [| | | | | | |fs|] eqn:Eb;
    try (by eapply same_body_beside; [exact E| |]).
  destruct fs as [|kv fs]; [injection E as <-; apply same_body_refl|]. apply result_bind_Ok in E as (b & Hb & E).
  rewrite getIn_lookIn in Eb. destruct (lookIn o (body_path path method)) as [y|] eqn:El; [|done]. simpl in Eb. subst y.
  by eapply same_body_errors.
Qed.

(** The body of the request is complete: a required body is there, and a form has a value for
    every key that the definition requires for the chosen content type. *)
Definition body_complete (st : tryout) (path method : string) : Prop :=
  let json := specJson (x_spec st) in
  let bodyValue := getIn (x_oas3 st) (body_path path method) in
  (truthy (getIn json ["paths"; path; method; "requestBody"; "required"]) = true → truthy bodyValue = true) ∧
  ∀ ct required keys, isOAS3Helper json = Ok true → is_map bodyValue = true → ct ≠ "" →
    getIn (x_oas3 st) ["requestData"; path; method; "requestContentType"] = JStr ct →
    getOAS3RequiredRequestBodyContentType (x_spec st) path method = Ok required → assoc required ct = Some (JArr keys) →
    ∀ k, k ∈ keys → truthy (getIn bodyValue [to_string k; "value"]) = true.

Lemma dedup_elem l seen k : k ∈ dedup seen l ↔ k ∈ l ∧ k ∉ seen.
Proof.
  revert seen. induction l as [|x l IH]; intros seen; simpl; [set_solver|].
  assert (existsb (String.eqb x) seen = true ↔ x ∈ seen) as Hx.
  { rewrite existsb_exists. setoid_rewrite String.eqb_eq. setoid_rewrite <- list_elem_of_In. naive_solver. }
  destruct (existsb (String.eqb x) seen); [set_solver|].
  rewrite elem_of_cons, IH. assert (x ∉ seen) by (intros Hin; by apply Hx in Hin).
  destruct (decide (k = x)) as [->|]; set_solver.
Qed.

Lemma shallow_required required ct bodyValue : match wrapWithTryCatch (validateShallowRequired required ct bodyValue) with
  | None | Some [] => true | Some _ => false end = true ↔
  ∀ s keys, is_map bodyValue = true → ct = JStr s → assoc required s = Some (JArr keys) →
    ∀ k, k ∈ keys → truthy (getIn bodyValue [to_string k; "value"]) = true.
Proof.
  unfold validateShallowRequired. destruct bodyValue as [| | | | | | |fs|]; try (split; [done|done]).
  destruct ct as [| | | | |s| | |]; try (split; [intros _ s' keys _ E; by inversion E|done]). cbn [required_keys].
  destruct (assoc required s) as [v|] eqn:Ea; [|split; [intros _ s' keys _ [= <-] E; by rewrite Ea in E|done]].
  destruct v as [| | | | | |l| |]; try (split; [intros _ s' keys _ [= <-] E; by rewrite Ea in E|done]).
  rewrite ok_bind. unfold wrapWithTryCatch. set (f := List.filter _ _).
  assert (f = [] ↔ ∀ k, k ∈ l → truthy (getIn (JObj fs) [to_string k; "value"]) = true) as Hf.
  { unfold f. split.
    - intros E k Hk. destruct (truthy _) eqn:Et; [done|]. assert (to_string k ∈ f) as Hin; [|by unfold f in Hin; rewrite E in Hin; apply elem_of_nil in Hin].
      unfold f. apply list_elem_of_In, filter_In. rewrite Et. split; [|done]. apply list_elem_of_In, dedup_elem. split; [|set_solver].
      apply list_elem_of_fmap. eauto.
    - intros Hall. destruct (List.filter _ _) as [|x r] eqn:E; [done|].
      assert (In x (x :: r)) as Hin by (by left). rewrite <- E in Hin. apply filter_In in Hin as [Hx Ht].
      apply list_elem_of_In, dedup_elem in Hx as [Hx _]. apply list_elem_of_fmap in Hx as (k & -> & Hk).
      by rewrite (Hall k Hk) in Ht. }
  destruct f as [|x f]; split; try done.
  - intros _ s' keys _ [= <-] E. rewrite Ea in E. injection E as <-. by apply Hf.
  - intros Hall. assert (x :: f = []) as E; [|done]. apply Hf. by apply (Hall s l).
Qed.

#[local] Arguments getIn : simpl never.

Definition body_result (spec o : jsval) (path method : string) : bool :=
  let json := specJson spec in
  selected (oas3_validateBeforeExecute json o path method) &&
  match wrapWithTryCatch (getOAS3RequiredRequestBodyContentType spec path method) with
  | None => true
  | Some required =>
      match wrapWithTryCatch (validateShallowRequired required
              (default JNull (wrapWithTryCatch (requestContentType json o path method)))
              (default JNull (wrapWithTryCatch (requestBodyValue json o path method)))) with
      | None | Some [] => true
      | Some _ => false
      end
  end.

Lemma body_result_eq st path method : (handleValidateRequestBody path method st).2 =
  body_result (x_spec st) (reduced (x_oas3 st) (CLEAR_REQUEST_BODY_VALIDATE_ERROR (x_oas3 st) path method)) path method.
Proof.
  unfold handleValidateRequestBody, body_result, with_oas3. cbn [x_spec x_oas3 x_executed x_timers].
  destruct (selected _); [|done]. cbn [negb andb].
  destruct (wrapWithTryCatch (getOAS3RequiredRequestBodyContentType _ _ _)); [|done].
  by destruct (wrapWithTryCatch (validateShallowRequired _ _ _)) as [[|? ?]|].
Qed.

Lemma oas3_helper_map json : is_map json = true → ∃ b, isOAS3Helper json = Ok b.
Proof. destruct json; try done. eauto. Qed.

Lemma or_null_map v : is_map (or_null v) = is_map v.
Proof. unfold or_null. destruct (truthy v) eqn:E; [done|]. by destruct v. Qed.

Lemma or_null_id v : is_map v = true → or_null v = v.
Proof. by destruct v. Qed.

Lemma or_null_str v s : s ≠ "" → or_null v = JStr s ↔ v = JStr s.
Proof.
  intros Hs. unfold or_null. destruct (truthy v) eqn:E; [done|]. split; [done|]. intros ->. simpl in E.
  by destruct (String.eqb_spec s "").
Qed.

Lemma body_result_iff spec o path method : is_map (specJson spec) = true →
  body_result spec o path method = true ↔ body_complete (Tryout spec o [] []) path method.
Proof.
  intros Hj. unfold body_result, body_complete. cbn [x_spec x_oas3]. set (json := specJson spec) in *.
  destruct (oas3_helper_map json Hj) as [b Hb]. rewrite andb_true_iff. f_equiv.
  - unfold oas3_validateBeforeExecute. destruct json as [| | | | | | |js|]; try done. unfold selected, wrapWithTryCatch. simpl default.
    destruct (truthy (getIn (JObj js) _)); naive_solver.
  - destruct (getOAS3RequiredRequestBodyContentType spec path method) as [required| |]; [|by split; [intros _ ? ? ? _ _ _ _ ?|]..].
    unfold wrapWithTryCatch at 1. rewrite shallow_required.
    unfold requestBodyValue, requestContentType, onlyOAS3. rewrite Hb, !ok_bind. simpl default.
    destruct b; [|by split; [intros _ ? ? ? ?|intros _ ? ? ?]]. rewrite or_null_map. split.
    + intros Hs ct req keys _ Hm Hct Ect [= <-] Ea k Hk.
      pose proof (Hs ct keys Hm (proj2 (or_null_str _ _ Hct) Ect) Ea k Hk) as Hx. by rewrite or_null_id in Hx.
    + intros Hs s keys Hm Ect Ea k Hk. assert (s ≠ "") as Hne.
      { intros ->. unfold or_null in Ect. destruct (truthy (getIn o _)) eqn:Et; [|done]. rewrite Ect in Et. done. }
      rewrite or_null_id by done. by apply (Hs s required keys eq_refl Hm Hne (proj1 (or_null_str _ _ Hne) Ect) eq_refl Ea k Hk).
Qed.

(** Errors inside a form do not matter for whether the body is complete. *)
Lemma body_complete_same spec o o' path method ex ti ex' ti' : same_body o o' path method →
  body_complete (Tryout spec o' ex ti) path method ↔ body_complete (Tryout spec o ex' ti') path method.
Proof.
  unfold body_complete. cbn [x_spec x_oas3]. intros [-> Hbody]. destruct (getIn o (body_path path method)) as [| | | | | | |fs|]; try (by rewrite Hbody).
  destruct Hbody as (gs & -> & Hg). by setoid_rewrite Hg.
Qed.

Lemma body_check_iff st path method : is_map (specJson (x_spec st)) = true →
  (handleValidateRequestBody path method st).2 = true ↔ body_complete st path method.
Proof.
  intros Hj. rewrite body_result_eq, body_result_iff by done. destruct st. apply body_complete_same, clear_same_body.
Qed.

(** * A click *)

(** The parts of the spec branch other than [meta] agree. *)
Definition outside_meta (s s' : jsval) : Prop := ∀ k r, k ≠ "meta" → lookIn s' (k :: r) = lookIn s (k :: r).

Lemma setIn_outside s r x s' : setIn (Some s) ("meta" :: r) x = Ok s' → outside_meta s s'.
Proof. intros E k ks Hk. rewrite (lookIn_setIn_ne _ _ _ _ _ E); [done|]. by apply (diverge_app [] "meta" k). Qed.

Lemma outside_specJson s s' : outside_meta s s' → specJson s' = specJson s.
Proof. intros Ho. unfold specJson. by rewrite (Ho "json" []). Qed.

Lemma body_complete_outside s s' o path method ex ti ex' ti' : outside_meta s s' →
  body_complete (Tryout s' o ex ti) path method ↔ body_complete (Tryout s o ex' ti') path method.
Proof.
  intros Ho. unfold body_complete, getOAS3RequiredRequestBodyContentType. cbn [x_spec x_oas3].
  by rewrite (outside_specJson _ _ Ho), !(Ho "resolvedSubtrees").
Qed.

Section Click.
Context `{HashCode, DateParse, RegExpRest}.

Lemma validate_outside s pm b : outside_meta s (reduced s (VALIDATE_PARAMS s pm b)).
Proof.
  apply (reduced_keeps (outside_meta s)); [done|]. intros s' E. unfold VALIDATE_PARAMS in E.
  do 4 (apply result_bind_Ok in E as (? & _ & E)). destruct x1; [by injection E as <-|]. by eapply setIn_outside.
Qed.

Lemma clear_outside s pm : outside_meta s (reduced s (CLEAR_VALIDATE_PARAMS s pm)).
Proof.
  apply (reduced_keeps (outside_meta s)); [done|]. intros s' E. unfold CLEAR_VALIDATE_PARAMS in E.
  destruct (lookIn s (meta_params pm)) as [v|]; [|by injection E as <-]. destruct v; try done.
  all: apply result_bind_Ok in E as (? & _ & E); by eapply setIn_outside.
Qed.

(** The operation as a click sees it: its parameters and the errors of each, none of which raises
    an exception. *)
Definition operation_view (s : jsval) (path method : string) (ps : list jsval) (errs : jsval → list verror) : Prop :=
  fits spec_shape s = true ∧ is_map (specJson s) = true ∧ has_params s [path; method] ps ∧ params_ok ps = true ∧
  ∀ p, p ∈ ps → param_errors s [path; method] (isOAS3 s) p = Ok (errs p).

(** Errors that are kept for parameters the operation does not have. *)
Definition no_stale_errors (s : jsval) (path method : string) (ps : list jsval) : Prop :=
  ∀ k l, k ∉ map param_hkey ps → errors_at s [path; method] k = Some (JArr l) → l = [].

Lemma view_transfer s s' path method ps errs : operation_view s path method ps errs → fits spec_shape s' = true →
  has_params s' [path; method] ps → outside_meta s s' → same_inputs s s' [path; method] → operation_view s' path method ps errs.
Proof.
  intros (_ & Hm & _ & Hok & He) Hf Hps Ho Hsame. split_and!; [done|by rewrite (outside_specJson _ _ Ho)|done|done|].
  intros p Hp. rewrite <- (He p Hp). unfold param_errors, isOAS3. rewrite (outside_specJson _ _ Ho).
  destruct (Hsame p) as [-> ->]; [by eapply params_ok_inv|done].
Qed.

Lemma params_check path method st ps errs : operation_view (x_spec st) path method ps errs →
  let '(st', b) := handleValidateParameters path method st in
  operation_view (x_spec st') path method ps errs ∧ outside_meta (x_spec st) (x_spec st') ∧
  x_oas3 st' = x_oas3 st ∧ x_executed st' = x_executed st ∧ x_timers st' = x_timers st ∧
  (no_stale_errors (x_spec st) path method ps → no_stale_errors (x_spec st') path method ps) ∧
  (b = true ↔ (∀ p, p ∈ ps → errs p = []) ∧ no_stale_errors (x_spec st) path method ps).
Proof.
  intros Hv. pose proof Hv as (Hf & Hm & Hps & Hok & He). destruct st as [s o ex ti]. unfold handleValidateParameters, validateParams.
  cbn [x_spec x_oas3 x_executed x_timers] in *.
  destruct (validate_params_spec s path method (isOAS3 s) ps errs) as (s' & E & Hf' & Hps' & Hnew & Hold & Hsame); [done..|].
  pose proof (validate_outside s [path; method] (isOAS3 s)) as Ho. rewrite E in *. change (reduced s (Ok s')) with s' in *.
  split_and!; [by apply (view_transfer s)|done|done|done|done| |].
  - intros Hs k l Hk. rewrite Hold by done. by apply Hs.
  - destruct (before_execute_iff s' path method Hf') as (b & -> & Hb). change (selected (Ok b)) with b. rewrite Hb. split.
    + intros Hall. split; [|intros k l Hk Hl; apply (Hall k); by rewrite Hold].
      intros p Hp. specialize (Hall _ _ (Hnew p Hp)). by destruct (errs p).
    + intros [Hp Hs] k l Hl. destruct (decide (k ∈ map param_hkey ps)) as [Hk|Hk]; [|apply (Hs k); by rewrite <- ?Hold].
      apply list_elem_of_fmap in Hk as (p & -> & Hin). rewrite (Hnew p Hin) in Hl. injection Hl as <-. by rewrite (Hp p Hin).
Qed.

Lemma set_same_body o path method mb keys :
  (keys ≠ [] → mb = false → is_map (getIn o (body_path path method)) = true) →
  same_body o (reduced o (SET_REQUEST_BODY_VALIDATE_ERROR o path method mb keys)) path method.
Proof.
  intros Hmap. apply (reduced_keeps (λ o', same_body o o' path method)); [apply same_body_refl|]. intros o' E.
  unfold SET_REQUEST_BODY_VALIDATE_ERROR in E. destruct mb; [by eapply same_body_beside; [exact E| |]|].
  destruct keys as [|k keys]; [injection E as <-; apply same_body_refl|]. apply result_bind_Ok in E as (b & Hb & E).
  specialize (Hmap ltac:(done) eq_refl). rewrite getIn_lookIn in Hmap.
  destruct (lookIn o (body_path path method)) as [y|] eqn:El; [|done]. destruct y; try done. by eapply same_body_errors.
Qed.

Lemma body_check path method st : is_map (specJson (x_spec st)) = true →
  let '(st', b) := handleValidateRequestBody path method st in
  x_spec st' = x_spec st ∧ x_executed st' = x_executed st ∧ x_timers st' = x_timers st ∧
  same_body (x_oas3 st) (x_oas3 st') path method ∧ (b = true ↔ body_complete st path method).
Proof.
  intros Hm. pose proof (body_check_iff st path method Hm) as Hb. pose proof (clear_same_body (x_oas3 st) path method) as Hc.
  unfold handleValidateRequestBody, with_oas3 in *. cbn [x_spec x_oas3 x_executed x_timers] in *.
  set (o' := reduced (x_oas3 st) _) in *. destruct (selected _); cbn [negb] in *.
  2:{ split_and!; try done. eapply same_body_trans; [exact Hc|]. by apply set_same_body. }
  destruct (wrapWithTryCatch (getOAS3RequiredRequestBodyContentType _ _ _)) as [req|]; [|by split_and!].
  destruct (wrapWithTryCatch (validateShallowRequired _ _ _)) as [[|k ks]|] eqn:Ew; [by split_and!| |by split_and!].
  split_and!; try done. eapply same_body_trans; [exact Hc|]. apply set_same_body. intros _ _.
  set (bv := default JNull (wrapWithTryCatch (requestBodyValue _ _ _ _))) in Ew. assert (is_map bv = true) as Hbv by (clear -Ew; by destruct bv).
  unfold bv, requestBodyValue, onlyOAS3 in Hbv. destruct (isOAS3Helper _) as [[]| |]; try done.
  change (is_map (or_null (getIn o' (body_path path method))) = true) in Hbv. by rewrite or_null_map in Hbv.
Qed.

(** What a click does, and what it leaves of the operation. *)
Lemma click_spec path method st ps errs : operation_view (x_spec st) path method ps errs →
  let st' := onClick path method st in
  let valid := (∀ p, p ∈ ps → errs p = []) ∧ no_stale_errors (x_spec st) path method ps ∧ body_complete st path method in
  (valid ∧ x_executed st' = x_executed st ++ [(path, method)] ∧ x_timers st' = x_timers st ∨
   ¬ valid ∧ x_executed st' = x_executed st ∧ x_timers st' = x_timers st ++ [(path, method)] ∧
   operation_view (x_spec st') path method ps errs ∧ no_stale_errors (x_spec st') path method ps ∧
   (body_complete st' path method ↔ body_complete st path method)).
Proof.
  intros Hv. cbv zeta. unfold onClick. pose proof (params_check path method st ps errs Hv) as Hp.
  destruct (handleValidateParameters path method st) as [st1 b1]. destruct Hp as (Hv1 & Ho1 & Eo1 & Ee1 & Et1 & _ & Hb1).
  pose proof (body_check path method st1 (proj1 (proj2 Hv1))) as Hb.
  destruct (handleValidateRequestBody path method st1) as [st2 b2]. destruct Hb as (Es2 & Ee2 & Et2 & Hsame & Hb2).
  assert (body_complete st1 path method ↔ body_complete st path method) as Hbc.
  { destruct st1, st. cbn [x_spec x_oas3] in *. subst. by apply body_complete_outside. }
  destruct (b1 && b2) eqn:Eb.
  - left. apply andb_true_iff in Eb as [-> ->]. cbn [handleValidationResult handleValidationResultPass x_executed x_timers].
    rewrite Ee2, Ee1, Et2, Et1. split_and!; try done; naive_solver.
  - right. split; [|]. { intros (H2 & H3 & H4). apply andb_false_iff in Eb as [-> | ->]; naive_solver. }
    cbn [handleValidationResult handleValidationResultFail clearValidateParams x_spec x_oas3 x_executed x_timers].
    rewrite Ee2, Ee1, Et2, Et1, Es2. split; [done|]. split; [done|].
    destruct (clear_validate_spec (x_spec st1) path method (proj1 Hv1)) as (s3 & E3 & Hf3 & Hps3 & Hno & Hsame3).
    pose proof (clear_outside (x_spec st1) [path; method]) as Ho3. rewrite E3 in *. change (reduced (x_spec st1) (Ok s3)) with s3 in *.
    split_and!; [by apply (view_transfer (x_spec st1)); try done; apply Hps3, Hv1| |].
    + intros k l _ Hl. by apply (Hno k).
    + rewrite <- Hbc. unfold handleValidationResultFail, clearValidateParams. destruct st1, st2. cbn [x_spec x_oas3] in *. subst.
      rewrite E3. change (reduced x_spec0 (Ok s3)) with s3. rewrite (body_complete_outside _ _ _ _ _ _ _ [] [] Ho3).
      by apply body_complete_same.
Qed.

Lemma timer_spec path method st ps errs : operation_view (x_spec st) path method ps errs → no_stale_errors (x_spec st) path method ps →
  x_timers st = [(path, method)] → let st' := onTimer st in
  operation_view (x_spec st') path method ps errs ∧ no_stale_errors (x_spec st') path method ps ∧
  x_executed st' = x_executed st ∧ x_timers st' = [] ∧ (body_complete st' path method ↔ body_complete st path method).
Proof.
  intros Hv Hs Ht. cbv zeta. unfold onTimer. rewrite Ht.
  pose proof (params_check path method (Tryout (x_spec st) (x_oas3 st) (x_executed st) []) ps errs Hv) as Hp.
  unfold handleValidateParameters in Hp. destruct Hp as (Hv1 & Ho1 & Eo1 & Ee1 & Et1 & Hs1 & _).
  split_and!; [done|by apply Hs1|done|done|]. destruct st. cbn [x_spec x_oas3 x_executed x_timers validateParams] in *.
  by apply body_complete_outside.
Qed.
End Click.

(** C5: a click on Execute sends the request exactly when every parameter of the operation passes
    its validation with the value entered for it, no errors are left of parameters that the
    operation no longer has, and the body is complete. Otherwise nothing is sent and the errors are
    shown again after a delay; the next click then decides by the parameters and the body alone.
    This holds in every state that actions lead a page to, when the validation of no parameter raises an
    exception, for parameters that can be told apart, as long as no earlier delay is pending. *)
Theorem click_decides `{HashCode, DateParse, RegExpRest} url path method st ps errs :
  rtc spec_step (spec_init url) (x_spec st) → is_map (specJson (x_spec st)) = true → has_params (x_spec st) [path; method] ps →
  params_ok ps = true → (∀ p, p ∈ ps → param_errors (x_spec st) [path; method] (isOAS3 (x_spec st)) p = Ok (errs p)) →
  x_timers st = [] →
  let valid := (∀ p, p ∈ ps → errs p = []) ∧ body_complete st path method in
  let st1 := onClick path method st in
  let st2 := onClick path method (onTimer st1) in
  (valid ∧ no_stale_errors (x_spec st) path method ps → x_executed st1 = x_executed st ++ [(path, method)]) ∧
  (¬ (valid ∧ no_stale_errors (x_spec st) path method ps) → x_executed st1 = x_executed st ∧
     (valid → x_executed st2 = x_executed st ++ [(path, method)]) ∧ (¬ valid → x_executed st2 = x_executed st)).
Proof.
  intros Hr Hm Hps Hok He Ht. cbv zeta.
  assert (operation_view (x_spec st) path method ps errs) as Hv by (split_and!; try done; by eapply page_fits).
  destruct (click_spec path method st ps errs Hv) as [(Hval & Ex & _)|(Hval & Ex & Eti & Hv1 & Hs1 & Hb1)]; (split; [|]);
    try (intros; tauto). intros _. rewrite Ht in Eti. split; [done|].
  destruct (timer_spec path method (onClick path method st) ps errs Hv1 Hs1 Eti) as (Hv2 & Hs2 & Ex2 & _ & Hb2).
  destruct (click_spec path method (onTimer (onClick path method st)) ps errs Hv2) as [(Hv3 & Ex3 & _)|(Hv3 & Ex3 & _)].
  - split; [by rewrite Ex3, Ex2, Ex|]. intros Hn. destruct Hn. tauto.
  - split; [intros Hy; destruct Hv3; tauto|]. by rewrite Ex3, Ex2, Ex.
Qed.

(** * Examples and witnesses *)

#[export] Instance hash_const : HashCode := λ _, 0%Z.

Definition example_params : list jsval :=
  [JObj [("in", JStr "query"); ("name", JStr "region"); ("required", JBool true); ("type", JStr "string")];
   JObj [("in", JStr "query"); ("name", JStr "page"); ("type", JStr "integer")]].

Definition example_json (ps : list jsval) : jsval :=
  JObj [("swagger", JStr "2.0"); ("paths", JObj [("/runtimes", JObj [("get", JObj [("parameters", JArr ps)])])])].

(** The page after a download of this definition. *)
Definition spec_url : jsval := JStr "/schema/keb".
Definition loaded_spec (ps : list jsval) : jsval :=
  JObj [("spec", JStr "swagger: 2.0"); ("url", spec_url); ("loadingStatus", JStr "success"); ("json", example_json ps)].

Lemma loaded_reachable ps : rtc (@spec_step hash_const date_invalid regexp_none) (spec_init spec_url) (loaded_spec ps).
Proof.
  eapply rtc_l; [apply step_edit, (step_loading _ (JStr "loading"))|]. eapply rtc_l; [apply step_edit, (step_loading _ (JStr "success"))|].
  eapply rtc_l; [apply step_edit, (step_spec _ (JStr "swagger: 2.0"))|]. eapply rtc_l; [apply step_edit, (step_json _ (example_json ps))|].
  apply rtc_refl.
Qed.

Lemma loaded_params : has_params (loaded_spec example_params) ["/runtimes"; "get"] example_params.
Proof. do 2 eexists. split_and!; [vm_compute; reflexivity..|]. vm_compute. reflexivity. Qed.

Lemma entered_value_used_witness : ∃ st' vals vals',
  UPDATE_PARAM (loaded_spec example_params) ["/runtimes"; "get"] (inl (JObj [("in", JStr "query"); ("name", JStr "page"); ("type", JStr "integer")]))
    (JStr "7") false = Ok st' ∧
  parameterValues (loaded_spec example_params) ["/runtimes"; "get"] false = Ok vals ∧
  parameterValues st' ["/runtimes"; "get"] false = Ok vals' ∧
  paramToValue (JObj [("in", JStr "query"); ("name", JStr "page"); ("type", JStr "integer")]) vals' = Ok (JStr "7") ∧
  ∀ q, q ∈ example_params → q ≠ JObj [("in", JStr "query"); ("name", JStr "page"); ("type", JStr "integer")] →
       paramToValue q vals' = paramToValue q vals.
Proof.
  apply (@entered_value_used hash_const date_invalid regexp_none spec_url (loaded_spec example_params) "/runtimes" "get" example_params).
  - apply loaded_reachable.
  - apply loaded_params.
  - vm_compute. reflexivity.
  - right. left.
Defined.

(** The required parameter has no value: nothing is sent. *)
Lemma click_decides_witness : x_executed (@onClick hash_const date_invalid regexp_none "/runtimes" "get"
  (Tryout (loaded_spec example_params) (JObj []) [] [])) = [].
Proof.
  destruct (@click_decides hash_const date_invalid regexp_none spec_url "/runtimes" "get" (Tryout (loaded_spec example_params) (JObj []) [] [])
    example_params (λ p, if String.eqb (to_string (map_get p "name")) "region" then [VMsg "Required field is not provided"] else []))
    as [_ H2].
  - apply loaded_reachable.
  - reflexivity.
  - apply loaded_params.
  - vm_compute. reflexivity.
  - intros p Hp. unfold example_params in Hp. rewrite !elem_of_cons in Hp.
    destruct Hp as [->|[->|Hp]]; [vm_compute; reflexivity..|by apply elem_of_nil in Hp].
  - reflexivity.
  - refine (proj1 (H2 _)). intros [[Hall _] _]. pose proof (Hall (JObj [("in", JStr "query"); ("name", JStr "region"); ("required", JBool true); ("type", JStr "string")]) ltac:(left)) as E.
    vm_compute in E. discriminate E.
Defined.

(** An exception in the validation of one parameter, here a pattern that is not a regular
    expression, makes the reducer keep the old state: no parameter is validated, and the request is
    sent although a required parameter has no value. *)
Lemma exception_skips_validation :
  let broken := JObj [("in", JStr "query"); ("name", JStr "filter"); ("type", JStr "string"); ("pattern", JStr "("); ("value", JStr "x")] in
  let st := Tryout (loaded_spec (example_params ++ [broken])) (JObj []) [] [] in
  @param_errors hash_const date_invalid regexp_none (x_spec st) ["/runtimes"; "get"] false (nth 0 example_params JUndef) =
    Ok [VMsg "Required field is not provided"] ∧
  x_executed (@onClick hash_const date_invalid regexp_none "/runtimes" "get" st) = [("/runtimes", "get")].
Proof. vm_compute. auto. Qed.

(** A form value with two keys: only the last one is stored. *)
Lemma form_keeps_last_key :
  UPDATE_REQUEST_BODY_VALUE (JObj []) (JObj [("a", JStr "1"); ("b", JStr "2")]) "/runtimes" "post" =
  Ok (JObj [("requestData", JObj [("/runtimes", JObj [("post", JObj [("bodyValue", JObj [("b", JObj [("value", JStr "2")])])])])])]).
Proof. reflexivity. Qed.

Lemma spec_store_typed_witness : ∃ st',
  @UPDATE_PARAM hash_const (loaded_spec example_params) ["/runtimes"; "get"] (inr ("query", "page")) (JStr "7") false = Ok st' ∧
  lookIn st' (meta_params ["/runtimes"; "get"] ++ ["query" +:+ "." +:+ "page"; "value"]) = Some (JStr "7").
Proof.
  refine (proj1 (proj2 (@spec_store_typed hash_const date_invalid regexp_none spec_url (loaded_spec example_params) "/runtimes" "get"
    "query" "page" (JStr "7") _))). apply loaded_reachable.
Defined.
