(* ===== verification/SwOperations.v ===== *)
(** Swagger UI, the list of operations: the selectors of core/plugins/spec/selectors.js that collect
    the operations of the definition, group them by tag and sort them (with [sorters] of
    core/utils.js), and the selector of core/plugins/layout that filters and limits the tags (with
    core/plugins/filter/opsFilter.js). *)

From stdpp Require Import sorting.
From S2P Require Import Prelude JsValue Json RegExp JsString SwUtils SwAuth SwStore SwValidate SwImmutable SwSpec SwExecute.

(** * Ordered maps *)

(** [OrderedMap] of Immutable with any keys: a new key goes to the end. *)
Section OrderedMap.
Context {A : Type}.
Implicit Types m : list (jsval * A).

Fixpoint om_get m (k : jsval) : option A :=
  match m with [] => None | (j, x) :: r => if decide (j = k) then Some x else om_get r k end.

Fixpoint om_update m (k : jsval) (notSet : A) (f : A → A) : list (jsval * A) :=
  match m with
  | [] => [(k, f notSet)]
  | (j, x) :: r => if decide (j = k) then (j, f x) :: r else (j, x) :: om_update r k notSet f
  end.
End OrderedMap.

Definition om_set {A} (m : list (jsval * A)) (k : jsval) (x : A) : list (jsval * A) := om_update m k x (λ _, x).

(** * Sets *)

(** The values of a [Set] in the order in which Immutable visits them. *)
Class ImmutableSet := set_values : list jsval → list jsval.
Class ImmutableSetLaws (S : ImmutableSet) := {
  set_values_NoDup l : NoDup (set_values l);
  set_values_elem l v : v ∈ set_values l ↔ v ∈ l
}.

(** The values that [Set(v)] takes from its argument. *)
Definition set_source (v : jsval) : result (list jsval) :=
  match v with
  | JUndef | JNull => Ok []
  | JArr l => Ok l
  | JObj fs => Ok (map (λ kv, JArr [JStr kv.1; kv.2]) fs)
  | JStr s => if String.eqb s "" then Throw (typeError "Expected Array or iterable object of values: ") else Ok (string_chars s)
  | _ => Throw (typeError ("Expected Array or iterable object of values: " +:+ to_string v))
  end.

(** * The operations of the definition *)

Definition OPERATION_METHODS : list string := ["get"; "put"; "post"; "delete"; "options"; "head"; "patch"; "trace"].
Definition DEFAULT_TAG : jsval := JStr "default".

Record operation := Op { op_path : jsval; op_method : string; op_operation : jsval }.

Definition op_id (op : operation) : string := op_method op +:+ "-" +:+ to_string (op_path op).

(** The entries that [forEach] visits, with their keys; a value without [forEach] has none. *)
Definition each (v : jsval) : list (jsval * jsval) :=
  match v with
  | JObj fs => map (λ kv, (JStr kv.1, kv.2)) fs
  | JArr l => imap (λ i x, (JInt (Z.of_nat i), x)) l
  | _ => []
  end.

Definition path_operations (pp : jsval * jsval) : list operation :=
  omap (λ mo, match mo.1 with
              | JStr method => if bool_decide (method ∈ OPERATION_METHODS) then Some (Op pp.1 method mo.2) else None
              | _ => None
              end) (each pp.2).

Definition operations (paths : jsval) : list operation := mbind path_operations (each paths).

Section Operations.
Context `{ImmutableSet}.

(** [op.update(key, a => Set(a).merge(inherited))] for an operation that has no value for it. *)
Definition inherit (key : string) (inherited : list jsval) (fs : list (string * jsval)) : result (list (string * jsval)) :=
  let a := default JUndef (assoc fs key) in
  if truthy a then Ok fs
  else own ← set_source a; Ok (oset fs key (JArr (set_values (own ++ inherited)))).

Definition root_inherited (consumes produces : list jsval) (op : operation) : result operation :=
  match op_operation op with
  | JObj fs => fs ← inherit "consumes" consumes fs; fs ← inherit "produces" produces fs;
               Ok (Op (op_path op) (op_method op) (JObj fs))
  | v => Ok (Op (op_path op) (op_method op) (if truthy v then JUndef else JObj []))
  end.

Definition operationsWithRootInherited (state : jsval) : result (list operation) :=
  spec ← specJsonWithResolvedSubtrees state;
  consumes ← method_get (specJson state) "consumes"; consumes ← set_source consumes;
  produces ← method_get (specJson state) "produces"; produces ← set_source produces;
  mapM (root_inherited (set_values consumes) (set_values produces)) (operations (map_get spec "paths")).

(** * Tags *)

Definition is_map_value (v : jsval) : bool := match v with JObj _ => true | _ => false end.

(** The tags that the definition declares. *)
Definition tags (state : jsval) : result (list jsval) :=
  match specJson state with
  | JObj fs => Ok (match assoc fs "tags" with Some (JArr l) => List.filter is_map_value l | _ => [] end)
  | JArr _ => Ok []
  | v => Throw (if nullish v then cannot_read v "get" else not_a_function v "get")
  end.

(** The default is given in the place of the context of [find], so that it has no effect. *)
Definition tagDetails (declared : list jsval) (tag : jsval) : jsval :=
  default JUndef (List.find (λ t, strict_eq (map_get t "name") tag) declared).

(** The tags of an operation. *)
Definition op_tags (op : operation) : result (list jsval) :=
  l ← set_source (map_get (op_operation op) "tags"); Ok (set_values l).

Definition push_op (op : operation) (m : list (jsval * list operation)) (tag : jsval) : list (jsval * list operation) :=
  om_update m tag [] (λ ar, ar ++ [op]).

Definition add_op (m : list (jsval * list operation)) (op : operation) : result (list (jsval * list operation)) :=
  ts ← op_tags op;
  Ok (match ts with [] => push_op op m DEFAULT_TAG | _ => foldl (push_op op) m ts end).

Fixpoint add_ops (m : list (jsval * list operation)) (ops : list operation) : result (list (jsval * list operation)) :=
  match ops with [] => Ok m | op :: r => m' ← add_op m op; add_ops m' r end.

Definition declared_tags (declared : list jsval) : list (jsval * list operation) :=
  foldl (λ m tag, om_set m (map_get tag "name") []) [] declared.

Definition operationsWithTags (state : jsval) : result (list (jsval * list operation)) :=
  ops ← operationsWithRootInherited state;
  declared ← tags state;
  add_ops (declared_tags declared) ops.

(** * Sorting *)

(** [sort] with a comparison function: stable, entries that compare equal keep their order. *)
Section Sort.
Context {B : Type} (cmp : B → B → Z).
Fixpoint insert_sorted (x : B) (l : list B) : list B :=
  match l with
  | [] => [x]
  | y :: r => if (cmp x y <=? 0)%Z then x :: l else y :: insert_sorted x r
  end.
Definition stable_sort (l : list B) : list B := foldr insert_sorted [] l.
End Sort.

(** [String.prototype.localeCompare]. *)
Class LocaleCompare := localeCompare : string → string → Z.
Class LocaleCompareLaws (L : LocaleCompare) := {
  locale_refl a : localeCompare a a = 0%Z;
  locale_sym a b : (localeCompare a b <= 0 ↔ 0 <= localeCompare b a)%Z;
  locale_trans a b c : (localeCompare a b <= 0 → localeCompare b c <= 0 → localeCompare a c <= 0)%Z
}.

Context `{LocaleCompare}.

(** A sorter of the configuration: a function, or the name of one of [sorters]. *)
Inductive sorter (B : Type) := SFn (f : B → B → Z) | SVal (v : jsval).
#[global] Arguments SFn {B} f.
#[global] Arguments SVal {B} v.

(** [localeCompare] is a method of strings only. *)
Definition compared (keys : list jsval) : result () :=
  match List.find (λ k, match k with JStr _ => false | _ => true end) keys with
  | Some k => if (1 <? length keys)%nat then Throw (not_a_function k "localeCompare") else Ok tt
  | None => Ok tt
  end.

Definition by_text (f : jsval) (g : jsval) : Z := localeCompare (to_string f) (to_string g).

Definition sort_tags (tagsSorter : sorter jsval) (m : list (jsval * list operation)) : result (list (jsval * list operation)) :=
  match tagsSorter with
  | SFn f => Ok (stable_sort (λ a b, f a.1 b.1) m)
  | SVal v => if String.eqb (to_string v) "alpha"
              then _ ← compared (map fst m); Ok (stable_sort (λ a b, by_text a.1 b.1) m)
              else Ok m
  end.

Definition sort_operations (operationsSorter : sorter operation) (ops : list operation) : result (list operation) :=
  match operationsSorter with
  | SFn f => Ok (stable_sort f ops)
  | SVal v => if String.eqb (to_string v) "alpha"
              then _ ← compared (map op_path ops); Ok (stable_sort (λ a b, by_text (op_path a) (op_path b)) ops)
              else if String.eqb (to_string v) "method"
              then Ok (stable_sort (λ a b, localeCompare (op_method a) (op_method b)) ops)
              else Ok ops
  end.

Record tag_entry := TagEntry { te_details : jsval; te_operations : list operation }.

Definition taggedOperations (tagsSorter : sorter jsval) (operationsSorter : sorter operation) (state : jsval)
    : result (list (jsval * tag_entry)) :=
  m ← operationsWithTags state;
  m ← sort_tags tagsSorter m;
  declared ← tags state;
  mapM (λ to_, ops ← sort_operations operationsSorter to_.2; Ok (to_.1, TagEntry (tagDetails declared to_.1) ops)) m.

(** * Filter and limit *)

(** [tag.indexOf(phrase) !== -1]. *)
Definition tag_has (phrase tag : jsval) : result bool :=
  match tag with
  | JStr s => Ok (includes s (to_string phrase))
  | JArr l => Ok (existsb (strict_eq phrase) l)
  | JUndef | JNull => Throw (cannot_read tag "indexOf")
  | _ => Throw (not_a_function tag "indexOf")
  end.

Fixpoint opsFilter {B} (taggedOps : list (jsval * B)) (phrase : jsval) : result (list (jsval * B)) :=
  match taggedOps with
  | [] => Ok []
  | e :: r => b ← tag_has phrase e.1; r' ← opsFilter r phrase; Ok (if (b : bool) then e :: r' else r')
  end.

(** [n | 0]. *)
Definition to_int32 (z : Z) : Z := ((z + 2 ^ 31) mod 2 ^ 32 - 2 ^ 31)%Z.

(** The end index of the slice, if a limit is configured. *)
Definition tag_limit (maxDisplayedTags : jsval) (size : nat) : option nat :=
  match to_number maxDisplayedTags with
  | JNum m e => if truthy maxDisplayedTags && (0 <=? m)%Z
                then let n := to_int32 (m / pow10 e) in
                     Some (Z.to_nat (if (n <? 0)%Z then Z.of_nat size + n else n))
                else None
  | _ => None
  end.

Definition filters (filter : jsval) : bool :=
  truthy filter && negb (strict_eq filter (JBool true) || strict_eq filter (JStr "true") || strict_eq filter (JStr "false")).

(** The selector as the layout plugin wraps it. *)
Definition displayedOperations (tagsSorter : sorter jsval) (operationsSorter : sorter operation)
    (filter maxDisplayedTags : jsval) (state : jsval) : result (list (jsval * tag_entry)) :=
  taggedOps ← taggedOperations tagsSorter operationsSorter state;
  taggedOps ← (if filters filter then opsFilter taggedOps filter else Ok taggedOps);
  Ok (match tag_limit maxDisplayedTags (length taggedOps) with Some n => take n taggedOps | None => taggedOps end).
End Operations.

(** * Lemmas: ordered maps *)

Section OrderedMapLemmas.
Context {A : Type}.
Implicit Types m : list (jsval * A).

Lemma om_get_update m k d f j : om_get (om_update m k d f) j = if decide (j = k) then Some (f (default d (om_get m k))) else om_get m j.
Proof.
  induction m as [|[i x] m IH]; cbn [om_update om_get]; [by repeat case_decide; simplify_eq/=|].
  destruct (decide (i = k)) as [->|Hi]; cbn [om_get]; [by repeat case_decide; simplify_eq/=|].
  rewrite IH. by repeat case_decide; simplify_eq/=.
Qed.

Lemma om_get_elem m k : om_get m k = None ↔ k ∉ map fst m.
Proof.
  induction m as [|[i x] m IH]; cbn [om_get map fst]; [split; [intros _ H; by apply elem_of_nil in H|done]|].
  case_decide; rewrite not_elem_of_cons; naive_solver.
Qed.

Lemma om_get_Some m k x : NoDup (map fst m) → om_get m k = Some x ↔ (k, x) ∈ m.
Proof.
  induction m as [|[i y] m IH]; cbn [om_get map fst]; [intros _; split; [done|intros H; by apply elem_of_nil in H]|].
  intros [Hi Hm]%NoDup_cons. rewrite elem_of_cons. case_decide as Hd.
  - subst. split; [intros [= ->]; by left|]. intros [[= ->]|Hx]; [done|]. destruct Hi. apply (list_elem_of_fmap_2 fst _ _ Hx).
  - rewrite IH by done. naive_solver.
Qed.

Lemma om_update_keys m k d f : map fst (om_update m k d f) = map fst m ++ if decide (k ∈ map fst m) then [] else [k].
Proof.
  induction m as [|[i x] m IH]; cbn [om_update map fst app]; [by rewrite decide_False by apply not_elem_of_nil|].
  destruct (decide (i = k)) as [->|Hi]; cbn [map fst app].
  - rewrite decide_True by left. by rewrite app_nil_r.
  - rewrite IH. do 2 f_equal. apply decide_ext. rewrite elem_of_cons. naive_solver.
Qed.

Lemma om_update_NoDup m k d f : NoDup (map fst m) → NoDup (map fst (om_update m k d f)).
Proof.
  intros Hm. rewrite om_update_keys. case_decide; [by rewrite app_nil_r|].
  apply NoDup_app. split_and!; [done| |apply NoDup_singleton]. intros x Hx ->%list_elem_of_singleton. done.
Qed.
End OrderedMapLemmas.

(** * Lemmas: grouping *)

(** The operation belongs to the tag, by the list of its tags. *)
Definition carries (tag : jsval) (op : operation) : bool :=
  match set_source (map_get (op_operation op) "tags") with
  | Ok [] => bool_decide (tag = DEFAULT_TAG)
  | Ok l => bool_decide (tag ∈ l)
  | _ => false
  end.

Definition tags_of (ts : list jsval) : list jsval := match ts with [] => [DEFAULT_TAG] | _ => ts end.

Section Grouping.
Context `{Set_ : ImmutableSet} {SetLaws : ImmutableSetLaws Set_}.

Lemma add_op_tags m op m' : add_op m op = Ok m' →
  ∃ ts, op_tags op = Ok ts ∧ m' = foldl (push_op op) m (tags_of ts).
Proof. unfold add_op. intros (ts & Ht & [= <-])%result_bind_Ok. exists ts. split; [done|]. by destruct ts. Qed.

Lemma op_tags_carries op ts tag : op_tags op = Ok ts → NoDup (tags_of ts) ∧ (tag ∈ tags_of ts ↔ carries tag op = true).
Proof.
  unfold op_tags, carries. intros (l & Hl & [= <-])%result_bind_Ok. rewrite Hl.
  pose proof (set_values_NoDup l) as Hn. pose proof (set_values_elem l) as He.
  destruct l as [|x l].
  - assert (set_values [] = []) as ->.
    { apply elem_of_nil_inv. intros x. rewrite He. apply not_elem_of_nil. }
    cbn [tags_of]. split; [apply NoDup_singleton|]. by rewrite list_elem_of_singleton, bool_decide_eq_true.
  - assert (set_values (x :: l) ≠ []) as Hne.
    { intros E. specialize (He x). rewrite E in He. by apply (not_elem_of_nil x), He; left. }
    assert (tags_of (set_values (x :: l)) = set_values (x :: l)) as -> by (by destruct (set_values (x :: l))).
    split; [done|]. by rewrite He, bool_decide_eq_true.
Qed.

Lemma push_all op ts m tag : NoDup ts →
  om_get (foldl (push_op op) m ts) tag = if decide (tag ∈ ts) then Some (default [] (om_get m tag) ++ [op]) else om_get m tag.
Proof.
  revert m. induction ts as [|t ts IH]; intros m; [by rewrite decide_False by apply not_elem_of_nil|].
  intros [Ht Hts]%NoDup_cons. cbn [foldl]. rewrite IH by done. unfold push_op. rewrite om_get_update.
  destruct (decide (tag = t)) as [->|Hne].
  - rewrite (decide_False (P := t ∈ ts)), (decide_True (P := t ∈ t :: ts)) by (done || left). done.
  - rewrite (decide_ext (tag ∈ t :: ts) (tag ∈ ts)); [done|]. rewrite elem_of_cons. naive_solver.
Qed.

(** What the groups of [m] become when [ops] are added. *)
Definition grown (o : option (list operation)) (new : list operation) : option (list operation) :=
  match o, new with None, [] => None | _, _ => Some (default [] o ++ new) end.

Lemma add_ops_get ops m m' tag : add_ops m ops = Ok m' →
  om_get m' tag = grown (om_get m tag) (List.filter (carries tag) ops).
Proof.
  revert m. induction ops as [|op ops IH]; intros m; cbn [add_ops].
  - intros [= <-]. cbn. destruct (om_get m tag); cbn; by rewrite ?app_nil_r.
  - intros (m1 & H1 & H2)%result_bind_Ok. rewrite (IH _ H2). apply add_op_tags in H1 as (ts & Ht & ->).
    destruct (op_tags_carries op ts tag Ht) as [Hnd He]. rewrite push_all by done. cbn [List.filter].
    destruct (carries tag op).
    + rewrite decide_True by (by apply He). cbn [grown default]. destruct (om_get m tag); cbn; by rewrite <- ?app_assoc.
    + rewrite decide_False by (rewrite He; done). done.
Qed.

Lemma push_all_keys op ts m : ∃ rest, map fst (foldl (push_op op) m ts) = map fst m ++ rest.
Proof.
  revert m. induction ts as [|t ts IH]; intros m; [exists []; by rewrite app_nil_r|]. cbn [foldl].
  destruct (IH (push_op op m t)) as [rest ->]. unfold push_op. rewrite om_update_keys, <- app_assoc. eauto.
Qed.

Lemma push_all_NoDup op ts m : NoDup (map fst m) → NoDup (map fst (foldl (push_op op) m ts)).
Proof. revert m. induction ts as [|t ts IH]; intros m Hm; [done|]. apply IH. by apply om_update_NoDup. Qed.

Lemma add_ops_keys ops m m' : add_ops m ops = Ok m' →
  (∃ rest, map fst m' = map fst m ++ rest) ∧ (NoDup (map fst m) → NoDup (map fst m')).
Proof.
  revert m. induction ops as [|op ops IH]; intros m; cbn [add_ops].
  - intros [= <-]. split; [exists []; by rewrite app_nil_r|done].
  - intros (m1 & H1 & H2)%result_bind_Ok. apply add_op_tags in H1 as (ts & _ & ->).
    destruct (IH _ H2) as [[rest Hr] Hn]. destruct (push_all_keys op (tags_of ts) m) as [rest' Hr']. split.
    + rewrite Hr, Hr', <- app_assoc. eauto.
    + intros Hm. apply Hn. by apply push_all_NoDup.
Qed.

Definition names (declared : list jsval) : list jsval := map (λ t, map_get t "name") declared.

Lemma declared_tags_spec declared :
  NoDup (map fst (declared_tags declared)) ∧
  ∀ tag, om_get (declared_tags declared) tag = if decide (tag ∈ names declared) then Some [] else None.
Proof.
  unfold declared_tags.
  assert (∀ m, NoDup (map fst m) → (∀ tag x, om_get m tag = Some x → x = []) →
    let m' := foldl (λ m tag, om_set m (map_get tag "name") []) m declared in
    NoDup (map fst m') ∧
    ∀ tag, om_get m' tag = if decide (tag ∈ names declared) then Some ([] : list operation) else om_get m tag) as Hgen.
  { induction declared as [|t l IH]; intros m Hm Hx; [split; [done|]; intros tag; by rewrite decide_False by apply not_elem_of_nil|].
    cbn [foldl names map]. destruct (IH (om_set m (map_get t "name") [])) as [H1 H2].
    - by apply om_update_NoDup.
    - intros tag x. unfold om_set. rewrite om_get_update. case_decide; [by intros [= <-]|apply Hx].
    - split; [done|]. intros tag. rewrite H2. unfold om_set. rewrite om_get_update. fold (names l).
      destruct (decide (tag ∈ names l)); [by rewrite decide_True by (by right)|].
      destruct (decide (tag = map_get t "name")) as [->|]; [by rewrite decide_True by left|].
      rewrite decide_False; [done|]. by apply not_elem_of_cons. }
  destruct (Hgen []) as [H1 H2]; [constructor|done|]. split; [done|]. intros tag. by rewrite H2.
Qed.

Lemma operationsWithTags_spec state ops declared m :
  operationsWithRootInherited state = Ok ops → tags state = Ok declared → operationsWithTags state = Ok m →
  NoDup (map fst m) ∧ (∃ rest, map fst m = map fst (declared_tags declared) ++ rest) ∧
  ∀ tag, om_get m tag = if bool_decide (tag ∈ names declared) || existsb (carries tag) ops
                        then Some (List.filter (carries tag) ops) else None.
Proof.
  intros Ho Hd. unfold operationsWithTags. rewrite Ho, Hd, !ok_bind. intros Hm.
  destruct (add_ops_keys _ _ _ Hm) as [Hr Hn], (declared_tags_spec declared) as [Hnd Hg].
  split_and!; [by apply Hn|done|]. intros tag. rewrite (add_ops_get _ _ _ _ Hm), Hg.
  destruct (decide (tag ∈ names declared)) as [Hin|Hin].
  - rewrite bool_decide_eq_true_2 by done. done.
  - rewrite bool_decide_eq_false_2 by done. cbn [orb grown default].
    clear. induction ops as [|op ops IH]; [done|]. cbn [List.filter existsb]. by destruct (carries tag op).
Qed.

(** ** The operations with what they inherit *)

Definition place (op : operation) : jsval * string := (op_path op, op_method op).

Lemma inherit_other key inherited fs fs' k : inherit key inherited fs = Ok fs' → k ≠ key → assoc fs' k = assoc fs k.
Proof.
  unfold inherit. cbv zeta. destruct (truthy _); [by intros [= <-]|]. intros (own_ & _ & [= <-])%result_bind_Ok Hk.
  by rewrite assoc_oset_ne.
Qed.

Definition same_op (op op' : operation) : Prop :=
  place op' = place op ∧ map_get (op_operation op') "tags" = map_get (op_operation op) "tags".

Lemma same_op_carries op op' tag : same_op op op' → carries tag op' = carries tag op.
Proof. intros [_ H]. unfold carries. by rewrite H. Qed.

Lemma root_inherited_same consumes produces op op' : root_inherited consumes produces op = Ok op' → same_op op op'.
Proof.
  unfold root_inherited, same_op. destruct (op_operation op) as [| |b| | |s|l|fs|] eqn:E.
  all: try (intros [= <-]; split; [done|]; cbn [op_operation truthy];
            first [done | match goal with |- context [if ?b then JUndef else _] => by destruct b end]).
  intros (fs1 & H1 & (fs2 & H2 & [= <-])%result_bind_Ok)%result_bind_Ok. split; [done|].
  cbn [op_operation map_get]. by rewrite (inherit_other _ _ _ _ "tags" H2), (inherit_other _ _ _ _ "tags" H1).
Qed.

Lemma carries_places tag ops ops' : Forall2 same_op ops ops' →
  map place (List.filter (carries tag) ops') = map place (List.filter (carries tag) ops) ∧
  existsb (carries tag) ops' = existsb (carries tag) ops.
Proof.
  induction 1 as [|o o' ops ops' Hs _ [IH1 IH2]]; [done|]. cbn [List.filter existsb].
  rewrite (same_op_carries _ _ tag Hs), IH2. destruct Hs as [Hp _].
  destruct (carries tag o); cbn [map]; by rewrite ?Hp, ?IH1.
Qed.
End Grouping.

(** * Lemmas: sorting *)

Section SortLemmas.
Context {B : Type} (cmp : B → B → Z).

Lemma insert_sorted_perm x l : insert_sorted cmp x l ≡ₚ x :: l.
Proof.
  induction l as [|y l IH]; [done|]. cbn [insert_sorted]. destruct (_ <=? _)%Z; [done|]. rewrite IH. constructor.
Qed.

Lemma stable_sort_perm l : stable_sort cmp l ≡ₚ l.
Proof. induction l as [|x l IH]; [done|]. cbn [stable_sort foldr]. fold (stable_sort cmp l). by rewrite insert_sorted_perm, IH. Qed.

Context (cmp_sym : ∀ a b, (cmp a b <= 0 ↔ 0 <= cmp b a)%Z)
        (cmp_trans : ∀ a b c, (cmp a b <= 0 → cmp b c <= 0 → cmp a c <= 0)%Z).

Definition cmp_le (a b : B) : Prop := (cmp a b <= 0)%Z.

Lemma insert_sorted_sorted x l : StronglySorted cmp_le l → StronglySorted cmp_le (insert_sorted cmp x l).
Proof.
  induction 1 as [|y l Hs IH Hy]; [by repeat constructor|]. cbn [insert_sorted].
  destruct (Z.leb_spec (cmp x y) 0) as [Hc|Hc].
  - constructor; [by constructor|]. constructor; [done|]. eapply Forall_impl; [exact Hy|]. intros z Hz. by eapply cmp_trans.
  - constructor; [done|]. rewrite insert_sorted_perm. constructor; [|done]. unfold cmp_le. apply cmp_sym. lia.
Qed.

Lemma stable_sort_sorted l : StronglySorted cmp_le (stable_sort cmp l).
Proof. induction l as [|x l IH]; [constructor|]. by apply insert_sorted_sorted. Qed.

(** Entries that compare equal keep their order. *)
Lemma insert_sorted_stable a x l : StronglySorted cmp_le l →
  List.filter (λ y, (cmp a y =? 0)%Z) (insert_sorted cmp x l) = List.filter (λ y, (cmp a y =? 0)%Z) (x :: l).
Proof.
  induction 1 as [|y l Hs IH Hy]; [done|]. cbn [insert_sorted]. destruct (Z.leb_spec (cmp x y) 0) as [Hc|Hc]; [done|].
  cbn [List.filter] in *. rewrite IH.
  destruct (Z.eqb_spec (cmp a x) 0) as [Hx|Hx], (Z.eqb_spec (cmp a y) 0) as [Hy'|Hy']; try done.
  exfalso. assert (cmp x y <= 0)%Z; [|lia]. apply (cmp_trans _ a); [|lia]. apply cmp_sym. lia.
Qed.

Lemma stable_sort_stable a l :
  List.filter (λ y, (cmp a y =? 0)%Z) (stable_sort cmp l) = List.filter (λ y, (cmp a y =? 0)%Z) l.
Proof.
  induction l as [|x l IH]; [done|]. cbn [stable_sort foldr]. fold (stable_sort cmp l).
  rewrite insert_sorted_stable by apply stable_sort_sorted. cbn [List.filter]. by rewrite IH.
Qed.
End SortLemmas.

(** * The displayed operations *)

Definition is_str (v : jsval) : bool := match v with JStr _ => true | _ => false end.

(** Absent, or a list whose elements satisfy [p]. *)
Definition list_or_absent (p : jsval → bool) (v : jsval) : bool :=
  match v with JUndef => true | JArr l => forallb p l | _ => false end.

Definition operation_ok (op : operation) : bool :=
  is_map_value (op_operation op) && list_or_absent (λ _, true) (map_get (op_operation op) "consumes") &&
  list_or_absent (λ _, true) (map_get (op_operation op) "produces") && list_or_absent is_str (map_get (op_operation op) "tags").

(** Definitions whose lists are lists and whose tags have names. *)
Definition definition_ok (state spec : jsval) : bool :=
  is_map_value (specJson state) && list_or_absent (λ _, true) (map_get (specJson state) "consumes") &&
  list_or_absent (λ _, true) (map_get (specJson state) "produces") && is_map_value (map_get spec "paths") &&
  forallb operation_ok (operations (map_get spec "paths")) &&
  match tags state with Ok declared => forallb is_str (names declared) | _ => false end.

Lemma set_source_list p v : list_or_absent p v = true → ∃ l, set_source v = Ok l ∧ forallb p l = true.
Proof. destruct v; try done; intros H; eexists; split; try reflexivity; done. Qed.

Section Displayed.
Context `{Set_ : ImmutableSet} {SetLaws : ImmutableSetLaws Set_} `{Loc : LocaleCompare}.

Lemma inherit_ok key inherited fs : list_or_absent (λ _, true) (map_get (JObj fs) key) = true → ∃ fs', inherit key inherited fs = Ok fs'.
Proof.
  intros (l & Hl & _)%set_source_list. unfold inherit. cbv zeta. cbn [map_get] in Hl. destruct (truthy _); [eauto|].
  rewrite Hl, ok_bind. eauto.
Qed.

Lemma root_inherited_ok c p op : operation_ok op = true → ∃ op', root_inherited c p op = Ok op'.
Proof.
  unfold operation_ok, root_inherited. destruct (op_operation op) as [| | | | | | |fs|] eqn:E; try done.
  rewrite !andb_true_iff. intros [[[_ Hc] Hp] _]. destruct (inherit_ok "consumes" c fs Hc) as [fs1 H1]. rewrite H1, ok_bind.
  destruct (inherit_ok "produces" p fs1) as [fs2 H2].
  { cbn [map_get] in *. by rewrite (inherit_other _ _ _ _ "produces" H1). }
  rewrite H2, ok_bind. eauto.
Qed.

Lemma inherited_ops state spec : specJsonWithResolvedSubtrees state = Ok spec → definition_ok state spec = true →
  ∃ ops, operationsWithRootInherited state = Ok ops ∧
    Forall2 same_op (operations (map_get spec "paths")) ops.
Proof.
  intros Hs. unfold definition_ok. rewrite !andb_true_iff. intros [[[[[Hj Hc] Hp] _] Ho] _].
  unfold operationsWithRootInherited. rewrite Hs, ok_bind.
  destruct (specJson state) as [| | | | | | |fs|] eqn:E; try done.
  apply set_source_list in Hc as (lc & Hc & _), Hp as (lp & Hp & _). cbn [map_get method_get] in *.
  rewrite !ok_bind, Hc, !ok_bind, Hp, ok_bind.
  destruct (mapM_exists (root_inherited (set_values lc) (set_values lp)) (operations (map_get spec "paths"))) as [ops Hops].
  { apply Forall_forall. intros op Hin. apply root_inherited_ok. apply list_elem_of_In in Hin.
    by apply (proj1 (forallb_forall _ _) Ho). }
  exists ops. split; [exact Hops|]. apply result_mapM in Hops. eapply Forall2_impl; [exact Hops|].
  intros o o' Hoo. exact (root_inherited_same _ _ _ _ Hoo).
Qed.

Lemma add_ops_ok ops m : Forall (λ op, ∃ ts, op_tags op = Ok ts) ops → ∃ m', add_ops m ops = Ok m'.
Proof.
  intros H. revert m. induction H as [|op ops [ts Ht] _ IH]; intros m; [by exists m|]. cbn [add_ops]. unfold add_op.
  rewrite Ht, !ok_bind. apply IH.
Qed.

Lemma compared_ok keys : forallb is_str keys = true → compared keys = Ok tt.
Proof.
  intros Hk. unfold compared. destruct (List.find _ _) as [k|] eqn:E; [|done]. apply List.find_some in E as [Hin Hf].
  apply (proj1 (forallb_forall _ _) Hk) in Hin. by destruct k.
Qed.

Lemma sort_tags_ok ts m : forallb is_str (map fst m) = true → ∃ m', sort_tags ts m = Ok m' ∧ m' ≡ₚ m.
Proof.
  intros Hk. unfold sort_tags. destruct ts as [f|v]; [eexists; split; [reflexivity|apply stable_sort_perm]|].
  destruct (String.eqb _ _); [|eauto]. rewrite compared_ok, ok_bind by done. eexists. split; [reflexivity|apply stable_sort_perm].
Qed.

Lemma sort_operations_ok os ops : forallb is_str (map op_path ops) = true → ∃ ops', sort_operations os ops = Ok ops' ∧ ops' ≡ₚ ops.
Proof.
  intros Hk. unfold sort_operations. destruct os as [f|v]; [eexists; split; [reflexivity|apply stable_sort_perm]|].
  destruct (String.eqb _ _); [|destruct (String.eqb _ _)].
  - rewrite compared_ok, ok_bind by done. eexists. split; [reflexivity|apply stable_sort_perm].
  - eexists. split; [reflexivity|apply stable_sort_perm].
  - eauto.
Qed.

Lemma carries_str op tag : operation_ok op = true → carries tag op = true → is_str tag = true.
Proof.
  unfold operation_ok, carries. rewrite !andb_true_iff. intros [_ (l & -> & Hl)%set_source_list].
  destruct l as [|x l]; [by intros ->%bool_decide_eq_true|]. intros Hin%bool_decide_eq_true%list_elem_of_In.
  by apply (proj1 (forallb_forall _ _) Hl).
Qed.

Lemma op_path_str paths op : is_map_value paths = true → op ∈ operations paths → is_str (op_path op) = true.
Proof.
  destruct paths as [| | | | | | |fs|]; try done. intros _. unfold operations. cbn [each].
  intros ([k v] & Hop & Hkv)%list_elem_of_bind. apply list_elem_of_fmap in Hkv as ([k' v'] & [= -> ->] & _).
  unfold path_operations in Hop. apply list_elem_of_omap in Hop as ([m o] & _ & Ho). cbn [fst snd] in Ho.
  destruct m; try done. case_bool_decide; by simplify_eq.
Qed.

Lemma grouped_ok state spec : specJsonWithResolvedSubtrees state = Ok spec → definition_ok state spec = true →
  let ops := operations (map_get spec "paths") in
  ∃ declared m, tags state = Ok declared ∧ operationsWithTags state = Ok m ∧ NoDup (map fst m) ∧
    forallb is_str (map fst m) = true ∧
    (∀ tag, tag ∈ map fst m ↔ tag ∈ names declared ∨ ∃ op, op ∈ ops ∧ carries tag op = true) ∧
    (∀ tag x, (tag, x) ∈ m → forallb is_str (map op_path x) = true ∧ map place x = map place (List.filter (carries tag) ops)).
Proof.
  intros Hs Hok ops. destruct (inherited_ops state spec Hs Hok) as (ops' & Ho & Hf).
  unfold definition_ok in Hok. rewrite !andb_true_iff in Hok. destruct Hok as [[[_ Hp] Hops] Ht].
  fold ops in Hf, Hops. destruct (tags state) as [declared| |] eqn:Ed; try done.
  destruct (add_ops_ok ops' (declared_tags declared)) as [m Hm].
  { apply Forall_forall. intros o' Hin. apply list_elem_of_lookup_1 in Hin as [i Hi].
    destruct (Forall2_lookup_r _ _ _ _ _ Hf Hi) as (o & Hoi & [_ Htag]). apply list_elem_of_lookup_2, list_elem_of_In in Hoi.
    apply (proj1 (forallb_forall _ _) Hops) in Hoi. unfold operation_ok in Hoi. rewrite !andb_true_iff in Hoi.
    destruct Hoi as [_ (l & Hl & _)%set_source_list]. unfold op_tags. rewrite Htag, Hl, ok_bind. eauto. }
  assert (operationsWithTags state = Ok m) as Hw by (unfold operationsWithTags; by rewrite Ho, Ed, !ok_bind).
  destruct (operationsWithTags_spec _ _ _ _ Ho Ed Hw) as (Hnd & _ & Hg).
  assert (∀ tag, tag ∈ map fst m ↔ tag ∈ names declared ∨ ∃ op, op ∈ ops ∧ carries tag op = true) as Hk.
  { intros tag. specialize (Hg tag). rewrite (proj2 (carries_places tag _ _ Hf)) in Hg.
    assert (om_get m tag = None ↔ tag ∉ map fst m) as Hn by apply om_get_elem.
    assert (existsb (carries tag) ops = true ↔ ∃ op, op ∈ ops ∧ carries tag op = true) as He.
    { rewrite existsb_exists. split; intros (o & Hin & ?); exists o; split; try done; by apply list_elem_of_In. }
    destruct (decide (tag ∈ map fst m)) as [Hin|Hin].
    - split; [intros _|done]. destruct (bool_decide _) eqn:Eb; [left; by apply bool_decide_eq_true in Eb|right].
      apply He. destruct (existsb _ _); [done|]. by apply Hn in Hg.
    - split; [done|]. apply Hn in Hin. rewrite Hin in Hg. destruct (_ || _) eqn:Eb; [done|].
      apply orb_false_iff in Eb as [E1%bool_decide_eq_false E2]. intros [?|He']; [done|]. apply He in He'. congruence. }
  exists declared, m. split_and!; [done|done|done| |done|].
  - apply forallb_forall. intros tag Hin%list_elem_of_In%Hk. destruct Hin as [Hin|(op & Hin & Hc)].
    + apply list_elem_of_In in Hin. by apply (proj1 (forallb_forall _ _) Ht).
    + eapply carries_str; [|exact Hc]. apply list_elem_of_In in Hin. by apply (proj1 (forallb_forall _ _) Hops).
  - intros tag x Hin. apply om_get_Some in Hin; [|done]. rewrite Hg in Hin. destruct (_ || _); [|done].
    injection Hin as <-. split; [|apply (proj1 (carries_places tag _ _ Hf))]. apply forallb_forall.
    intros p (o' & <- & [Hin _]%filter_In)%in_map_iff. apply list_elem_of_In, list_elem_of_lookup_1 in Hin as [i Hi].
    destruct (Forall2_lookup_r _ _ _ _ _ Hf Hi) as (o & Hoi & [Hpl _]). apply list_elem_of_lookup_2 in Hoi.
    injection Hpl as -> _. by eapply op_path_str.
Qed.

Lemma tagged_operations_ok state spec ts os :
  specJsonWithResolvedSubtrees state = Ok spec → definition_ok state spec = true →
  let ops := operations (map_get spec "paths") in
  ∃ declared shown, tags state = Ok declared ∧ taggedOperations ts os state = Ok shown ∧ NoDup (map fst shown) ∧
    forallb is_str (map fst shown) = true ∧
    (∀ tag, tag ∈ map fst shown ↔ tag ∈ names declared ∨ ∃ op, op ∈ ops ∧ carries tag op = true) ∧
    ∀ tag e, (tag, e) ∈ shown → map place (te_operations e) ≡ₚ map place (List.filter (carries tag) ops).
Proof.
  intros Hs Hok ops. destruct (grouped_ok state spec Hs Hok) as (declared & m & Ed & Hm & Hnd & Hstr & Hk & Hx).
  fold ops in Hk, Hx. destruct (sort_tags_ok ts m Hstr) as (m' & Hm' & Hp).
  set (entry_of := λ to_ : jsval * list operation, (ops ← sort_operations os to_.2; Ok (to_.1, TagEntry (tagDetails declared to_.1) ops))).
  destruct (mapM_exists entry_of m') as [shown Hsh].
  { apply Forall_forall. intros [tag x] Hin. rewrite Hp in Hin. destruct (Hx tag x Hin) as [Hstr' _].
    destruct (sort_operations_ok os x Hstr') as (x' & Hx' & _). unfold entry_of. cbn [fst snd]. rewrite Hx', ok_bind. eauto. }
  exists declared, shown. assert (taggedOperations ts os state = Ok shown) as Htg.
  { unfold taggedOperations. rewrite Hm, ok_bind, Hm', ok_bind, Ed, ok_bind. exact Hsh. }
  apply result_mapM in Hsh. assert (map fst shown = map fst m') as Hkeys.
  { clear -Hsh. induction Hsh as [|a b l k Hab _ IH]; [done|]. cbn [map]. rewrite IH. f_equal.
    unfold entry_of in Hab. by apply result_bind_Ok in Hab as (? & _ & [= <-]). }
  split_and!; [done|done| | | |].
  - rewrite Hkeys, Hp. done.
  - rewrite Hkeys. apply forallb_forall. intros t Ht. apply (proj1 (forallb_forall _ _) Hstr).
    apply list_elem_of_In. rewrite <- Hp. by apply list_elem_of_In.
  - intros tag. rewrite Hkeys, Hp. apply Hk.
  - intros tag e Hin. apply list_elem_of_lookup_1 in Hin as [i Hi].
    destruct (Forall2_lookup_r _ _ _ _ _ Hsh Hi) as ([tag' x] & Hoi & Hab). apply list_elem_of_lookup_2 in Hoi. rewrite Hp in Hoi.
    unfold entry_of in Hab. apply result_bind_Ok in Hab as (x' & Hx' & [= <- <-]). cbn [te_operations fst snd] in *.
    destruct (Hx _ _ Hoi) as [Hstr' <-]. destruct (sort_operations_ok os x Hstr') as (y & Hy & Hperm). assert (y = x') as -> by congruence.
    by apply Permutation_map.
Qed.

(** C6: for every definition whose lists are lists, whatever the sorters, the list of operations is
    produced; each tag appears once, namely the declared ones and those of the operations; under a
    tag are exactly the operations that carry it, each once, and an operation without tags is under
    the default tag. *)
Theorem operations_displayed state spec ts os :
  specJsonWithResolvedSubtrees state = Ok spec → definition_ok state spec = true →
  let ops := operations (map_get spec "paths") in
  ∃ declared shown, tags state = Ok declared ∧ taggedOperations ts os state = Ok shown ∧ NoDup (map fst shown) ∧
    (∀ tag, tag ∈ map fst shown ↔ tag ∈ names declared ∨ ∃ op, op ∈ ops ∧ carries tag op = true) ∧
    ∀ tag e, (tag, e) ∈ shown → map place (te_operations e) ≡ₚ map place (List.filter (carries tag) ops).
Proof.
  intros Hs Hok. destruct (tagged_operations_ok state spec ts os Hs Hok) as (d & shown & H1 & H2 & H3 & _ & H4 & H5).
  by exists d, shown.
Qed.
End Displayed.

(** * Order *)

Section Order.
Context `{Loc : LocaleCompare} {LocLaws : LocaleCompareLaws Loc}.

(** The text by which a named sorter compares operations. *)
Definition sort_key (name : string) : option (operation → string) :=
  if String.eqb name "alpha" then Some (λ op, to_string (op_path op))
  else if String.eqb name "method" then Some op_method else None.

(** Sorting operations by path or by method reorders them so that the texts ascend in the
    order of the locale, and operations whose texts compare equal keep the order of the
    definition; these three facts determine the result. *)
Theorem operations_sorted name key ops ops' : sort_key name = Some key →
  sort_operations (SVal (JStr name)) ops = Ok ops' →
  ops' ≡ₚ ops ∧ StronglySorted (λ a b, localeCompare (key a) (key b) <= 0)%Z ops' ∧
  ∀ a, List.filter (λ b, (localeCompare (key a) (key b) =? 0)%Z) ops' = List.filter (λ b, (localeCompare (key a) (key b) =? 0)%Z) ops.
Proof.
  intros Hk Hs. assert (ops' = stable_sort (λ a b, localeCompare (key a) (key b)) ops) as ->.
  { revert Hk Hs. unfold sort_key, sort_operations. cbn [to_string]. destruct (String.eqb name "alpha").
    - intros [= <-] (_ & _ & [= <-])%result_bind_Ok. done.
    - destruct (String.eqb name "method"); [|done]. by intros [= <-] [= <-]. }
  split_and!; [apply stable_sort_perm| |].
  - apply stable_sort_sorted; intros; [apply locale_sym|by eapply locale_trans].
  - intros a. apply (stable_sort_stable (λ a b, localeCompare (key a) (key b))); intros; [apply locale_sym|by eapply locale_trans].
Qed.
End Order.

(** * Identity of operations *)

Lemma method_no_dash method r : method ∈ OPERATION_METHODS → split_aux "-" 0 "" (method +:+ "-" +:+ r) = method :: split_aux "-" 0 "" r.
Proof.
  intros H. change ("-" +:+ r) with (String (ch 45) r). change "-" with (String (ch 45) ""). rewrite split_aux_app1.
  replace (split_aux (String (ch 45) "") 0 "" method) with [method]; [done|].
  unfold OPERATION_METHODS in H. rewrite !elem_of_cons in H. by repeat destruct H as [->|H]; [..|apply elem_of_nil in H].
Qed.

Lemma op_id_inj o o' : op_method o ∈ OPERATION_METHODS → op_method o' ∈ OPERATION_METHODS → is_str (op_path o) = true →
  is_str (op_path o') = true → op_id o = op_id o' → place o = place o'.
Proof.
  unfold op_id, place. intros H H' Hp Hp' E. destruct (op_path o), (op_path o'); try done. cbn [to_string] in E.
  pose proof (f_equal (split_aux "-" 0 "") E) as Es. rewrite !method_no_dash in Es by done. injection Es as Em _.
  rewrite Em in E. apply sapp_inv_head in E. change ("-" +:+ ?x) with (String (ch 45) x) in E. injection E as E. by rewrite Em, E.
Qed.

Lemma path_operations_elem pp op : op ∈ path_operations pp →
  op_path op = pp.1 ∧ op_method op ∈ OPERATION_METHODS ∧ ∃ ms, pp.2 = JObj ms ∧ (op_method op, op_operation op) ∈ ms.
Proof.
  unfold path_operations. intros ([m o] & Hin & Ho)%list_elem_of_omap. cbn [fst snd] in Ho. destruct m; try done.
  case_bool_decide; [|done]. injection Ho as <-. cbn. split_and!; [done|done|]. destruct (pp.2) as [| | | | | |l|ms|]; cbn [each] in Hin.
  all: try (by apply elem_of_nil in Hin).
  - apply elem_of_lookup_imap in Hin as (i & x & [=] & _).
  - apply list_elem_of_fmap in Hin as ([k v] & [= <- <-] & Hin). eauto.
Qed.

Definition distinct_paths (paths : jsval) : bool :=
  match paths with
  | JObj fs => distinct_keys fs && forallb (λ kv, match kv.2 with JObj ms => distinct_keys ms | _ => true end) fs
  | _ => false
  end.

Lemma path_operations_cons k m o ms : path_operations (JStr k, JObj ((m, o) :: ms)) =
  (if bool_decide (m ∈ OPERATION_METHODS) then [Op (JStr k) m o] else []) ++ path_operations (JStr k, JObj ms).
Proof. unfold path_operations. cbn [fst snd each map omap list_omap]. by destruct (bool_decide _). Qed.

Lemma path_ids_NoDup k v : match v with JObj ms => distinct_keys ms | _ => true end = true →
  NoDup (map op_id (path_operations (JStr k, v))).
Proof.
  destruct v as [| | | | | |l|ms|]; try (intros _; constructor).
  - intros _. replace (path_operations (JStr k, JArr l)) with (@nil operation); [constructor|]. symmetry.
    apply elem_of_nil_inv. intros op (_ & _ & ms & [=] & _)%path_operations_elem.
  - intros Hd%bool_decide_eq_true. induction ms as [|[m o] ms IH]; [constructor|]. cbn [map fst] in Hd. apply NoDup_cons in Hd as [Hm Hd].
    rewrite path_operations_cons. case_bool_decide as Hin; [|by apply IH]. cbn [app map]. constructor; [|by apply IH].
    intros (o' & E & Ho')%list_elem_of_fmap. apply path_operations_elem in Ho' as (Hp & Hm' & ms' & [= <-] & Hx).
    cbn [fst] in Hp. apply op_id_inj in E; [|done|done|done|by rewrite Hp]. injection E as _ Em.
    destruct Hm. apply list_elem_of_fmap. exists (op_method o', op_operation o'). by split.
Qed.

(** The identifiers of the operations of a definition are distinct: no two operations of the
    list have the same method and path. *)
Theorem operation_ids_distinct paths : distinct_paths paths = true → NoDup (map op_id (operations paths)).
Proof.
  destruct paths as [| | | | | | |fs|]; try done. cbn [distinct_paths]. rewrite andb_true_iff. intros [Hf%bool_decide_eq_true Hv].
  unfold operations. replace (map op_id (each (JObj fs) ≫= path_operations))
    with (each (JObj fs) ≫= (λ pp, map op_id (path_operations pp))).
  2: { generalize (each (JObj fs)). intros l. induction l as [|x l IH]; [done|]. rewrite !bind_cons, map_app. by rewrite IH. }
  apply NoDup_bind.
  - intros x1 x2 y H1 H2 (o1 & -> & Ho1)%list_elem_of_fmap (o2 & E & Ho2)%list_elem_of_fmap.
    apply list_elem_of_fmap in H1 as ([k1 v1] & -> & H1), H2 as ([k2 v2] & -> & H2). cbn [fst snd] in *.
    apply path_operations_elem in Ho1 as (Hp1 & Hm1 & _), Ho2 as (Hp2 & Hm2 & _). cbn [fst] in *.
    apply op_id_inj in E; [|done|done|by rewrite Hp1|by rewrite Hp2]. injection E as E _. rewrite Hp1, Hp2 in E. injection E as ->.
    assert ((k2, v1) = (k2, v2)) as [= ->] by (by apply (NoDup_map_inj fst fs)). done.
  - intros x Hx. apply list_elem_of_fmap in Hx as ([k v] & -> & Hx). apply path_ids_NoDup.
    apply list_elem_of_In in Hx. by apply (proj1 (forallb_forall _ _) Hv) in Hx.
  - cbn [each]. apply (NoDup_fmap_2_strong (λ kv : string * jsval, (JStr kv.1, kv.2))); [|by apply NoDup_fmap_1 in Hf].
    intros [k v] [k' v'] _ _ [= -> ->]. done.
Qed.

(** * Filter and limit *)

Lemma opsFilter_ok {B} (l : list (jsval * B)) phrase : forallb is_str (map fst l) = true →
  opsFilter l phrase = Ok (List.filter (λ e, includes (to_string e.1) (to_string phrase)) l).
Proof.
  induction l as [|[t e] l IH]; [done|]. cbn [map fst forallb]. rewrite andb_true_iff. intros [Ht Hl].
  cbn [opsFilter List.filter fst]. destruct t; try done. cbn [tag_has to_string]. rewrite ok_bind, IH, ok_bind by done.
  by destruct (includes _ _).
Qed.

Section Limit.
Context `{Set_ : ImmutableSet} {SetLaws : ImmutableSetLaws Set_} `{Loc : LocaleCompare}.

(** C23: a filter keeps exactly the tags whose name contains the phrase, with all their operations
    and in the same order, and a limit n from 1 to 2^31 - 1 shows exactly the first n of them, all of them
    when there are not more. The phrase is one that filters (not empty and not the text true or false), and
    the definition one whose operations can be grouped. *)
Theorem filter_and_limit state spec ts os phrase n :
  specJsonWithResolvedSubtrees state = Ok spec → definition_ok state spec = true → filters (JStr phrase) = true →
  (0 < n < 2 ^ 31)%Z →
  ∃ all, taggedOperations ts os state = Ok all ∧
    displayedOperations ts os (JStr phrase) (JInt n) state =
      Ok (take (Z.to_nat n) (List.filter (λ e, includes (to_string e.1) phrase) all)).
Proof.
  intros Hsp Hok Hf Hn. destruct (tagged_operations_ok state spec ts os Hsp Hok) as (d & all & _ & Ha & _ & Hs & _).
  set (l := List.filter (λ e, includes (to_string e.1) phrase) all). exists all. fold l.
  assert (tag_limit (JInt n) (length l) = Some (Z.to_nat n)) as Hl.
  { unfold tag_limit. cbn [to_number truthy]. destruct (Z.eqb_spec n 0); [lia|]. destruct (Z.leb_spec 0 n); [|lia]. cbn [negb andb].
    change (pow10 0) with 1%Z. rewrite Z.div_1_r. unfold to_int32. rewrite Z.mod_small by lia.
    destruct (Z.ltb_spec (n + 2 ^ 31 - 2 ^ 31) 0); [lia|]. do 2 f_equal. lia. }
  split; [done|]. unfold displayedOperations. rewrite Ha, ok_bind, Hf, opsFilter_ok, ok_bind by done. cbn [to_string]. fold l.
  by rewrite Hl.
Qed.
End Limit.

(** * Witnesses and examples *)

#[export] Instance set_insertion : ImmutableSet := remove_dups.
#[export] Instance set_insertion_laws : ImmutableSetLaws set_insertion.
Proof. split; [apply NoDup_remove_dups|intros; apply elem_of_remove_dups]. Qed.

(** A comparison by the first letter. *)
Definition first_letter (s : string) : Z := match s with String c _ => Z.of_N (code c) | EmptyString => 0 end.
#[export] Instance locale_first : LocaleCompare := λ a b, (first_letter a - first_letter b)%Z.
#[export] Instance locale_first_laws : LocaleCompareLaws locale_first.
Proof. split; unfold localeCompare, locale_first; intros; lia. Qed.

Definition op_value (tags : list string) : jsval := JObj [("tags", JArr (map JStr tags)); ("responses", JObj [])].

Definition keb_state : jsval := JObj [("json", JObj [
  ("openapi", JStr "3.0.0");
  ("tags", JArr [JObj [("name", JStr "Orchestrations"); ("description", JStr "upgrades")]]);
  ("paths", JObj [
    ("/upgrade/kyma", JObj [("parameters", JArr []); ("post", op_value ["Orchestrations"])]);
    ("/runtimes", JObj [("get", op_value ["Runtimes"; "Runtimes"]); ("head", JObj [])]);
    ("/orchestrations", JObj [("get", op_value ["Orchestrations"; "Runtimes"])])])])].

Definition keb_spec : jsval :=
  match specJsonWithResolvedSubtrees keb_state with Ok s => s | _ => JUndef end.

Lemma operations_displayed_witness : ∃ declared shown, tags keb_state = Ok declared ∧
  taggedOperations (SVal (JStr "alpha")) (SVal (JStr "method")) keb_state = Ok shown ∧ NoDup (map fst shown).
Proof.
  destruct (operations_displayed keb_state keb_spec (SVal (JStr "alpha")) (SVal (JStr "method")) eq_refl eq_refl)
    as (d & s & H1 & H2 & H3 & _). by exists d, s.
Defined.

Lemma operations_sorted_witness :
  let ops := operations (map_get keb_spec "paths") in
  stable_sort (λ a b, localeCompare (to_string (op_path a)) (to_string (op_path b))) ops ≡ₚ ops.
Proof.
  exact (proj1 (operations_sorted "alpha" (λ op, to_string (op_path op)) (operations (map_get keb_spec "paths")) _ eq_refl eq_refl)).
Defined.

Lemma operation_ids_distinct_witness : NoDup (map op_id (operations (map_get keb_spec "paths"))).
Proof. exact (operation_ids_distinct (map_get keb_spec "paths") eq_refl). Defined.

(** Two of the three tags contain the letter u; the first of them is shown. *)
Lemma filter_and_limit_witness : ∃ all,
  taggedOperations (SVal JUndef) (SVal JUndef) keb_state = Ok all ∧
  displayedOperations (SVal JUndef) (SVal JUndef) (JStr "u") (JInt 1) keb_state =
    Ok (take 1 (List.filter (λ e, includes (to_string e.1) "u") all)) ∧
  length (List.filter (λ e, includes (to_string e.1) "u") all) = 2.
Proof.
  destruct (filter_and_limit keb_state keb_spec (SVal JUndef) (SVal JUndef) "u" 1 eq_refl eq_refl eq_refl ltac:(lia)) as (a & H1 & H2).
  exists a. split_and!; [done|done|]. revert H1. vm_compute. by intros [= <-].
Defined.

(** The groups of the example, with the operation without tags under the default tag. *)
Example keb_groups :
  match taggedOperations (SVal (JStr "alpha")) (SVal JUndef) keb_state with
  | Ok l => map (λ e, (e.1, map op_id (te_operations e.2))) l
  | _ => []
  end = [(JStr "Orchestrations", ["post-/upgrade/kyma"; "get-/orchestrations"]);
         (JStr "Runtimes", ["get-/runtimes"; "get-/orchestrations"]); (JStr "default", ["head-/runtimes"])].
Proof. vm_compute. reflexivity. Qed.

(** A limit of zero shows everything, one of 2^32 nothing. *)
Example limits :
  let shown limit := match displayedOperations (SVal JUndef) (SVal JUndef) (JBool false) limit keb_state with
                     | Ok l => length l | _ => 99 end in
  (shown (JInt 0), shown (JInt 2), shown (JStr "2"), shown (JStr "many"), shown (JInt (2 ^ 32))) = (3, 2, 2, 3, 0).
Proof. vm_compute. reflexivity. Qed.
