(* ===== verification/SwRequest.v ===== *)
(** Swagger UI, sending a request and its answer: [execute] and [executeRequest] of
    core/plugins/spec/actions.js with the selectors they use (core/plugins/spec/selectors.js,
    core/plugins/oas3/selectors.js). What the code of swagger-client computes is a parameter; the
    executions in flight, their answers and the edits of the user are a transition system. *)

From S2P Require Import Prelude JsValue Json RegExp JsString SwEncode SwUtils SwAuth SwErr SwStore SwValidate SwImmutable SwSpec SwExecute.

(** * Selectors *)

Definition or_else (v w : jsval) : jsval := if truthy v then v else w.

(** True if a parameter has [type: typeValue]; undefined unless the parameters are a list. *)
Definition parametersIncludeType (parameters : jsval) (typeValue : string) : bool :=
  match parameters with
  | JArr l => existsb (λ p, is_map p && strict_eq (map_get p "type") (JStr typeValue)) l
  | _ => false
  end.

Definition parametersIncludeIn (parameters : jsval) (inValue : string) : bool :=
  match parameters with
  | JArr l => existsb (λ p, is_map p && strict_eq (map_get p "in") (JStr inValue)) l
  | _ => false
  end.

(** [operation.getIn(["produces", 0], null)]: the first element of a list. *)
Definition first_produces (operation : jsval) : jsval :=
  match map_get operation "produces" with JArr (x :: _) => x | _ => JNull end.

(** The chosen content type of the response, or the first of the operation. *)
Definition currentProducesFor (state : jsval) (pathMethod : list string) : result jsval :=
  spec ← specJsonWithResolvedSubtrees state;
  match lookIn spec (["paths"] ++ pathMethod) with
  | None | Some JNull => Ok JUndef
  | Some (JObj _ as operation) | Some (JArr _ as operation) =>
      let current := default JNull (lookIn state (["meta"; "paths"] ++ pathMethod ++ ["produces_value"])) in
      Ok (or_else current (or_else (first_produces operation) (JStr "application/json")))
  | Some v => Throw (not_a_function v "getIn")
  end.

(** The content types of the request and of the response. *)
Definition contentTypeValues (state : jsval) (pathMethod : list string) : result (jsval * jsval) :=
  spec ← specJsonWithResolvedSubtrees state;
  let op := default (JObj []) (lookIn spec (["paths"] ++ pathMethod)) in
  let meta := default (JObj []) (lookIn state (["meta"; "paths"] ++ pathMethod)) in
  producesValue ← currentProducesFor state pathMethod;
  parameters ← method_get op "parameters";
  consumes_value ← method_get meta "consumes_value";
  Ok (if truthy consumes_value then consumes_value
      else if parametersIncludeType parameters "file" then JStr "multipart/form-data"
      else if parametersIncludeType parameters "formData" then JStr "application/x-www-form-urlencoded"
      else JUndef, producesValue).

(** The scheme of an address: a lower case letter, then letters, digits, plus, minus and dots up to
    a colon. *)
Definition scheme_char (c : Ascii.ascii) : bool := is_lower c || is_digit c || existsb (N.eqb (code c)) [43; 45; 46]%N.

Fixpoint scheme_rest (acc s : string) : option string :=
  match s with
  | EmptyString => None
  | String c r => if (code c =? 58)%N then Some acc else if scheme_char c then scheme_rest (acc +:+ String c "") r else None
  end.

Definition url_scheme (url : string) : option string :=
  match url with String c r => if is_lower c then scheme_rest (String c "") r else None | EmptyString => None end.

Definition operationScheme (state : jsval) (path method : string) : result jsval :=
  match map_get state "url" with
  | JStr url => Ok (or_else (getIn state ["scheme"; path; method])
                   (or_else (getIn state ["scheme"; "_defaultScheme"])
                   (match url_scheme url with Some s => or_else (JStr s) (JStr "") | None => JStr "" end)))
  | v => Throw (not_a_function v "match")
  end.

Definition canExecuteScheme (state : jsval) (path method : string) : result bool :=
  scheme ← operationScheme state path method;
  Ok (strict_eq scheme (JStr "http") || strict_eq scheme (JStr "https")).

(** The selectors of the oas3 plugin; an empty namespace is no namespace. *)
Definition in_namespace (namespace : string) (path : list string) : list string :=
  if String.eqb namespace "" then path else namespace :: path.

Definition selectedServer (json state : jsval) (namespace : string) : result jsval :=
  onlyOAS3 json (or_else (getIn state (in_namespace namespace ["selectedServer"])) (JStr "")).

Definition serverVariables (json state : jsval) (server namespace : string) : result jsval :=
  onlyOAS3 json (or_else (getIn state (in_namespace namespace ["serverVariableValues"; server])) (JObj [])).

Definition serverVariableValue (json state : jsval) (server namespace key : string) : result jsval :=
  onlyOAS3 json (or_null (getIn state (in_namespace namespace ["serverVariableValues"; server; key]))).

Definition responseContentType (json state : jsval) (path method : string) : result jsval :=
  onlyOAS3 json (or_null (getIn state ["requestData"; path; method; "responseContentType"])).

Definition requestBodyInclusionSetting (json state : jsval) (path method : string) : result jsval :=
  onlyOAS3 json (or_else (getIn state ["requestData"; path; method; "bodyInclusion"]) (JObj [])).

(** * The request *)

(** swagger-client and url-parse. *)
Class SwaggerClient := {
  buildRequest : list (string * jsval) → result jsval;
  opId : jsval → string → string → jsval;
  parse_href : jsval → string
}.

Section Request.
Context `{HashCode, DateParse, RegExpRest, SwaggerClient}.

Definition isEmptyValue (value : jsval) : bool :=
  negb (truthy value) || match value with JArr [] | JObj [] => true | _ => false end.

(** One parameter with [allowEmptyValue]: sent empty if the user asked for it. *)
Definition include_empty (state : jsval) (pathMethod : list string) (parameters : list (string * jsval)) (param : jsval)
    : result (list (string * jsval)) :=
  name ← method_get param "name"; in_ ← method_get param "in";
  if truthy (parameterInclusionSettingFor state pathMethod name in_) then
    paramValue ← paramToValue param parameters;
    size ← (if truthy paramValue then getp paramValue "size" else Ok JUndef);
    Ok (if negb (truthy paramValue) || strict_eq size (JInt 0) then assign parameters (to_string name) (JStr "") else parameters)
  else Ok parameters.

Fixpoint include_all (state : jsval) (pathMethod : list string) (parameters : list (string * jsval)) (params : list jsval)
    : result (list (string * jsval)) :=
  match params with
  | [] => Ok parameters
  | p :: r => parameters' ← include_empty state pathMethod parameters p; include_all state pathMethod parameters' r
  end.

(** [param && param.get("allowEmptyValue") === true]. *)
Definition allows_empty (param : jsval) : result bool :=
  if truthy param then v ← method_get param "allowEmptyValue"; Ok (strict_eq v (JBool true)) else Ok false.

Definition explicit_parameters (state : jsval) (pathMethod : list string) (operation : jsval) (parameters : list (string * jsval))
    : result (list (string * jsval)) :=
  ps ← method_get operation "parameters";
  if truthy ps then
    l ← elements ps "filter";
    flags ← mapM (λ p, b ← allows_empty p; Ok (p, b)) l;
    include_all state pathMethod parameters (map fst (List.filter (λ pb : jsval * bool, pb.2) flags))
  else Ok parameters.

(** The value of a form field. *)
Definition field_value (val : jsval) : jsval := match val with JObj _ => map_get val "value" | _ => val end.

(** The entries of a form body that are sent: those with a value and those included on request. *)
Fixpoint sent_fields (inclusion : jsval) (fs : list (string * jsval)) : result (list (string * jsval)) :=
  match fs with
  | [] => Ok []
  | (k, val) :: r =>
      let value := field_value val in
      keep ← (if negb (isEmptyValue value) then Ok true else v ← method_get inclusion k; Ok (truthy v));
      r' ← sent_fields inclusion r;
      Ok (if (keep : bool) then (k, value) :: r' else r')
  end.

Definition sent_body (requestBody inclusion : jsval) : result jsval :=
  match requestBody with
  | JObj fs => fs' ← sent_fields inclusion fs; Ok (JObj fs')
  | JArr l => Ok (JArr (List.filter (λ v, negb (isEmptyValue v)) (map field_value l)))
  | v => Ok v
  end.

(** [v.toJS()] of an Immutable value. *)
Definition toJS (v : jsval) : result jsval :=
  match v with JObj _ | JArr _ => Ok v | _ => Throw (not_a_function v "toJS") end.

(** What an OpenAPI 3 definition adds to the request. *)
Definition oas3_request (json oas3 : jsval) (path method : string) (req : list (string * jsval)) : result (list (string * jsval)) :=
  let namespace := path +:+ ":" +:+ method in
  own ← selectedServer json oas3 namespace; global ← selectedServer json oas3 "";
  let server := or_else own global in
  namespaceVariables ← serverVariables json oas3 (to_string server) namespace; namespaceVariables ← toJS namespaceVariables;
  globalVariables ← serverVariables json oas3 (to_string server) ""; globalVariables ← toJS globalVariables;
  let variables := match namespaceVariables with JObj [] | JArr [] => globalVariables | v => v end in
  contentType ← requestContentType json oas3 path method;
  responseType ← responseContentType json oas3 path method;
  requestBody ← requestBodyValue json oas3 path method;
  inclusion ← requestBodyInclusionSetting json oas3 path method;
  body ← sent_body requestBody inclusion;
  Ok (set_all req [("server", server); ("serverVariables", variables); ("requestContentType", contentType);
                   ("responseContentType", or_else responseType (JStr "*/*")); ("requestBody", body)]).

(** The request of [executeRequest], before it is built; functions in it are left out. *)
Definition executed_request (spec oas3 operation : jsval) (path method : string) (req parameters : list (string * jsval))
    : result (list (string * jsval)) :=
  op ← toJS operation;
  parameters' ← explicit_parameters spec [path; method] operation parameters;
  let operationId := map_get op "operationId" in
  let req := oset (oset req "parameters" (JObj parameters')) "contextUrl" (JStr (parse_href (map_get spec "url"))) in
  let req := if truthy operationId then oset req "operationId" operationId
             else if negb (String.eqb path "") && negb (String.eqb method "") then oset req "operationId" (opId op path method)
             else req in
  if isOAS3 spec then oas3_request (specJson spec) oas3 path method req else Ok req.

(** [/xml/i.test(requestContentType)]. *)
Definition is_xml (requestContentType : jsval) : bool := includes (to_lower (to_string requestContentType)) "xml".

(** [execute]: the request from the store, then [executeRequest]. *)
Definition execute_request (spec oas3 operation : jsval) (path method : string) : result (list (string * jsval)) :=
  definition ← specJsonWithResolvedSubtrees spec;
  let scheme := default JNull (wrapWithTryCatch (operationScheme spec path method)) in
  types ← contentTypeValues spec [path; method];
  parameters ← parameterValues spec [path; method] (is_xml types.1);
  executed_request spec oas3 operation path method
    [("operation", operation); ("spec", definition); ("pathName", JStr path); ("method", JStr method);
     ("parameters", JObj parameters); ("requestContentType", types.1); ("scheme", scheme); ("responseContentType", types.2)]
    parameters.

(** * Answers *)

Definition failed_to_fetch : string :=
  "**Failed to fetch.**  " +:+ nl +:+ "**Possible Reasons:** " +:+ nl +:+ "  - CORS " +:+ nl +:+ "  - Network Failure " +:+ nl +:+
  "  - URL scheme must be " +:+ dquote +:+ "http" +:+ dquote +:+ " or " +:+ dquote +:+ "https" +:+ dquote +:+ " for CORS request.".

Context `{SerializeError}.

(** [err.name = ""; err.message = ...]. *)
Definition explain (err : jsval) : result jsval :=
  match err with
  | JErr _ _ fs => Ok (JErr "" failed_to_fetch fs)
  | v => v' ← setp v "name" (JStr ""); setp v' "message" (JStr failed_to_fetch)
  end.

Definition serialized (err : jsval) : jsval :=
  match err with JErr _ _ _ | JObj _ => JObj (serializeError err) | v => v end.

(** The callback of [catch]. *)
Definition answer_catch (err : jsval) : result jsval :=
  message ← getp err "message";
  err' ← (if strict_eq message (JStr "Failed to fetch") then explain err else Ok err);
  Ok (JObj [("error", JBool true); ("err", serialized err')]).

(** The value that is stored for an execution that took [duration]: [then], with its exceptions
    going to [catch]. An exception of [catch] is an unhandled rejection. *)
Definition answer (outcome : result jsval) (duration : Z) : result jsval :=
  match (res ← outcome; setp res "duration" (JInt duration)) with
  | Ok res => Ok res
  | Throw err => answer_catch err
  | Hang => Hang
  end.

(** * Executions in flight *)

Record pending := Pending { pd_path : string; pd_method : string; pd_start : Z }.

(** The branches of the store and the executions in flight; the last two fields record the
    executions started and those settled so far, with their outcome and its time. *)
Record xstate := XState {
  xs_spec : jsval; xs_oas3 : jsval; xs_pending : list pending;
  xs_started : list pending; xs_answers : list (pending * result jsval * Z)
}.

(** [execute] of an operation at the time [t]: the request is built and stored, then sent. An
    exception ends the action. *)
Definition execute (operation : jsval) (path method : string) (t : Z) (st : xstate) : xstate :=
  match (req ← execute_request (xs_spec st) (xs_oas3 st) operation path method; buildRequest req) with
  | Ok parsedRequest =>
      XState (reduced (xs_spec st) (SET_REQUEST (xs_spec st) path method parsedRequest)) (xs_oas3 st)
             (xs_pending st ++ [Pending path method t]) (Pending path method t :: xs_started st) (xs_answers st)
  | _ => st
  end.

(** The request as the interceptor of the configuration changed it. *)
Definition intercepted (p : pending) (mutatedRequest : jsval) (st : xstate) : xstate :=
  XState (reduced (xs_spec st) (SET_MUTATED_REQUEST (xs_spec st) (pd_path p) (pd_method p) (JObj (spread [] mutatedRequest))))
         (xs_oas3 st) (xs_pending st) (xs_started st) (xs_answers st).

(** The outcome of an execution arrives: its answer is stored by the reducer. *)
Definition settle (p : pending) (outcome : result jsval) (t : Z) (st : xstate) : xstate :=
  XState (match answer outcome (t - pd_start p) with
          | Ok res => reduced (xs_spec st) (SET_RESPONSE (xs_spec st) (pd_path p) (pd_method p) res)
          | _ => xs_spec st
          end) (xs_oas3 st) (xs_pending st) (xs_started st) ((p, outcome, t) :: xs_answers st).

Definition without (pre post : list pending) (st : xstate) : xstate := 
  XState (xs_spec st) (xs_oas3 st) (pre ++ post) (xs_started st) (xs_answers st).

(** The user executes operations and edits values, interceptors run and answers arrive, in any
    order. Edits are the actions of the spec plugin other than storing an answer. *)
Inductive xstep : xstate → xstate → Prop :=
| x_execute st operation path method t : xstep st (execute operation path method t st)
| x_intercepted st p mutated : p ∈ xs_pending st → xstep st (intercepted p mutated st)
| x_settle st pre p post outcome t : xs_pending st = pre ++ p :: post → outcome ≠ Hang →
    xstep st (settle p outcome t (without pre post st))
| x_edit st spec' : edit_step (xs_spec st) spec' →
    xstep st (XState spec' (xs_oas3 st) (xs_pending st) (xs_started st) (xs_answers st))
| x_oas3 st oas3' : xstep st (XState (xs_spec st) oas3' (xs_pending st) (xs_started st) (xs_answers st)).
End Request.

(** * Lemmas: storing an answer *)

Lemma set_response_ok st path method res r : fits spec_shape st = true → response_result res = Ok r →
  ∃ st', SET_RESPONSE st path method res = Ok st' ∧ fits spec_shape st' = true ∧
    lookIn st' ["responses"; path; method] = Some r ∧
    (∀ ks, diverge ["responses"; path; method] ks = true → lookIn st' ks = lookIn st ks).
Proof.
  intros Hst Hr. unfold SET_RESPONSE. rewrite Hr, ok_bind.
  destruct (setIn_fits ["responses"; path; method] spec_shape (Some st) SAny r) as (st' & E & Hf & Hl);
    [by intros ? [= <-]|done|done|].
  exists st'. split_and!; [done|done|done|]. intros ks Hd. by rewrite (lookIn_setIn_ne _ _ _ _ _ E Hd).
Qed.

Section Answers.
Context `{Ser : SerializeError} {SerL : SerializeErrorLaws Ser}.

(** What is stored for a settled execution. *)
Definition stored (outcome : result jsval) (duration : Z) : result jsval :=
  res ← answer outcome duration; response_result res.

Lemma settle_spec p outcome t st r : fits spec_shape (xs_spec st) = true → stored outcome (t - pd_start p) = Ok r →
  let st' := settle p outcome t st in
  lookIn (xs_spec st') ["responses"; pd_path p; pd_method p] = Some r ∧ fits spec_shape (xs_spec st') = true ∧
  (∀ ks, diverge ["responses"; pd_path p; pd_method p] ks = true → lookIn (xs_spec st') ks = lookIn (xs_spec st) ks) ∧
  xs_oas3 st' = xs_oas3 st.
Proof.
  intros Hst (res & Ha & Hr)%result_bind_Ok. cbv zeta. unfold settle. rewrite Ha.
  destruct (set_response_ok _ (pd_path p) (pd_method p) _ _ Hst Hr) as (st' & E & Hf & Hl & Hd).
  cbn [xs_spec xs_oas3]. rewrite E. by split_and!.
Qed.

(** The stored form of a success: the response with its duration. *)
Lemma stored_success fs d : truthy (default JUndef (assoc fs "error")) = false →
  ∃ r, stored (Ok (JObj fs)) d = Ok (JObj r) ∧ assoc r "duration" = Some (JInt d) ∧
    assoc r "headers" = Some (or_else (default JUndef (assoc fs "headers")) (JObj [])) ∧
    ∀ k, k ≠ "duration" → k ≠ "headers" → assoc r k = assoc fs k.
Proof.
  intros He. unfold stored, answer, response_result. rewrite !ok_bind. cbn [setp]. rewrite ok_bind, (getp_obj _ "error"), ok_bind.
  rewrite assoc_oset_ne, He by done. cbn [app]. rewrite ok_bind. eexists. split_and!; [reflexivity| | |].
  - by rewrite assoc_oset_ne, assoc_oset_eq.
  - rewrite assoc_oset_eq, assoc_oset_ne by done. unfold or_else. by destruct (assoc fs "headers").
  - intros k Hd Hh. by rewrite !assoc_oset_ne.
Qed.

Lemma error_result s : response_result (JObj [("error", JBool true); ("err", JObj s)]) =
  let fs := spread [("error", JBool true); ("name", default JUndef (assoc s "name")); ("message", default JUndef (assoc s "message"));
                    ("statusCode", default JUndef (assoc s "statusCode"))] (default JUndef (assoc s "response")) in
  Ok (JObj (oset fs "headers" (match assoc fs "headers" with Some h => if truthy h then h else JObj [] | None => JObj [] end))).
Proof. reflexivity. Qed.

(** The fields of a response that came with an error. *)
Definition attached (efs : list (string * jsval)) : list (string * jsval) :=
  match assoc efs "response" with Some (JObj rs) => rs | _ => [] end.

Definition error_name (n m : string) : string := if String.eqb m "Failed to fetch" then "" else n.
Definition error_message (m : string) : string := if String.eqb m "Failed to fetch" then failed_to_fetch else m.

Lemma stored_failure n m efs d : NoDup (map fst (attached efs)) →
  match assoc efs "response" with None | Some (JObj _) => True | _ => False end →
  ∃ r, stored (Throw (JErr n m efs)) d = Ok (JObj r) ∧
    ∀ k v, (k, v) ∈ [("error", JBool true); ("name", JStr (error_name n m)); ("message", JStr (error_message m))] →
      assoc r k = Some (default v (assoc (attached efs) k)).
Proof.
  intros Hnd Hresp. set (e := JErr (error_name n m) (error_message m) efs).
  assert (answer (Throw (JErr n m efs)) d = Ok (JObj [("error", JBool true); ("err", JObj (serializeError e))])) as Ha.
  { unfold answer, answer_catch. cbn [mbind result_bind]. change (getp (JErr n m efs) "message") with (Ok (JStr m)).
    rewrite ok_bind. unfold e, error_name, error_message. change (strict_eq (JStr m) (JStr "Failed to fetch")) with (String.eqb m "Failed to fetch").
    by destruct (String.eqb m "Failed to fetch"). }
  assert (assoc (serializeError e) "response" = assoc efs "response") as Hs.
  { destruct (assoc efs "response") as [v|] eqn:E; [by apply serializeError_own|].
    apply serializeError_new; [done|]. rewrite !not_elem_of_cons. by split_and!; [| |apply not_elem_of_nil]. }
  unfold stored. rewrite Ha, ok_bind, error_result. eexists. split; [reflexivity|]. intros k v Hk.
  rewrite assoc_oset_ne by (rewrite !elem_of_cons in Hk; intros <-; destruct Hk as [[=]|[[=]|[[=]|[]%elem_of_nil]]]).
  assert (assoc (serializeError e) "name" = Some (JStr (error_name n m))) as Hn by (by apply serializeError_own).
  assert (assoc (serializeError e) "message" = Some (JStr (error_message m))) as Hm by (by apply serializeError_own).
  rewrite Hs, Hn, Hm. cbn [default]. set (base := [("error", JBool true); _; _; _]).
  assert (assoc base k = Some v) as Hb.
  { rewrite !elem_of_cons in Hk. by destruct Hk as [[= -> ->]|[[= -> ->]|[[= -> ->]|[]%elem_of_nil]]]. }
  revert Hnd Hresp. unfold attached. destruct (assoc efs "response") as [[| | | | | | |rs|]|]; try done; intros Hnd _; cbn [from_option id].
  change (default JUndef (Some (JObj rs))) with (JObj rs). rewrite assoc_spread by done. rewrite Hb. by destruct (assoc rs k).
Qed.

(** Failures that are objects of the class Error, as swagger-client and fetch reject with. *)
Definition regular (outcome : result jsval) : Prop :=
  match outcome with
  | Ok (JObj fs) => truthy (default JUndef (assoc fs "error")) = false
  | Throw (JErr _ _ efs) => NoDup (map fst (attached efs)) ∧
      match assoc efs "response" with None | Some (JObj _) => True | _ => False end
  | _ => False
  end.

Lemma regular_stored outcome d : regular outcome → ∃ r, stored outcome d = Ok (JObj r).
Proof.
  destruct outcome as [[| | | | | | |fs|]|[| | | | | | | |n m efs]|]; try done; cbn [regular].
  - intros H. destruct (stored_success fs d H) as (r & E & _). eauto.
  - intros [H1 H2]. destruct (stored_failure n m efs d H1 H2) as (r & E & _). eauto.
Qed.

(** C8: an execution that settles leaves its answer with its operation: a success is stored with
    its fields and its duration; a failure is stored as an error with name and message (for a
    request that could not be sent the message explains the possible reasons), overlaid with the
    response that came with it. Nothing else in the store changes. *)
Theorem execution_answered p outcome t st : fits spec_shape (xs_spec st) = true → regular outcome →
  let st' := settle p outcome t st in
  ∃ r, lookIn (xs_spec st') ["responses"; pd_path p; pd_method p] = Some (JObj r) ∧
    match outcome with
    | Ok res => assoc r "duration" = Some (JInt (t - pd_start p)) ∧
        assoc r "headers" = Some (or_else (map_get res "headers") (JObj [])) ∧
        ∀ k, k ≠ "duration" → k ≠ "headers" → default JUndef (assoc r k) = map_get res k
    | Throw (JErr n m efs) =>
        ∀ k v, (k, v) ∈ [("error", JBool true); ("name", JStr (error_name n m)); ("message", JStr (error_message m))] →
          assoc r k = Some (default v (assoc (attached efs) k))
    | _ => True
    end ∧
    (∀ ks, diverge ["responses"; pd_path p; pd_method p] ks = true → lookIn (xs_spec st') ks = lookIn (xs_spec st) ks) ∧
    fits spec_shape (xs_spec st') = true ∧ xs_oas3 st' = xs_oas3 st.
Proof.
  intros Hst Hr. cbv zeta. destruct outcome as [[| | | | | | |fs|]|[| | | | | | | |n m efs]|]; try done; cbn [regular] in Hr.
  - destruct (stored_success fs (t - pd_start p) Hr) as (r & E & Hd & Hh & Hk).
    destruct (settle_spec p _ t st _ Hst E) as (H1 & H2 & H3 & H4). exists r. split_and!; try done.
    intros k Hk1 Hk2. cbn [map_get]. by rewrite Hk.
  - destruct Hr as [Hr1 Hr2]. destruct (stored_failure n m efs (t - pd_start p) Hr1 Hr2) as (r & E & Hk).
    destruct (settle_spec p _ t st _ Hst E) as (H1 & H2 & H3 & H4). exists r. by split_and!.
Qed.
End Answers.

(** * Every shown answer belongs to its operation *)

Section Interleavings.
Context `{Hash : HashCode, Date : DateParse, Re : RegExpRest, Client : SwaggerClient, Ser : SerializeError}.

(** The stored value is that of a settled execution of the operation. *)
Definition answered (st : xstate) (path method : string) (r : jsval) : Prop :=
  ∃ p outcome t, (p, outcome, t) ∈ xs_answers st ∧ pd_path p = path ∧ pd_method p = method ∧
    stored outcome (t - pd_start p) = Ok r.

Record xinv (st : xstate) : Prop := {
  xi_shape : fits spec_shape (xs_spec st) = true;
  xi_shown path method r : lookIn (xs_spec st) ["responses"; path; method] = Some r → answered st path method r;
  xi_started : xs_started st ≡ₚ xs_pending st ++ map (λ a, a.1.1) (xs_answers st)
}.

Lemma diverge_response path method path' method' : (path, method) ≠ (path', method') →
  diverge ["responses"; path; method] ["responses"; path'; method'] = true.
Proof.
  intros Hne. cbn [diverge]. change (String.eqb "responses" "responses") with true. cbv iota.
  destruct (String.eqb_spec path path') as [->|]; [|done]. destruct (String.eqb_spec method method') as [->|]; done.
Qed.

Lemma reduced_Ok st st' : reduced st (Ok st') = st'.
Proof. done. Qed.

(** A write elsewhere keeps the answers. *)
Lemma reduced_set_other st k ks x js : diverge (k :: ks) js = true →
  lookIn (reduced st (setIn (Some st) (k :: ks) x)) js = lookIn st js.
Proof.
  intros Hd. unfold reduced, wrapWithTryCatch. destruct (setIn _ _ _) as [st'| |] eqn:E; [|done|done].
  change (default st (Some st')) with st'. by rewrite (lookIn_setIn_ne _ _ _ _ _ E Hd).
Qed.

Lemma settle_shown p outcome t st path method r : fits spec_shape (xs_spec st) = true →
  (∀ path method r, lookIn (xs_spec st) ["responses"; path; method] = Some r → answered st path method r) →
  lookIn (xs_spec (settle p outcome t st)) ["responses"; path; method] = Some r → answered (settle p outcome t st) path method r.
Proof.
  intros Hf Hsh. assert (lookIn (xs_spec st) ["responses"; path; method] = Some r → answered (settle p outcome t st) path method r) as Hold.
  { intros (q & o & u & Hin & H)%Hsh. exists q, o, u. split; [by right|done]. }
  destruct (stored outcome (t - pd_start p)) as [r'| |] eqn:Es.
  - destruct (settle_spec p outcome t st r' Hf Es) as (Hl & _ & Hd & _).
    destruct (decide ((pd_path p, pd_method p) = (path, method))) as [[= <- <-]|Hn].
    + rewrite Hl. intros [= <-]. exists p, outcome, t. by split; [left|].
    + rewrite Hd by (by apply diverge_response). done.
  - unfold settle at 1. cbn [xs_spec]. unfold stored in Es. destruct (answer _ _) as [res| |]; try done. rewrite ok_bind in Es.
    unfold SET_RESPONSE. by rewrite Es.
  - unfold settle at 1. cbn [xs_spec]. unfold stored in Es. destruct (answer _ _) as [res| |]; try done. rewrite ok_bind in Es.
    unfold SET_RESPONSE. by rewrite Es.
Qed.

Lemma settle_fits p outcome t st : fits spec_shape (xs_spec st) = true → fits spec_shape (xs_spec (settle p outcome t st)) = true.
Proof.
  intros Hf. unfold settle. cbn [xs_spec]. destruct (answer _ _) as [res| |]; [|done|done].
  eapply spec_step_fits; [apply step_response|done].
Qed.

Lemma xstep_inv st st' : xstep st st' → xinv st → xinv st'.
Proof.
  intros Hs [Hf Hsh Hp].
  destruct Hs as [st operation path method t|st p mutated Hin|st pre p post outcome t Hpend Hne|st spec' He|st oas3'].
  - unfold execute. destruct (req ← _; _) as [parsed| |]; [|done|done]. split; cbn [xs_spec xs_answers xs_pending xs_started].
    + eapply spec_step_fits; [apply step_edit, step_request|done].
    + intros path' method' r. unfold SET_REQUEST. rewrite reduced_set_other by done. apply Hsh.
    + rewrite Hp, <- app_assoc. apply Permutation_middle.
  - split; try done; cbn [intercepted xs_spec].
    + eapply spec_step_fits; [apply step_edit, step_mutated|done].
    + intros path' method' r. unfold SET_MUTATED_REQUEST. rewrite reduced_set_other by done. apply Hsh.
  - split.
    + by apply settle_fits.
    + intros path method r. by apply settle_shown.
    + cbn [settle without xs_started xs_pending xs_answers map fst]. rewrite Hp, Hpend, <- !app_assoc. cbn [app].
      apply Permutation_app_head, Permutation_middle.
  - split; try done; cbn [xs_spec].
    + by eapply edit_step_fits.
    + intros path method r. destruct (edit_step_responses _ _ path method He) as [-> | ->]; [apply Hsh|done].
  - by split.
Qed.

(** C9: from a store without responses, however executions, edits by any reducer but the one for responses, interceptors and answers interleave, every response shown for an
    operation is the stored form of the outcome of an execution of that same operation, and every
    execution is either in flight or settled, once. *)
Theorem responses_own spec oas3 st : fits spec_shape spec = true → lookIn spec ["responses"] = None →
  rtc xstep (XState spec oas3 [] [] []) st →
  fits spec_shape (xs_spec st) = true ∧
  (∀ path method r, lookIn (xs_spec st) ["responses"; path; method] = Some r →
     ∃ p outcome t, (p, outcome, t) ∈ xs_answers st ∧ pd_path p = path ∧ pd_method p = method ∧
       stored outcome (t - pd_start p) = Ok r) ∧
  xs_started st ≡ₚ xs_pending st ++ map (λ a, a.1.1) (xs_answers st).
Proof.
  intros Hf Hn Hr. assert (xinv (XState spec oas3 [] [] [])) as H0.
  { split; cbn [xs_spec xs_pending xs_started xs_answers]; [done| |done].
    intros path method r. change ["responses"; path; method] with (["responses"] ++ [path; method]). rewrite lookIn_app, Hn. done. }
  assert (xinv st) as [H1 H2 H3].
  { clear Hf Hn. induction Hr; eauto using xstep_inv. }
  by split_and!.
Qed.
End Interleavings.

(** * What a request contains *)

Section Contents.
Context `{Hash : HashCode, Date : DateParse, Re : RegExpRest, Client : SwaggerClient}.

Definition name_of (p : jsval) : string := to_string (map_get p "name").

(** The user asked to send the parameter even if it is empty. *)
Definition included (state : jsval) (pathMethod : list string) (p : jsval) : bool :=
  truthy (parameterInclusionSettingFor state pathMethod (map_get p "name") (map_get p "in")).

(** What is found for a parameter, and whether it counts as empty: nothing truthy, or of size zero. *)
Definition value_for (p : jsval) (parameters : list (string * jsval)) : jsval :=
  match paramToValue p parameters with Ok v => v | _ => JUndef end.
Definition empty_value (v : jsval) : bool := negb (truthy v) || strict_eq (default JUndef (own v "size")) (JInt 0).

(** The parameter is sent as the empty text: it allows that, the user asked for it, and it has no value. *)
Definition sent_empty (state : jsval) (pathMethod : list string) (parameters : list (string * jsval)) (p : jsval) : bool :=
  strict_eq (map_get p "allowEmptyValue") (JBool true) && included state pathMethod p && empty_value (value_for p parameters).

(** A parameter whose name is not the identifier of any parameter. *)
Definition own_name (ps : list jsval) (p : jsval) : bool :=
  is_map p && negb (String.eqb (name_of p) "__proto__") &&
  forallb (λ q, negb (String.eqb (name_of p) (param_key q)) && negb (String.eqb (name_of p) (param_hkey q))) ps.

Lemma plain_get_eq o k v : plain_get (oset o k v) k = v.
Proof. unfold plain_get. by rewrite assoc_oset_eq. Qed.

Lemma plain_get_assoc o o' k : assoc o' k = assoc o k → plain_get o' k = plain_get o k.
Proof. unfold plain_get. by intros ->. Qed.

(** The value of a parameter, by the three places it is looked for. *)
Lemma value_for_eq p parameters : is_map p = true →
  paramToValue p parameters = Ok (value_for p parameters) ∧
  ∃ ids, value_for p parameters = first_defined (map (plain_get parameters) ids) ∧
    (∀ k, k ∈ ids → k = param_hkey p ∨ k = param_key p ∨ k = name_of p) ∧
    ∀ parameters', value_for p parameters' = first_defined (map (plain_get parameters') ids).
Proof.
  destruct p as [| | | | | | |fs|]; try done. intros _. set (p := JObj fs).
  set (both := truthy (map_get p "in") && truthy (map_get p "name")).
  assert (∀ ps, paramToValue p ps =
    Ok (first_defined (map (plain_get ps) ((if both then [param_hkey p; param_key p] else []) ++ [name_of p])))) as Heq.
  { intros ps. unfold paramToValue, p. cbn [identifiers]. fold p. rewrite ok_bind. fold both. rewrite andb_true_r. by destruct both. }
  unfold value_for. rewrite Heq. split; [done|]. eexists. split_and!; [reflexivity| |intros ps; by rewrite Heq].
  intros k. destruct both; simpl; rewrite !elem_of_cons; intros Hk; [|destruct Hk as [->|[]%elem_of_nil]; auto].
  destruct Hk as [->|[->|[->|[]%elem_of_nil]]]; auto.
Qed.

Lemma include_empty_spec state pm parameters p : is_map p = true →
  include_empty state pm parameters p =
  Ok (if included state pm p && empty_value (value_for p parameters) then assign parameters (name_of p) (JStr "") else parameters).
Proof.
  intros Hp. destruct (value_for_eq p parameters Hp) as [Hv _]. destruct p as [| | | | | | |fs|]; try done.
  unfold include_empty, included, empty_value. cbn [method_get map_get] in *. rewrite !ok_bind.
  destruct (truthy (parameterInclusionSettingFor _ _ _ _)); [|done]. rewrite Hv, ok_bind. cbn [andb].
  set (v := value_for _ _). destruct (truthy v) eqn:Et; [|done].
  unfold getp. rewrite (truthy_not_nullish _ Et), ok_bind. done.
Qed.

(** What is already empty stays empty when another name is set to the empty text, and nothing else
    becomes empty but what is read under that name. *)
Lemma value_for_set p P P' : is_map p = true → (∀ k, assoc P' k = assoc P k ∨ assoc P' k = Some (JStr "")) →
  assoc P' (param_key p) = assoc P (param_key p) → assoc P' (param_hkey p) = assoc P (param_hkey p) →
  (empty_value (value_for p P) = true → empty_value (value_for p P') = true) ∧
  (empty_value (value_for p P') = true → empty_value (value_for p P) = true ∨ assoc P' (name_of p) = Some (JStr "")).
Proof.
  intros Hp Hk H1 H2. destruct (value_for_eq p P Hp) as (_ & ids & HP & Hids & Hall). rewrite HP, (Hall P'). clear HP Hall.
  assert (∀ k, k ∈ ids → plain_get P' k = plain_get P k ∨ plain_get P' k = JStr "" ∧ assoc P' (name_of p) = Some (JStr "")) as Hg.
  { intros k Hin. destruct (Hids k Hin) as [->|[->| ->]]; [left; by apply plain_get_assoc..|].
    destruct (Hk (name_of p)) as [E|E]; [left; by apply plain_get_assoc|]. right. split; [|done]. unfold plain_get. by rewrite E. }
  clear Hids H1 H2 Hk. induction ids as [|k ids IH]; [by split; auto|]. cbn [map first_defined].
  destruct IH as [IH1 IH2]; [intros; apply Hg; by right|].
  destruct (Hg k ltac:(left)) as [-> | [-> Ha]]; [destruct (plain_get P k); auto|]. cbn [first_defined]. split; auto.
Qed.

Lemma assign_get parameters k j : k ≠ "__proto__" →
  assoc (assign parameters k (JStr "")) j = if String.eqb k j then Some (JStr "") else assoc parameters j.
Proof.
  intros Hk%String.eqb_neq. unfold assign. rewrite Hk. destruct (String.eqb_spec k j) as [->|]; [apply assoc_oset_eq|by apply assoc_oset_ne].
Qed.

(** [P'] is [P] with the names of those parameters of [done_] that are included and empty. *)
Definition emptied (state : jsval) (pm : list string) (done_ : list jsval) (P P' : list (string * jsval)) : Prop :=
  ∀ k, assoc P' k = if existsb (λ p, String.eqb (name_of p) k && (included state pm p && empty_value (value_for p P))) done_
                    then Some (JStr "") else assoc P k.

Lemma include_all_spec state pm ps L : ∀ done_ P P',
  Forall (λ p, own_name ps p = true) (done_ ++ L) → done_ ++ L ⊆ ps → emptied state pm done_ P P' →
  ∃ P'', include_all state pm P' L = Ok P'' ∧ emptied state pm (done_ ++ L) P P''.
Proof.
  induction L as [|p L IH]; intros done_ P P' Hok Hsub HP; [exists P'; by rewrite app_nil_r|].
  pose proof (proj1 (Forall_forall _ _) Hok) as Hok'. assert (own_name ps p = true) as Hp by (apply Hok'; set_solver).
  unfold own_name in Hp. rewrite !andb_true_iff, negb_true_iff, String.eqb_neq in Hp. destruct Hp as [[Hm Hpr] _].
  assert (∀ k, k = param_key p ∨ k = param_hkey p → assoc P' k = assoc P k) as Hkeys.
  { intros k Hk. rewrite HP. destruct (existsb _ done_) eqn:E; [|done]. apply existsb_exists in E as (q & Hq & E).
    apply andb_true_iff in E as [E _]. apply String.eqb_eq in E. apply list_elem_of_In in Hq.
    assert (own_name ps q = true) as Hqn by (apply Hok'; set_solver).
    unfold own_name in Hqn. rewrite !andb_true_iff, forallb_forall in Hqn. destruct Hqn as [_ Hqn].
    specialize (Hqn p ltac:(apply list_elem_of_In; set_solver)). rewrite andb_true_iff, !negb_true_iff, !String.eqb_neq in Hqn.
    destruct Hqn. destruct Hk; congruence. }
  destruct (value_for_set p P P' Hm) as [V1 V2]; [|by apply Hkeys; auto..|].
  { intros k. rewrite HP. destruct (existsb _ _); auto. }
  cbn [include_all]. rewrite include_empty_spec, ok_bind by done.
  destruct (IH (done_ ++ [p]) P (if included state pm p && empty_value (value_for p P') then assign P' (name_of p) (JStr "") else P'))
    as (P'' & E & HP''); [by rewrite <- app_assoc|by rewrite <- app_assoc| |exists P''; rewrite <- app_assoc in HP''; done].
  intros k. rewrite existsb_app. cbn [existsb]. rewrite orb_false_r.
  assert (assoc (if included state pm p && empty_value (value_for p P') then assign P' (name_of p) (JStr "") else P') k =
    if String.eqb (name_of p) k && (included state pm p && empty_value (value_for p P')) then Some (JStr "") else assoc P' k) as ->.
  { destruct (_ && _); [rewrite assign_get by done|]; by destruct (String.eqb _ k). }
  destruct (String.eqb_spec (name_of p) k) as [<-|]; cbn [andb]; [|by rewrite orb_false_r].
  destruct (included state pm p); cbn [andb]; [|by rewrite orb_false_r].
  destruct (empty_value (value_for p P)) eqn:Ev; [rewrite V1 by done; by rewrite orb_true_r|]. rewrite orb_false_r, <- HP.
  destruct (empty_value (value_for p P')) eqn:Ev'; [|done]. by destruct V2.
Qed.

Lemma explicit_parameters_spec state pm ofs ps parameters : default (JArr []) (assoc ofs "parameters") = JArr ps →
  Forall (λ p, own_name ps p = true) ps →
  ∃ parameters', explicit_parameters state pm (JObj ofs) parameters = Ok parameters' ∧
    ∀ k, assoc parameters' k = if existsb (λ p, String.eqb (name_of p) k && sent_empty state pm parameters p) ps
                               then Some (JStr "") else assoc parameters k.
Proof.
  intros Hps Hall. unfold explicit_parameters. cbn [method_get]. rewrite ok_bind.
  destruct (assoc ofs "parameters") as [x|]; simpl in Hps; [subst x|injection Hps as <-; by exists parameters].
  change (truthy (default JUndef (Some (JArr ps)))) with true. cbv iota.
  change (elements (default JUndef (Some (JArr ps))) "filter") with (Ok ps). rewrite ok_bind.
  set (allows := λ p, strict_eq (map_get p "allowEmptyValue") (JBool true)).
  rewrite (mapM_pure _ (λ p, (p, allows p))), ok_bind.
  2: { intros p Hp. pose proof (proj1 (Forall_forall _ _) Hall p Hp) as Hn. unfold own_name in Hn. by destruct p. }
  assert (map fst (List.filter (λ pb : jsval * bool, pb.2) (map (λ p, (p, allows p)) ps)) = List.filter allows ps) as ->.
  { clear. induction ps as [|p ps IH]; [done|]. simpl. destruct (allows p); simpl; by rewrite IH. }
  assert (List.filter allows ps ⊆ ps) as Hsub by (intros p; rewrite !list_elem_of_In; by intros [? _]%filter_In).
  destruct (include_all_spec state pm ps (List.filter allows ps) [] parameters parameters) as (P & E & HP);
    [|done|done|].
  { apply Forall_forall. intros p Hp. by apply (proj1 (Forall_forall _ _) Hall), Hsub. }
  exists P. split; [done|]. intros k. rewrite (HP k). cbn [app]. f_equal.
  assert (∀ b b' : bool, b = b' → (if b then Some (JStr "") else assoc parameters k) = (if b' then Some (JStr "") else assoc parameters k)) as Hif by (by intros ? ? ->).
  apply Hif. clear. induction ps as [|p ps IH]; [done|]. cbn [List.filter existsb]. unfold sent_empty at 1. fold (allows p).
  destruct (allows p); cbn [existsb andb]; rewrite IH; [done|]. by rewrite andb_false_r.
Qed.

Lemma sent_fields_spec incl fs : ∃ sent, sent_fields (JObj incl) fs = Ok sent ∧
  ∀ k v, (k, v) ∈ sent ↔ ∃ val, (k, val) ∈ fs ∧ v = field_value val ∧
                          (isEmptyValue v = false ∨ truthy (map_get (JObj incl) k) = true).
Proof.
  induction fs as [|[j val] fs (sent & E & IH)]; [exists []; split; [done|]; intros k v; split; [by intros ?%elem_of_nil|]|].
  { by intros (? & ?%elem_of_nil & _). }
  cbn [sent_fields]. rewrite E.
  assert (∀ b : bool, (if negb (isEmptyValue (field_value val)) then Ok true else v ← method_get (JObj incl) j; Ok (truthy v)) = Ok b →
    b = true ↔ isEmptyValue (field_value val) = false ∨ truthy (map_get (JObj incl) j) = true) as Hb.
  { intros b. destruct (isEmptyValue _); cbn [negb method_get]; [rewrite ok_bind|]; intros [= <-]; cbn [map_get]; naive_solver. }
  destruct (if negb _ then _ else _) as [b| |] eqn:Eb; [|by destruct (isEmptyValue _) in Eb|by destruct (isEmptyValue _) in Eb].
  specialize (Hb b eq_refl). rewrite !ok_bind. eexists. split; [reflexivity|]. intros k v. destruct b.
  - rewrite elem_of_cons, IH. split.
    + intros [[= -> ->]|(x & Hin & Hx)]; [exists val; split_and!; [left|done|by apply Hb]|exists x; split; [by right|done]].
    + intros (x & [[= -> ->]|Hin]%elem_of_cons & -> & Hx); [by left|right; by exists x].
  - rewrite IH. split; intros (x & Hin & -> & Hx).
    + exists x. split; [by right|done].
    + exists x. apply elem_of_cons in Hin as [[= -> ->]|Hin]; [by apply Hb in Hx|done].
Qed.

Lemma isOAS3_json spec : isOAS3 spec = true → isOAS3Helper (specJson spec) = Ok true.
Proof.
  unfold isOAS3. destruct (is_map (specJson spec)) eqn:E; [|done]. destruct (isOAS3Helper (specJson spec)); by try intros ->.
Qed.

Ltac read_field := unfold set_all; cbn [foldl fst snd]; repeat (rewrite assoc_oset_ne by done); rewrite ?assoc_oset_eq; try done.

(** The server chosen for the operation, or else for all of them. *)
Definition chosen_server (oas3 : jsval) (path method : string) : jsval :=
  or_else (or_else (getIn oas3 [path +:+ ":" +:+ method; "selectedServer"]) (JStr ""))
          (or_else (getIn oas3 ["selectedServer"]) (JStr "")).

Definition variables_of (oas3 : jsval) (server : string) (namespace : string) : jsval :=
  or_else (getIn oas3 (in_namespace namespace ["serverVariableValues"; server])) (JObj []).

Definition inclusion_of (oas3 : jsval) (path method : string) : jsval :=
  or_else (getIn oas3 ["requestData"; path; method; "bodyInclusion"]) (JObj []).

(** The variables of the server: those of the operation, if it has any, or else those for all. *)
Definition chosen_variables (oas3 : jsval) (path method : string) : jsval :=
  let server := to_string (chosen_server oas3 path method) in
  match variables_of oas3 server (path +:+ ":" +:+ method) with JObj [] => variables_of oas3 server "" | v => v end.

(** What is sent of the body that was entered: of a form exactly the fields with a value and those marked
    for inclusion, of a list the items with a value, and everything else as it is. *)
Definition body_sent (body inclusion sent : jsval) : Prop :=
  match body with
  | JObj fs => ∃ gs, sent = JObj gs ∧ ∀ k v, (k, v) ∈ gs ↔ ∃ val, (k, val) ∈ fs ∧ v = field_value val ∧
                 (isEmptyValue v = false ∨ truthy (map_get inclusion k) = true)
  | JArr l => ∃ l', sent = JArr l' ∧ ∀ v, v ∈ l' ↔ v ∈ map field_value l ∧ isEmptyValue v = false
  | v => sent = or_null v
  end.

Lemma sent_body_spec body incl : ∃ sent, sent_body (or_null body) (JObj incl) = Ok sent ∧ body_sent body (JObj incl) sent.
Proof.
  destruct body as [| |b|m e| |s|l|fs|n m fs]; try (eexists; split; [|reflexivity]; done).
  - exists (or_null (JBool b)). by destruct b.
  - exists (or_null (JNum m e)). split; [|done]. unfold or_null. by destruct (truthy _).
  - exists (or_null (JStr s)). split; [|done]. unfold or_null. by destruct (truthy _).
  - eexists. split; [reflexivity|]. eexists. split; [reflexivity|]. intros v.
    rewrite !list_elem_of_In, filter_In, negb_true_iff. done.
  - destruct (sent_fields_spec incl fs) as (sent & E & Hs). exists (JObj sent). change (or_null (JObj fs)) with (JObj fs).
    cbn [sent_body]. rewrite E. split; [done|]. by exists sent.
Qed.

(** C7: the request of an OpenAPI 3 operation is put together from what the user chose. It goes to the
    server chosen for the operation or else to the one chosen for all, with the variables of the
    operation or else those for all, the chosen content types, and the body that was entered: of a form
    exactly the fields with a value and those marked for inclusion, any other body as it is. Its parameters
    are the entered values, except that those parameters that allow an empty value, have none and were
    marked for inclusion are sent as the empty text under their name. The names of the parameters must
    differ from the identifiers (place and name) of all of them, and the store hold maps where it keeps
    variables and inclusions. *)
Theorem request_contents spec oas3 ofs ps path method req parameters :
  isOAS3 spec = true → default (JArr []) (assoc ofs "parameters") = JArr ps → Forall (λ p, own_name ps p = true) ps →
  (∀ ns, is_map (variables_of oas3 (to_string (chosen_server oas3 path method)) ns) = true) →
  is_map (inclusion_of oas3 path method) = true →
  ∃ req' sent parameters', executed_request spec oas3 (JObj ofs) path method req parameters = Ok req' ∧
    assoc req' "server" = Some (chosen_server oas3 path method) ∧
    assoc req' "serverVariables" = Some (chosen_variables oas3 path method) ∧
    assoc req' "requestContentType" = Some (or_null (getIn oas3 ["requestData"; path; method; "requestContentType"])) ∧
    assoc req' "responseContentType" =
      Some (or_else (or_null (getIn oas3 ["requestData"; path; method; "responseContentType"])) (JStr "*/*")) ∧
    assoc req' "requestBody" = Some sent ∧
    body_sent (getIn oas3 (body_path path method)) (inclusion_of oas3 path method) sent ∧
    assoc req' "parameters" = Some (JObj parameters') ∧
    (∀ k, assoc parameters' k = if existsb (λ p, String.eqb (name_of p) k && sent_empty spec [path; method] parameters p) ps
                                then Some (JStr "") else assoc parameters k).
Proof.
  intros Ho Hps Hall Hvars Hincl. pose proof (isOAS3_json spec Ho) as Hj.
  destruct (explicit_parameters_spec spec [path; method] ofs ps parameters Hps Hall) as (params' & Ep & Hk).
  destruct (inclusion_of oas3 path method) as [| | | | | | |incl|] eqn:Ei; try done.
  destruct (sent_body_spec (getIn oas3 (body_path path method)) incl) as (sent & Es & Hs).
  unfold executed_request. cbn [toJS]. rewrite ok_bind, Ep, ok_bind, Ho. cbv zeta.
  match goal with |- context [oas3_request _ _ _ _ ?r] => assert (assoc r "parameters" = Some (JObj params')) as Hp; [|set (req1 := r) in *] end.
  { destruct (truthy _); [by read_field|]. destruct (_ && _); by read_field. }
  unfold oas3_request, selectedServer, serverVariables, requestContentType, responseContentType, requestBodyValue,
    requestBodyInclusionSetting, onlyOAS3. rewrite Hj, !ok_bind. fold (inclusion_of oas3 path method). rewrite Ei.
  assert (in_namespace (path +:+ ":" +:+ method) ["selectedServer"] = [path +:+ ":" +:+ method; "selectedServer"]) as ->
    by (unfold in_namespace; by destruct path).
  change (in_namespace "" ["selectedServer"]) with ["selectedServer"]. fold (chosen_server oas3 path method).
  unfold chosen_variables. set (server := chosen_server oas3 path method) in *.
  fold (variables_of oas3 (to_string server) (path +:+ ":" +:+ method)). fold (variables_of oas3 (to_string server) "").
  pose proof (Hvars (path +:+ ":" +:+ method)) as H1. pose proof (Hvars "") as H2.
  destruct (variables_of oas3 (to_string server) (path +:+ ":" +:+ method)) as [| | | | | | |v1|]; try done.
  destruct (variables_of oas3 (to_string server) "") as [| | | | | | |v2|]; try done.
  change (toJS (JObj ?x)) with (Ok (JObj x)). rewrite !ok_bind. change (toJS (JObj ?x)) with (Ok (JObj x)).
  rewrite !ok_bind, Es, !ok_bind. eexists _, sent, params'. split; [reflexivity|].
  split_and!; try done; read_field. by destruct v1.
Qed.
End Contents.

(** * Witnesses and examples *)

#[export] Instance client_echo : SwaggerClient := {|
  buildRequest := λ req, Ok (JObj req); opId := λ _ path method, JStr (method +:+ path); parse_href := to_string |}.

#[export] Existing Instance date_invalid.

Definition echo_operation : jsval := JObj [("operationId", JStr "listRuntimes"); ("parameters", JArr [
  JObj [("name", JStr "page"); ("in", JStr "query"); ("allowEmptyValue", JBool true)];
  JObj [("name", JStr "state"); ("in", JStr "query")]])].

Definition request_spec : jsval := JObj [("url", JStr "https://keb/swagger.yaml");
  ("json", JObj [("openapi", JStr "3.0.0"); ("paths", JObj [("/runtimes", JObj [("get", echo_operation)])])]);
  ("meta", JObj [("paths", JObj [("/runtimes", JObj [("get", JObj [
     ("parameters", JObj [("query.state", JObj [("value", JStr "failed")])]);
     ("parameter_inclusions", JObj [("query.page", JBool true)])])])])])].

Definition request_oas3 : jsval := JObj [("selectedServer", JStr "https://keb");
  ("requestData", JObj [("/runtimes", JObj [("get", JObj [
     ("bodyValue", JObj [("a", JObj [("value", JStr "1")]); ("b", JObj [("value", JStr "")]); ("c", JObj [("value", JStr "")])]);
     ("bodyInclusion", JObj [("c", JBool true)])])])])].

Lemma execution_answered_witness :
  ∃ r, lookIn (xs_spec (settle (Pending "/runtimes" "get" 5) (Throw (JErr "TypeError" "Failed to fetch" [])) 7
                          (XState request_spec request_oas3 [] [] []))) ["responses"; "/runtimes"; "get"] = Some (JObj r) ∧
       assoc r "message" = Some (JStr failed_to_fetch).
Proof.
  destruct (execution_answered (Pending "/runtimes" "get" 5) (Throw (JErr "TypeError" "Failed to fetch" [])) 7
    (XState request_spec request_oas3 [] [] []) eq_refl (conj (NoDup_nil_2) I)) as (r & H1 & H2 & _).
  exists r. split; [exact H1|]. apply (H2 "message" (JStr failed_to_fetch)). right. right. left.
Defined.

Lemma request_contents_witness : ∃ req' parameters',
  executed_request request_spec request_oas3 echo_operation "/runtimes" "get" [] [("query.state", JStr "failed"); ("query.page", JUndef)] = Ok req' ∧
  assoc req' "server" = Some (JStr "https://keb") ∧
  assoc req' "parameters" = Some (JObj parameters') ∧ assoc parameters' "page" = Some (JStr "").
Proof.
  destruct (request_contents request_spec request_oas3 (fields_of echo_operation)
    [JObj [("name", JStr "page"); ("in", JStr "query"); ("allowEmptyValue", JBool true)];
     JObj [("name", JStr "state"); ("in", JStr "query")]] "/runtimes" "get" [] [("query.state", JStr "failed"); ("query.page", JUndef)]
    eq_refl eq_refl)
    as (req' & sent & ps' & H1 & H2 & _ & _ & _ & _ & _ & H3 & H4).
  - repeat constructor.
  - intros ns. unfold variables_of, in_namespace. destruct (String.eqb ns ""); [reflexivity|]. cbn [getIn request_oas3 assoc].
    destruct (String.eqb "selectedServer" ns); [reflexivity|].
    destruct (String.eqb "requestData" ns); [|reflexivity]. reflexivity.
  - reflexivity.
  - exists req', ps'. split_and!; [exact H1|rewrite H2; reflexivity|exact H3|]. rewrite H4. vm_compute. reflexivity.
Defined.

(** The request of the example, with the empty parameter and the fields that are sent. *)
Example request_example :
  match executed_request request_spec request_oas3 echo_operation "/runtimes" "get" [] [("query.state", JStr "failed"); ("query.page", JUndef)] with
  | Ok req => (assoc req "parameters", assoc req "requestBody", assoc req "operationId")
  | _ => (None, None, None)
  end = (Some (JObj [("query.state", JStr "failed"); ("query.page", JUndef); ("page", JStr "")]),
         Some (JObj [("a", JStr "1"); ("c", JStr "")]), Some (JStr "listRuntimes")).
Proof. vm_compute. reflexivity. Qed.

Definition x0 : xstate := XState request_spec request_oas3 [] [] [].

Lemma responses_own_witness :
  let st := settle (Pending "/runtimes" "get" 5) (Ok (JObj [("status", JInt 200)])) 9
              (without [] [] (execute echo_operation "/runtimes" "get" 5 x0)) in
  fits spec_shape (xs_spec st) = true ∧ xs_started st ≡ₚ [] ++ [Pending "/runtimes" "get" 5].
Proof.
  destruct (responses_own request_spec request_oas3 (settle (Pending "/runtimes" "get" 5) (Ok (JObj [("status", JInt 200)])) 9
              (without [] [] (execute echo_operation "/runtimes" "get" 5 x0))) eq_refl eq_refl) as (H1 & _ & H3); [|exact (conj H1 H3)].
  eapply rtc_l; [apply (x_execute x0 echo_operation "/runtimes" "get" 5)|].
  eapply rtc_l; [|apply rtc_refl]. apply (x_settle _ [] (Pending "/runtimes" "get" 5) []); [vm_compute; reflexivity|discriminate].
Defined.

(** Two executions of one operation: the answer that arrives last is shown, also when it answers
    the first one. *)
Example last_answer_wins :
  let st := execute echo_operation "/runtimes" "get" 2 (execute echo_operation "/runtimes" "get" 1 x0) in
  let st := settle (Pending "/runtimes" "get" 2) (Ok (JObj [("status", JInt 200)])) 3 (without [Pending "/runtimes" "get" 1] [] st) in
  let st := settle (Pending "/runtimes" "get" 1) (Ok (JObj [("status", JInt 500)])) 4 (without [] [] st) in
  getIn (xs_spec st) ["responses"; "/runtimes"; "get"; "status"] = JInt 500.
Proof. vm_compute. reflexivity. Qed.

(** An operation with form data of Swagger 2 has no default content type: the parameter is looked
    up by its type instead of its place. *)
Example form_data_default :
  contentTypeValues (JObj [("json", JObj [("swagger", JStr "2.0"); ("paths", JObj [("/p", JObj [("post", JObj [
      ("parameters", JArr [JObj [("name", JStr "a"); ("in", JStr "formData"); ("type", JStr "string")]])])])])])]) ["/p"; "post"]
  = Ok (JUndef, JStr "application/json").
Proof. vm_compute. reflexivity. Qed.
