(* ===== verification/SwSystem.v ===== *)
(** Swagger UI, the registration of plugins: combinePlugins, systemExtend, the wrapped actions and the
    wrapped components of core/system.js, over a model of objects with functions as opaque values.
    A plugin is an object, a function of the system that gives a plugin, or a list of plugins. *)

From S2P Require Import Prelude JsValue SwUtils.

(** * Values with functions *)

(** A function is known by a number; [VPrim] is any value that is neither function, array nor object. *)
Unset Elimination Schemes.
Inductive val :=
| VPrim (v : jsval)
| VFn (f : nat)
| VArr (l : list val)
| VObj (fs : list (string * val)).
Set Elimination Schemes.

Definition vtruthy (v : val) : bool := match v with VPrim p => truthy p | _ => true end.
Definition vget (v : val) (k : string) : option val := match v with VObj fs => aget fs k | _ => None end.
Definition isObject (v : val) : bool := match v with VArr _ | VObj _ => true | _ => false end.

(** * deepExtend *)

(** The value that [deepExtend] stores for a key: objects are merged into objects, everything else
    replaces what was there. *)
Fixpoint ext (old : option val) (v : val) : val :=
  match v with
  | VObj gs =>
      VObj ((fix go (acc gs : list (string * val)) : list (string * val) :=
               match gs with [] => acc | (k, x) :: r => go (aset acc k (ext (aget acc k) x)) r end)
              (match old with Some (VObj os) => os | _ => [] end) gs)
  | v => v
  end.

Fixpoint extend (acc gs : list (string * val)) : list (string * val) :=
  match gs with [] => acc | (k, x) :: r => extend (aset acc k (ext (aget acc k) x)) r end.

Definition deepExtend (dest src : val) : val :=
  match dest, src with VObj os, VObj gs => VObj (extend os gs) | _, _ => dest end.

(** * systemExtend *)

(** One wrapper of [wrapComponents]: appended to the component, if there is one. *)
Definition wrap_component (components : list (string * val)) (key : string) (wrapperFn : val) : option (list (string * val)) :=
  match aget components key with
  | Some (VArr l) => Some (aset components key (VArr (l ++ [wrapperFn])))
  | Some ori => if vtruthy ori then Some (aset components key (VArr [ori; wrapperFn])) else None
  | None => None
  end.

(** All of them: the components and the wrappers that found no component. *)
Fixpoint wrap_all (components wrappers : list (string * val)) : list (string * val) * list (string * val) :=
  match wrappers with
  | [] => (components, [])
  | (key, w) :: r =>
      match wrap_component components key w with
      | Some components' => wrap_all components' r
      | None => let '(c, unmatched) := wrap_all components r in (c, (key, w) :: unmatched)
      end
  end.

Definition with_components (dest src : list (string * val)) : list (string * val) * list (string * val) :=
  match aget src "wrapComponents" with
  | Some w =>
      if vtruthy w then
        match w, aget dest "components" with
        | VObj ws, Some (VObj cs) =>
            let '(cs', unmatched) := wrap_all cs ws in
            (aset dest "components" (VObj cs'),
             match unmatched with [] => adel src "wrapComponents" | _ => aset src "wrapComponents" (VObj unmatched) end)
        | VObj (_ :: _), _ => (dest, src)
        | _, _ => (dest, adel src "wrapComponents")
        end
      else (dest, src)
  | None => (dest, src)
  end.

Definition to_arr (v : val) : list val := match v with VArr l => l | v => [v] end.

Definition map_values (f : string → val → val) (fs : list (string * val)) : list (string * val) :=
  map (λ kv, (kv.1, f kv.1 kv.2)) fs.

(** [f] on every entry of [statePlugins[namespace].wrapActions], with the namespace and the name. *)
Definition map_wrappers (f : string → string → val → val) (sys : list (string * val)) : list (string * val) :=
  match aget sys "statePlugins" with
  | Some (VObj nss) =>
      aset sys "statePlugins" (VObj (map_values (λ ns v,
        match v with
        | VObj nfs =>
            match aget nfs "wrapActions" with
            | Some (VObj ws) => VObj (aset nfs "wrapActions" (VObj (map_values (f ns) ws)))
            | _ => v
            end
        | v => v
        end) nss))
  | _ => sys
  end.

(** [statePlugins[namespace].wrapActions[name]]. *)
Definition wrap_entry (sys : list (string * val)) (ns name : string) : option val :=
  sp ← aget sys "statePlugins"; n ← vget sp ns; w ← vget n "wrapActions"; vget w name.

(** The wrappers of the destination become arrays, and those of the source are put behind them. *)
Definition in_array (_ _ : string) (v : val) : val := VArr (to_arr v).
Definition behind (dest : list (string * val)) (ns name : string) (v : val) : val :=
  match wrap_entry dest ns name with
  | Some d => if vtruthy v then VArr (to_arr d ++ to_arr v) else v
  | None => v
  end.

Definition systemExtend (dest src : val) : val :=
  match dest, src with
  | VObj d, VObj s =>
      let '(d, s) := with_components d s in
      deepExtend (VObj (map_wrappers in_array d)) (VObj (map_wrappers (behind d) s))
  | _, _ => if isObject dest then dest else VObj []
  end.

(** * combinePlugins *)

Section Plugins.
Context {T : Type}.

Unset Elimination Schemes.
Inductive plugins :=
| PObj (p : list (string * val))
| PFun (f : T → plugins)
| PArr (l : list plugins)
| POther.
Set Elimination Schemes.

Fixpoint combinePlugins (toolbox : T) (p : plugins) : val :=
  match p with
  | PObj p => VObj p
  | PFun f => combinePlugins toolbox (f toolbox)
  | PArr l => (fix go (acc : val) (l : list plugins) : val :=
                 match l with [] => acc | q :: r => go (systemExtend acc (combinePlugins toolbox q)) r end) (VObj []) l
  | POther => VObj []
  end.

(** The plugins of a tree in the order of registration. *)
Fixpoint leaves (toolbox : T) (p : plugins) : list (list (string * val)) :=
  match p with
  | PObj p => [p]
  | PFun f => leaves toolbox (f toolbox)
  | PArr l => (fix go (l : list plugins) := match l with [] => [] | q :: r => leaves toolbox q ++ go r end) l
  | POther => []
  end.
End Plugins.
Arguments plugins : clear implicits.

(** [register]: the combined plugins extend the system. *)
Definition register {T} (system : val) (toolbox : T) (p : plugins T) : val := systemExtend system (combinePlugins toolbox p).

(** * Wrapped actions and components *)

(** The wrappers of an action, as [getWrappedAndBoundActions] reads them. *)
Definition wrappers (sys : val) (ns name : string) : list val :=
  match sys with
  | VObj fs => match wrap_entry fs ns name with Some v => if vtruthy v then to_arr v else [] | None => [] end
  | _ => []
  end.

(** The action inside all its wrappers, the last one outermost; [call f] is the function [f]
    applied to the wrapped action and the system. *)
Definition wrapped_action {A} (call : val → A → A) (sys : val) (ns name : string) (action : A) : A :=
  foldl (λ acc fn, call fn acc) action (wrappers sys ns name).

(** [getComponents]: a list is a component with its wrappers. *)
Definition component_chain (sys : val) (key : string) : list val :=
  match (cs ← vget sys "components"; vget cs key) with Some v => to_arr v | None => [] end.

(** * Lemmas: deepExtend *)

Lemma ext_obj old gs : ext old (VObj gs) = VObj (extend (match old with Some (VObj os) => os | _ => [] end) gs).
Proof. reflexivity. Qed.

Lemma extend_get acc gs k : NoDup (map fst gs) →
  aget (extend acc gs) k = match aget gs k with Some v => Some (ext (aget acc k) v) | None => aget acc k end.
Proof.
  revert acc. induction gs as [|[j x] gs IH]; intros acc; [done|]. cbn [map fst extend aget]. intros [Hj Hg]%NoDup_cons.
  rewrite IH by done. destruct (String.eqb_spec j k) as [<-|Hne].
  - assert (aget gs j = None) as -> by (by apply aget_None). apply aget_aset_eq.
  - by rewrite !aget_aset_ne.
Qed.

Lemma aset_keys {A} (o : list (string * A)) k v : map fst (aset o k v) = map fst o ++ if decide (k ∈ map fst o) then [] else [k].
Proof.
  induction o as [|[j u] o IH]; [done|]. cbn [aset map fst app]. destruct (String.eqb_spec j k) as [->|Hne]; cbn [map fst].
  - rewrite decide_True by left. by rewrite app_nil_r.
  - rewrite IH. do 2 f_equal. apply decide_ext. rewrite elem_of_cons. naive_solver.
Qed.

Lemma aset_NoDup {A} (o : list (string * A)) k v : NoDup (map fst o) → NoDup (map fst (aset o k v)).
Proof.
  intros Ho. rewrite aset_keys. case_decide; [by rewrite app_nil_r|].
  apply NoDup_app. split_and!; [done| |apply NoDup_singleton]. intros x Hx ->%list_elem_of_singleton. done.
Qed.

Lemma extend_NoDup acc gs : NoDup (map fst acc) → NoDup (map fst (extend acc gs)).
Proof.
  revert acc. induction gs as [|[k x] gs IH]; intros acc Ha; [done|]. cbn [extend]. apply IH. by apply aset_NoDup.
Qed.

Lemma aget_map_values f fs k : aget (map_values f fs) k = f k <$> aget fs k.
Proof.
  induction fs as [|[j x] fs IH]; [done|]. cbn [map_values map aget fst snd]. destruct (String.eqb_spec j k) as [->|]; [done|].
  apply IH.
Qed.

Lemma map_values_keys f fs : map fst (map_values f fs) = map fst fs.
Proof. unfold map_values. rewrite map_map. done. Qed.

Lemma aget_adel_ne {A} (o : list (string * A)) k j : j ≠ k → aget (adel o k) j = aget o j.
Proof.
  intros Hne. unfold adel. induction o as [|[i u] o IH]; [done|]. rewrite filter_cons. cbn [fst].
  destruct (String.eqb_spec i k) as [->|Hi].
  - rewrite decide_False by done. cbn [aget]. destruct (String.eqb_spec k j); [congruence|done].
  - rewrite decide_True by done. cbn [aget]. by destruct (String.eqb i j).
Qed.

Lemma adel_NoDup {A} (o : list (string * A)) k : NoDup (map fst o) → NoDup (map fst (adel o k)).
Proof.
  intros H. unfold adel. induction o as [|[i u] o IH]; [done|]. cbn [map fst] in H. apply NoDup_cons in H as [Hi Ho].
  rewrite filter_cons. case_decide; [|by apply IH]. cbn [map fst]. constructor; [|by apply IH].
  intros (x & Hx & Hin)%list_elem_of_fmap. apply list_elem_of_filter in Hin as [_ Hin]. apply Hi, list_elem_of_fmap. eauto.
Qed.

(** * The shape of plugins *)

(** Wrappers of actions are functions or lists of functions. *)
Definition wrapper_ok (v : val) : Prop := match v with VFn _ | VArr _ => True | _ => False end.

Definition obj_of (P : string → val → Prop) (v : val) : Prop :=
  match v with VObj fs => NoDup (map fst fs) ∧ ∀ k x, aget fs k = Some x → P k x | _ => False end.

Definition namespace_ok (v : val) : Prop :=
  obj_of (λ k x, k = "wrapActions" → obj_of (λ _, wrapper_ok) x) v.

Definition plugin_ok (fs : list (string * val)) : Prop :=
  obj_of (λ k x, k = "statePlugins" → obj_of (λ _, namespace_ok) x) (VObj fs).

(** ** The wrappers of an extension *)

Definition entry_list (o : option val) : list val := match o with Some v => if vtruthy v then to_arr v else [] | None => [] end.

Lemma wrapper_truthy v : wrapper_ok v → vtruthy v = true.
Proof. by destruct v. Qed.

Lemma wrap_entry_map f fs ns name : wrap_entry (map_wrappers f fs) ns name = f ns name <$> wrap_entry fs ns name.
Proof.
  unfold wrap_entry, map_wrappers. destruct (aget fs "statePlugins") as [[| | |nss]|] eqn:E; rewrite ?E; try done.
  rewrite aget_aset_eq. cbn [mbind option_bind vget]. rewrite aget_map_values. destruct (aget nss ns) as [[| | |nfs]|]; try done.
  cbn [fmap option_fmap option_map mbind option_bind vget]. destruct (aget nfs "wrapActions") as [[| | |ws]|] eqn:Ew; cbn [vget]; rewrite ?Ew; try done.
  rewrite aget_aset_eq. cbn [mbind option_bind vget]. by rewrite aget_map_values.
Qed.

(** What [map_wrappers] leaves as it is. *)
Lemma map_wrappers_other f fs k : k ≠ "statePlugins" → aget (map_wrappers f fs) k = aget fs k.
Proof. intros Hk. unfold map_wrappers. destruct (aget fs "statePlugins") as [[]|]; try done. by apply aget_aset_ne. Qed.

Lemma obj_of_impl (P Q : string → val → Prop) v : (∀ k x, P k x → Q k x) → obj_of P v → obj_of Q v.
Proof. destruct v; try done. intros H [Hn Hp]. split; [done|]. auto. Qed.

Lemma obj_of_map P Q f fs : (∀ k x, P k x → Q k (f k x)) → obj_of P (VObj fs) → obj_of Q (VObj (map_values f fs)).
Proof.
  intros H [Hn Hp]. split; [by rewrite map_values_keys|]. intros k x. rewrite aget_map_values.
  destruct (aget fs k) as [y|] eqn:E; [|done]. intros [= <-]. auto.
Qed.

Lemma obj_of_set P fs k x : obj_of P (VObj fs) → P k x → obj_of P (VObj (aset fs k x)).
Proof.
  intros [Hn Hp] Hx. split; [by apply aset_NoDup|]. intros j y. destruct (decide (j = k)) as [->|Hne].
  - rewrite aget_aset_eq. by intros [= <-].
  - rewrite aget_aset_ne by done. apply Hp.
Qed.

Lemma map_wrappers_ok f fs : (∀ ns name v, wrapper_ok v → wrapper_ok (f ns name v)) → plugin_ok fs → plugin_ok (map_wrappers f fs).
Proof.
  intros Hf Hok. unfold map_wrappers. destruct (aget fs "statePlugins") as [sp|] eqn:E; [|done].
  pose proof (proj2 Hok _ _ E eq_refl) as Hsp. destruct sp as [| | |nss]; try done.
  apply obj_of_set; [done|]. intros _. apply (obj_of_map (λ _, namespace_ok)); [|done]. intros ns v Hv.
  destruct v as [| | |nfs]; try done. destruct (aget nfs "wrapActions") as [w|] eqn:Ew; [|done].
  pose proof (proj2 Hv _ _ Ew eq_refl) as Hw. destruct w as [| | |ws]; try done.
  apply obj_of_set; [done|]. intros _. by apply (obj_of_map (λ _, wrapper_ok)); [intros; apply Hf|].
Qed.

(** ** Merging keeps shapes *)

Definition mergeable (P : val → Prop) : Prop :=
  (∀ a b, P a → P b → P (ext (Some a) b)) ∧ (∀ b, P b → P (ext None b)).

Lemma obj_of_extend P d s : (∀ k, mergeable (P k)) → obj_of P (VObj d) → obj_of P (VObj s) → obj_of P (VObj (extend d s)).
Proof.
  intros HP [Hd Pd] [Hs Ps]. split; [by apply extend_NoDup|]. intros k x. rewrite extend_get by done.
  destruct (aget s k) as [y|] eqn:Es; [|apply Pd]. intros [= <-]. destruct (HP k) as [H1 H2].
  destruct (aget d k) as [z|] eqn:Ed; [by eauto|by auto].
Qed.

Lemma mergeable_obj P : (∀ k, mergeable (P k)) → mergeable (obj_of P).
Proof.
  intros HP. split.
  - intros [] []; try done. rewrite ext_obj. by apply obj_of_extend.
  - intros []; try done. rewrite ext_obj. apply obj_of_extend; [done|]. split; [constructor|done].
Qed.

Lemma mergeable_wrapper : mergeable wrapper_ok.
Proof. split; [by intros a []|by intros []]. Qed.

Lemma mergeable_if (c : Prop) P : mergeable P → mergeable (λ x, c → P x).
Proof. intros [H1 H2]. split; auto. Qed.

Lemma extend_plugin_ok d s : plugin_ok d → plugin_ok s → plugin_ok (extend d s).
Proof.
  apply obj_of_extend. intros k. apply mergeable_if, mergeable_obj. intros ns. apply mergeable_obj. intros j.
  apply mergeable_if, mergeable_obj. intros name. apply mergeable_wrapper.
Qed.

Lemma vget_ext P old v k : obj_of P v →
  vget (ext old v) k = match vget v k with Some y => Some (ext (o ← old; vget o k) y) | None => o ← old; vget o k end.
Proof.
  destruct v as [| | |gs]; try done. intros [Hn _]. rewrite ext_obj. cbn [vget]. rewrite extend_get by done.
  by destruct old as [[]|]; destruct (aget gs k).
Qed.

(** The wrapper of an action after a merge is the one of the source, if there is one. *)
Lemma wrap_entry_extend d s ns name : plugin_ok s →
  wrap_entry (extend d s) ns name = match wrap_entry s ns name with Some v => Some v | None => wrap_entry d ns name end.
Proof.
  intros Hs. unfold wrap_entry. rewrite extend_get by apply Hs. destruct (aget s "statePlugins") as [sp|] eqn:E1; [|done].
  cbn [mbind option_bind]. pose proof (proj2 Hs _ _ E1 eq_refl) as Hsp. rewrite (vget_ext _ _ _ _ Hsp).
  destruct (vget sp ns) as [n|] eqn:E2; [|by destruct (aget d "statePlugins")]. cbn [mbind option_bind].
  assert (namespace_ok n) as Hn by (destruct sp; try done; by apply (proj2 Hsp ns)).
  rewrite (vget_ext _ _ _ _ Hn). destruct (vget n "wrapActions") as [w|] eqn:E3;
    [|by (destruct (aget d "statePlugins") as [x|]; [cbn; destruct (vget x ns)|])]. cbn [mbind option_bind].
  assert (obj_of (λ _, wrapper_ok) w) as Hw by (destruct n; try done; by apply (proj2 Hn _ _ E3)).
  rewrite (vget_ext _ _ _ _ Hw). destruct (vget w name) as [v|] eqn:E4.
  - assert (wrapper_ok v) as Hv by (destruct w; try done; by apply (proj2 Hw name)). by destruct v.
  - destruct (aget d "statePlugins") as [x|]; [|done]. cbn. destruct (vget x ns) as [y|]; [|done]. cbn. done.
Qed.

Lemma with_components_ok d s : plugin_ok d → plugin_ok s →
  let ds := with_components d s in
  plugin_ok ds.1 ∧ plugin_ok ds.2 ∧ (∀ ns name, wrap_entry ds.1 ns name = wrap_entry d ns name) ∧
  (∀ ns name, wrap_entry ds.2 ns name = wrap_entry s ns name).
Proof.
  intros Hd Hs. cbv zeta.
  assert (∀ fs k x, k ≠ "statePlugins" → plugin_ok fs → plugin_ok (aset fs k x) ∧
            ∀ ns name, wrap_entry (aset fs k x) ns name = wrap_entry fs ns name) as Hset.
  { intros fs k x Hk Hf. split; [by apply obj_of_set|]. intros ns name. unfold wrap_entry. by rewrite aget_aset_ne. }
  assert (∀ fs, plugin_ok fs → plugin_ok (adel fs "wrapComponents") ∧
            ∀ ns name, wrap_entry (adel fs "wrapComponents") ns name = wrap_entry fs ns name) as Hdel.
  { intros fs [Hn Hf]. split; [split; [by apply adel_NoDup|]|].
    - intros k x Hk ->. rewrite aget_adel_ne in Hk by done. by eapply Hf.
    - intros ns name. unfold wrap_entry. by rewrite aget_adel_ne. }
  assert (∀ d' s', (plugin_ok d' ∧ ∀ ns name, wrap_entry d' ns name = wrap_entry d ns name) →
                   (plugin_ok s' ∧ ∀ ns name, wrap_entry s' ns name = wrap_entry s ns name) →
    plugin_ok d' ∧ plugin_ok s' ∧ (∀ ns name, wrap_entry d' ns name = wrap_entry d ns name) ∧
    (∀ ns name, wrap_entry s' ns name = wrap_entry s ns name)) as Hall by tauto.
  unfold with_components. destruct (aget s "wrapComponents") as [w|]; [|by apply Hall]. destruct (vtruthy w); [|by apply Hall].
  destruct w as [| | |ws]; [apply Hall; [done|by apply Hdel]..|].
  destruct (aget d "components") as [[| | |cs]|].
  1-3,5: destruct ws; apply Hall; try done; by apply Hdel.
  destruct (wrap_all cs ws) as [cs' unmatched]. destruct ws, unmatched; apply Hall; by first [apply Hset | apply Hdel].
Qed.

Lemma in_array_ok ns name v : wrapper_ok v → wrapper_ok (in_array ns name v).
Proof. done. Qed.

Lemma behind_ok d ns name v : wrapper_ok v → wrapper_ok (behind d ns name v).
Proof. intros Hv. unfold behind. destruct (wrap_entry d ns name); [|done]. by rewrite wrapper_truthy. Qed.

Lemma systemExtend_ok d s : plugin_ok d → plugin_ok s →
  ∃ r, systemExtend (VObj d) (VObj s) = VObj r ∧ plugin_ok r ∧
    ∀ ns name, wrappers (VObj r) ns name = wrappers (VObj d) ns name ++ wrappers (VObj s) ns name.
Proof.
  intros Hd Hs. unfold systemExtend. pose proof (with_components_ok d s Hd Hs) as (Hd' & Hs' & Ed & Es).
  destruct (with_components d s) as [d' s']. cbn [fst snd] in *. cbn [deepExtend]. eexists. split; [reflexivity|].
  assert (plugin_ok (map_wrappers (behind d') s')) as Hb by (apply map_wrappers_ok; [apply behind_ok|done]).
  split; [apply extend_plugin_ok; [apply map_wrappers_ok; [apply in_array_ok|done]|done]|].
  intros ns name. unfold wrappers. rewrite wrap_entry_extend by done. rewrite !wrap_entry_map, Ed, Es.
  assert (∀ fs v, plugin_ok fs → wrap_entry fs ns name = Some v → vtruthy v = true) as Ht.
  { intros fs v Hf. unfold wrap_entry. destruct (aget fs "statePlugins") as [sp|] eqn:E1; [|done].
    pose proof (proj2 Hf _ _ E1 eq_refl) as Hsp. destruct sp as [| | |nss]; try done. cbn [mbind option_bind vget].
    destruct (aget nss ns) as [n|] eqn:E2; [|done]. pose proof (proj2 Hsp _ _ E2) as Hn. destruct n as [| | |nfs]; try done.
    cbn [mbind option_bind vget]. destruct (aget nfs "wrapActions") as [w|] eqn:E3; [|done].
    pose proof (proj2 Hn _ _ E3 eq_refl) as Hw. destruct w as [| | |ws]; try done. cbn [mbind option_bind vget].
    intros E4. apply wrapper_truthy. by apply (proj2 Hw name). }
  destruct (wrap_entry s ns name) as [v|] eqn:Ev, (wrap_entry d ns name) as [u|] eqn:Eu; cbn [fmap option_fmap option_map];
    unfold behind; rewrite ?Ed, ?Eu.
  - by rewrite (Ht s v), (Ht d u).
  - by rewrite (Ht s v).
  - rewrite (Ht d u) by done. cbn. by rewrite app_nil_r.
  - done.
Qed.

(** ** Trees of plugins *)

Definition flat_wrappers (ps : list (list (string * val))) (ns name : string) : list val :=
  concat (map (λ p, wrappers (VObj p) ns name) ps).

Section Trees.
Context {T : Type} (toolbox : T).

Fixpoint tree_ind (P : plugins T → Prop) (H1 : ∀ p, P (PObj p)) (H2 : ∀ f, (∀ t, P (f t)) → P (PFun f))
    (H3 : ∀ l, Forall P l → P (PArr l)) (H4 : P POther) (p : plugins T) : P p :=
  match p with
  | PObj p => H1 p
  | PFun f => H2 f (λ t, tree_ind P H1 H2 H3 H4 (f t))
  | PArr l => H3 l ((fix go (l : list (plugins T)) : Forall P l :=
                       match l with [] => Forall_nil_2 _ | q :: r => Forall_cons_2 _ q r (tree_ind P H1 H2 H3 H4 q) (go r) end) l)
  | POther => H4
  end.

Lemma plugin_ok_nil : plugin_ok [].
Proof. split; [constructor|done]. Qed.

Lemma combine_arr l : combinePlugins toolbox (PArr l) = foldl (λ acc q, systemExtend acc (combinePlugins toolbox q)) (VObj []) l.
Proof. cbn [combinePlugins]. generalize (VObj []). induction l as [|q l IH]; intros acc; [done|]. apply IH. Qed.

Lemma leaves_arr l : leaves toolbox (PArr l) = concat (map (leaves toolbox) l).
Proof. induction l as [|q l IH]; [done|]. cbn [leaves map concat]. f_equal. apply IH. Qed.

Lemma combine_spec p : Forall plugin_ok (leaves toolbox p) →
  ∃ r, combinePlugins toolbox p = VObj r ∧ plugin_ok r ∧
    ∀ ns name, wrappers (VObj r) ns name = flat_wrappers (leaves toolbox p) ns name.
Proof.
  induction p as [p|f IH|l IH|] using tree_ind.
  - intros H. cbn [leaves] in H. apply Forall_cons in H as [H _]. exists p. split; [reflexivity|split; [exact H|]]. intros ns name.
    unfold flat_wrappers. cbn [leaves map concat]. by rewrite app_nil_r.
  - apply IH.
  - rewrite combine_arr, leaves_arr.
    assert (∀ acc, plugin_ok acc → Forall plugin_ok (concat (map (leaves toolbox) l)) →
      ∃ r, foldl (λ acc q, systemExtend acc (combinePlugins toolbox q)) (VObj acc) l = VObj r ∧ plugin_ok r ∧
        ∀ ns name, wrappers (VObj r) ns name = wrappers (VObj acc) ns name ++ flat_wrappers (concat (map (leaves toolbox) l)) ns name) as Hgen.
    { induction IH as [|q l Hq _ IHl]; intros acc Hacc Hl; cbn [foldl map concat] in *.
      - exists acc. split; [done|split; [done|]]. intros ns name. by rewrite app_nil_r.
      - apply Forall_app in Hl as [Hlq Hl]. destruct (Hq Hlq) as (rq & -> & Hrq & Hwq).
        destruct (systemExtend_ok acc rq Hacc Hrq) as (r1 & -> & Hr1 & Hw1). destruct (IHl r1 Hr1 Hl) as (r & Er & Hr & Hw).
        exists r. split; [done|split; [done|]]. intros ns name. rewrite Hw, Hw1, Hwq. unfold flat_wrappers.
        by rewrite map_app, concat_app, app_assoc. }
    intros Hl. destruct (Hgen [] plugin_ok_nil Hl) as (r & Er & Hr & Hw). exists r. split; [done|split; [done|]].
    intros ns name. by rewrite Hw.
  - intros _. exists []. split; [done|split; [apply plugin_ok_nil|]]. by intros ns name.
Qed.

(** C16: registering plugins, nested in lists and functions in any way, loses no wrapper of an action:
    the action of the system is the original inside the wrappers it had and then those of all the
    new plugins, in the order in which they are listed. *)
Theorem registration_order {A} (call : val → A → A) system p ns name action :
  plugin_ok system → Forall plugin_ok (leaves toolbox p) →
  wrapped_action call (register (VObj system) toolbox p) ns name action =
  foldl (λ acc fn, call fn acc) (wrapped_action call (VObj system) ns name action) (flat_wrappers (leaves toolbox p) ns name).
Proof.
  intros Hs Hp. unfold register, wrapped_action. destruct (combine_spec p Hp) as (r & -> & Hr & Hw).
  destruct (systemExtend_ok system r Hs Hr) as (r' & -> & _ & Hw'). by rewrite Hw', Hw, foldl_app.
Qed.
End Trees.

(** * Components *)

Lemma wrap_component_get cs key w cs' k : wrap_component cs key w = Some cs' →
  aget cs' k = if decide (k = key) then (λ c, VArr (to_arr c ++ [w])) <$> aget cs key else aget cs k.
Proof.
  unfold wrap_component. intros H. destruct (aget cs key) as [c|] eqn:E; [|done].
  assert (cs' = aset cs key (VArr (to_arr c ++ [w]))) as ->.
  { destruct c; cbn [vtruthy to_arr app] in *; try (destruct (truthy v)); by simplify_eq. }
  destruct (decide (k = key)) as [->|Hne]; [by rewrite aget_aset_eq|by rewrite aget_aset_ne].
Qed.

Lemma wrap_all_get cs ws k c : NoDup (map fst ws) → aget cs k = Some c → vtruthy c = true →
  aget (wrap_all cs ws).1 k = Some (match aget ws k with Some w => VArr (to_arr c ++ [w]) | None => c end).
Proof.
  revert cs c. induction ws as [|[key w] ws IH]; intros cs c Hn Hc Ht; [done|]. cbn [map fst] in Hn. apply NoDup_cons in Hn as [Hk Hn].
  cbn [wrap_all aget]. destruct (wrap_component cs key w) as [cs'|] eqn:E.
  - pose proof (wrap_component_get _ _ _ _ k E) as Hg. destruct (String.eqb_spec key k) as [->|Hne].
    + rewrite decide_True, Hc in Hg by done. rewrite (IH _ _ Hn Hg eq_refl).
      assert (aget ws k = None) as -> by (by apply aget_None). done.
    + rewrite decide_False in Hg by congruence. rewrite Hc in Hg. by apply IH.
  - specialize (IH cs c Hn Hc Ht). destruct (wrap_all cs ws) as [c0 unmatched]. cbv beta iota. cbn [fst] in *.
    destruct (String.eqb_spec key k) as [->|Hne]; [|exact IH]. exfalso. unfold wrap_component in E. rewrite Hc in E.
    destruct c; cbn [vtruthy] in *; rewrite ?Ht in E; discriminate E.
Qed.

(** A plugin that wraps a component of the system puts its wrapper behind those the component
    has, and leaves every other component alone, unless it replaces the component itself. *)
Theorem component_wrapped d s cs ws k c :
  plugin_ok d → plugin_ok s → aget d "components" = Some (VObj cs) → aget s "wrapComponents" = Some (VObj ws) →
  NoDup (map fst ws) → aget s "components" = None → aget cs k = Some c → vtruthy c = true →
  component_chain (systemExtend (VObj d) (VObj s)) k = component_chain (VObj d) k ++ match aget ws k with Some w => [w] | None => [] end.
Proof.
  intros Hd Hs Hdc Hsw Hn Hsc Hc Ht. unfold systemExtend.
  pose proof (with_components_ok d s Hd Hs) as (Hd' & Hs' & _). revert Hd' Hs'. unfold with_components. rewrite Hsw, Hdc.
  change (vtruthy (VObj ws)) with true. cbv iota. pose proof (wrap_all_get cs ws k c Hn Hc Ht) as Hw.
  destruct (wrap_all cs ws) as [cs' unmatched]. cbn [fst] in Hw.
  assert (∀ s', plugin_ok s' → aget s' "components" = None →
    component_chain (deepExtend (VObj (map_wrappers in_array (aset d "components" (VObj cs'))))
      (VObj (map_wrappers (behind (aset d "components" (VObj cs'))) s'))) k =
    component_chain (VObj d) k ++ match aget ws k with Some w => [w] | None => [] end) as Hgen.
  { intros s' Hs' Hno. unfold component_chain. cbn [deepExtend vget]. rewrite extend_get.
    2: { eapply (map_wrappers_ok (behind (aset d "components" (VObj cs')))); [intros; by apply behind_ok|exact Hs']. }
    rewrite !map_wrappers_other, Hno, aget_aset_eq, Hdc by done. cbn [mbind option_bind vget]. rewrite Hw, Hc.
    destruct (aget ws k); cbn [to_arr]; by rewrite ?app_nil_r. }
  assert (aget (adel s "wrapComponents") "components" = None) as H1 by (by rewrite aget_adel_ne).
  destruct ws as [|kw ws'], unmatched as [|kv un]; cbn [fst snd]; intros Hd' Hs'; apply Hgen; try done; by rewrite aget_aset_ne.
Qed.

(** * Examples and witnesses *)

Definition wrap_plugin (ns name : string) (f : nat) : list (string * val) :=
  [("statePlugins", VObj [(ns, VObj [("wrapActions", VObj [(name, VFn f)])])])].

Lemma wrap_plugin_ok ns name f : plugin_ok (wrap_plugin ns name f).
Proof.
  unfold plugin_ok, wrap_plugin, namespace_ok.
  repeat (split; [apply (bool_decide_unpack _); exact I || apply NoDup_singleton|]; intros ? ? H; apply aget_In in H;
          apply list_elem_of_singleton in H as [= -> ->]; try intros _).
  exact I.
Qed.

(** The top bar page: presets first, then plugins given in nested lists and functions. *)
Definition example_plugins : plugins unit :=
  PArr [PArr [PObj (wrap_plugin "configs" "loaded" 1); PFun (λ _, PObj (wrap_plugin "layout" "show" 2))];
        PArr [PObj (wrap_plugin "configs" "loaded" 3)]; POther; PFun (λ _, PArr [PObj (wrap_plugin "configs" "loaded" 4)])].

Lemma registration_order_witness :
  wrapped_action (λ fn l, fn :: l) (register (VObj (wrap_plugin "configs" "loaded" 0)) tt example_plugins) "configs" "loaded" [] =
  [VFn 4; VFn 3; VFn 1; VFn 0].
Proof.
  etrans; [apply (registration_order tt (λ fn l, fn :: l) (wrap_plugin "configs" "loaded" 0) example_plugins "configs" "loaded" [])|reflexivity].
  - apply wrap_plugin_ok.
  - cbn [leaves example_plugins app]. repeat (apply Forall_cons; split; [apply wrap_plugin_ok|]). apply Forall_nil_2.
Defined.

Definition system_x : list (string * val) := [("components", VObj [("X", VFn 1)])].
Definition wraps_x (f : nat) : list (string * val) := [("wrapComponents", VObj [("X", VFn f)])].

Lemma one_key_ok k v : k ≠ "statePlugins" → plugin_ok [(k, v)].
Proof.
  intros Hk. split; [apply NoDup_singleton|]. intros j x H ->. apply aget_In, list_elem_of_singleton in H. congruence.
Qed.

Lemma component_wrapped_witness :
  component_chain (systemExtend (VObj system_x) (VObj (wraps_x 2))) "X" = [VFn 1; VFn 2].
Proof.
  etrans; [apply (component_wrapped system_x (wraps_x 2) [("X", VFn 1)] [("X", VFn 2)] "X" (VFn 1))|reflexivity].
  - by apply one_key_ok.
  - by apply one_key_ok.
  - reflexivity.
  - reflexivity.
  - apply NoDup_singleton.
  - reflexivity.
  - reflexivity.
  - reflexivity.
Defined.

(** Two plugins registered together that wrap one component of the system: the first wrapper is lost. *)
Example wrapper_lost :
  component_chain (register (VObj system_x) tt (PArr [PObj (wraps_x 2); PObj (wraps_x 3)])) "X" = [VFn 1; VFn 3] ∧
  component_chain (register (register (VObj system_x) tt (PObj (wraps_x 2))) tt (PObj (wraps_x 3))) "X" = [VFn 1; VFn 2; VFn 3].
Proof. split; reflexivity. Qed.

(** Wrappers of selectors are not collected: the last plugin wins. *)
Example selector_wrapper_lost :
  let wraps f := [("statePlugins", VObj [("spec", VObj [("wrapSelectors", VObj [("taggedOperations", VFn f)])])])] in
  (sp ← vget (register (VObj []) tt (PArr [PObj (wraps 1); PObj (wraps 2)])) "statePlugins"; ns ← vget sp "spec"; w ← vget ns "wrapSelectors";
   vget w "taggedOperations") = Some (VFn 2).
Proof. reflexivity. Qed.
