(* ===== verification/SwServer.v ===== *)
(** Swagger UI, the servers of an OpenAPI 3 definition: the selector serverEffectiveValue of
    core/plugins/oas3/selectors.js, which fills the variables into the address of a server, and the
    component core/plugins/oas3/components/servers.jsx, which selects a server and sets the default
    values of its variables, also for the servers of one operation (operation-servers.jsx). *)

From S2P Require Import Prelude JsValue Json RegExp JsString SwUtils SwAuth SwStore SwValidate SwImmutable SwSpec SwExecute SwRequest.

(** * Replacing a variable *)

(** Patterns outside the fragment below: the pattern, the replacement and the text. *)
Class RegExpReplace := regexp_replace : string → string → string → result string.

Definition key_char (c : Ascii.ascii) : bool := plain c && negb (is_dot c).

(** The braces of [{n}], [{n,}] and [{n,m}] are a quantifier, with nothing before it to repeat. *)
Definition quantifier (key : string) : bool :=
  match split "," key with
  | [a] => sforall is_digit a && negb (String.eqb a "")
  | [a; b] => sforall is_digit a && negb (String.eqb a "") && sforall is_digit b
  | _ => false
  end.

(** The text that stands for a match: [$$], [$&], dollar backquote and dollar quote are special. *)
Fixpoint substitution (matched before after repl : string) : string :=
  match repl with
  | EmptyString => ""
  | String c r =>
      match r with
      | EmptyString => String c ""
      | String d r' =>
          if (code c =? 36)%N && (code d =? 36)%N then String c (substitution matched before after r')
          else if (code c =? 36)%N && (code d =? 38)%N then matched +:+ substitution matched before after r'
          else if (code c =? 36)%N && (code d =? 96)%N then before +:+ substitution matched before after r'
          else if (code c =? 36)%N && (code d =? 39)%N then after +:+ substitution matched before after r'
          else String c (substitution matched before after r)
      end
  end.

(** All occurrences of [lit]; [k] counts the characters of a match still to be skipped, [pre] is the
    text before the position. *)
Fixpoint replace_lit (lit repl : string) (k : nat) (pre s : string) : string :=
  match s with
  | EmptyString => ""
  | String c r =>
      match k with
      | S k' => replace_lit lit repl k' (pre +:+ String c "") r
      | O => match strip_prefix lit s with
             | Some after => substitution lit pre after repl +:+
                             replace_lit lit repl (String.length lit - 1) (pre +:+ String c "") r
             | None => String c (replace_lit lit repl 0 (pre +:+ String c "") r)
             end
      end
  end.

Section Effective.
Context `{RegExpReplace}.

(** [str.replace(new RegExp(`{${key}}`, "g"), val)]. *)
Definition replace_var (str key val : string) : result string :=
  if sforall key_char key then
    if quantifier key then Throw (JErr "SyntaxError" ("Invalid regular expression: /{" +:+ key +:+ "}/: Nothing to repeat") [])
    else Ok (replace_lit ("{" +:+ key +:+ "}") val 0 "" str)
  else regexp_replace ("{" +:+ key +:+ "}") val str.

Fixpoint replace_vars (str : string) (vars : list (string * jsval)) : result string :=
  match vars with [] => Ok str | (key, val) :: r => str' ← replace_var str key (to_string val); replace_vars str' r end.

(** The entries that [map] visits. *)
Definition entries_of (v : jsval) : result (list (string * jsval)) :=
  match v with
  | JObj fs => Ok fs
  | JArr l => Ok (indexed l)
  | JUndef | JNull => Throw (cannot_read v "map")
  | _ => Throw (not_a_function v "map")
  end.

Definition variables_path (namespace server : string) : list string := in_namespace namespace ["serverVariableValues"; server].

Definition serverEffectiveValue (json state : jsval) (server namespace : string) : result jsval :=
  b ← isOAS3Helper json;
  if (b : bool) then
    vars ← entries_of (or_else (getIn state (variables_path namespace server)) (JObj []));
    str ← replace_vars server vars; Ok (JStr str)
  else Ok JNull.
End Effective.

(** * The component *)

(** The servers and the selection the component was given last, and the oas3 branch of the store. *)
Record servers_state := Servers { sv_servers : list jsval; sv_current : jsval; sv_oas3 : jsval }.

Section Component.
Context (json : jsval) (namespace : string).

Definition first_url (servers : list jsval) : result jsval :=
  match servers with [] => Throw (cannot_read JUndef "get") | s :: _ => method_get s "url" end.

Definition setServer (value oas3 : jsval) : jsval := reduced oas3 (UPDATE_SELECTED_SERVER oas3 value namespace).

Definition componentDidMount (servers : list jsval) (currentServer oas3 : jsval) : result jsval :=
  if truthy currentServer then Ok oas3 else url ← first_url servers; Ok (setServer url oas3).

Fixpoint find_server (servers : list jsval) (url : jsval) : result (option jsval) :=
  match servers with
  | [] => Ok None
  | s :: r => u ← method_get s "url"; if strict_eq u url then Ok (Some s) else find_server r url
  end.

(** Only variables without a value get their default. *)
Fixpoint set_defaults (server : string) (defs : list (string * jsval)) (oas3 : jsval) : result jsval :=
  match defs with
  | [] => Ok oas3
  | (key, val) :: r =>
      currentValue ← serverVariableValue json oas3 server namespace key;
      oas3' ← (if truthy currentValue then Ok oas3
               else d ← method_get val "default";
                    Ok (reduced oas3 (UPDATE_SERVER_VARIABLE_VALUE oas3 server namespace key (or_else d (JStr "")))));
      set_defaults server r oas3'
  end.

Definition componentWillReceiveProps (propsServer : jsval) (serversChanged : bool) (servers : list jsval)
    (currentServer oas3 : jsval) : result jsval :=
  if negb (strict_eq propsServer currentServer) || serversChanged then
    currentServerDefinition ← find_server servers currentServer;
    match currentServerDefinition with
    | None => url ← first_url servers; Ok (setServer url oas3)
    | Some def => vars ← method_get def "variables";
                  defs ← (if truthy vars then entries_of vars else Ok []);
                  set_defaults (to_string currentServer) defs oas3
    end
  else Ok oas3.

(** The component is put on the page; it is given new properties from the store. *)
Definition mount (servers : list jsval) (oas3 : jsval) : result servers_state :=
  current ← selectedServer json oas3 namespace;
  oas3' ← componentDidMount servers current oas3; Ok (Servers servers current oas3').

Definition update (servers : list jsval) (serversChanged : bool) (st : servers_state) : result servers_state :=
  current ← selectedServer json (sv_oas3 st) namespace;
  oas3' ← componentWillReceiveProps (sv_current st) serversChanged servers current (sv_oas3 st);
  Ok (Servers servers current oas3').

(** The handlers of the inputs. *)
Definition onServerChange (value : string) (st : servers_state) : servers_state :=
  Servers (sv_servers st) (sv_current st) (setServer (JStr value) (sv_oas3 st)).

Definition onServerVariableValueChange (key value : string) (st : servers_state) : servers_state :=
  Servers (sv_servers st) (sv_current st)
    (reduced (sv_oas3 st) (UPDATE_SERVER_VARIABLE_VALUE (sv_oas3 st) (to_string (sv_current st)) namespace key (JStr value))).
End Component.

(** * Lemmas: replacing variables in a template *)

(** The address of a server: literal text and variables in braces. *)
Inductive segment := Lit (s : string) | Var (key : string).

Definition segment_text (seg : segment) : string := match seg with Lit s => s | Var k => "{" +:+ k +:+ "}" end.
Definition render (segs : list segment) : string := foldr (λ seg s, segment_text seg +:+ s) "" segs.

Definition brace (c : Ascii.ascii) : bool := (code c =? 123)%N || (code c =? 125)%N.
Definition no_brace (s : string) : bool := sforall (λ c, negb (brace c)) s.
Definition no_dollar (s : string) : bool := sforall (λ c, negb (code c =? 36)%N) s.
Definition segment_ok (seg : segment) : bool := match seg with Lit s | Var s => no_brace s end.

(** The segment with the value of a variable filled in. *)
Definition fill (key val : string) (seg : segment) : segment :=
  match seg with Var k => if String.eqb k key then Lit val else seg | Lit _ => seg end.

Definition expand (vars : list (string * jsval)) (seg : segment) : string :=
  match seg with
  | Lit s => s
  | Var k => match assoc vars k with Some v => to_string v | None => "{" +:+ k +:+ "}" end
  end.

Lemma substitution_plain matched before after repl : no_dollar repl = true → substitution matched before after repl = repl.
Proof.
  unfold no_dollar. induction repl as [|c r IH]; [done|]. cbn [sforall]. rewrite andb_true_iff, negb_true_iff. intros [Hc Hr].
  cbn [substitution]. destruct r as [|d r']; [done|]. rewrite Hc. cbn [andb]. by rewrite IH.
Qed.

Lemma replace_lit_skip lit repl p pre t :
  replace_lit lit repl (String.length p) pre (p +:+ t) = replace_lit lit repl 0 (pre +:+ p) t.
Proof.
  revert pre. induction p as [|c p IH]; intros pre; [by rewrite sapp_nil_r|]. cbn [String.length String.append replace_lit].
  by rewrite IH, sapp_assoc.
Qed.

(** A pattern that starts with a brace passes over text without braces. *)
Definition opens (lit : string) : Prop := ∃ r, lit = String (ch 123) r.

Lemma replace_lit_pass lit repl s pre t : opens lit → no_brace s = true →
  replace_lit lit repl 0 pre (s +:+ t) = s +:+ replace_lit lit repl 0 (pre +:+ s) t.
Proof.
  intros [l ->]. revert pre. induction s as [|c s IH]; intros pre; [by rewrite sapp_nil_r|]. unfold no_brace in *. cbn [sforall].
  rewrite andb_true_iff, negb_true_iff. intros [Hc Hs]. cbn [String.append replace_lit strip_prefix].
  destruct (Ascii.eqb_spec (ch 123) c) as [<-|]; [done|]. rewrite IH by done. by rewrite sapp_assoc.
Qed.

Lemma replace_lit_hit lit repl pre t : opens lit → no_dollar repl = true →
  replace_lit lit repl 0 pre (lit +:+ t) = repl +:+ replace_lit lit repl 0 (pre +:+ lit) t.
Proof.
  intros [l E] Hr. assert (strip_prefix lit (String (ch 123) (l +:+ t)) = Some t) as Hp.
  { rewrite E. cbn [strip_prefix]. by rewrite Ascii.eqb_refl, strip_prefix_app. }
  assert (lit +:+ t = String (ch 123) (l +:+ t)) as -> by (by rewrite E).
  cbn [replace_lit]. rewrite Hp, substitution_plain by done. f_equal.
  replace (String.length lit - 1)%nat with (String.length l) by (rewrite E; cbn [String.length]; lia).
  by rewrite replace_lit_skip, E, sapp_assoc.
Qed.

Lemma strip_key k j t : no_brace k = true → no_brace j = true → k ≠ j → strip_prefix (k +:+ "}") (j +:+ "}" +:+ t) = None.
Proof.
  unfold no_brace. revert j. induction k as [|c k IH]; intros [|d j]; cbn [sforall String.append strip_prefix]; try done;
    rewrite ?andb_true_iff, ?negb_true_iff.
  - intros _ [Hd _] _. change (Ascii.eqb (Ascii.Ascii true false true true true true true false) d) with (Ascii.eqb (ch 125) d).
    destruct (Ascii.eqb_spec (ch 125) d) as [<-|]; done.
  - intros [Hc _] _ _. change (Ascii.eqb c (Ascii.Ascii true false true true true true true false)) with (Ascii.eqb c (ch 125)).
    destruct (Ascii.eqb_spec c (ch 125)) as [->|]; done.
  - intros [_ Hk] [_ Hj] Hne. destruct (Ascii.eqb_spec c d) as [->|]; [|done]. apply IH; [done|done|congruence].
Qed.

Lemma replace_lit_miss key j repl pre t : no_brace key = true → no_brace j = true → j ≠ key →
  replace_lit ("{" +:+ key +:+ "}") repl 0 pre (("{" +:+ j +:+ "}") +:+ t) =
  ("{" +:+ j +:+ "}") +:+ replace_lit ("{" +:+ key +:+ "}") repl 0 (pre +:+ "{" +:+ j +:+ "}") t.
Proof.
  intros Hk Hj Hne. assert (opens ("{" +:+ key +:+ "}")) as Ho by (by eexists).
  pose proof (strip_key key j t Hk Hj ltac:(congruence)) as Hs. revert Ho Hs. generalize (key +:+ "}") as k. intros k Ho Hs.
  change (("{" +:+ j +:+ "}") +:+ t) with (String (ch 123) ((j +:+ "}") +:+ t)). rewrite sapp_assoc.
  change ("{" +:+ k) with (String (ch 123) k) in *. cbn [replace_lit strip_prefix]. rewrite Ascii.eqb_refl, Hs, replace_lit_pass by done.
  change ("}" +:+ t) with (String (ch 125) t). cbn [replace_lit strip_prefix]. change (Ascii.eqb (ch 123) (ch 125)) with false. cbv iota.
  change ("{" +:+ ?x) with (String (ch 123) x). cbn [String.append]. f_equal. by rewrite !sapp_assoc.
Qed.

Lemma replace_lit_segments key repl segs pre : no_brace key = true → no_dollar repl = true → forallb segment_ok segs = true →
  replace_lit ("{" +:+ key +:+ "}") repl 0 pre (render segs) = render (map (fill key repl) segs).
Proof.
  intros Hk Hr. assert (opens ("{" +:+ key +:+ "}")) as Ho by (by eexists).
  revert pre. induction segs as [|seg segs IH]; intros pre; [done|]. cbn [forallb]. rewrite andb_true_iff. intros [Hs Hsegs].
  cbn [render foldr map]. fold (render segs). fold (render (map (fill key repl) segs)). destruct seg as [s|j]; cbn [segment_text segment_ok fill] in *.
  { by rewrite replace_lit_pass, IH. }
  destruct (String.eqb_spec j key) as [->|Hne]; cbn [segment_text].
  - by rewrite replace_lit_hit, IH.
  - by rewrite replace_lit_miss, IH.
Qed.

Lemma key_no_brace key : sforall key_char key = true → no_brace key = true.
Proof. apply sforall_impl. apply char_implies. vm_compute. reflexivity. Qed.

Definition var_ok (kv : string * jsval) : bool :=
  sforall key_char kv.1 && negb (quantifier kv.1) && no_brace (to_string kv.2) && no_dollar (to_string kv.2).

Definition fill_all (vars : list (string * jsval)) (seg : segment) : segment :=
  foldl (λ seg kv, fill kv.1 (to_string kv.2) seg) seg vars.

Lemma fill_all_Lit vars s : fill_all vars (Lit s) = Lit s.
Proof. induction vars as [|kv vars IH]; [done|exact IH]. Qed.

Lemma fill_all_expand vars seg : segment_text (fill_all vars seg) = expand vars seg.
Proof.
  destruct seg as [s|k]; [by rewrite fill_all_Lit|]. induction vars as [|[j v] vars IH]; [done|].
  cbn [fill_all foldl fill fst snd]. rewrite String.eqb_sym. cbn [expand assoc]. destruct (String.eqb j k).
  - change (foldl _ ?s vars) with (fill_all vars s). by rewrite fill_all_Lit.
  - exact IH.
Qed.

Section EffectiveLemmas.
Context `{Re : RegExpReplace}.

Lemma fill_ok key val seg : no_brace val = true → segment_ok seg = true → segment_ok (fill key val seg) = true.
Proof. intros Hv Hs. destruct seg; cbn [fill]; [done|]. by destruct (String.eqb _ _). Qed.

Lemma replace_vars_segments vars segs : forallb var_ok vars = true → forallb segment_ok segs = true →
  replace_vars (render segs) vars = Ok (foldr (λ seg s, expand vars seg +:+ s) "" segs).
Proof.
  intros Hv Hs. assert (replace_vars (render segs) vars = Ok (render (map (fill_all vars) segs))) as ->.
  { revert segs Hs. induction vars as [|[k v] vars IH]; intros segs Hs; [by rewrite (map_ext _ id), map_id|].
    cbn [forallb] in Hv. apply andb_true_iff in Hv as [Hkv Hv]. unfold var_ok in Hkv. cbn [fst snd] in Hkv.
    rewrite !andb_true_iff, negb_true_iff in Hkv. destruct Hkv as [[[Hk Hq] Hb] Hd].
    cbn [replace_vars]. unfold replace_var. rewrite Hk, Hq, ok_bind, replace_lit_segments by (done || by apply key_no_brace).
    rewrite IH; [|done|]. { by rewrite map_map. }
    apply forallb_forall. intros seg (seg0 & <- & Hin)%in_map_iff. apply fill_ok; [done|]. by apply (proj1 (forallb_forall _ _) Hs). }
  f_equal. clear. induction segs as [|seg segs IH]; [done|]. cbn [map render foldr]. fold (render (map (fill_all vars) segs)).
  by rewrite IH, fill_all_expand.
Qed.

Lemma effective_filled json state segs namespace vars : isOAS3Helper json = Ok true →
  getIn state (variables_path namespace (render segs)) = JObj vars →
  forallb var_ok vars = true → forallb segment_ok segs = true →
  serverEffectiveValue json state (render segs) namespace = Ok (JStr (foldr (λ seg s, expand vars seg +:+ s) "" segs)).
Proof.
  intros Hj Hg Hv Hs. unfold serverEffectiveValue. rewrite Hj, ok_bind, Hg. unfold or_else. cbn [truthy entries_of].
  by rewrite ok_bind, replace_vars_segments, ok_bind.
Qed.
End EffectiveLemmas.

(** * Selecting a server *)

(** The part of the store that holds the servers, of the page or of an operation. *)
Definition selection_shape : shape := SRec [("selectedServer", SAny); ("serverVariableValues", SMap (SMap SAny))].
Definition servers_shape (namespace : string) : shape :=
  if String.eqb namespace "" then selection_shape else SRec [(namespace, selection_shape)].

Definition entry_ok (kv : string * jsval) : bool := is_map kv.2.
Definition server_ok (s : jsval) : bool :=
  is_map s && match map_get s "url" with JStr u => negb (String.eqb u "") | _ => false end &&
  match map_get s "variables" with
  | JUndef => true
  | JObj vs => distinct_keys vs && forallb entry_ok vs
  | _ => false
  end.

Definition server_vars (s : jsval) : list (string * jsval) := match map_get s "variables" with JObj vs => vs | _ => [] end.

Section ServerLemmas.
Context (json : jsval) (ns : string) (Hjson : isOAS3Helper json = Ok true).

Lemma shape_selected : shape_at (servers_shape ns) (in_namespace ns ["selectedServer"]) = Some SAny.
Proof.
  unfold servers_shape, in_namespace. destruct (String.eqb ns ""); [done|]. cbn [shape_at child field_shape].
  by rewrite String.eqb_refl.
Qed.

Lemma shape_value server key : shape_at (servers_shape ns) (variables_path ns server ++ [key]) = Some SAny.
Proof.
  unfold servers_shape, variables_path, in_namespace. destruct (String.eqb ns ""); [done|]. cbn [app shape_at child field_shape].
  by rewrite String.eqb_refl.
Qed.

Lemma diverge_selected server ks : diverge (in_namespace ns ["selectedServer"]) (variables_path ns server ++ ks) = true ∧
  diverge (variables_path ns server ++ ks) (in_namespace ns ["selectedServer"]) = true.
Proof.
  unfold variables_path, in_namespace. destruct (String.eqb ns ""); [done|]. cbn [app diverge]. by rewrite String.eqb_refl.
Qed.

Lemma in_namespace_if (l : list string) : (if String.eqb ns "" then l else ns :: l) = in_namespace ns l.
Proof. done. Qed.

Lemma setServer_spec url oas3 : fits (servers_shape ns) oas3 = true →
  let oas3' := setServer ns url oas3 in
  fits (servers_shape ns) oas3' = true ∧ getIn oas3' (in_namespace ns ["selectedServer"]) = url ∧
  ∀ server ks, getIn oas3' (variables_path ns server ++ ks) = getIn oas3 (variables_path ns server ++ ks).
Proof.
  intros Hf. cbv zeta. unfold setServer, UPDATE_SELECTED_SERVER. rewrite in_namespace_if.
  destruct (setIn_fits (in_namespace ns ["selectedServer"]) (servers_shape ns) (Some oas3) SAny url) as (o & E & Hf' & Hl);
    [by intros ? [= <-]|apply shape_selected|done|].
  rewrite E, reduced_Ok. split_and!; [done|by rewrite getIn_lookIn, Hl|].
  intros server ks. rewrite !getIn_lookIn. by rewrite (lookIn_setIn_ne _ _ _ _ _ E) by apply diverge_selected.
Qed.

Lemma setVariable_spec server key val oas3 : fits (servers_shape ns) oas3 = true →
  let oas3' := reduced oas3 (UPDATE_SERVER_VARIABLE_VALUE oas3 server ns key val) in
  fits (servers_shape ns) oas3' = true ∧ getIn oas3' (variables_path ns server ++ [key]) = val ∧
  getIn oas3' (in_namespace ns ["selectedServer"]) = getIn oas3 (in_namespace ns ["selectedServer"]) ∧
  ∀ k, k ≠ key → getIn oas3' (variables_path ns server ++ [k]) = getIn oas3 (variables_path ns server ++ [k]).
Proof.
  intros Hf. cbv zeta. unfold UPDATE_SERVER_VARIABLE_VALUE. rewrite in_namespace_if.
  replace (in_namespace ns ["serverVariableValues"; server; key]) with (variables_path ns server ++ [key])
    by (unfold variables_path, in_namespace; by destruct (String.eqb ns "")).
  destruct (setIn_fits (variables_path ns server ++ [key]) (servers_shape ns) (Some oas3) SAny val) as (o & E & Hf' & Hl);
    [by intros ? [= <-]|apply shape_value|done|].
  rewrite E, reduced_Ok. split_and!; [done|by rewrite getIn_lookIn, Hl| |].
  - rewrite !getIn_lookIn. by rewrite (lookIn_setIn_ne _ _ _ _ _ E) by apply diverge_selected.
  - intros k Hk. rewrite !getIn_lookIn. by rewrite (lookIn_setIn_ne _ _ _ _ _ E) by (by apply diverge_app).
Qed.

(** The value of a variable once the defaults are set. *)
Definition value_or_default (oas3 : jsval) (server key : string) (def : jsval) : jsval :=
  or_else (getIn oas3 (variables_path ns server ++ [key])) (or_else (map_get def "default") (JStr "")).

Lemma set_defaults_spec server defs oas3 : NoDup (map fst defs) → forallb entry_ok defs = true →
  fits (servers_shape ns) oas3 = true →
  ∃ oas3', set_defaults json ns server defs oas3 = Ok oas3' ∧ fits (servers_shape ns) oas3' = true ∧
    getIn oas3' (in_namespace ns ["selectedServer"]) = getIn oas3 (in_namespace ns ["selectedServer"]) ∧
    ∀ k, getIn oas3' (variables_path ns server ++ [k]) =
         match assoc defs k with Some def => value_or_default oas3 server k def | None => getIn oas3 (variables_path ns server ++ [k]) end.
Proof.
  revert oas3. induction defs as [|[key val] defs IH]; intros oas3 Hn Hd Hf; [by exists oas3|].
  cbn [map fst] in Hn. apply NoDup_cons in Hn as [Hk Hn]. cbn [forallb] in Hd. apply andb_true_iff in Hd as [Hv Hd].
  unfold entry_ok in Hv. cbn [snd] in Hv. destruct val as [| | | | | | |vs|]; try done.
  cbn [set_defaults]. unfold serverVariableValue, onlyOAS3. rewrite Hjson, !ok_bind.
  assert (getIn oas3 (in_namespace ns ["serverVariableValues"; server; key]) = getIn oas3 (variables_path ns server ++ [key])) as ->
    by (unfold variables_path, in_namespace; by destruct (String.eqb ns "")).
  set (old := getIn oas3 (variables_path ns server ++ [key])).
  assert (truthy (or_null old) = truthy old) as -> by (unfold or_null; by destruct (truthy old) eqn:E; rewrite ?E).
  assert (∃ o1, (if truthy old then Ok oas3 else d ← method_get (JObj vs) "default";
      Ok (reduced oas3 (UPDATE_SERVER_VARIABLE_VALUE oas3 server ns key (or_else d (JStr ""))))) = Ok o1 ∧
    fits (servers_shape ns) o1 = true ∧ getIn o1 (in_namespace ns ["selectedServer"]) = getIn oas3 (in_namespace ns ["selectedServer"]) ∧
    getIn o1 (variables_path ns server ++ [key]) = value_or_default oas3 server key (JObj vs) ∧
    ∀ k, k ≠ key → getIn o1 (variables_path ns server ++ [k]) = getIn oas3 (variables_path ns server ++ [k])) as (o1 & -> & Hf1 & Hs1 & Hv1 & Ho1).
  { unfold value_or_default. fold old. unfold or_else at 2. destruct (truthy old) eqn:Et; [by exists oas3|].
    cbn [method_get]. rewrite ok_bind. eexists. split; [reflexivity|].
    destruct (setVariable_spec server key (or_else (map_get (JObj vs) "default") (JStr "")) oas3 Hf) as (H1 & H2 & H3 & H4). by split_and!. }
  rewrite ok_bind. destruct (IH o1 Hn Hd Hf1) as (o2 & E2 & Hf2 & Hs2 & Hv2). exists o2. split_and!; [done|done|congruence|].
  intros k. rewrite Hv2. cbn [assoc]. destruct (String.eqb_spec key k) as [<-|Hne].
  - assert (assoc defs key = None) as -> by (by apply assoc_None). done.
  - unfold value_or_default. rewrite !Ho1 by done. done.
Qed.
End ServerLemmas.

(** * The component settles *)

Section Ready.
Context (json : jsval) (ns : string) (Hjson : isOAS3Helper json = Ok true).

(** The selected server is listed, and all its variables have a value: the one of the store before
    or the default. *)
Definition ready (servers : list jsval) (before : jsval) (st : servers_state) : Prop :=
  ∃ url s, sv_servers st = servers ∧ sv_current st = JStr url ∧ find_server servers (JStr url) = Ok (Some s) ∧ s ∈ servers ∧
    getIn (sv_oas3 st) (in_namespace ns ["selectedServer"]) = JStr url ∧ fits (servers_shape ns) (sv_oas3 st) = true ∧
    ∀ k def, (k, def) ∈ server_vars s → getIn (sv_oas3 st) (variables_path ns url ++ [k]) = value_or_default ns before url k def.

Lemma selected_ok oas3 : selectedServer json oas3 ns = Ok (or_else (getIn oas3 (in_namespace ns ["selectedServer"])) (JStr "")).
Proof. unfold selectedServer, onlyOAS3. by rewrite Hjson, ok_bind. Qed.

Lemma server_url s : server_ok s = true → ∃ u, u ≠ "" ∧ method_get s "url" = Ok (JStr u) ∧
  NoDup (map fst (server_vars s)) ∧ forallb entry_ok (server_vars s) = true ∧
  (vars ← method_get s "variables"; (if truthy vars then entries_of vars else Ok [])) = Ok (server_vars s).
Proof.
  unfold server_ok, server_vars. rewrite !andb_true_iff. intros [[Hm Hu] Hv]. destruct s as [| | | | | | |fs|]; try done.
  cbn [map_get] in *. destruct (default JUndef (assoc fs "url")) as [| | | | |u| | |] eqn:Eu; try done.
  apply negb_true_iff, String.eqb_neq in Hu. exists u. cbn [method_get]. rewrite Eu, ok_bind. split_and!; [done|done|..].
  all: destruct (default JUndef (assoc fs "variables")) as [| | | | | | |vs|]; try done; try constructor.
  all: apply andb_true_iff in Hv as [Hd Hv]; try done. by apply bool_decide_eq_true in Hd.
Qed.

Lemma find_server_ok servers v : forallb server_ok servers = true →
  ∃ o, find_server servers v = Ok o ∧
    match o with Some s => s ∈ servers ∧ method_get s "url" = Ok v ∧ ∃ u, v = JStr u
               | None => ∀ s, s ∈ servers → method_get s "url" ≠ Ok v end.
Proof.
  induction servers as [|s servers IH]; cbn [forallb].
  { intros _. exists None. split; [done|]. intros s H%elem_of_nil. done. }
  rewrite andb_true_iff. intros [Hs Hr]. destruct (server_url s Hs) as (u & Hne & Hu & _). cbn [find_server]. rewrite Hu, ok_bind.
  destruct (strict_eq (JStr u) v) eqn:E.
  - destruct v; try done. apply String.eqb_eq in E as <-. exists (Some s). split; [done|]. split_and!; [left|done|eauto].
  - destruct (IH Hr) as (o & Ho & Hspec). exists o. split; [done|]. destruct o as [s'|].
    + destruct Hspec as (H1 & H2). split; [by right|done].
    + intros s' [->|Hin]%elem_of_cons; [|by apply Hspec]. rewrite Hu. intros [= <-]. cbn [strict_eq] in E. by rewrite String.eqb_refl in E.
Qed.

(** The selection is listed and the component sees a change: the defaults are set. *)
Lemma update_listed servers changed st url s : forallb server_ok servers = true → fits (servers_shape ns) (sv_oas3 st) = true →
  getIn (sv_oas3 st) (in_namespace ns ["selectedServer"]) = JStr url → url ≠ "" → find_server servers (JStr url) = Ok (Some s) →
  s ∈ servers → negb (strict_eq (sv_current st) (JStr url)) || changed = true →
  ∃ st', update json ns servers changed st = Ok st' ∧ ready servers (sv_oas3 st) st'.
Proof.
  intros Hs Hf Hu Hne Hfind Hin Hc. unfold update. rewrite selected_ok, Hu, ok_bind. unfold or_else at 1. cbn [truthy].
  apply String.eqb_neq in Hne as Hne'. rewrite Hne'. cbn [negb]. unfold componentWillReceiveProps. unfold or_else. cbn [truthy].
  rewrite Hne'. cbn [negb]. rewrite Hc, Hfind, ok_bind.
  destruct (server_url s) as (u & _ & _ & Hnd & Hent & Hvars). { by apply (proj1 (forallb_forall _ _) Hs), list_elem_of_In. }
  destruct (set_defaults_spec json ns Hjson url (server_vars s) (sv_oas3 st) Hnd Hent Hf) as (o & Eo & Hfo & Hso & Hvo).
  assert ((vars ← method_get s "variables"; defs ← (if truthy vars then entries_of vars else Ok []);
    set_defaults json ns (to_string (JStr url)) defs (sv_oas3 st)) = Ok o) as ->.
  { destruct (method_get s "variables") as [vars| |]; try done. cbn [mbind result_bind] in *. by rewrite Hvars. }
  rewrite ok_bind. eexists. split; [reflexivity|]. exists url, s. cbn [sv_servers sv_current sv_oas3]. split_and!; [done..| |done|].
  - by rewrite Hso.
  - intros k def Hk. by rewrite Hvo, (assoc_elem _ _ _ Hnd Hk).
Qed.

Lemma first_url_ok servers : servers ≠ [] → forallb server_ok servers = true →
  ∃ url s, url ≠ "" ∧ first_url servers = Ok (JStr url) ∧ find_server servers (JStr url) = Ok (Some s) ∧ s ∈ servers.
Proof.
  destruct servers as [|s servers]; [done|]. intros _ [Hs _]%andb_true_iff. destruct (server_url s Hs) as (u & Hne & Hu & _).
  exists u, s. cbn [first_url find_server]. rewrite Hu, ok_bind. cbn [strict_eq]. rewrite String.eqb_refl. split_and!; [done..|left].
Qed.

(** A selection that is made is seen by the next update. *)
Lemma select_then_update servers st url s : forallb server_ok servers = true → fits (servers_shape ns) (sv_oas3 st) = true →
  url ≠ "" → find_server servers (JStr url) = Ok (Some s) → s ∈ servers → strict_eq (sv_current st) (JStr url) = false →
  ∃ st', update json ns servers false (Servers (sv_servers st) (sv_current st) (setServer ns (JStr url) (sv_oas3 st))) = Ok st' ∧
    ready servers (sv_oas3 st) st'.
Proof.
  intros Hs Hf Hne Hfind Hin Hc. destruct (setServer_spec ns (JStr url) (sv_oas3 st) Hf) as (Hf' & Hu' & Hk').
  destruct (update_listed servers false (Servers (sv_servers st) (sv_current st) (setServer ns (JStr url) (sv_oas3 st))) url s Hs Hf' Hu' Hne Hfind Hin)
    as (st' & E & url' & s' & H1 & H2 & H3 & H4 & H5 & H6 & H7). { cbn [sv_current]. by rewrite Hc. }
  exists st'. split; [done|]. exists url', s'. split_and!; try done. intros k def Hk. rewrite (H7 k def Hk). unfold value_or_default.
  cbn [sv_oas3]. by rewrite Hk'.
Qed.
End Ready.

Section Settle.
Context (json : jsval) (ns : string) (Hjson : isOAS3Helper json = Ok true).

Lemma ready_stable servers before st : ready ns servers before st → update json ns servers false st = Ok st.
Proof.
  intros (url & s & H1 & H2 & _ & _ & H5 & _). destruct st as [srv cur oas3]. cbn [sv_servers sv_current sv_oas3] in *. subst.
  unfold update. cbn [sv_oas3 sv_current]. rewrite selected_ok, H5, ok_bind by done. unfold or_else. cbn [truthy].
  destruct (String.eqb_spec url "") as [->|Hne]; cbn [negb]; unfold componentWillReceiveProps; cbn [strict_eq]; by rewrite String.eqb_refl.
Qed.

Lemma mount_settles servers oas3 : servers ≠ [] → forallb server_ok servers = true → fits (servers_shape ns) oas3 = true →
  truthy (getIn oas3 (in_namespace ns ["selectedServer"])) = false →
  ∃ st st', mount json ns servers oas3 = Ok st ∧ update json ns servers false st = Ok st' ∧ ready ns servers oas3 st'.
Proof.
  intros Hne Hs Hf Hsel. destruct (first_url_ok servers Hne Hs) as (url & s & Hu & Hfirst & Hfind & Hin).
  unfold mount. rewrite selected_ok, ok_bind by done. unfold or_else. rewrite Hsel. unfold componentDidMount.
  cbn [truthy String.eqb negb]. rewrite Hfirst, !ok_bind.
  destruct (select_then_update json ns Hjson servers (Servers servers (JStr "") oas3) url s Hs Hf Hu Hfind Hin) as (st' & E & Hr).
  { cbn [sv_current strict_eq]. apply String.eqb_neq. by symmetry. }
  do 2 eexists. split_and!; [reflexivity|exact E|exact Hr].
Qed.

Lemma change_settles servers st : servers ≠ [] → forallb server_ok servers = true → fits (servers_shape ns) (sv_oas3 st) = true →
  ∃ st1 st2, update json ns servers true st = Ok st1 ∧ update json ns servers false st1 = Ok st2 ∧ ready ns servers (sv_oas3 st) st2.
Proof.
  intros Hne Hs Hf. destruct (first_url_ok servers Hne Hs) as (url & s & Hu & Hfirst & Hfind & Hin).
  set (v := or_else (getIn (sv_oas3 st) (in_namespace ns ["selectedServer"])) (JStr "")).
  destruct (find_server_ok servers v Hs) as ([s'|] & Hfv & Hv).
  - destruct Hv as (Hin' & Hurl & u & Ev). destruct (server_url s') as (u' & Hu' & Hurl' & _);
      [by apply (proj1 (forallb_forall _ _) Hs), list_elem_of_In|]. assert (u = u') as -> by congruence.
    assert (getIn (sv_oas3 st) (in_namespace ns ["selectedServer"]) = JStr u') as Hg.
    { unfold v, or_else in Ev. destruct (truthy _); [done|]. by injection Ev as <-. }
    rewrite Ev in Hfv. destruct (update_listed json ns Hjson servers true st u' s' Hs Hf Hg Hu' Hfv Hin') as (st1 & E1 & Hr); [apply orb_true_r|].
    exists st1, st1. pose proof (ready_stable _ _ _ Hr). by split_and!.
  - assert (update json ns servers true st = Ok (Servers servers v (setServer ns (JStr url) (sv_oas3 st)))) as E1.
    { unfold update. rewrite selected_ok, ok_bind by done. fold v. unfold componentWillReceiveProps. by rewrite orb_true_r, Hfv, ok_bind, Hfirst, !ok_bind. }
    destruct (select_then_update json ns Hjson servers (Servers servers v (sv_oas3 st)) url s Hs Hf Hu Hfind Hin) as (st2 & E2 & Hr).
    { cbn [sv_current]. destruct (strict_eq v (JStr url)) eqn:E; [|done]. exfalso. destruct v; try done. apply String.eqb_eq in E as ->.
      destruct (find_server_ok servers (JStr url) Hs) as (o & Ho & Hspec). congruence. }
    do 2 eexists. split_and!; [exact E1|exact E2|exact Hr].
Qed.

Lemma choice_settles servers st url s : forallb server_ok servers = true → fits (servers_shape ns) (sv_oas3 st) = true →
  find_server servers (JStr url) = Ok (Some s) → sv_current st ≠ JStr url →
  ∃ st', update json ns servers false (onServerChange ns url st) = Ok st' ∧ sv_current st' = JStr url ∧ ready ns servers (sv_oas3 st) st'.
Proof.
  intros Hs Hf Hfind Hc. destruct (find_server_ok servers (JStr url) Hs) as (o & Ho & Hspec). rewrite Hfind in Ho. injection Ho as <-.
  destruct Hspec as (Hin & Hurl & _). destruct (server_url s) as (u & Hu & Hurl' & _); [by apply (proj1 (forallb_forall _ _) Hs), list_elem_of_In|].
  assert (u = url) as -> by congruence.
  destruct (select_then_update json ns Hjson servers st url s Hs Hf Hu Hfind Hin) as (st' & E & Hr).
  { destruct (strict_eq (sv_current st) (JStr url)) eqn:E; [|done]. destruct (sv_current st); try done. apply String.eqb_eq in E. congruence. }
  exists st'. split_and!; [exact E| |exact Hr]. revert E. unfold update. cbn [sv_oas3]. rewrite selected_ok, ok_bind by done.
  destruct (setServer_spec ns (JStr url) (sv_oas3 st) Hf) as (_ & -> & _). unfold or_else. cbn [truthy].
  rewrite (proj2 (String.eqb_neq _ _) Hu). cbn [negb]. intros (o & _ & E)%result_bind_Ok. by injection E as <-.
Qed.

(** C21: the choice of a server settles. When the component is put on a page without a selection in the store,
    or is given another list of servers, whatever was selected before, two updates lead to a state in
    which the selected server is listed and each of its variables has the value the user entered or else its
    default; when the user chooses another listed server one update leads to such a state with this server
    selected. Further updates change nothing. *)
Theorem servers_settle servers : servers ≠ [] → forallb server_ok servers = true →
  (∀ oas3, fits (servers_shape ns) oas3 = true → truthy (getIn oas3 (in_namespace ns ["selectedServer"])) = false →
     ∃ st st', mount json ns servers oas3 = Ok st ∧ update json ns servers false st = Ok st' ∧
       ready ns servers oas3 st' ∧ update json ns servers false st' = Ok st') ∧
  (∀ st, fits (servers_shape ns) (sv_oas3 st) = true →
     ∃ st1 st2, update json ns servers true st = Ok st1 ∧ update json ns servers false st1 = Ok st2 ∧
       ready ns servers (sv_oas3 st) st2 ∧ update json ns servers false st2 = Ok st2) ∧
  (∀ st url s, fits (servers_shape ns) (sv_oas3 st) = true → find_server servers (JStr url) = Ok (Some s) → sv_current st ≠ JStr url →
     ∃ st', update json ns servers false (onServerChange ns url st) = Ok st' ∧ sv_current st' = JStr url ∧
       ready ns servers (sv_oas3 st) st' ∧ update json ns servers false st' = Ok st').
Proof.
  intros Hne Hs. split_and!.
  - intros oas3 Hf Hsel. destruct (mount_settles servers oas3 Hne Hs Hf Hsel) as (st & st' & H1 & H2 & H3).
    pose proof (ready_stable _ _ _ H3). by exists st, st'.
  - intros st Hf. destruct (change_settles servers st Hne Hs Hf) as (st1 & st2 & H1 & H2 & H3).
    pose proof (ready_stable _ _ _ H3). by exists st1, st2.
  - intros st url s Hf Hfind Hc. destruct (choice_settles servers st url s Hs Hf Hfind Hc) as (st' & H1 & H2 & H3).
    pose proof (ready_stable _ _ _ H3). by exists st'.
Qed.

(** The ways to a settled state, from the store [before]: the component is put on a page without a selection, is
    given another list of servers, or the user chooses another listed server. *)
Inductive settled (servers : list jsval) (before : jsval) (st' : servers_state) : Prop :=
| settled_mount st : truthy (getIn before (in_namespace ns ["selectedServer"])) = false →
    mount json ns servers before = Ok st → update json ns servers false st = Ok st' → settled servers before st'
| settled_change st st1 : sv_oas3 st = before → update json ns servers true st = Ok st1 →
    update json ns servers false st1 = Ok st' → settled servers before st'
| settled_choice st url s : sv_oas3 st = before → find_server servers (JStr url) = Ok (Some s) → sv_current st ≠ JStr url →
    update json ns servers false (onServerChange ns url st) = Ok st' → settled servers before st'.

Lemma settled_ready servers before st' : servers ≠ [] → forallb server_ok servers = true → fits (servers_shape ns) before = true →
  settled servers before st' → ready ns servers before st'.
Proof.
  intros Hne Hs Hf [st Hsel E1 E2|st st1 <- E1 E2|st url s <- Hfind Hc E].
  - destruct (mount_settles servers before Hne Hs Hf Hsel) as (? & ? & F1 & F2 & Hr). congruence.
  - destruct (change_settles servers st Hne Hs Hf) as (? & ? & F1 & F2 & Hr). congruence.
  - destruct (choice_settles servers st url s Hs Hf Hfind Hc) as (? & F1 & _ & Hr). congruence.
Qed.
End Settle.

Lemma value_defined ns oas3 server k def : value_or_default ns oas3 server k def ≠ JUndef.
Proof.
  unfold value_or_default, or_else. destruct (truthy (getIn oas3 _)) eqn:E; [intros H; by rewrite H in E|].
  destruct (truthy (map_get def "default")) eqn:E'; [intros H; by rewrite H in E'|done].
Qed.

(** C20: once the choice of a server has settled, the address that [serverEffectiveValue] computes (shown under
    the variables, and the base of relative authorization addresses) is the address of the selected
    server with each variable replaced by the value entered or else by its default. The variables are declared and
    named by ordinary characters and not by numbers, the address has no other braces and the values no
    braces and dollar signs. *)
Theorem effective_address `{RegExpReplace} json ns servers before st segs s vars :
  isOAS3Helper json = Ok true → servers ≠ [] → forallb server_ok servers = true → fits (servers_shape ns) before = true →
  settled json ns servers before st → sv_current st = JStr (render segs) → find_server servers (sv_current st) = Ok (Some s) →
  getIn (sv_oas3 st) (variables_path ns (render segs)) = JObj vars → forallb var_ok vars = true → forallb segment_ok segs = true →
  (∀ k, Var k ∈ segs → k ∈ map fst (server_vars s)) →
  serverEffectiveValue json (sv_oas3 st) (render segs) ns =
  Ok (JStr (foldr (λ seg text, match seg with
    | Lit s => s
    | Var k => to_string (value_or_default ns before (render segs) k (default JUndef (assoc (server_vars s) k)))
    end +:+ text) "" segs)).
Proof.
  intros Hj Hne Hok Hf Hset Hc Hfind Hg Hv Hs Hdecl.
  destruct (settled_ready json ns Hj _ _ _ Hne Hok Hf Hset) as (url & s' & _ & H2 & H3 & Hin & _ & _ & H7).
  rewrite effective_filled with (vars := vars) by done.
  assert (url = render segs) as -> by congruence. assert (s' = s) as -> by congruence. do 2 f_equal.
  assert (NoDup (map fst (server_vars s))) as Hnd.
  { destruct (server_url s) as (? & _ & _ & Hnd & _); [|done]. by apply (proj1 (forallb_forall _ _) Hok), list_elem_of_In. }
  assert (∀ k, Var k ∈ segs → expand vars (Var k) = to_string (value_or_default ns before (render segs) k (default JUndef (assoc (server_vars s) k)))) as Hx.
  { intros k Hk. apply Hdecl, list_elem_of_fmap in Hk as ([k' def] & -> & Hk). cbn [fst]. rewrite (assoc_elem _ _ _ Hnd Hk).
    specialize (H7 _ _ Hk). pose proof (value_defined ns before (render segs) k' def) as Hd. change (default JUndef (Some def)) with def. rewrite <- H7 in Hd |- *.
    rewrite getIn_lookIn in Hg, Hd |- *. rewrite lookIn_app in Hd |- *.
    destruct (lookIn (sv_oas3 st) (variables_path ns (render segs))) as [w|]; [|done]. change (w = JObj vars) in Hg. subst w.
    cbn [mbind option_bind] in Hd |- *. rewrite lookIn_cons in Hd |- *. cbn [expand]. by destruct (assoc vars k'). }
  clear -Hx. revert Hx. generalize (render segs). intros r Hx. induction segs as [|[l|k] segs IH]; [done|..]; cbn [foldr].
  - f_equal. apply IH. intros k Hk. apply Hx. by right.
  - rewrite Hx by left. f_equal. apply IH. intros k' Hk. apply Hx. by right.
Qed.

(** * Witnesses and examples *)

#[export] Instance regexp_replace_none : RegExpReplace := λ _ _ _, Throw (JErr "SyntaxError" "Invalid regular expression" []).

Definition keb_json : jsval := JObj [("openapi", JStr "3.0.0")].
Definition keb_template : list segment := [Lit "https://"; Var "host"; Lit "."; Var "domain"; Lit "/oauth"].
Definition keb_servers : list jsval :=
  [JObj [("url", JStr (render keb_template));
         ("variables", JObj [("host", JObj [("default", JStr "keb")]); ("domain", JObj [("default", JStr "kyma.local")])])];
   JObj [("url", JStr "http://localhost:8080")]].

(** The user has entered a host before; no server is selected. *)
Definition keb_oas3 : jsval := JObj [("serverVariableValues", JObj [(render keb_template, JObj [("host", JStr "broker")])])].
Definition keb_ready : servers_state :=
  Servers keb_servers (JStr (render keb_template))
    (JObj [("serverVariableValues", JObj [(render keb_template, JObj [("host", JStr "broker"); ("domain", JStr "kyma.local")])]);
           ("selectedServer", JStr (render keb_template))]).

Lemma servers_settle_witness : ∃ st, mount keb_json "" keb_servers keb_oas3 = Ok st ∧ update keb_json "" keb_servers false st = Ok keb_ready.
Proof.
  destruct (proj1 (servers_settle keb_json "" eq_refl keb_servers ltac:(discriminate) eq_refl) keb_oas3 eq_refl eq_refl)
    as (st & st' & H1 & H2 & _). exists st. split; [exact H1|]. injection H1 as <-. vm_compute. reflexivity.
Defined.

Lemma keb_settled : settled keb_json "" keb_servers keb_oas3 keb_ready.
Proof. eapply settled_mount; vm_compute; reflexivity. Qed.

Lemma effective_address_witness :
  serverEffectiveValue keb_json (sv_oas3 keb_ready) (render keb_template) "" = Ok (JStr "https://broker.kyma.local/oauth").
Proof.
  etrans; [apply (effective_address keb_json "" keb_servers keb_oas3 keb_ready keb_template
    (JObj [("url", JStr (render keb_template));
           ("variables", JObj [("host", JObj [("default", JStr "keb")]); ("domain", JObj [("default", JStr "kyma.local")])])])
    [("host", JStr "broker"); ("domain", JStr "kyma.local")])|]; try (vm_compute; reflexivity).
  - discriminate.
  - exact keb_settled.
  - intros k Hk. unfold keb_template in Hk. cbn. rewrite !elem_of_cons in Hk. destruct Hk as [[=]|[[= ->]|[[=]|[[= ->]|[[=]|[]%elem_of_nil]]]]]; [left|right; left].
Defined.

(** A selection that is in the store when the component is put on the page is kept: one that is not listed stays
    selected, and the variables of one that is listed get no defaults. *)
Example stored_selection_kept :
  let other := JObj [("selectedServer", JStr "http://other")] in
  let listed := JObj [("selectedServer", JStr (render keb_template))] in
  (st ← mount keb_json "" keb_servers other; update keb_json "" keb_servers false st) = Ok (Servers keb_servers (JStr "http://other") other) ∧
  (st ← mount keb_json "" keb_servers listed; update keb_json "" keb_servers false st) =
    Ok (Servers keb_servers (JStr (render keb_template)) listed).
Proof. vm_compute. split; reflexivity. Qed.

(** A variable that is named by a number cannot be filled in, and a dollar sign in a value is taken
    for a replacement pattern. *)
Example variable_names :
  let with_var k v := JObj [("serverVariableValues", JObj [("http://h/{" +:+ k +:+ "}", JObj [(k, JStr v)])])] in
  (serverEffectiveValue keb_json (with_var "1" "x") "http://h/{1}" "",
   serverEffectiveValue keb_json (with_var "v" "a$$b$&") "http://h/{v}" "") =
  (Throw (JErr "SyntaxError" "Invalid regular expression: /{1}/: Nothing to repeat" []), Ok (JStr "http://h/a$b{v}")).
Proof. vm_compute. reflexivity. Qed.

(** A value in braces is replaced again by the variable it names. *)
Example value_replaced_again :
  serverEffectiveValue keb_json
    (JObj [("serverVariableValues", JObj [("http://{a}/{b}", JObj [("a", JStr "{b}"); ("b", JStr "x")])])]) "http://{a}/{b}" "" =
  Ok (JStr "http://x/x").
Proof. vm_compute. reflexivity. Qed.
