(* ===== verification/SwOAuth.v ===== *)
(** Swagger UI, the OAuth 2 flows of the browser: the component core/components/auth/oauth2.jsx,
    the authorization request of core/oauth2-authorize.js, the page oauth2-redirect.html to which
    the authorization server comes back, and the actions of core/plugins/auth that it calls. The
    state object of the component is handed to the window and to the token request and changed
    there, so the objects live in a heap. *)

From S2P Require Import Prelude JsValue Json Buffer JsString SwEncode SwErr SwAuth.

(** * State *)

(** The actions that the redirect page may call back. *)
Inductive callback := PreAuthorizeImplicit | AccessCodeWithBasicAuthentication | AccessCodeWithFormParams.

(** [window.swaggerUIRedirectOauth2]; [rd_auth] is the address of an object. *)
Record redirect_info := RedirectInfo {
  rd_auth : nat;
  rd_state : jsval;
  rd_redirectUrl : jsval;
  rd_callback : callback
}.

(** A request for a token that was sent; [tr_auth] is the object that the token will be put into. *)
Record token_request := TokenRequest {
  tr_auth : nat;
  tr_name : jsval;
  tr_url : jsval;
  tr_body : string;
  tr_authorization : option string
}.

(** [og_state] is the address of [this.state] of the component. *)
Record oauth_page := OAuthPage {
  og_heap : list fields;
  og_state : nat;
  og_window : option redirect_info;
  og_opened : list string;
  og_err : err_state;
  og_auth : auth_state;
  og_storage : option string;
  og_requests : list token_request
}.

Definition object_at (pg : oauth_page) (a : nat) : fields := default [] (og_heap pg !! a).
Definition field (o : fields) (k : string) : jsval := default JUndef (assoc o k).

(** [o[k] = v] for the object at an address. *)
Definition set_field (a : nat) (k : string) (v : jsval) (pg : oauth_page) : oauth_page :=
  OAuthPage (<[a := oset (object_at pg a) k v]> (og_heap pg)) (og_state pg) (og_window pg) (og_opened pg)
            (og_err pg) (og_auth pg) (og_storage pg) (og_requests pg).

Definition set_window (w : option redirect_info) (pg : oauth_page) : oauth_page :=
  OAuthPage (og_heap pg) (og_state pg) w (og_opened pg) (og_err pg) (og_auth pg) (og_storage pg) (og_requests pg).
Definition open_window (url : string) (pg : oauth_page) : oauth_page :=
  OAuthPage (og_heap pg) (og_state pg) (og_window pg) (url :: og_opened pg) (og_err pg) (og_auth pg) (og_storage pg) (og_requests pg).
Definition set_err (e : err_state) (pg : oauth_page) : oauth_page :=
  OAuthPage (og_heap pg) (og_state pg) (og_window pg) (og_opened pg) e (og_auth pg) (og_storage pg) (og_requests pg).
Definition set_auth (a : auth_state) (storage : option string) (pg : oauth_page) : oauth_page :=
  OAuthPage (og_heap pg) (og_state pg) (og_window pg) (og_opened pg) (og_err pg) a storage (og_requests pg).
Definition send (r : token_request) (pg : oauth_page) : oauth_page :=
  OAuthPage (og_heap pg) (og_state pg) (og_window pg) (og_opened pg) (og_err pg) (og_auth pg) (og_storage pg) (og_requests pg ++ [r]).

(** [setState(partial)]: a new object with the fields of the old one and the new values. *)
Definition setState (partial : fields) (pg : oauth_page) : oauth_page :=
  let new := foldl (λ o kv, oset o kv.1 kv.2) (object_at pg (og_state pg)) partial in
  OAuthPage (og_heap pg ++ [new]) (length (og_heap pg)) (og_window pg) (og_opened pg)
            (og_err pg) (og_auth pg) (og_storage pg) (og_requests pg).

Definition newAuthErr (err : fields) (pg : oauth_page) : oauth_page := set_err (NEW_AUTH_ERR (og_err pg) (JObj err)) pg.
Definition clear_errors (filter_ : fields) (pg : oauth_page) : oauth_page := set_err (CLEAR (og_err pg) (Some filter_)) pg.

(** * The component *)

Definition orElse (v w : jsval) : jsval := if truthy v then v else w.

(** The constructor; [authorized] is a map and [authConfigs] the configuration or an empty object. *)
Definition initial_state (name : string) (schema authorized : jsval) (authConfigs : fields) : fields :=
  let auth := map_get authorized name in
  let kept k := if truthy auth then map_get auth k else auth in
  let scopes := orElse (kept "scopes") (orElse (field authConfigs "scopes") (JArr [])) in
  [("appName", field authConfigs "appName"); ("name", JStr name); ("schema", schema);
   ("scopes", match scopes with
              | JStr s => JArr (map JStr (split (to_string (orElse (field authConfigs "scopeSeparator") (JStr " "))) s))
              | v => v
              end);
   ("clientId", orElse (kept "clientId") (orElse (field authConfigs "clientId") (JStr "")));
   ("clientSecret", orElse (kept "clientSecret") (orElse (field authConfigs "clientSecret") (JStr "")));
   ("username", orElse (kept "username") (JStr "")); ("password", JStr "");
   ("passwordType", orElse (kept "passwordType") (JStr "basic"))].

Definition list_of (v : jsval) : list jsval := match v with JArr l => l | _ => [] end.

Definition scopes_of (pg : oauth_page) : list jsval := list_of (field (object_at pg (og_state pg)) "scopes").

Definition onScopeChange (checked : bool) (scope : string) (pg : oauth_page) : oauth_page :=
  let has := existsb (λ v, strict_eq v (JStr scope)) (scopes_of pg) in
  if checked && negb has then setState [("scopes", JArr (scopes_of pg ++ [JStr scope]))] pg
  else if negb checked && has
  then setState [("scopes", JArr (List.filter (λ v, negb (strict_eq v (JStr scope))) (scopes_of pg)))] pg
  else pg.

Definition onInputChange (name value : string) (pg : oauth_page) : oauth_page := setState [(name, JStr value)] pg.

(** The scopes of the schema are the keys of a map. *)
Definition selectScopes (all : bool) (schema : jsval) (pg : oauth_page) : result oauth_page :=
  if all then
    match orElse (map_get schema "allowedScopes") (map_get schema "scopes") with
    | JObj fs => Ok (setState [("scopes", JArr (map (λ kv, JStr kv.1) fs))] pg)
    | v => Throw (not_a_function v "keys")
    end
  else Ok (setState [("scopes", JArr [])] pg).

(** * Token requests *)

Definition name_of (o : fields) : string := to_string (field o "name").
Definition token_url (o : fields) : jsval := map_get (field o "schema") "tokenUrl".

Definition request_token (a : nat) (pg : oauth_page) (form : string * option string) : oauth_page :=
  let o := object_at pg a in send (TokenRequest a (field o "name") (token_url o) form.1 form.2) pg.

Definition scope_texts (o : fields) : list string := map to_string (list_of (field o "scopes")).

Definition password_request (a : nat) (pg : oauth_page) : oauth_page :=
  let o := object_at pg a in
  request_token a pg (authorizePassword (scope_texts o) (field o "username") (field o "password")
    (to_string (field o "passwordType")) (field o "clientId") (field o "clientSecret")).

Definition application_request (a : nat) (pg : oauth_page) : oauth_page :=
  let o := object_at pg a in
  request_token a pg (authorizeApplication (scope_texts o) (field o "clientId") (field o "clientSecret")).

(** The two actions that exchange the code of an object for a token. *)
Definition code_request (basic : bool) (a : nat) (redirectUrl : jsval) (pg : oauth_page) : oauth_page :=
  let o := object_at pg a in
  request_token a pg ((if basic then authorizeAccessCodeWithBasicAuthentication else authorizeAccessCodeWithFormParams)
    (field o "code") (field o "clientId") (field o "clientSecret") redirectUrl (field o "codeVerifier")).

(** [authorizeOauth2WithPersistOption]: the token is put into the object, the object becomes the
    authorization, and the authorizations are persisted if configured. *)
Definition authorizeOauth2 (persistAuthorization : jsval) (a : nat) (token : jsval) (pg : oauth_page) : oauth_page :=
  let pg := set_field a "token" (JObj (spread [] token)) pg in
  let auth := match AUTHORIZE_OAUTH2 (og_auth pg) (object_at pg a) token with Ok st => st | _ => og_auth pg end in
  set_auth auth (persistAuthorizationIfNeeded persistAuthorization auth (og_storage pg)) pg.

Definition act (persistAuthorization : jsval) (a : nat) (pg : oauth_page) (action : auth_action) : oauth_page :=
  match action with
  | NewAuthErr err => newAuthErr err pg
  | AuthorizeOauth2 token => authorizeOauth2 persistAuthorization a token pg
  end.

(** A token request settles. *)
Definition token_settled (persistAuthorization : jsval) (r : token_request) (res : token_result) (pg : oauth_page) : oauth_page :=
  match authorizeRequest_settled (to_string (tr_name r)) res with
  | Ok action => act persistAuthorization (tr_auth r) pg action
  | _ => pg
  end.

(** * The authorization request *)

(** url-parse, sanitize-url: the text of a sanitized address, and an address resolved at a base. *)
Class UrlTools := { braintreeSanitizeUrl : string → string; resolve_url : string → string → string }.

Definition sanitizeUrl `{UrlTools} (url : jsval) : string :=
  match url with JStr s => if String.eqb s "" then "" else braintreeSanitizeUrl s | _ => "" end.

(** The random bytes that one click draws. *)
Definition draw (sha : string → string) (bytes : string) : Crypto := {| randomBytes := λ _, bytes; sha256 := sha |}.

Definition param (k v : string) : string := k +:+ "=" +:+ encodeURIComponent v.

Inductive flow_kind := FPassword | FApplication | FCode | FImplicit | FOther.

Definition flow_of (schema : jsval) : flow_kind :=
  match map_get schema "flow" with
  | JStr "password" => FPassword
  | JStr "application" | JStr "clientCredentials" | JStr "client_credentials" => FApplication
  | JStr "accessCode" | JStr "authorizationCode" | JStr "authorization_code" => FCode
  | JStr "implicit" => FImplicit
  | _ => FOther
  end.

Definition response_type (f : flow_kind) : list string :=
  match f with FCode => ["response_type=code"] | FImplicit => ["response_type=token"] | _ => [] end.

Section Authorize.
Context `{UrlTools} (sha : string → string).

(** What a click depends on: the configurations, the address of the selected server if there is
    one, the text of the date, and random bytes. *)
Record click := Click {
  ck_redirectUrl : jsval;
  ck_configs : fields;
  ck_server : jsval;
  ck_date : string;
  ck_bytes : string;
  ck_windowName : string
}.

Definition verifier (c : click) : string := @generateCodeVerifier (draw sha (ck_bytes c)).
Definition challenge (c : click) : string := @createCodeChallenge (draw sha (ck_bytes c)) (verifier c).
Definition sent_state (c : click) : string := b64_encode (ck_date c).

Definition uses_pkce (f : flow_kind) (c : click) : bool :=
  match f with FCode => truthy (field (ck_configs c) "usePkceWithAuthorizationCodeGrant") | _ => false end.

(** The properties that [for (let key in v)] visits. *)
Definition enumerated (v : jsval) : fields :=
  match v with
  | JObj fs | JErr _ _ fs => fs
  | JArr l => indexed l
  | JStr s => indexed (map (λ c, JStr (String c "")) (String.list_ascii_of_string s))
  | _ => []
  end.

Definition extra_params (v : jsval) : list string :=
  omap (λ kv, match kv.2 with
              | JUndef => None
              | v => Some (encodeURIComponent kv.1 +:+ "=" +:+ encodeURIComponent (to_string v))
              end) (enumerated v).

Definition scope_param (o : fields) (c : click) : list string :=
  match list_of (field o "scopes") with
  | [] => []
  | l => [param "scope" (join (to_string (orElse (field (ck_configs c) "scopeSeparator") (JStr " "))) (map to_string l))]
  end.

Definition query (f : flow_kind) (o : fields) (c : click) : list string :=
  response_type f ++
  match field o "clientId" with JStr id => [param "client_id" id] | _ => [] end ++
  [param "redirect_uri" (to_string (ck_redirectUrl c))] ++ scope_param o c ++ [param "state" (sent_state c)] ++
  match field (ck_configs c) "realm" with JUndef => [] | v => [param "realm" (to_string v)] end ++
  (if uses_pkce f c then ["code_challenge=" +:+ challenge c; "code_challenge_method=S256"] else []) ++
  extra_params (field (ck_configs c) "additionalQueryStringParams").

Definition authorization_base (o : fields) (c : click) : string :=
  let url := sanitizeUrl (map_get (field o "schema") "authorizationUrl") in
  if truthy (ck_server c) then resolve_url url (to_string (ck_server c)) else url.

Definition callback_of (f : flow_kind) (c : click) : callback :=
  match f with
  | FImplicit => PreAuthorizeImplicit
  | _ => if truthy (field (ck_configs c) "useBasicAuthenticationWithAccessCodeGrant")
         then AccessCodeWithBasicAuthentication else AccessCodeWithFormParams
  end.

Definition no_redirect_url (o : fields) : fields :=
  [("authId", field o "name"); ("source", JStr "validation"); ("level", JStr "error");
   ("message", JStr "oauth2RedirectUrl configuration is not passed. Oauth2 authorization cannot be performed.")].

(** [authorize] of oauth2-authorize.js for the object at [a]. The address of the schema is only used
    as a text after the verifier has been stored: without one an exception ends the handler. *)
Definition oauth2Authorize (a : nat) (c : click) (pg : oauth_page) : oauth_page :=
  let o := object_at pg a in
  let f := flow_of (field o "schema") in
  match f with
  | FPassword => password_request a pg
  | FApplication => application_request a pg
  | _ =>
      match ck_redirectUrl c with
      | JUndef => newAuthErr (no_redirect_url o) pg
      | redirectUrl =>
          let pg' := if uses_pkce f c then set_field a "codeVerifier" (JStr (verifier c)) pg else pg in
          match map_get (field o "schema") "authorizationUrl" with
          | JStr authorizationUrl =>
              let url := authorization_base o c +:+ (if includes authorizationUrl "?" then "&" else "?") +:+ join "&" (query f o c) in
              open_window url (set_window (Some (RedirectInfo a (JStr (sent_state c)) redirectUrl (callback_of f c))) pg')
          | _ => pg'
          end
      end
  end.

(** The handler of the component. The name in the filter is not that of the authorization: it is
    the global variable, which is the name of the window. *)
Definition authorize (c : click) (pg : oauth_page) : oauth_page :=
  oauth2Authorize (og_state pg) c
    (clear_errors [("authId", JStr (ck_windowName c)); ("type", JStr "auth"); ("source", JStr "auth")] pg).
End Authorize.

(** [logout] of the component: the reducer of its action, and persistence. *)
Definition logout (persistAuthorization : jsval) (name : string) (pg : oauth_page) : oauth_page :=
  let pg := clear_errors [("authId", JStr name); ("type", JStr "auth"); ("source", JStr "auth")] pg in
  let auth := match LOGOUT (og_auth pg) [name] with Ok st => st | _ => og_auth pg end in
  set_auth auth (persistAuthorizationIfNeeded persistAuthorization auth (og_storage pg)) pg.

(** * The redirect page *)

(** [decodeURIComponent(value)], which takes any value as a text. *)
Definition decode_value (v : jsval) : result jsval := s ← decodeURIComponent (to_string v); Ok (JStr s).

(** The function given to [JSON.parse]: everything but what has an empty key is decoded. *)
Fixpoint revive (v : jsval) : result jsval :=
  match v with
  | JArr l =>
      l' ← (fix go (l : list jsval) : result (list jsval) :=
              match l with [] => Ok [] | x :: r => x' ← revive x; y ← decode_value x'; r' ← go r; Ok (y :: r') end) l;
      Ok (JArr l')
  | JObj fs =>
      fs' ← (fix go (fs : list (string * jsval)) : result (list (string * jsval)) :=
               match fs with
               | [] => Ok []
               | (k, x) :: r => x' ← revive x; y ← (if String.eqb k "" then Ok x' else decode_value x');
                                r' ← go r; Ok ((k, y) :: r')
               end) fs;
      Ok (JObj fs')
  | v => Ok v
  end.

Definition json_pair (v : string) : string := dquote +:+ replace_first (ch 61) (dquote +:+ ":" +:+ dquote) v +:+ dquote.

Definition tail (s : string) : string := match s with String _ r => r | EmptyString => "" end.

(** The parameters that came back, from the fragment or the query of the address. *)
Definition redirect_params (hash search : string) : result jsval :=
  let qp := if includes hash "code" || includes hash "token" || includes hash "error" then tail hash else tail search in
  if String.eqb qp "" then Ok (JObj [])
  else v ← parse_text ("{" +:+ join "," (map json_pair (split "&" qp)) +:+ "}"); revive v.

Definition is_code_flow (schema : jsval) : bool := match flow_of schema with FCode => true | _ => false end.

Definition state_changed (o : fields) : fields :=
  [("authId", field o "name"); ("source", JStr "auth"); ("level", JStr "warning");
   ("message", JStr "Authorization may be unsafe, passed state was changed in server Passed state wasn't returned from auth server")].

Definition code_missing (o : fields) (qp : jsval) : fields :=
  let f := map_get qp in
  [("authId", field o "name"); ("source", JStr "auth"); ("level", JStr "error");
   ("message", JStr (if truthy (f "error")
      then "[" +:+ to_string (f "error") +:+ "]: " +:+
           (if truthy (f "error_description") then to_string (f "error_description") +:+ ". "
            else "no accessCode received from the server. ") +:+
           (if truthy (f "error_uri") then "More info: " +:+ to_string (f "error_uri") else "")
      else "[Authorization failed]: no accessCode received from the server"))].

(** [oauth2.callback({auth, token, isValid, redirectUrl})]. *)
Definition call_back (persistAuthorization : jsval) (info : redirect_info) (token : jsval) (isValid : bool) (pg : oauth_page) : oauth_page :=
  let o := object_at pg (rd_auth info) in
  match rd_callback info with
  | PreAuthorizeImplicit =>
      foldl (act persistAuthorization (rd_auth info)) (set_window None pg)
            (preAuthorizeImplicit (name_of o) (map_get (field o "schema") "flow") isValid token)
  | AccessCodeWithBasicAuthentication => code_request true (rd_auth info) (rd_redirectUrl info) pg
  | AccessCodeWithFormParams => code_request false (rd_auth info) (rd_redirectUrl info) pg
  end.

(** [run()] of the page, opened at an address with this fragment and query. Without an opener that
    waits, or with parameters that cannot be read, it ends with an exception. *)
Definition redirected (persistAuthorization : jsval) (hash search : string) (pg : oauth_page) : oauth_page :=
  match og_window pg, redirect_params hash search with
  | Some info, Ok qp =>
      let o := object_at pg (rd_auth info) in
      let isValid := strict_eq (map_get qp "state") (rd_state info) in
      if is_code_flow (field o "schema") && negb (truthy (field o "code")) then
        let pg := if isValid then pg else newAuthErr (state_changed o) pg in
        if truthy (map_get qp "code") then
          let info' := RedirectInfo (rd_auth info) JUndef (rd_redirectUrl info) (rd_callback info) in
          call_back persistAuthorization info' JUndef isValid
            (set_field (rd_auth info) "code" (map_get qp "code") (set_window (Some info') pg))
        else newAuthErr (code_missing o qp) pg
      else call_back persistAuthorization info qp isValid pg
  | _, _ => pg
  end.

(** * Lemmas: query strings *)

(** A query string as both sides write it. *)
Definition pair_text (kv : string * string) : string := encodeURIComponent kv.1 +:+ "=" +:+ encodeURIComponent kv.2.
Definition query_text (params : list (string * string)) : string := join "&" (map pair_text params).

Lemma encode_unreserved s : sforall unreserved s = true → encodeURIComponent s = s.
Proof.
  induction s as [|c s IH]; [done|]. cbn [sforall encodeURIComponent]. rewrite andb_true_iff. intros [Hc Hs].
  unfold pct. by rewrite Hc, (IH Hs).
Qed.

Lemma form_value_component s : form_value (encodeURIComponent s) = Some s.
Proof.
  unfold form_value. rewrite replace_char_none; [apply unpct_encode|].
  eapply sforall_impl; [|apply encode_chars]. apply char_implies. vm_compute. reflexivity.
Qed.

Lemma pair_no_amp kv : includes (pair_text kv) "&" = false.
Proof.
  apply (sforall_no_char (λ c, uri_char c || (code c =? 61)%N) (ch 38)); [done|]. unfold pair_text. rewrite !sforall_app.
  assert (∀ s, sforall (λ c, uri_char c || (code c =? 61)%N) (encodeURIComponent s) = true) as He.
  { intros s. eapply sforall_impl; [|apply encode_chars]. intros c Hc. cbn beta. by rewrite Hc. }
  by rewrite !He.
Qed.

Lemma pairs_no_ampersand params : Forall (λ x, includes x "&" = false) (map pair_text params).
Proof. apply Forall_map, Forall_forall. intros kv _. apply pair_no_amp. Qed.

Lemma query_nonempty kv params : query_text (kv :: params) ≠ "".
Proof.
  unfold query_text. intros E. apply (f_equal (λ s, includes s "=")) in E. cbn [map] in E. unfold pair_text at 1 in E.
  destruct (map pair_text params); cbn [join] in E; rewrite ?sapp_assoc, includes_middle in E; done.
Qed.

Lemma split_query kv params : split "&" (query_text (kv :: params)) = map pair_text (kv :: params).
Proof. change "&" with (String (ch 38) ""). apply split_join; [done|apply pairs_no_ampersand]. Qed.

(** A server reads the parameters back. *)
Lemma query_decoded params : form_decode (query_text params) = Some params.
Proof.
  destruct params as [|kv params]; [done|]. unfold form_decode. pose proof (query_nonempty kv params) as Hne%String.eqb_neq.
  rewrite Hne, split_query. generalize (kv :: params). clear. intros params. induction params as [|[k v] params IH]; [done|].
  cbn [map mapM]. assert (form_decode_pair (pair_text (k, v)) = Some (k, v)) as ->; [|by rewrite IH].
  unfold form_decode_pair, pair_text. cbn [fst snd]. change "=" with (String (ch 61) "").
  change (encodeURIComponent k +:+ String (ch 61) "" +:+ encodeURIComponent v) with (join (String (ch 61) "") [encodeURIComponent k; encodeURIComponent v]).
  rewrite split_join; [by rewrite !form_value_component|done|]. repeat constructor; by apply encode_no_sep.
Qed.

Lemma esc_component s : esc (encodeURIComponent s) = encodeURIComponent s.
Proof.
  assert (∀ t, sforall uri_char t = true → esc t = t) as H; [|apply H, encode_chars]. clear s.
  induction t as [|c t IH]; [done|]. cbn [sforall esc]. rewrite andb_true_iff. intros [Hc Ht]. rewrite (IH Ht).
  assert (esc_char c = String c "") as ->; [|done]. apply String.eqb_eq. clear IH Ht t. revert c Hc. apply char_implies.
  vm_compute. reflexivity.
Qed.

Lemma replace_first_app c b s t : includes s (String c "") = false → replace_first c b (s +:+ String c t) = s +:+ b +:+ t.
Proof.
  induction s as [|d s IH]; [intros _; cbn [String.append replace_first]; by rewrite Ascii.eqb_refl|].
  cbn [includes strip_prefix String.append replace_first]. destruct (Ascii.eqb c d); [done|]. intros H. by rewrite IH.
Qed.

Lemma json_pair_text kv : json_pair (pair_text kv) = quote (encodeURIComponent kv.1) +:+ ":" +:+ quote (encodeURIComponent kv.2).
Proof.
  unfold json_pair, pair_text, quote. rewrite !esc_component. change ("=" +:+ ?x) with (String (ch 61) x).
  rewrite replace_first_app by (by apply encode_no_sep). by rewrite !sapp_assoc.
Qed.

(** The object that the text of the redirect page denotes. *)
Definition encoded_object (params : list (string * string)) : jsval :=
  JObj (map (λ kv, (encodeURIComponent kv.1, JStr (encodeURIComponent kv.2))) params).

Lemma object_text kv params : stringify "" (encoded_object (kv :: params)) =
  JStr ("{" +:+ join "," (map json_pair (map pair_text (kv :: params))) +:+ "}").
Proof.
  unfold stringify, encoded_object. rewrite map_map. rewrite (map_ext _ _ json_pair_text). 
  cbn [ser]. unfold wrap. set (items := (fix fields (fs : list (string * jsval)) : list string := _) _).
  assert (items = map (λ x, quote (encodeURIComponent x.1) +:+ ":" +:+ quote (encodeURIComponent x.2)) (kv :: params)) as ->; [|done].
  unfold items. generalize (kv :: params). clear. intros l. induction l as [|x l IH]; [done|]. cbn [map]. f_equal. exact IH.
Qed.

(** The reader of the redirect page, for parameters with plain names. *)
Definition params_ok (params : list (string * string)) : Prop :=
  NoDup (map fst params) ∧ Forall (λ kv, sforall unreserved kv.1 = true ∧ kv.1 ≠ "" ∧ text kv.2) params.

Definition params_object (params : list (string * string)) : jsval := JObj (map (λ kv, (kv.1, JStr kv.2)) params).

Lemma revive_params params : Forall (λ kv, sforall unreserved kv.1 = true ∧ kv.1 ≠ "" ∧ text kv.2) params →
  revive (encoded_object params) = Ok (params_object params).
Proof.
  intros H. unfold encoded_object, params_object. cbn [revive]. set (go := fix go (fs : list (string * jsval)) := _).
  assert (go (map (λ kv, (encodeURIComponent kv.1, JStr (encodeURIComponent kv.2))) params) = Ok (map (λ kv, (kv.1, JStr kv.2)) params)) as ->; [|done].
  induction H as [|[k v] params (Hk & Hne & Hv) _ IH]; [done|]. cbn [map fst snd] in *. unfold go; fold go.
  rewrite IH, (encode_unreserved k Hk). cbn [revive]. rewrite ok_bind. apply String.eqb_neq in Hne. rewrite Hne.
  unfold decode_value. cbn [to_string]. by rewrite decode_encode.
Qed.

Lemma read_params kv params : params_ok (kv :: params) →
  (v ← parse_text ("{" +:+ join "," (map json_pair (split "&" (query_text (kv :: params)))) +:+ "}"); revive v) =
  Ok (params_object (kv :: params)).
Proof.
  intros [Hn Hp]. rewrite split_query. pose proof (parse_stringify "" (encoded_object (kv :: params))) as Hps.
  rewrite object_text in Hps. unfold parse in Hps. cbn [to_string] in Hps. rewrite Hps; [by rewrite ok_bind, revive_params| |done].
  unfold encoded_object. apply json_ok_obj. split.
  - rewrite map_map. cbn [fst]. replace (map (λ x : string * string, encodeURIComponent x.1) (kv :: params)) with (map fst (kv :: params)); [done|].
    clear -Hp. induction Hp as [|x l (Hx & _) _ IH]; [done|]. cbn [map]. by rewrite IH, encode_unreserved.
  - apply Forall_map, Forall_forall. intros x _. done.
Qed.

(** * The authorization request *)

Section Request.
Context `{Urls : UrlTools} (sha : string → string).

(** The parameters that the authorization server is meant to read. *)
Definition request_params (f : flow_kind) (o : fields) (c : click) : list (string * string) :=
  match f with FCode => [("response_type", "code")] | FImplicit => [("response_type", "token")] | _ => [] end ++
  match field o "clientId" with JStr id => [("client_id", id)] | _ => [] end ++
  [("redirect_uri", to_string (ck_redirectUrl c))] ++
  match list_of (field o "scopes") with
  | [] => []
  | l => [("scope", join (to_string (orElse (field (ck_configs c) "scopeSeparator") (JStr " "))) (map to_string l))]
  end ++
  [("state", sent_state c)] ++
  match field (ck_configs c) "realm" with JUndef => [] | v => [("realm", to_string v)] end ++
  (if uses_pkce f c then [("code_challenge", challenge sha c); ("code_challenge_method", "S256")] else []) ++
  omap (λ kv, match kv.2 with JUndef => None | v => Some (kv.1, to_string v) end)
    (enumerated (field (ck_configs c) "additionalQueryStringParams")).

Lemma challenge_unreserved c : encodeURIComponent (challenge sha c) = challenge sha c.
Proof.
  apply encode_unreserved. eapply sforall_impl; [|apply b64url_spec]. apply char_implies. vm_compute. reflexivity.
Qed.

Lemma query_params f o c : query sha f o c = map pair_text (request_params f o c).
Proof.
  unfold query, request_params. rewrite !map_app. repeat f_equal.
  - by destruct f.
  - by destruct (field o "clientId").
  - unfold scope_param. by destruct (list_of _).
  - by destruct (field _ "realm").
  - destruct (uses_pkce f c); [|done]. cbn [map]. unfold pair_text. cbn [fst snd]. by rewrite challenge_unreserved.
  - unfold extra_params. induction (enumerated _) as [|[k v] fs IH]; [done|].
    cbn [omap list_omap fst snd]. destruct v; cbn [map]; by rewrite <- IH || exact IH.
Qed.

(** What a click does in the flows with a window. *)
Definition waits_for (a : nat) (f : flow_kind) (c : click) : redirect_info :=
  RedirectInfo a (JStr (sent_state c)) (ck_redirectUrl c) (callback_of f c).

Lemma object_set_eq pg a k v : a < length (og_heap pg) → object_at (set_field a k v pg) a = oset (object_at pg a) k v.
Proof. intros Ha. unfold object_at at 1. cbn [set_field og_heap]. by rewrite list_lookup_insert_eq. Qed.

Lemma authorize_spec c pg u : let o := object_at pg (og_state pg) in let f := flow_of (field o "schema") in
  (f = FCode ∨ f = FImplicit) → ck_redirectUrl c ≠ JUndef → map_get (field o "schema") "authorizationUrl" = JStr u →
  let cleared := clear_errors [("authId", JStr (ck_windowName c)); ("type", JStr "auth"); ("source", JStr "auth")] pg in
  authorize sha c pg =
  open_window (authorization_base o c +:+ (if includes u "?" then "&" else "?") +:+ query_text (request_params f o c))
    (set_window (Some (waits_for (og_state pg) f c))
       (if uses_pkce f c then set_field (og_state pg) "codeVerifier" (JStr (verifier sha c)) cleared else cleared)).
Proof.
  intros o f Hf Hr Hu. cbv zeta. unfold authorize. set (cleared := clear_errors _ pg). change (og_state pg) with (og_state cleared).
  unfold oauth2Authorize. change (object_at cleared (og_state cleared)) with o. fold f. rewrite Hu.
  unfold query_text. rewrite <- query_params. unfold waits_for. by destruct Hf as [-> | ->], (ck_redirectUrl c).
Qed.
End Request.

(** C19: a click on Authorize in a flow with a window opens exactly one window, at the sanitized
    address of the schema; a server reads its query as exactly the response type, client, redirect
    address, scopes, state, realm, PKCE challenge and additional parameters, whatever characters
    they contain; the page then waits for the redirect with the same state, and keeps the verifier
    to which the challenge belongs. *)
Theorem authorization_request `{UrlTools} sha c pg u :
  let o := object_at pg (og_state pg) in let f := flow_of (field o "schema") in
  (f = FCode ∨ f = FImplicit) → ck_redirectUrl c ≠ JUndef → map_get (field o "schema") "authorizationUrl" = JStr u →
  og_state pg < length (og_heap pg) →
  let pg' := authorize sha c pg in
  ∃ q, og_opened pg' = (authorization_base o c +:+ (if includes u "?" then "&" else "?") +:+ q) :: og_opened pg ∧
    form_decode q = Some (request_params sha f o c) ∧
    og_window pg' = Some (waits_for (og_state pg) f c) ∧ og_requests pg' = og_requests pg ∧
    (uses_pkce f c = true → field (object_at pg' (og_state pg)) "codeVerifier" = JStr (verifier sha c)).
Proof.
  intros o f Hf Hr Hu Ha. cbv zeta. rewrite (authorize_spec sha c pg u Hf Hr Hu). fold o. fold f.
  exists (query_text (request_params sha f o c)). split_and!; [|apply query_decoded|done| |].
  - by destruct (uses_pkce f c).
  - by destruct (uses_pkce f c).
  - intros ->. unfold object_at, field. cbn [open_window set_window set_field og_heap].
    change (og_heap (clear_errors _ pg)) with (og_heap pg). rewrite list_lookup_insert_eq by done.
    change (default [] (Some ?x)) with x. by rewrite assoc_oset_eq.
Qed.

(** * Coming back *)

(** The address to which the server redirects: the parameters are in the query, or in a fragment
    that names a code, a token or an error. *)
Definition comes_back (hash search : string) (params : list (string * string)) : Prop :=
  let words := includes hash "code" || includes hash "token" || includes hash "error" in
  (words = false ∧ search = "?" +:+ query_text params) ∨ (words = true ∧ hash = "#" +:+ query_text params).

Lemma redirect_params_ok hash search params : comes_back hash search params → params_ok params → params ≠ [] →
  redirect_params hash search = Ok (params_object params).
Proof.
  intros Hb Hp Hne. unfold redirect_params. destruct params as [|kv params]; [done|].
  pose proof (query_nonempty kv params) as Hq%String.eqb_neq.
  destruct Hb as [[-> ->]|[-> ->]]; change (tail (_ +:+ ?q)) with q; rewrite Hq; by apply read_params.
Qed.

Lemma param_get params k v : params_ok params → (k, v) ∈ params → map_get (params_object params) k = JStr v.
Proof.
  intros [Hn _] Hin. unfold params_object, map_get. rewrite (assoc_elem _ k (JStr v)); [done| |].
  - rewrite map_map. exact Hn.
  - apply list_elem_of_fmap. by exists (k, v).
Qed.

Lemma param_none params k : k ∉ map fst params → map_get (params_object params) k = JUndef.
Proof. intros Hk. unfold params_object, map_get. rewrite assoc_None; [done|]. by rewrite map_map. Qed.

Section Flows.
Context `{Urls : UrlTools} (sha : string → string) (persist : jsval).

Definition use_basic (c : click) : bool := truthy (field (ck_configs c) "useBasicAuthenticationWithAccessCodeGrant").

(** The fields of the form that exchanges a code. *)
Definition exchange_fields (basic : bool) (o : fields) (code redirectUrl codeVerifier : jsval) : fields :=
  [("grant_type", JStr "authorization_code"); ("code", code); ("client_id", field o "clientId")] ++
  (if basic then [] else [("client_secret", field o "clientSecret")]) ++
  [("redirect_uri", redirectUrl); ("code_verifier", codeVerifier)].

(** The request is for the object, to its address, with these fields. *)
Definition exchanges (r : token_request) (basic : bool) (o : fields) (code redirectUrl codeVerifier : jsval) : Prop :=
  tr_name r = field o "name" ∧ tr_url r = token_url o ∧
  form_decode (tr_body r) = Some (map (λ kv, (kv.1, to_string kv.2))
    (filter (λ kv, form_sent kv = true) (exchange_fields basic o code redirectUrl codeVerifier))) ∧
  tr_authorization r = if basic then Some (basic_header (field o "clientId") (field o "clientSecret")) else None.

(** Only four fields of the object matter. *)
Lemma exchanges_same r basic o o' code redirectUrl codeVerifier :
  Forall (λ k, field o k = field o' k) ["name"; "schema"; "clientId"; "clientSecret"] →
  exchanges r basic o code redirectUrl codeVerifier → exchanges r basic o' code redirectUrl codeVerifier.
Proof.
  rewrite !Forall_cons. intros (H1 & H2 & H3 & H4 & _). unfold exchanges, exchange_fields, token_url. by rewrite H1, H2, H3, H4.
Qed.

Lemma code_request_spec basic a redirectUrl pg :
  ∃ r, code_request basic a redirectUrl pg = send r pg ∧ tr_auth r = a ∧
    exchanges r basic (object_at pg a) (field (object_at pg a) "code") redirectUrl (field (object_at pg a) "codeVerifier").
Proof.
  unfold code_request, request_token. eexists. split; [reflexivity|]. split; [done|]. unfold exchanges. cbn [tr_name tr_url tr_body tr_authorization].
  split_and!; [done|done| |by destruct basic].
  destruct basic; cbn [fst authorizeAccessCodeWithBasicAuthentication authorizeAccessCodeWithFormParams];
    apply form_roundtrip; repeat constructor.
Qed.

(** The object and the errors after the click. *)
Definition clicked (c : click) (pg : oauth_page) : fields :=
  let o := object_at pg (og_state pg) in
  if uses_pkce (flow_of (field o "schema")) c then oset o "codeVerifier" (JStr (verifier sha c)) else o.

Definition cleared_err (c : click) (pg : oauth_page) : err_state :=
  CLEAR (og_err pg) (Some [("authId", JStr (ck_windowName c)); ("type", JStr "auth"); ("source", JStr "auth")]).

Lemma clicked_field c pg k : k ≠ "codeVerifier" → field (clicked c pg) k = field (object_at pg (og_state pg)) k.
Proof. intros Hk. unfold clicked, field. destruct (uses_pkce _ c); [|done]. by rewrite assoc_oset_ne. Qed.

Lemma after_click c pg u : let o := object_at pg (og_state pg) in let f := flow_of (field o "schema") in
  (f = FCode ∨ f = FImplicit) → ck_redirectUrl c ≠ JUndef → map_get (field o "schema") "authorizationUrl" = JStr u →
  og_state pg < length (og_heap pg) →
  let pg' := authorize sha c pg in
  og_state pg' = og_state pg ∧ object_at pg' (og_state pg) = clicked c pg ∧ length (og_heap pg') = length (og_heap pg) ∧
  og_window pg' = Some (waits_for (og_state pg) f c) ∧ og_requests pg' = og_requests pg ∧
  og_err pg' = cleared_err c pg ∧ og_auth pg' = og_auth pg ∧ og_storage pg' = og_storage pg.
Proof.
  intros o f Hf Hr Hu Ha. cbv zeta. rewrite (authorize_spec sha c pg u Hf Hr Hu). fold o f. unfold clicked. fold o f.
  destruct (uses_pkce f c); [|done]. cbn [open_window set_window og_state og_heap og_window og_requests og_err og_auth og_storage set_field].
  split_and!; try done; [|by rewrite length_insert]. unfold object_at at 1. cbn [open_window set_window set_field og_heap].
  change (og_heap (clear_errors _ pg)) with (og_heap pg). by rewrite list_lookup_insert_eq.
Qed.

(** A warning is recorded unless the state came back. *)
Definition checked_err (c : click) (pg : oauth_page) (params : list (string * string)) : err_state :=
  if bool_decide (("state", sent_state c) ∈ params) then cleared_err c pg
  else NEW_AUTH_ERR (cleared_err c pg) (JObj (state_changed (object_at pg (og_state pg)))).

Lemma state_valid c params : params_ok params →
  strict_eq (map_get (params_object params) "state") (JStr (sent_state c)) = bool_decide (("state", sent_state c) ∈ params).
Proof.
  intros Hp. case_bool_decide as Hin.
  - rewrite (param_get _ _ _ Hp Hin). cbn [strict_eq]. apply String.eqb_refl.
  - destruct (decide ("state" ∈ map fst params)) as [Hs|Hs].
    + apply list_elem_of_fmap in Hs as ([k v] & Hk & Hv). cbn [fst] in Hk. subst k. rewrite (param_get _ _ _ Hp Hv).
      cbn [strict_eq]. apply String.eqb_neq. intros ->. done.
    + by rewrite param_none.
Qed.
(** Coming back after a click. *)
Lemma redirected_after c pg u hash search params : let o := object_at pg (og_state pg) in let f := flow_of (field o "schema") in
  (f = FCode ∨ f = FImplicit) → ck_redirectUrl c ≠ JUndef → map_get (field o "schema") "authorizationUrl" = JStr u →
  og_state pg < length (og_heap pg) → comes_back hash search params → params_ok params → params ≠ [] →
  let pg' := authorize sha c pg in
  let valid := bool_decide (("state", sent_state c) ∈ params) in
  redirected persist hash search pg' =
  if is_code_flow (field o "schema") && negb (truthy (field o "code")) then
    let pg1 := if valid then pg' else newAuthErr (state_changed o) pg' in
    let code := map_get (params_object params) "code" in
    if truthy code then
      let info := RedirectInfo (og_state pg) JUndef (ck_redirectUrl c) (callback_of f c) in
      call_back persist info JUndef valid (set_field (og_state pg) "code" code (set_window (Some info) pg1))
    else newAuthErr (code_missing o (params_object params)) pg1
  else call_back persist (waits_for (og_state pg) f c) (params_object params) valid pg'.
Proof.
  intros o f Hf Hr Hu Ha Hb Hp Hne. cbv zeta. destruct (after_click c pg u Hf Hr Hu Ha) as (_ & H2 & _ & H4 & _).
  fold o f in H4. unfold redirected. rewrite H4, (redirect_params_ok hash search params) by done.
  change (rd_auth (waits_for ?a ?f ?c)) with a. change (rd_state (waits_for ?a ?f ?c)) with (JStr (sent_state c)).
  change (rd_callback (waits_for ?a ?f ?c)) with (callback_of f c). change (rd_redirectUrl (waits_for ?a ?f ?c)) with (ck_redirectUrl c).
  assert (state_changed (clicked c pg) = state_changed o) as Hw by (unfold state_changed; by rewrite clicked_field).
  assert (code_missing (clicked c pg) (params_object params) = code_missing o (params_object params)) as Hm
    by (unfold code_missing; by rewrite clicked_field).
  by rewrite H2, Hw, Hm, !clicked_field, state_valid by done.
Qed.

Lemma call_back_code basic info token valid pg :
  rd_callback info = (if (basic : bool) then AccessCodeWithBasicAuthentication else AccessCodeWithFormParams) →
  call_back persist info token valid pg = code_request basic (rd_auth info) (rd_redirectUrl info) pg.
Proof. unfold call_back. intros ->. by destruct basic. Qed.

Lemma callback_code c : callback_of FCode c = if use_basic c then AccessCodeWithBasicAuthentication else AccessCodeWithFormParams.
Proof. done. Qed.
End Flows.

(** C18: the authorization code flow: when the dialog holds no code of an earlier authorization and the
    server comes back with a code, exactly one token request is sent; it carries that code, the client, the redirect address of the authorization
    request and the verifier whose challenge that request contained; a warning is recorded exactly
    when the state that comes back is not the one that was sent. *)
Theorem code_flow_exchange `{UrlTools} sha persist c pg u hash search params code :
  let o := object_at pg (og_state pg) in
  flow_of (field o "schema") = FCode → ck_redirectUrl c ≠ JUndef → map_get (field o "schema") "authorizationUrl" = JStr u →
  og_state pg < length (og_heap pg) → truthy (field o "code") = false →
  comes_back hash search params → params_ok params → ("code", code) ∈ params → code ≠ "" →
  let pg' := redirected persist hash search (authorize sha c pg) in
  ∃ r, og_requests pg' = og_requests pg ++ [r] ∧
    exchanges r (use_basic c) o (JStr code) (ck_redirectUrl c) (if uses_pkce FCode c then JStr (verifier sha c) else field o "codeVerifier") ∧
    og_err pg' = checked_err c pg params ∧ og_auth pg' = og_auth pg.
Proof.
  intros o Hf Hr Hu Ha Hc Hb Hp Hin Hne. cbv zeta.
  destruct (after_click sha c pg u (or_introl Hf) Hr Hu Ha) as (H1 & H2 & H3 & H4 & H5 & H6 & H7 & _).
  assert (params ≠ []) as Hpn by (intros ->; by apply elem_of_nil in Hin).
  rewrite (redirected_after sha persist c pg u hash search params (or_introl Hf) Hr Hu Ha Hb Hp Hpn). fold o. cbv zeta.
  unfold is_code_flow. rewrite Hf, Hc, (param_get _ _ _ Hp Hin). cbn [negb andb truthy].
  apply String.eqb_neq in Hne as Hne'. rewrite Hne'. cbn [negb]. set (info := RedirectInfo _ _ _ _).
  set (pg1 := if bool_decide _ then _ else _).
  set (pg2 := set_field _ _ _ _).
  assert (object_at pg2 (og_state pg) = oset (clicked sha c pg) "code" (JStr code)) as Ho.
  { unfold pg2. rewrite object_set_eq; [f_equal|].
    - unfold pg1. by case_bool_decide; rewrite <- H2.
    - unfold pg1. by case_bool_decide; cbn [set_window newAuthErr set_err og_heap]; rewrite H3. }
  rewrite (call_back_code persist (use_basic c)) by apply callback_code. change (rd_auth info) with (og_state pg).
  change (rd_redirectUrl info) with (ck_redirectUrl c).
  destruct (code_request_spec (use_basic c) (og_state pg) (ck_redirectUrl c) pg2) as (r & -> & _ & Hx). rewrite Ho in Hx.
  exists r. split_and!.
  - cbn [send og_requests]. f_equal. unfold pg2, pg1. by case_bool_decide.
  - eapply (exchanges_same _ _ (oset (clicked sha c pg) "code" (JStr code))).
    { repeat constructor; unfold field at 1; rewrite assoc_oset_ne by done; by apply clicked_field. }
    revert Hx. unfold field at 1. rewrite assoc_oset_eq. change (default JUndef (Some (JStr code))) with (JStr code).
    unfold field at 1. rewrite assoc_oset_ne by done. fold (field (clicked sha c pg) "codeVerifier"). unfold clicked. fold o. rewrite Hf.
    destruct (uses_pkce FCode c); [|done]. unfold field at 1. by rewrite assoc_oset_eq.
  - cbn [send og_err]. unfold pg2, pg1, checked_err. fold o. case_bool_decide; [done|]. cbn [set_field set_window newAuthErr set_err og_err]. by rewrite H6.
  - cbn [send og_auth]. unfold pg2, pg1. by case_bool_decide.
Qed.

(** A component that has already received a code sends that code again: when the user
    authorizes once more in the same dialog, whatever new code the server gives, the token request
    carries the old one, and a state that does not match is not reported. *)
Theorem stale_code_sent `{UrlTools} sha persist c pg u hash search params :
  let o := object_at pg (og_state pg) in
  flow_of (field o "schema") = FCode → ck_redirectUrl c ≠ JUndef → map_get (field o "schema") "authorizationUrl" = JStr u →
  og_state pg < length (og_heap pg) → truthy (field o "code") = true →
  comes_back hash search params → params_ok params → params ≠ [] →
  let pg' := redirected persist hash search (authorize sha c pg) in
  ∃ r, og_requests pg' = og_requests pg ++ [r] ∧
    exchanges r (use_basic c) o (field o "code") (ck_redirectUrl c) (field (clicked sha c pg) "codeVerifier") ∧
    og_err pg' = cleared_err c pg.
Proof.
  intros o Hf Hr Hu Ha Hc Hb Hp Hne. cbv zeta.
  destruct (after_click sha c pg u (or_introl Hf) Hr Hu Ha) as (_ & H2 & _ & _ & H5 & H6 & _).
  rewrite (redirected_after sha persist c pg u hash search params (or_introl Hf) Hr Hu Ha Hb Hp Hne). fold o. cbv zeta.
  rewrite Hc, andb_false_r, Hf, (call_back_code persist (use_basic c)) by apply callback_code.
  change (rd_auth (waits_for ?a ?f ?c)) with a. change (rd_redirectUrl (waits_for ?a ?f ?c)) with (ck_redirectUrl c).
  destruct (code_request_spec (use_basic c) (og_state pg) (ck_redirectUrl c) (authorize sha c pg)) as (r & -> & _ & Hx).
  rewrite H2, !clicked_field in Hx by done. exists r. cbn [send og_requests og_err]. rewrite H5, H6. split_and!; [done| |done].
  eapply exchanges_same; [|exact Hx]. repeat constructor; by apply clicked_field.
Qed.

(** Storing a token: the object with the token becomes the authorization of its name. *)
Lemma authorizeOauth2_spec persist a params m pg : a < length (og_heap pg) → NoDup (map fst params) →
  authorized (og_auth pg) = JObj m →
  let pg' := authorizeOauth2 persist a (params_object params) pg in let name := name_of (object_at pg a) in
  (∀ k v, (k, v) ∈ params → getIn (authorized (og_auth pg')) [name; "token"; k] = JStr v) ∧
  (∀ n, n ≠ name → map_get (authorized (og_auth pg')) n = map_get (authorized (og_auth pg)) n) ∧
  og_window pg' = og_window pg ∧ og_requests pg' = og_requests pg ∧ og_err pg' = og_err pg.
Proof.
  intros Ha Hn Hm. cbv zeta. unfold authorizeOauth2. set (pg1 := set_field _ _ _ pg).
  set (token := JObj (spread [] (params_object params))).
  assert (object_at pg1 a = oset (object_at pg a) "token" token) as Ho by (by apply object_set_eq).
  unfold AUTHORIZE_OAUTH2. rewrite Ho, assoc_oset_ne by done. change (og_auth pg1) with (og_auth pg). rewrite Hm. cbn [map_set]. rewrite ok_bind.
  change (to_string (default JUndef (assoc (object_at pg a) "name"))) with (name_of (object_at pg a)). fold token.
  set (entry := oset (oset _ _ _) _ _).
  cbn [set_auth og_auth og_window og_requests og_err]. unfold authorized at 1 2. cbn [set_authorized a_authorized truthy].
  split_and!; try done.
  - intros k v Hk. cbn [getIn]. rewrite assoc_oset_eq. change (default JUndef (Some ?x)) with x. unfold entry at 1. rewrite assoc_oset_eq.
    change (default JUndef (Some ?x)) with x. unfold token. cbn [getIn]. unfold params_object. rewrite assoc_spread by (rewrite map_map; exact Hn).
    rewrite (assoc_elem _ k (JStr v)); [done|by rewrite map_map|]. apply list_elem_of_fmap. by exists (k, v).
  - intros n Hne. cbn [map_get]. by rewrite assoc_oset_ne by congruence.
Qed.

Lemma implicit_actions name flow valid params : flow_of (JObj [("flow", flow)]) = FImplicit → "error" ∉ map fst params →
  preAuthorizeImplicit name flow valid (params_object params) =
  (if valid then [] else [NewAuthErr (state_changed [("name", JStr name)])]) ++ [AuthorizeOauth2 (params_object params)].
Proof.
  intros Hf He. unfold preAuthorizeImplicit. assert (is_str flow "accessCode" = false) as ->.
  { destruct (is_str flow "accessCode") eqn:E; [|done]. destruct flow; try done. apply String.eqb_eq in E as ->. done. }
  change (own (params_object params) "error") with (assoc (map (λ kv : string * string, (kv.1, JStr kv.2)) params) "error").
  rewrite assoc_None by (by rewrite map_map). by destruct valid.
Qed.

(** The implicit flow: when the server comes back with a token and no error, the parameters are
    stored as the token of the authorization, the other authorizations stay, the page no longer
    waits, no request is sent, and a warning is recorded exactly when the state is not the one sent. *)
Theorem implicit_flow_stored `{UrlTools} sha persist c pg u hash search params m :
  let o := object_at pg (og_state pg) in
  flow_of (field o "schema") = FImplicit → ck_redirectUrl c ≠ JUndef → map_get (field o "schema") "authorizationUrl" = JStr u →
  og_state pg < length (og_heap pg) → comes_back hash search params → params_ok params → params ≠ [] → "error" ∉ map fst params →
  authorized (og_auth pg) = JObj m → field o "name" = JStr (name_of o) →
  let pg' := redirected persist hash search (authorize sha c pg) in
  (∀ k v, (k, v) ∈ params → getIn (authorized (og_auth pg')) [name_of o; "token"; k] = JStr v) ∧
  (∀ name, name ≠ name_of o → map_get (authorized (og_auth pg')) name = map_get (authorized (og_auth pg)) name) ∧
  og_window pg' = None ∧ og_requests pg' = og_requests pg ∧ og_err pg' = checked_err c pg params.
Proof.
  intros o Hf Hr Hu Ha Hb Hp Hne He Hm Hname. cbv zeta.
  destruct (after_click sha c pg u (or_intror Hf) Hr Hu Ha) as (_ & H2 & H3 & _ & H5 & H6 & H7 & _).
  rewrite (redirected_after sha persist c pg u hash search params (or_intror Hf) Hr Hu Ha Hb Hp Hne). fold o. cbv zeta.
  unfold is_code_flow. rewrite Hf. cbn [andb]. unfold call_back. change (rd_callback (waits_for _ FImplicit c)) with PreAuthorizeImplicit.
  change (rd_auth (waits_for ?a ?f ?c)) with a. assert (name_of (clicked sha c pg) = name_of o) as Hn by (unfold name_of; by rewrite clicked_field).
  rewrite H2, Hn, clicked_field by done. fold o.
  rewrite implicit_actions by (done || by destruct (field o "schema")).
  set (pg1 := set_window None (authorize sha c pg)).
  set (pg2 := if bool_decide (("state", sent_state c) ∈ params) then pg1 else newAuthErr (state_changed o) pg1).
  assert (state_changed [("name", JStr (name_of o))] = state_changed o) as Hw by (unfold state_changed; by rewrite Hname).
  rewrite foldl_app, Hw.
  assert (foldl (act persist (og_state pg)) pg1 (if bool_decide (("state", sent_state c) ∈ params) then [] else [NewAuthErr (state_changed o)]) = pg2) as ->
    by (unfold pg2; by case_bool_decide).
  cbn [foldl act]. assert (object_at pg2 (og_state pg) = clicked sha c pg) as Ho by (unfold pg2; case_bool_decide; by rewrite <- H2).
  destruct (authorizeOauth2_spec persist (og_state pg) params m pg2) as (G1 & G2 & G3 & G4 & G5).
  - unfold pg2. case_bool_decide; cbn [pg1 newAuthErr set_err set_window og_heap]; by rewrite H3.
  - apply Hp.
  - unfold pg2. case_bool_decide; cbn [pg1 newAuthErr set_err set_window og_auth]; by rewrite H7.
  - rewrite Ho, Hn in G1, G2. rewrite G3, G4, G5. assert (og_auth pg2 = og_auth pg) as Ea by (unfold pg2; by case_bool_decide).
    split_and!; [done| | | |].
    + intros n Hn'. rewrite (G2 n Hn'). by rewrite Ea.
    + unfold pg2. by case_bool_decide.
    + unfold pg2. by case_bool_decide.
    + unfold pg2, checked_err. fold o. case_bool_decide; [done|]. cbn [newAuthErr set_err og_err]. by rewrite <- H6.
Qed.

(** * Interleavings: edits, clicks, redirects and tokens in any order *)

Section Interleavings.
Context `{Urls : UrlTools} (sha : string → string) (persist schema : jsval) (u : string).
Hypothesis Hcode : flow_of schema = FCode.
Hypothesis Hurl : map_get schema "authorizationUrl" = JStr u.

(** The inputs of the form do not name the fields that the flow keeps. *)
Definition input_name (name : string) : bool :=
  bool_decide (name ∈ ["username"; "password"; "clientId"; "clientSecret"; "passwordType"]).

(** Clicks on a page that is configured for PKCE. *)
Definition pkce_click (c : click) : Prop :=
  uses_pkce FCode c = true ∧ ck_redirectUrl c ≠ JUndef ∧ String.length (ck_bytes c) = 32%nat.

Inductive ostep : oauth_page → oauth_page → Prop :=
| o_input pg name value : input_name name = true → ostep pg (onInputChange name value pg)
| o_scope pg checked scope : ostep pg (onScopeChange checked scope pg)
| o_scopes pg all pg' : selectScopes all schema pg = Ok pg' → ostep pg pg'
| o_click pg c : pkce_click c → ostep pg (authorize sha c pg)
| o_back pg hash search : ostep pg (redirected persist hash search pg)
| o_settled pg r res : r ∈ og_requests pg → ostep pg (token_settled persist r res pg)
| o_logout pg name : ostep pg (logout persist name pg).

Definition challenge_of (v : string) : string := @createCodeChallenge (draw sha "") v.

(** The last opened window asked with the challenge of the verifier that the object [o] holds. *)
Definition asked_for (pg : oauth_page) (o : fields) (redirectUrl : jsval) (v : string) : Prop :=
  ∃ base q rest params, og_opened pg = (base +:+ q) :: rest ∧ form_decode q = Some params ∧
    field o "codeVerifier" = JStr v ∧ v ≠ "" ∧ ("code_challenge", challenge_of v) ∈ params ∧
    ("redirect_uri", to_string redirectUrl) ∈ params.

Record oinv (pg : oauth_page) : Prop := {
  oi_state : og_state pg < length (og_heap pg);
  oi_schema : Forall (λ o, field o "schema" = schema) (og_heap pg);
  oi_window info : og_window pg = Some info →
    rd_auth info < length (og_heap pg) ∧ rd_callback info ≠ PreAuthorizeImplicit ∧
    ∃ v, asked_for pg (object_at pg (rd_auth info)) (rd_redirectUrl info) v
}.

Lemma object_schema pg a : oinv pg → a < length (og_heap pg) → field (object_at pg a) "schema" = schema.
Proof.
  intros [_ Hs _] Ha. unfold object_at. destruct (og_heap pg !! a) as [o|] eqn:Ho.
  - by eapply (Forall_lookup_1 _ _ _ _ Hs).
  - apply lookup_ge_None in Ho. unfold fields in *. lia.
Qed.

(** Changes of other branches and of fields the flow does not use. *)
Lemma oinv_other pg pg' : og_heap pg' = og_heap pg → og_state pg' = og_state pg → og_window pg' = og_window pg →
  og_opened pg' = og_opened pg → oinv pg → oinv pg'.
Proof.
  intros E1 E2 E3 E4 [H1 H2 H3]. split; rewrite ?E1, ?E2, ?E3; [done|done|]. unfold asked_for, object_at. rewrite E1, E4. exact H3.
Qed.

Lemma object_set pg a b k v : a < length (og_heap pg) → field (object_at (set_field a k v pg) b) =
  if decide (a = b) then field (oset (object_at pg a) k v) else field (object_at pg b).
Proof.
  intros Ha. case_decide as E; [subst; by rewrite object_set_eq|]. unfold object_at. cbn [set_field og_heap].
  by rewrite list_lookup_insert_ne.
Qed.

Lemma oinv_set pg a k v : k ≠ "schema" → k ≠ "codeVerifier" → oinv pg → oinv (set_field a k v pg).
Proof.
  intros Hk1 Hk2 Hi. destruct (decide (a < length (og_heap pg))%nat) as [Ha|Ha].
  - pose proof Hi as [H1 H2 H3]. split; cbn [set_field og_state og_heap og_window]; [by rewrite length_insert| |].
    + apply Forall_insert; [done|]. unfold field. rewrite assoc_oset_ne by done. by apply (object_schema pg a).
    + intros info Hw. destruct (H3 info Hw) as (G1 & G2 & v' & base & q & rest & params & G3 & G4 & G5 & G6 & G7 & G8).
      rewrite length_insert. split_and!; [done|done|]. exists v', base, q, rest, params. split_and!; try done.
      rewrite object_set by done. case_decide as E; [|done]. subst. unfold field. by rewrite assoc_oset_ne.
  - eapply oinv_other; [..|exact Hi]; try done. cbn [set_field og_heap]. apply list_insert_ge. lia.
Qed.

Lemma foldl_oset_ne partial o k : k ∉ map fst partial → field (foldl (λ o kv, oset o kv.1 kv.2) o partial) k = field o k.
Proof.
  revert o. induction partial as [|[j x] partial IH]; intros o Hk; [done|]. cbn [map fst] in Hk. apply not_elem_of_cons in Hk as [Hj Hk].
  cbn [foldl fst snd]. rewrite IH by done. unfold field. by rewrite assoc_oset_ne.
Qed.

Lemma oinv_setState pg partial : "schema" ∉ map fst partial → oinv pg → oinv (setState partial pg).
Proof.
  intros Hk Hi. pose proof Hi as [H1 H2 H3]. split; cbn [setState og_state og_heap og_window]; rewrite ?length_app; cbn [length]; [lia| |].
  - apply Forall_app. split; [done|]. repeat constructor. rewrite foldl_oset_ne by done. by apply object_schema.
  - intros info Hw. destruct (H3 info Hw) as (G1 & G2 & G3). split_and!; [lia|done|]. unfold asked_for, object_at in *.
    cbn [setState og_heap og_opened]. rewrite lookup_app_l by done. exact G3.
Qed.

Lemma verifier_nonempty c : pkce_click c → verifier sha c ≠ "".
Proof.
  intros (_ & _ & Hl) E. pose proof (proj2 (b64url_spec (ck_bytes c))) as Hn. rewrite Hl in Hn.
  change (b64toB64UrlEncoded (b64_encode (ck_bytes c))) with (verifier sha c) in Hn. by rewrite E in Hn.
Qed.

Lemma click_params c o : pkce_click c → ("code_challenge", challenge_of (verifier sha c)) ∈ request_params sha FCode o c ∧
  ("redirect_uri", to_string (ck_redirectUrl c)) ∈ request_params sha FCode o c.
Proof.
  intros (Hp & _). unfold request_params. rewrite Hp. rewrite !elem_of_app. split; [|set_solver].
  do 6 right. left. left.
Qed.

Lemma oinv_click pg c : pkce_click c → oinv pg → oinv (authorize sha c pg).
Proof.
  intros Hc Hi. pose proof Hi as [H1 H2 H3]. set (o := object_at pg (og_state pg)).
  assert (field o "schema" = schema) as Hs by (by apply object_schema).
  assert (flow_of (field o "schema") = FCode) as Hf by congruence. assert (map_get (field o "schema") "authorizationUrl" = JStr u) as Hu by congruence.
  pose proof Hc as (Hp & Hr & _). destruct (click_params c o Hc) as [Q1 Q2]. pose proof (verifier_nonempty c Hc) as Hv.
  rewrite (authorize_spec sha c pg u) by (fold o; auto). fold o. rewrite Hf, Hp.
  split; cbn [open_window set_window set_field og_state og_heap og_window]; rewrite ?length_insert.
  - exact H1.
  - apply Forall_insert; [exact H2|]. unfold field. rewrite assoc_oset_ne by done. exact Hs.
  - intros info [= <-]. split_and!; [exact H1|unfold waits_for, callback_of; cbn [rd_callback]; by destruct (truthy _)|].
    exists (verifier sha c), (authorization_base o c +:+ (if includes u "?" then "&" else "?")), (query_text (request_params sha FCode o c)).
    exists (og_opened pg), (request_params sha FCode o c). split_and!; try done.
    + cbn [open_window og_opened]. by rewrite sapp_assoc.
    + apply query_decoded.
    + unfold object_at. cbn [open_window set_window set_field og_heap waits_for rd_auth].
      change (og_heap (clear_errors _ pg)) with (og_heap pg). rewrite list_lookup_insert_eq by done.
      change (default [] (Some ?x)) with x. unfold field. by rewrite assoc_oset_eq.
Qed.

Lemma oinv_window pg info : og_window pg = Some info → oinv pg →
  oinv (set_window (Some (RedirectInfo (rd_auth info) JUndef (rd_redirectUrl info) (rd_callback info))) pg).
Proof.
  intros Hw [H1 H2 H3]. split; [done|done|]. intros info' [= <-]. cbn [rd_auth rd_callback rd_redirectUrl]. by apply H3.
Qed.

(** What the page does when the server comes back: nothing, an error, or one token request. *)
Lemma redirected_cases pg hash search : oinv pg →
  let pg' := redirected persist hash search pg in
  oinv pg' ∧
  (og_requests pg' = og_requests pg ∨
   ∃ info r basic code v, og_window pg = Some info ∧ og_requests pg' = og_requests pg ++ [r] ∧
     asked_for pg (object_at pg (rd_auth info)) (rd_redirectUrl info) v ∧
     exchanges r basic (object_at pg (rd_auth info)) code (rd_redirectUrl info) (JStr v)).
Proof.
  intros Hi. cbv zeta. unfold redirected. destruct (og_window pg) as [info|] eqn:Hw; [|by split; [|left]].
  destruct (redirect_params hash search) as [qp| |]; [|by split; [|left]..].
  pose proof Hi as [H1 H2 H3]. destruct (H3 info Hw) as (Ha & Hcb & v & Hv). pose proof Hv as (base & q & rest & params & V1 & V2 & V3 & V4 & V5 & V6).
  set (o := object_at pg (rd_auth info)) in *.
  assert (∃ basic : bool, rd_callback info = if basic then AccessCodeWithBasicAuthentication else AccessCodeWithFormParams) as [basic Hb].
  { destruct (rd_callback info); [done|by exists true|by exists false]. }
  assert (∀ e, oinv (newAuthErr e pg)) as Herr by (intros e; eapply oinv_other; [..|exact Hi]; reflexivity).
  destruct (is_code_flow _ && _).
  - set (pg1 := if strict_eq _ _ then pg else _). assert (oinv pg1 ∧ og_window pg1 = Some info ∧ og_requests pg1 = og_requests pg ∧
      og_heap pg1 = og_heap pg) as (I1 & W1 & R1 & E1) by (unfold pg1; destruct (strict_eq _ _); split_and!; try done; apply Herr).
    destruct (truthy (map_get qp "code")); [|split; [eapply (oinv_other pg1); [reflexivity..|done]|by left]].
    rewrite (call_back_code persist basic) by done. cbn [rd_auth rd_redirectUrl]. set (pg2 := set_field _ _ _ _).
    destruct (code_request_spec basic (rd_auth info) (rd_redirectUrl info) pg2) as (r & -> & _ & Hx). split.
    + eapply (oinv_other pg2); [done..|]. apply oinv_set; [done|done|]. by apply oinv_window.
    + right. exists info, r, basic. eexists. exists v. split_and!; [done| |done|].
      * cbn [send og_requests pg2 set_field set_window]. by rewrite R1.
      * assert (object_at pg2 (rd_auth info) = oset o "code" (map_get qp "code")) as Ho.
        { unfold pg2. rewrite object_set_eq by (cbn [set_window og_heap]; by rewrite E1). unfold object_at. cbn [set_window og_heap]. by rewrite E1. }
        rewrite Ho in Hx. revert Hx. unfold field at 2. rewrite assoc_oset_ne by done. fold (field o "codeVerifier"). rewrite V3.
        apply exchanges_same. repeat constructor; unfold field; by rewrite assoc_oset_ne.
  - rewrite (call_back_code persist basic) by done.
    destruct (code_request_spec basic (rd_auth info) (rd_redirectUrl info) pg) as (r & -> & _ & Hx). split; [eapply (oinv_other pg); [reflexivity..|exact Hi]|].
    right. exists info, r, basic, (field o "code"), v. fold o in Hx. rewrite V3 in Hx. by split_and!.
Qed.

Lemma ostep_inv pg pg' : ostep pg pg' → oinv pg → oinv pg'.
Proof.
  intros Hs Hi. destruct Hs as [pg name value Hn|pg checked scope|pg all pg' E|pg c Hc|pg hash search|pg r res Hr|pg name].
  - apply oinv_setState; [|done]. apply bool_decide_eq_true in Hn. intros E%list_elem_of_singleton. cbn [fst] in E. subst name.
    rewrite !elem_of_cons in Hn. by destruct Hn as [?|[?|[?|[?|[?|[]%elem_of_nil]]]]].
  - unfold onScopeChange. destruct (checked && _); [by apply oinv_setState; [apply (bool_decide_unpack _); vm_compute|]|].
    destruct (negb checked && _); [by apply oinv_setState; [apply (bool_decide_unpack _); vm_compute|]|done].
  - unfold selectScopes in E. destruct all; [destruct (orElse _ _)|]; try done; injection E as <-;
      by apply oinv_setState; [apply (bool_decide_unpack _); vm_compute|].
  - by apply oinv_click.
  - by apply redirected_cases.
  - unfold token_settled. destruct (authorizeRequest_settled _ _) as [[err|token]| |]; try done; cbn [act].
    + eapply (oinv_other pg); [reflexivity..|exact Hi].
    + unfold authorizeOauth2. eapply oinv_other; [..|apply (oinv_set pg (tr_auth r) "token" (JObj (spread [] token)))]; [reflexivity..|done|done|done].
  - eapply (oinv_other pg); [reflexivity..|exact Hi].
Qed.
End Interleavings.

(** C17: on a page configured for PKCE, in every interleaving of edits, clicks, redirects, tokens and
    logouts, a redirect leads to at most one token request, and that request carries the verifier
    whose challenge, and the redirect address which, the last opened window asked with. *)
Theorem exchanges_verified `{UrlTools} sha persist schema u pg0 pg hash search :
  flow_of schema = FCode → map_get schema "authorizationUrl" = JStr u →
  og_state pg0 < length (og_heap pg0) → Forall (λ o, field o "schema" = schema) (og_heap pg0) → og_window pg0 = None →
  rtc (ostep sha persist schema) pg0 pg →
  let pg' := redirected persist hash search pg in
  og_requests pg' = og_requests pg ∨
  ∃ r sent base q rest asked v, og_requests pg' = og_requests pg ++ [r] ∧ form_decode (tr_body r) = Some sent ∧
    og_opened pg = (base +:+ q) :: rest ∧ form_decode q = Some asked ∧
    ("code_verifier", v) ∈ sent ∧ ("code_challenge", challenge_of sha v) ∈ asked ∧
    ∀ redirect, ("redirect_uri", redirect) ∈ sent → ("redirect_uri", redirect) ∈ asked.
Proof.
  intros Hf Hu H1 H2 H3 Hr. assert (oinv sha schema pg) as Hi.
  { assert (oinv sha schema pg0) as H0 by (split; [done|done|]; intros info; by rewrite H3).
    clear hash search H1 H2 H3. induction Hr as [|a b c Hab _ IH]; [done|]. apply IH. by eapply ostep_inv. }
  destruct (redirected_cases sha persist schema pg hash search Hi) as [_ [Hn|(info & r & basic & code & v & _ & Hr' & Hv & _ & _ & Hb & _)]];
    cbv zeta; [by left|right].
  destruct Hv as (base & q & rest & asked & V1 & V2 & _ & V4 & V5 & V6). exists r. eexists. exists base, q, rest, asked, v.
  split_and!; [done|exact Hb|done|done| |done|].
  - apply list_elem_of_fmap. exists ("code_verifier", JStr v). split; [done|]. apply list_elem_of_filter.
    split; [by destruct v|]. unfold exchange_fields. rewrite !elem_of_app. right. right. right. left.
  - intros redirect ([k x] & [= <- ->] & [_ Hx]%list_elem_of_filter)%list_elem_of_fmap.
    assert (x = rd_redirectUrl info) as ->; [|exact V6]. unfold exchange_fields in Hx.
    destruct basic; cbn [app] in Hx; rewrite !elem_of_cons, elem_of_nil in Hx; naive_solver.
Qed.

(** A click, like a logout, removes the errors of every authorization: the filter names the type of
    all of them, and one match is enough. *)
Theorem click_clears_all c pg e : e ∈ allErrors (cleared_err c pg) → og_err pg ≠ ErrState (DEFAULT_ERROR_STRUCTURE (og_err pg)) None →
  ("type", JStr "auth") ∉ e.
Proof.
  unfold cleared_err, CLEAR. intros He Hne Ht. destruct (og_err pg) as [d [es|]]; [|done]. cbn [errors allErrors] in He.
  change (default [] (Some ?x)) with x in He. apply list_elem_of_filter in He as [Hk _]. unfold kept in Hk.
  apply list_elem_of_In in Ht. apply (proj1 (forallb_forall _ _) Hk) in Ht. by vm_compute in Ht.
Qed.

(** * Witnesses and examples *)

#[export] Instance urls_plain : UrlTools := {| braintreeSanitizeUrl := λ s, s; resolve_url := λ s _, s |}.
Definition sha_const : string → string := λ _, srepeat (ch 7) 32.

Definition dex_schema (flow : string) : jsval :=
  JObj [("type", JStr "oauth2"); ("flow", JStr flow); ("authorizationUrl", JStr "https://dex.kyma.local/auth?tenant=1");
        ("tokenUrl", JStr "https://dex.kyma.local/token"); ("scopes", JObj [("read", JStr ""); ("write all", JStr "")])].

Definition dex_page (flow : string) : oauth_page :=
  let o := initial_state "dex" (dex_schema flow) (JObj []) [("clientId", JStr "keb ui"); ("scopes", JStr "read,write all"); ("scopeSeparator", JStr ",")] in
  OAuthPage [o] 0 None [] err_init (AuthState JUndef JUndef JUndef) None [].

Definition dex_click (date : string) (byte : N) : click :=
  Click (JStr "https://keb/oauth2-redirect.html") [("usePkceWithAuthorizationCodeGrant", JBool true)] JNull date (srepeat (ch byte) 32) "".

Lemma authorization_request_witness :
  let pg' := authorize sha_const (dex_click "Mon" 1) (dex_page "authorizationCode") in
  ∃ q, og_opened pg' = [("https://dex.kyma.local/auth?tenant=1" +:+ "&" +:+ q)] ∧
    form_decode q = Some [("response_type", "code"); ("client_id", "keb ui"); ("redirect_uri", "https://keb/oauth2-redirect.html");
      ("scope", "read write all"); ("state", "TW9u"); ("code_challenge", challenge_of sha_const (verifier sha_const (dex_click "Mon" 1)));
      ("code_challenge_method", "S256")].
Proof.
  destruct (authorization_request sha_const (dex_click "Mon" 1) (dex_page "authorizationCode") "https://dex.kyma.local/auth?tenant=1"
    (or_introl eq_refl) ltac:(discriminate) eq_refl ltac:(vm_compute; lia)) as (q & H1 & H2 & _). exists q. split; [exact H1|exact H2].
Defined.

Definition back_params (code date : string) : list (string * string) := [("code", code); ("state", b64_encode date)].

Lemma back_params_ok code date : text code → text (b64_encode date) → params_ok (back_params code date).
Proof.
  intros Hc Hd. split; [apply (bool_decide_unpack _); vm_compute; exact I|]. repeat constructor; try done.
Qed.

Lemma code_flow_exchange_witness : ∃ r,
  og_requests (redirected JUndef "" ("?" +:+ query_text (back_params "a/b&c" "Mon")) (authorize sha_const (dex_click "Mon" 1) (dex_page "authorizationCode"))) = [r] ∧
  tr_url r = JStr "https://dex.kyma.local/token" ∧
  form_decode (tr_body r) = Some [("grant_type", "authorization_code"); ("code", "a/b&c"); ("client_id", "keb ui");
    ("redirect_uri", "https://keb/oauth2-redirect.html"); ("code_verifier", verifier sha_const (dex_click "Mon" 1))].
Proof.
  destruct (code_flow_exchange sha_const JUndef (dex_click "Mon" 1) (dex_page "authorizationCode") "https://dex.kyma.local/auth?tenant=1"
    "" ("?" +:+ query_text (back_params "a/b&c" "Mon")) (back_params "a/b&c" "Mon") "a/b&c" eq_refl ltac:(discriminate) eq_refl ltac:(vm_compute; lia) eq_refl
    (or_introl (conj eq_refl eq_refl)) (back_params_ok "a/b&c" "Mon" eq_refl eq_refl) ltac:(left) ltac:(discriminate)) as (r & H1 & (_ & H2 & H3 & _) & _).
  exists r. split; [exact H1|]. split; [exact H2|]. rewrite H3. vm_compute. reflexivity.
Defined.

(** The page after a first code. *)
Definition dex_used : oauth_page :=
  redirected JUndef "" ("?" +:+ query_text (back_params "first" "Mon")) (authorize sha_const (dex_click "Mon" 1) (dex_page "authorizationCode")).

Lemma stale_code_sent_witness : ∃ r,
  og_requests (redirected JUndef "" ("?" +:+ query_text (back_params "second" "forged")) (authorize sha_const (dex_click "Tue" 2) dex_used)) =
    og_requests dex_used ++ [r] ∧
  form_decode (tr_body r) = Some [("grant_type", "authorization_code"); ("code", "first"); ("client_id", "keb ui");
    ("redirect_uri", "https://keb/oauth2-redirect.html"); ("code_verifier", verifier sha_const (dex_click "Tue" 2))].
Proof.
  destruct (stale_code_sent sha_const JUndef (dex_click "Tue" 2) dex_used "https://dex.kyma.local/auth?tenant=1"
    "" ("?" +:+ query_text (back_params "second" "forged")) (back_params "second" "forged") eq_refl ltac:(discriminate) eq_refl ltac:(vm_compute; lia) eq_refl
    (or_introl (conj eq_refl eq_refl)) (back_params_ok "second" "forged" eq_refl eq_refl) ltac:(discriminate)) as (r & H1 & (_ & _ & H3 & _) & _).
  exists r. split; [exact H1|]. rewrite H3. vm_compute. reflexivity.
Defined.

Definition token_params : list (string * string) := [("access_token", "abc.def"); ("token_type", "Bearer"); ("state", b64_encode "Mon")].

Lemma implicit_flow_stored_witness :
  let pg' := redirected JUndef ("#" +:+ query_text token_params) "" (authorize sha_const (dex_click "Mon" 1) (dex_page "implicit")) in
  getIn (authorized (og_auth pg')) ["dex"; "token"; "access_token"] = JStr "abc.def" ∧ og_window pg' = None.
Proof.
  destruct (implicit_flow_stored sha_const JUndef (dex_click "Mon" 1) (dex_page "implicit") "https://dex.kyma.local/auth?tenant=1"
    ("#" +:+ query_text token_params) "" token_params [] eq_refl ltac:(discriminate) eq_refl ltac:(vm_compute; lia) (or_intror (conj eq_refl eq_refl)))
    as (H1 & _ & H3 & _).
  - split; [apply (bool_decide_unpack _); vm_compute; exact I|]. repeat constructor; done.
  - discriminate.
  - apply (bool_decide_unpack _). vm_compute. exact I.
  - reflexivity.
  - reflexivity.
  - split; [|exact H3]. apply (H1 "access_token" "abc.def"). left.
Defined.

Lemma exchanges_verified_witness :
  let pg := authorize sha_const (dex_click "Tue" 2) (onInputChange "clientSecret" "s3cret" (authorize sha_const (dex_click "Mon" 1) (dex_page "authorizationCode"))) in
  let pg' := redirected JUndef "" ("?" +:+ query_text (back_params "x" "Tue")) pg in
  og_requests pg' = og_requests pg ∨ ∃ r sent v, og_requests pg' = og_requests pg ++ [r] ∧ form_decode (tr_body r) = Some sent ∧ ("code_verifier", v) ∈ sent.
Proof.
  assert (∀ d b, (b < 256)%N → pkce_click (dex_click d b)) as Hc.
  { intros d b _. split; [done|]. split; [discriminate|]. reflexivity. }
  cbv zeta. destruct (exchanges_verified sha_const JUndef (dex_schema "authorizationCode") "https://dex.kyma.local/auth?tenant=1" (dex_page "authorizationCode")
    (authorize sha_const (dex_click "Tue" 2) (onInputChange "clientSecret" "s3cret" (authorize sha_const (dex_click "Mon" 1) (dex_page "authorizationCode"))))
    "" ("?" +:+ query_text (back_params "x" "Tue")) eq_refl eq_refl ltac:(vm_compute; lia) ltac:(repeat constructor) eq_refl)
    as [H|(r & sent & _ & _ & _ & _ & v & H1 & H2 & _ & _ & H3 & _)].
  - eapply rtc_l; [by apply (o_click _ _ _ _ (dex_click "Mon" 1)), Hc|].
    eapply rtc_l; [by apply (o_input _ _ _ _ "clientSecret" "s3cret")|]. eapply rtc_l; [by apply (o_click _ _ _ _ (dex_click "Tue" 2)), Hc|]. apply rtc_refl.
  - by left.
  - right. exists r, sent, v. by split_and!.
Defined.

(** A server that encodes a space as a plus sign: the description is shown with it. *)
Example plus_not_decoded :
  redirect_params "" "?error=access_denied&error_description=access+denied" =
  Ok (JObj [("error", JStr "access_denied"); ("error_description", JStr "access+denied")]).
Proof. vm_compute. reflexivity. Qed.

(** A parameter without a value cannot be read. *)
Example flag_not_read : match redirect_params "" "?code=x&state=y&iss" with Throw (JErr n _ _) => n | _ => "" end = "SyntaxError".
Proof. vm_compute. reflexivity. Qed.

(** Edits after the click do not reach the request: the window holds the old object. *)
Example edit_after_click :
  let pg := onInputChange "clientSecret" "new" (authorize sha_const (dex_click "Mon" 1) (dex_page "authorizationCode")) in
  let pg' := redirected JUndef "" ("?" +:+ query_text (back_params "x" "Mon")) pg in
  match og_requests pg' with [r] => field (object_at pg' (tr_auth r)) "clientSecret" | _ => JUndef end = JStr "" ∧
  field (object_at pg' (og_state pg')) "code" = JUndef.
Proof. vm_compute. split; reflexivity. Qed.
