(* ===== verification/SwSecurity.v ===== *)
(** Swagger UI, the securities of a definition: the selectors of core/plugins/auth and of the oas3
    plugin that list what can be authorized, the securities that the auth plugin adds to a request,
    preauthorization, and the dialog core/components/auth/auths.jsx with its inputs. *)

From S2P Require Import Prelude JsValue Json Buffer RegExp JsString SwEncode SwUtils SwErr SwAuth SwStore SwValidate SwImmutable SwSpec SwExecute SwOAuth.

(** * Selectors *)

(** [specSelectors.securityDefinitions()] and [specSelectors.security()] on the spec branch. *)
Definition securityDefinitions (state : jsval) : result jsval :=
  oas3 ← isOAS3Helper (specJson state);
  if (oas3 : bool) then
    spec ← specJsonWithResolvedSubtrees state;
    let v := getIn spec ["components"; "securitySchemes"] in Ok (if truthy v then v else JNull)
  else method_get (specJson state) "securityDefinitions".

Definition security (state : jsval) : result jsval :=
  v ← method_get (specJson state) "security"; Ok (default (JArr []) (lookIn (specJson state) ["security"])).

(** The entries of a map. *)
Definition entries (v : jsval) : result (list (string * jsval)) :=
  match v with
  | JObj fs => Ok fs
  | JArr l => Ok (indexed l)
  | _ => Throw (not_a_function v "entrySeq")
  end.

(** Swagger 2: a list of maps with one entry each. *)
Definition definitionsToAuthorize2 (definitions : jsval) : result (list (string * jsval)) :=
  if truthy definitions then entries definitions else Ok [].

Definition defined_values (fs : list (string * jsval)) : list (string * jsval) :=
  List.filter (λ kv, match kv.2 with JUndef => false | _ => true end) fs.

(** A flow of an OpenAPI 3 definition as a definition of its own. *)
Definition flow_definition (defName : string) (type : jsval) (flow : string * jsval) : result (string * jsval) :=
  authorizationUrl ← method_get flow.2 "authorizationUrl"; tokenUrl ← method_get flow.2 "tokenUrl"; scopes ← method_get flow.2 "scopes";
  Ok (defName, JObj (defined_values [("flow", JStr flow.1); ("authorizationUrl", authorizationUrl); ("tokenUrl", tokenUrl);
                                 ("scopes", scopes); ("type", type)])).

(** The scopes of an OpenID provider as a map with empty descriptions. *)
Definition oidc_scopes (v : jsval) : result jsval :=
  if truthy v then l ← elements v "reduce"; Ok (JObj (foldl (λ acc s, oset acc (to_string s) (JStr "")) [] l)) else Ok v.

Definition grant_definition (defName : string) (url oidcData : jsval) (grant : jsval) : result (string * jsval) :=
  authorization ← method_get oidcData "authorization_endpoint"; token ← method_get oidcData "token_endpoint";
  supported ← method_get oidcData "scopes_supported"; scopes ← oidc_scopes supported;
  Ok (defName, JObj (defined_values [("flow", grant); ("authorizationUrl", authorization); ("tokenUrl", token); ("scopes", scopes);
                                 ("type", JStr "oauth2"); ("openIdConnectUrl", url)])).

Definition definitions_of (def : string * jsval) : result (list (string * jsval)) :=
  let '(defName, definition) := def in
  type ← method_get definition "type";
  if is_str type "oauth2" then
    flows ← method_get definition "flows"; fs ← entries flows; mapM (flow_definition defName type) fs
  else if is_str type "http" || is_str type "apiKey" then Ok [def]
  else if is_str type "openIdConnect" then
    oidcData ← method_get definition "openIdConnectData";
    if truthy oidcData then
      supported ← method_get oidcData "grant_types_supported"; url ← method_get definition "openIdConnectUrl";
      grants ← (if truthy supported then elements supported "forEach" else Ok [JStr "authorization_code"; JStr "implicit"]);
      mapM (grant_definition defName url oidcData) grants
    else Ok []
  else Ok [].

Definition definitionsToAuthorize3 (definitions : jsval) : result (list (string * jsval)) :=
  if truthy definitions then fs ← entries definitions; l ← mapM definitions_of fs; Ok (concat l) else Ok [].

Definition definitionsToAuthorize (state : jsval) : result (list (string * jsval)) :=
  oas3 ← isOAS3Helper (specJson state); defs ← securityDefinitions state;
  if (oas3 : bool) then definitionsToAuthorize3 defs else definitionsToAuthorize2 defs.

(** The definitions that some requirement names. *)
Definition definitionsForRequirements (state : jsval) (securities : list fields) : result (list (string * jsval)) :=
  defs ← definitionsToAuthorize state;
  Ok (List.filter (λ d, existsb (λ sec, truthy (default JUndef (assoc sec d.1))) securities) defs).

(** The deprecated form, with the scopes that the requirement asks for. *)
Definition allowed_scopes (scopes : list jsval) (v : jsval) : result jsval :=
  match v with
  | JObj fs => Ok (JObj (List.filter (λ kv, existsb (strict_eq (JStr kv.1)) scopes) fs))
  | _ => Throw (not_a_function v "keySeq")
  end.

Definition definition_by_name (securityDefinitions : jsval) (name : string) (scopes : jsval) : result (string * jsval) :=
  definition ← method_get securityDefinitions name; type ← method_get definition "type";
  match scopes with
  | JArr ((_ :: _) as l) =>
      if is_str type "oauth2" then s ← method_get definition "scopes"; allowed ← allowed_scopes l s;
                                   d ← map_set definition "allowedScopes" allowed; Ok (name, d)
      else Ok (name, definition)
  | _ => Ok (name, definition)
  end.

Definition getDefinitionsByNames (state : jsval) (securities : list fields) : result (list (list (string * jsval))) :=
  defs ← securityDefinitions state;
  mapM (λ names, l ← mapM (λ kv, definition_by_name defs kv.1 kv.2) names; Ok (foldl (λ acc kv, oset acc kv.1 kv.2) [] l)) securities.

(** The securities that [execute] of the auth plugin adds to a request. *)
Definition execute_securities (spec : jsval) (auth : auth_state) : result jsval :=
  defs ← securityDefinitions spec; sec ← security spec;
  Ok (JObj [("authorized", authorized auth); ("definitions", defs); ("specSecurity", sec)]).

(** * Preauthorization *)

(** [null] for a name that the definition does not have. *)
Definition scheme_named (spec : jsval) (key : string) : jsval :=
  getIn (specJson spec) ((if isOAS3 spec then ["components"; "securitySchemes"] else ["securityDefinitions"]) ++ [key]).

(** The reducer of an action, whose exceptions leave the state as it was. *)
Definition authorize_action (payload : fields) (auth : auth_state) : auth_state :=
  match AUTHORIZE auth payload with Ok st => st | _ => auth end.

Definition preauthorize (spec : jsval) (key : string) (value : jsval) (auth : auth_state) : auth_state :=
  let schema := scheme_named spec key in
  if truthy schema then authorize_action [(key, JObj [("value", value); ("schema", schema)])] auth else auth.

Definition preauthorizeBasic (spec : jsval) (key : string) (username password : jsval) (auth : auth_state) : auth_state :=
  preauthorize spec key (JObj [("username", username); ("password", password)]) auth.
Definition preauthorizeApiKey (spec : jsval) (key : string) (value : jsval) (auth : auth_state) : auth_state :=
  preauthorize spec key value auth.

(** * The dialog *)

(** The state of the dialog, what the inputs reported by name; the branch of the store; the local
    storage. *)
Record dialog := Dialog { dg_state : fields; dg_auth : auth_state; dg_storage : option string }.

Section Dialog.
Context (persistAuthorization : jsval).

(** An input reports its name, schema and value. *)
Definition onAuthChange (name : string) (schema value : jsval) (dg : dialog) : dialog :=
  Dialog (oset (dg_state dg) name (JObj [("name", JStr name); ("schema", schema); ("value", value)])) (dg_auth dg) (dg_storage dg).

Definition persisted (auth : auth_state) (dg : dialog) : dialog :=
  Dialog (dg_state dg) auth (persistAuthorizationIfNeeded persistAuthorization auth (dg_storage dg)).

Definition submitAuth (dg : dialog) : dialog := persisted (authorize_action (dg_state dg) (dg_auth dg)) dg.

(** [definitions] is one entry of the list above. *)
Definition logoutClick (definitions : fields) (dg : dialog) : dialog :=
  let auths := map fst definitions in
  let dg := Dialog (foldl (λ st name, oset st name (JStr "")) (dg_state dg) auths) (dg_auth dg) (dg_storage dg) in
  persisted (match LOGOUT (dg_auth dg) auths with Ok st => st | _ => dg_auth dg end) dg.
End Dialog.

(** * What is offered *)

Lemma defined_get fs k v : NoDup (map fst fs) → (k, v) ∈ fs → map_get (JObj (defined_values fs)) k = v.
Proof.
  intros Hn Hin. cbn [map_get]. induction fs as [|[j x] fs IH]; [by apply elem_of_nil in Hin|]. cbn [map fst] in Hn.
  apply NoDup_cons in Hn as [Hj Hn]. apply elem_of_cons in Hin as [[= <- <-]|Hin].
  - unfold defined_values. cbn [List.filter snd]. fold (defined_values fs).
    assert (k ∉ map fst (defined_values fs)) as Hk.
    { intros (kx & Hk & Hy)%list_elem_of_fmap. destruct Hj. apply list_elem_of_fmap. exists kx. split; [done|].
      apply list_elem_of_In in Hy. apply filter_In in Hy as [Hy _]. by apply list_elem_of_In. }
    destruct v; cbn [assoc]; rewrite ?String.eqb_refl; try done. by rewrite assoc_None.
  - assert (j ≠ k) as Hne by (intros ->; destruct Hj; apply list_elem_of_fmap; by exists (k, v)).
    unfold defined_values. cbn [List.filter snd]. fold (defined_values fs).
    destruct x; cbn [assoc]; rewrite ?(proj2 (String.eqb_neq j k) Hne); by apply IH.
Qed.

(** The flows of OpenAPI 3. *)
Definition oas3_flows : list string := ["implicit"; "password"; "clientCredentials"; "authorizationCode"].

Lemma flow_definition_spec name type f fs : ∃ d, flow_definition name type (f, JObj fs) = Ok (name, d) ∧
  map_get d "flow" = JStr f ∧ map_get d "type" = type ∧
  Forall (λ k, map_get d k = map_get (JObj fs) k) ["authorizationUrl"; "tokenUrl"; "scopes"] ∧ (f ∈ oas3_flows → flow_of d ≠ FOther).
Proof.
  unfold flow_definition. cbn [snd fst method_get]. rewrite !ok_bind.
  set (l := [("flow", JStr f); _; _; _; _]). exists (JObj (defined_values l)). split; [reflexivity|].
  assert (NoDup (map fst l)) as Hn by (apply (bool_decide_unpack _); vm_compute; exact I).
  assert (∀ k v, (k, v) ∈ l → map_get (JObj (defined_values l)) k = v) as Hg by (intros; by apply defined_get).
  split_and!.
  - apply Hg. left.
  - apply Hg. do 4 right. left.
  - repeat constructor; apply Hg; [do 1 right|do 2 right|do 3 right]; left.
  - intros Hf. unfold flow_of. rewrite (Hg "flow" (JStr f)) by left. unfold oas3_flows in Hf. rewrite !elem_of_cons in Hf.
    by destruct Hf as [->|[->|[->|[->|[]%elem_of_nil]]]].
Qed.

Definition scheme_ok (kv : string * jsval) : bool :=
  match kv.2 with
  | JObj _ => let type := map_get kv.2 "type" in
              if is_str type "oauth2" then match map_get kv.2 "flows" with JObj fs => forallb (λ f, is_map f.2) fs | _ => false end
              else negb (is_str type "openIdConnect")
  | _ => false
  end.

Lemma definitions_of_ok kv : scheme_ok kv = true → ∃ l, definitions_of kv = Ok l ∧
  (∀ n d, (n, d) ∈ l → n = kv.1) ∧
  (is_str (map_get kv.2 "type") "http" || is_str (map_get kv.2 "type") "apiKey" = true → l = [kv]) ∧
  (∀ flows f fv, is_str (map_get kv.2 "type") "oauth2" = true → map_get kv.2 "flows" = JObj flows → (f, fv) ∈ flows →
     ∃ d, (kv.1, d) ∈ l ∧ map_get d "flow" = JStr f ∧ Forall (λ k, map_get d k = map_get fv k) ["authorizationUrl"; "tokenUrl"; "scopes"] ∧
          (f ∈ oas3_flows → flow_of d ≠ FOther)).
Proof.
  destruct kv as [name [| | | | | | |fs|]]; try done. unfold scheme_ok, definitions_of. cbn [fst snd method_get].
  change (default JUndef (assoc fs ?x)) with (map_get (JObj fs) x). rewrite ok_bind. set (type := map_get (JObj fs) "type").
  destruct (is_str type "oauth2") eqn:Eo.
  - destruct (map_get (JObj fs) "flows") as [| | | | | | |flows|] eqn:Ef; try done. intros Hfl. rewrite ok_bind. cbn [entries]. rewrite ok_bind.
    destruct (mapM_exists (flow_definition name type) flows) as [l Hl].
    { apply Forall_forall. intros [f fv] Hin. apply list_elem_of_In in Hin. apply (proj1 (forallb_forall _ _) Hfl) in Hin. cbn [snd] in Hin.
      destruct fv as [| | | | | | |gs|]; try done. destruct (flow_definition_spec name type f gs) as (d & E & _). eauto. }
    exists l. split; [done|]. apply result_mapM in Hl. split_and!.
    + intros n d Hin. apply list_elem_of_lookup_1 in Hin as [i Hi]. destruct (Forall2_lookup_r _ _ _ _ _ Hl Hi) as ([f fv] & Hfv & E).
      unfold flow_definition in E. by repeat apply result_bind_Ok in E as (? & _ & E); injection E as -> _.
    + destruct type; try done. apply String.eqb_eq in Eo as ->. done.
    + intros flows' f fv _ [= <-] Hin. pose proof Hin as Hm. apply list_elem_of_In in Hm. apply (proj1 (forallb_forall _ _) Hfl) in Hm. cbn [snd] in Hm.
      destruct fv as [| | | | | | |gs|]; try done. destruct (flow_definition_spec name type f gs) as (d & E & H1 & _ & H2 & H3).
      apply list_elem_of_lookup_1 in Hin as [i Hi]. destruct (Forall2_lookup_l _ _ _ _ _ Hl Hi) as (y & Hy & Ey).
      assert (y = (name, d)) as -> by congruence. exists d. split_and!; try done. by apply list_elem_of_lookup_2 in Hy.
  - intros Hoi%negb_true_iff. destruct (is_str type "http" || is_str type "apiKey") eqn:Eh.
    + exists [(name, JObj fs)]. split_and!; try done. by intros n d [= -> ->]%list_elem_of_singleton.
    + rewrite Hoi. exists []. split_and!; try done. by intros n d ?%elem_of_nil.
Qed.

(** For an OpenAPI 3 definition every key or HTTP scheme and every flow of an OAuth 2 scheme is
    offered in the dialog, under the name of its scheme and with its addresses and scopes, nothing
    is offered under another name, and each flow of the OpenAPI standard is one that the
    authorization knows how to perform. *)
Theorem schemes_offered defs : forallb scheme_ok defs = true →
  ∃ l, definitionsToAuthorize3 (JObj defs) = Ok l ∧
    (∀ name d, (name, d) ∈ l → name ∈ map fst defs) ∧
    ∀ name def, (name, def) ∈ defs →
      (is_str (map_get def "type") "http" || is_str (map_get def "type") "apiKey" = true → (name, def) ∈ l) ∧
      ∀ flows f fv, is_str (map_get def "type") "oauth2" = true → map_get def "flows" = JObj flows → (f, fv) ∈ flows →
        ∃ d, (name, d) ∈ l ∧ map_get d "flow" = JStr f ∧ Forall (λ k, map_get d k = map_get fv k) ["authorizationUrl"; "tokenUrl"; "scopes"] ∧
             (f ∈ oas3_flows → flow_of d ≠ FOther).
Proof.
  intros Hok. assert (∀ kv, kv ∈ defs → scheme_ok kv = true) as Hs.
  { intros kv Hin. by apply (proj1 (forallb_forall _ _) Hok), list_elem_of_In. }
  destruct (mapM_exists definitions_of defs) as [ls Hls].
  { apply Forall_forall. intros kv Hin. destruct (definitions_of_ok kv (Hs kv Hin)) as (l & E & _). eauto. }
  exists (concat ls). split; [unfold definitionsToAuthorize3; cbn [truthy entries]; by rewrite ok_bind, Hls, ok_bind|].
  apply result_mapM in Hls. assert (∀ kv, kv ∈ defs → ∃ l, definitions_of kv = Ok l ∧ l ∈ ls) as Hin.
  { intros kv [i Hi]%list_elem_of_lookup_1. destruct (Forall2_lookup_l _ _ _ _ _ Hls Hi) as (l & Hl & E). exists l.
    split; [done|]. by apply list_elem_of_lookup_2 in Hl. }
  split.
  - intros name d Hd. apply list_elem_of_In, in_concat in Hd as (l & Hl%list_elem_of_In & Hd%list_elem_of_In).
    apply list_elem_of_lookup_1 in Hl as [i Hi]. destruct (Forall2_lookup_r _ _ _ _ _ Hls Hi) as (kv & Hkv%list_elem_of_lookup_2 & E).
    destruct (definitions_of_ok kv (Hs kv Hkv)) as (l' & E' & Hn & _). assert (l' = l) as -> by congruence.
    apply Hn in Hd as ->. apply list_elem_of_fmap. by exists kv.
  - intros name def Hdef. destruct (Hin _ Hdef) as (l & E & Hl). destruct (definitions_of_ok _ (Hs _ Hdef)) as (l' & E' & _ & H1 & H2).
    assert (l' = l) as -> by congruence. assert (∀ x, x ∈ l → x ∈ concat ls) as Hc.
    { intros x Hx. apply list_elem_of_In, in_concat. exists l. split; by apply list_elem_of_In. }
    split; [intros Ht; apply Hc; rewrite (H1 Ht); left|]. intros flows f fv Ht Hf Hfv. destruct (H2 flows f fv Ht Hf Hfv) as (d & Hd & Hrest).
    exists d. split; [by apply Hc|done].
Qed.

(** * Authorizing and logging out *)

Definition direct (security : jsval) : bool :=
  is_map security && (is_str (getIn security ["schema"; "type"]) "apiKey" || is_str (getIn security ["schema"; "type"]) "http").

Lemma authorize_one_ok fs k security : ∃ fs', authorize_one (JObj fs) (k, security) = Ok (JObj fs') ∧
  (direct security = true → assoc fs' k = Some security) ∧ (is_map security = false → fs' = fs) ∧
  ∀ j, j ≠ k → assoc fs' j = assoc fs j.
Proof.
  unfold authorize_one, direct. destruct security as [| | | | | | |gs|]; try (exists fs; by split_and!). cbn [is_map andb].
  set (type := getIn _ _). destruct (is_str type "apiKey" || is_str type "http").
  { eexists. split; [reflexivity|]. split_and!; [intros _; apply assoc_oset_eq|done|]. intros j Hj. by rewrite assoc_oset_ne. }
  destruct (is_str type "basic"); [|by exists fs; split_and!]. cbn [map_set]. rewrite ok_bind. cbn [map_set].
  eexists. split; [reflexivity|]. split_and!; [done|done|]. intros j Hj. by rewrite !assoc_oset_ne.
Qed.

Lemma authorize_all_ok payload fs : NoDup (map fst payload) → ∃ fs', authorize_all (JObj fs) payload = Ok (JObj fs') ∧
  (∀ k security, (k, security) ∈ payload → direct security = true → assoc fs' k = Some security) ∧
  (∀ k security, (k, security) ∈ payload → is_map security = false → assoc fs' k = assoc fs k) ∧
  ∀ k, k ∉ map fst payload → assoc fs' k = assoc fs k.
Proof.
  revert fs. induction payload as [|[k s] payload IH]; intros fs Hn.
  { exists fs. split_and!; try done; by intros ? ? ?%elem_of_nil. }
  cbn [map fst] in Hn. apply NoDup_cons in Hn as [Hk Hn].
  destruct (authorize_one_ok fs k s) as (fs1 & E1 & D1 & N1 & O1). destruct (IH fs1 Hn) as (fs2 & E2 & D2 & N2 & O2).
  exists fs2. cbn [authorize_all]. rewrite E1, ok_bind. split_and!; [done|..].
  - intros j x [[= -> ->]|Hin]%elem_of_cons Hd; [rewrite O2 by done; by apply D1|by apply (D2 j x)].
  - intros j x [[= -> ->]|Hin]%elem_of_cons Hd; [rewrite O2 by done; by rewrite (N1 Hd)|].
    rewrite (N2 j x) by done. apply O1. intros ->. destruct Hk. apply list_elem_of_fmap. by exists (k, x).
  - intros j Hj. cbn [map fst] in Hj. apply not_elem_of_cons in Hj as [Hj1 Hj2]. by rewrite O2, O1.
Qed.

Section DialogLemmas.
Context (persist : jsval).

Lemma submit_spec dg fs : authorized (dg_auth dg) = JObj fs → NoDup (map fst (dg_state dg)) →
  ∃ fs', authorized (dg_auth (submitAuth persist dg)) = JObj fs' ∧
    (∀ k security, (k, security) ∈ dg_state dg → direct security = true → assoc fs' k = Some security) ∧
    (∀ k security, (k, security) ∈ dg_state dg → is_map security = false → assoc fs' k = assoc fs k) ∧
    ∀ k, k ∉ map fst (dg_state dg) → assoc fs' k = assoc fs k.
Proof.
  intros Hm Hn. destruct (authorize_all_ok (dg_state dg) fs Hn) as (fs' & E & H1 & H2 & H3). exists fs'. split; [|done].
  unfold submitAuth, authorize_action, AUTHORIZE. rewrite Hm, E, ok_bind. done.
Qed.

(** What the user entered, one input per name. *)
Definition entered (inputs : list (string * (jsval * jsval))) (dg : dialog) : dialog :=
  foldl (λ dg i, onAuthChange i.1 i.2.1 i.2.2 dg) dg inputs.

Lemma entered_spec inputs dg : NoDup (map fst (dg_state dg)) →
  NoDup (map fst (dg_state (entered inputs dg))) ∧ dg_auth (entered inputs dg) = dg_auth dg ∧
  (∀ k, k ∉ map fst inputs → assoc (dg_state (entered inputs dg)) k = assoc (dg_state dg) k) ∧
  (NoDup (map fst inputs) → ∀ k schema value, (k, (schema, value)) ∈ inputs →
     assoc (dg_state (entered inputs dg)) k = Some (JObj [("name", JStr k); ("schema", schema); ("value", value)])).
Proof.
  revert dg. induction inputs as [|[k [s v]] inputs IH]; intros dg Hn; [split_and!; try done; by intros _ ? ? ? ?%elem_of_nil|].
  cbn [entered foldl fst snd]. fold (entered inputs (onAuthChange k s v dg)).
  destruct (IH (onAuthChange k s v dg)) as (H1 & H2 & H3 & H4); [by apply oset_NoDup|]. split_and!; [done|done|..].
  - intros j Hj. cbn [map fst] in Hj. apply not_elem_of_cons in Hj as [Hj1 Hj2]. rewrite H3 by done. cbn [onAuthChange dg_state]. by rewrite assoc_oset_ne.
  - cbn [map fst]. intros [Hk Hni]%NoDup_cons j schema value [[= -> -> ->]|Hin]%elem_of_cons; [|by apply H4].
    rewrite H3 by done. cbn [onAuthChange dg_state]. apply assoc_oset_eq.
Qed.
End DialogLemmas.

(** C22: a requirement of keys and HTTP authorizations is met by entering a value for each of its
    names and submitting the dialog: the page then counts the request as authorized, each value is
    stored with its scheme, and authorizations of names that were not entered stay. *)
Theorem dialog_authorizes persist dg fs inputs (requirement : fields) :
  authorized (dg_auth dg) = JObj fs → dg_state dg = [] → NoDup (map fst inputs) →
  Forall (λ i, is_str (map_get i.2.1 "type") "apiKey" || is_str (map_get i.2.1 "type") "http" = true) inputs →
  (∀ name, name ∈ map fst requirement → name ∈ map fst inputs) →
  let auth := dg_auth (submitAuth persist (entered inputs dg)) in
  isAuthorized auth (Some [requirement]) = Some true ∧
  (∀ name schema value, (name, (schema, value)) ∈ inputs →
     getIn (authorized auth) [name; "value"] = value ∧ getIn (authorized auth) [name; "schema"] = schema) ∧
  ∀ name, name ∉ map fst inputs → map_get (authorized auth) name = map_get (authorized (dg_auth dg)) name.
Proof.
  intros Hm Hst Hn Ht Hreq. cbv zeta. destruct (entered_spec inputs dg) as (E1 & E2 & E3 & E4); [rewrite Hst; constructor|].
  specialize (E4 Hn). destruct (submit_spec persist (entered inputs dg) fs) as (fs' & Ha & S1 & _ & S3); [by rewrite E2|done|].
  assert (∀ name schema value, (name, (schema, value)) ∈ inputs →
    assoc fs' name = Some (JObj [("name", JStr name); ("schema", schema); ("value", value)])) as Hin.
  { intros name schema value Hi. apply S1; [by apply assoc_Some_elem, E4|]. unfold direct. cbn [is_map andb].
    apply (proj1 (Forall_forall _ _) Ht) in Hi. cbn [fst snd] in Hi. cbn. by destruct schema. }
  split_and!.
  - unfold isAuthorized. f_equal. apply bool_decide_true. rewrite filter_cons_True; [done|]. apply forallb_forall.
    intros [name x] Hx%list_elem_of_In. cbn [fst]. assert (name ∈ map fst inputs) as Hi.
    { apply Hreq. apply list_elem_of_fmap. by exists (name, x). }
    apply list_elem_of_fmap in Hi as ([n [s v]] & -> & Hi). rewrite Ha. cbn [map_get fst]. by rewrite (Hin _ _ _ Hi).
  - intros name schema value Hi. rewrite Ha. cbn [getIn]. rewrite (Hin _ _ _ Hi). done.
  - intros name Hni. rewrite Ha, Hm. cbn [map_get]. rewrite S3; [done|].
    intros (kx & -> & Hk)%list_elem_of_fmap. destruct kx as [k x]. cbn [fst] in *. apply assoc_elem in Hk; [|done].
    rewrite E3, Hst in Hk by done. done.
Qed.

Lemma reset_spec names st : NoDup (map fst st) → let st' := foldl (λ st name, oset st name (JStr "")) st names in
  NoDup (map fst st') ∧ ∀ k, k ∈ names → assoc st' k = Some (JStr "").
Proof.
  revert st. induction names as [|n names IH]; intros st Hn; [split; [done|by intros k ?%elem_of_nil]|]. cbn [foldl].
  destruct (IH (oset st n (JStr ""))) as [H1 H2]; [by apply oset_NoDup|]. split; [done|]. intros k [->|Hk]%elem_of_cons; [|by apply H2].
  destruct (decide (n ∈ names)) as [Hin|Hin]; [by apply H2|]. cbv zeta in *.
  assert (∀ l st', n ∉ l → assoc st' n = Some (JStr "") → assoc (foldl (λ st name, oset st name (JStr "")) st' l) n = Some (JStr "")) as Hkeep.
  { clear. intros l. induction l as [|x l IH]; intros st' Hx Hs; [done|]. apply not_elem_of_cons in Hx as [Hx1 Hx2]. cbn [foldl]. apply IH; [done|].
    by rewrite assoc_oset_ne. }
  apply Hkeep; [done|apply assoc_oset_eq].
Qed.

(** Logging out is final: after Logout the named authorizations are gone, and submitting the
    dialog again without entering a value does not bring them back. *)
Theorem logout_final persist dg fs definitions name :
  a_authorized (dg_auth dg) = JObj fs → NoDup (map fst (dg_state dg)) → name ∈ map fst definitions →
  let dg' := logoutClick persist definitions dg in
  map_get (authorized (dg_auth dg')) name = JUndef ∧ map_get (authorized (dg_auth (submitAuth persist dg'))) name = JUndef.
Proof.
  intros Hm Hn Hin. cbv zeta. destruct (reset_spec (map fst definitions) (dg_state dg) Hn) as [R1 R2]. specialize (R2 name Hin).
  set (dg' := logoutClick persist definitions dg).
  assert (dg_auth dg' = set_authorized (dg_auth dg) (JObj (foldl odelete fs (map fst definitions)))) as Ha.
  { unfold dg', logoutClick. cbn [dg_auth persisted]. unfold LOGOUT. by rewrite Hm. }
  assert (assoc (foldl odelete fs (map fst definitions)) name = None) as Hd by (rewrite odelete_list; by rewrite bool_decide_true).
  destruct (submit_spec persist dg' (foldl odelete fs (map fst definitions))) as (fs' & E & _ & S2 & _); [by rewrite Ha|done|].
  split.
  - rewrite Ha. cbn. by rewrite Hd.
  - rewrite E. cbn [map_get]. rewrite (S2 name (JStr "")); [by rewrite Hd|by apply assoc_Some_elem|done].
Qed.

(** A preauthorization of a key or HTTP scheme counts at once; a name that the definition does not
    have changes nothing. *)
Theorem preauthorized spec key value auth fs : authorized auth = JObj fs →
  let schema := scheme_named spec key in
  if truthy schema then
    is_str (map_get schema "type") "apiKey" || is_str (map_get schema "type") "http" = true →
    isAuthorized (preauthorizeApiKey spec key value auth) (Some [[(key, JArr [])]]) = Some true
  else preauthorizeApiKey spec key value auth = auth.
Proof.
  intros Hm. cbv zeta. unfold preauthorizeApiKey, preauthorize. destruct (truthy (scheme_named spec key)); [|done]. intros Ht.
  set (schema := scheme_named spec key) in *. unfold authorize_action, AUTHORIZE. rewrite Hm.
  destruct (authorize_all_ok [(key, JObj [("value", value); ("schema", schema)])] fs) as (fs' & -> & H1 & _); [apply NoDup_singleton|].
  rewrite ok_bind. unfold isAuthorized. f_equal. apply bool_decide_true. rewrite filter_cons_True; [done|]. cbn [forallb fst].
  unfold authorized. cbn [set_authorized a_authorized truthy map_get].
  rewrite (H1 key (JObj [("value", value); ("schema", schema)])); [done|left|]. unfold direct. cbn. by destruct schema.
Qed.

(** * Witnesses and examples *)

Definition keb_schemes : list (string * jsval) :=
  [("key", JObj [("type", JStr "apiKey"); ("in", JStr "header"); ("name", JStr "X-Key")]);
   ("dex", JObj [("type", JStr "oauth2");
                 ("flows", JObj [("implicit", JObj [("authorizationUrl", JStr "https://dex/auth")]);
                                 ("clientCredentials", JObj [("tokenUrl", JStr "https://dex/token"); ("scopes", JObj [("read", JStr "")])])])]);
   ("basic", JObj [("type", JStr "http"); ("scheme", JStr "basic")])].

Lemma schemes_offered_witness : ∃ l, definitionsToAuthorize3 (JObj keb_schemes) = Ok l ∧
  ∃ d, ("dex", d) ∈ l ∧ map_get d "flow" = JStr "clientCredentials".
Proof.
  destruct (schemes_offered keb_schemes eq_refl) as (l & H1 & _ & H3). exists l. split; [exact H1|].
  edestruct (H3 "dex") as [_ Hf]; [do 1 right; left|].
  specialize (Hf _ "clientCredentials" (JObj [("tokenUrl", JStr "https://dex/token"); ("scopes", JObj [("read", JStr "")])]) eq_refl eq_refl).
  destruct Hf as (d & Hd & Hfl & _); [right; left|]. by exists d.
Defined.

Definition no_dialog : dialog := Dialog [] (AuthState JUndef (JObj [("old", JObj [])]) JUndef) None.
Definition key_inputs : list (string * (jsval * jsval)) :=
  [("key", (JObj [("type", JStr "apiKey")], JStr "secret")); ("basic", (JObj [("type", JStr "http")], JObj [("username", JStr "u")]))].

Lemma dialog_authorizes_witness :
  let auth := dg_auth (submitAuth JUndef (entered key_inputs no_dialog)) in
  isAuthorized auth (Some [[("key", JArr []); ("basic", JArr [])]]) = Some true ∧ getIn (authorized auth) ["key"; "value"] = JStr "secret".
Proof.
  destruct (dialog_authorizes JUndef no_dialog [("old", JObj [])] key_inputs [("key", JArr []); ("basic", JArr [])]) as (H1 & H2 & _).
  - reflexivity.
  - reflexivity.
  - apply (bool_decide_unpack _). vm_compute. exact I.
  - repeat constructor.
  - intros name Hn. exact Hn.
  - split; [exact H1|]. apply (H2 "key" (JObj [("type", JStr "apiKey")]) (JStr "secret")). left.
Defined.

Lemma logout_final_witness :
  let dg := submitAuth (JBool true) (entered key_inputs no_dialog) in
  let dg' := logoutClick (JBool true) [("key", JUndef)] dg in
  map_get (authorized (dg_auth (submitAuth (JBool true) dg'))) "key" = JUndef.
Proof.
  cbv zeta. apply (logout_final (JBool true) (submitAuth (JBool true) (entered key_inputs no_dialog))
    [("old", JObj []); ("key", JObj [("name", JStr "key"); ("schema", JObj [("type", JStr "apiKey")]); ("value", JStr "secret")]);
     ("basic", JObj [("name", JStr "basic"); ("schema", JObj [("type", JStr "http")]); ("value", JObj [("username", JStr "u")])])]
    [("key", JUndef)] "key").
  - vm_compute. reflexivity.
  - apply (bool_decide_unpack _). vm_compute. exact I.
  - left.
Defined.

(** Every grant that an OpenID provider lists is offered as a flow; for one that is unknown the
    window is opened without a response type. *)
Example unknown_grant :
  let oidc := JObj [("type", JStr "openIdConnect");
    ("openIdConnectData", JObj [("grant_types_supported", JArr [JStr "refresh_token"]); ("authorization_endpoint", JStr "https://dex/auth")])] in
  match definitionsToAuthorize3 (JObj [("dex", oidc)]) with
  | Ok [(_, d)] => (flow_of d, query sha_const (flow_of d) [("schema", d); ("scopes", JArr [])] (dex_click "Mon" 1))
  | _ => (FPassword, [])
  end = (FOther, ["redirect_uri=https%3A%2F%2Fkeb%2Foauth2-redirect.html"; "state=TW9u"]).
Proof. vm_compute. reflexivity. Qed.
