(* ===== verification/SwSamples.v ===== *)
(** Example values of Swagger UI (core/plugins/samples/fn.js with getSampleSchema of core/utils.js):
    the value shown for a schema when the definition gives none, in the mode for JSON.

    The code joins the alternatives of a schema by writing into the objects of the schema, which then
    share their parts. Schemas are therefore objects of a heap, and the generator passes the heap on.
    Keywords have the types that OpenAPI gives them; a missing keyword is [None] or undefined. The
    clock is a function of the number of earlier readings. *)

From S2P Require Import Prelude JsValue Json JsString SwUtils.

(** * Schemas *)

Definition loc := nat.

(** A decimal [m / 10^e]. *)
Definition num : Type := Z * nat.

(** The keywords that liftSampleHelper copies. *)
Record keywords := Keywords {
  k_example : jsval;
  k_default : jsval;
  k_enum : option (list jsval);
  k_xml : jsval;
  k_type : option string;
  k_maxProperties : option Z;
  k_minProperties : option Z;
  k_minItems : option Z;
  k_maxItems : option Z;
  k_minimum : option num;
  k_maximum : option num;
  k_exclusiveMinimum : option bool;
  k_exclusiveMaximum : option bool;
  k_minLength : option Z;
  k_maxLength : option Z;
}.

Inductive additional := NoAdditional | AnyAdditional (b : bool) | SchemaAdditional (l : loc).

Record schema := Schema {
  s_kw : keywords;
  s_format : option string;
  s_required : option (list string);
  s_properties : option (list (string * loc));
  s_additionalProperties : additional;
  s_items : option loc;
  s_oneOf : option (list loc);
  s_anyOf : option (list loc);
  s_deprecated : bool;
  s_readOnly : bool;
  s_writeOnly : bool;
}.

Definition no_keywords : keywords :=
  Keywords JUndef JUndef None JUndef None None None None None None None None None None None.

(** The object [{}]. *)
Definition empty_schema : schema :=
  Schema no_keywords None None None NoAdditional None None None false false false.

Definition with_kw (s : schema) (k : keywords) : schema :=
  Schema k (s_format s) (s_required s) (s_properties s) (s_additionalProperties s) (s_items s)
    (s_oneOf s) (s_anyOf s) (s_deprecated s) (s_readOnly s) (s_writeOnly s).

Definition with_required (s : schema) (r : option (list string)) : schema :=
  Schema (s_kw s) (s_format s) r (s_properties s) (s_additionalProperties s) (s_items s)
    (s_oneOf s) (s_anyOf s) (s_deprecated s) (s_readOnly s) (s_writeOnly s).

Definition with_properties (s : schema) (p : option (list (string * loc))) : schema :=
  Schema (s_kw s) (s_format s) (s_required s) p (s_additionalProperties s) (s_items s)
    (s_oneOf s) (s_anyOf s) (s_deprecated s) (s_readOnly s) (s_writeOnly s).

Definition with_items (s : schema) (i : option loc) : schema :=
  Schema (s_kw s) (s_format s) (s_required s) (s_properties s) (s_additionalProperties s) i
    (s_oneOf s) (s_anyOf s) (s_deprecated s) (s_readOnly s) (s_writeOnly s).

Definition kw_type (k : keywords) (t : option string) : keywords :=
  Keywords (k_example k) (k_default k) (k_enum k) (k_xml k) t (k_maxProperties k) (k_minProperties k)
    (k_minItems k) (k_maxItems k) (k_minimum k) (k_maximum k) (k_exclusiveMinimum k)
    (k_exclusiveMaximum k) (k_minLength k) (k_maxLength k).

Definition kw_xml (k : keywords) (x : jsval) : keywords :=
  Keywords (k_example k) (k_default k) (k_enum k) x (k_type k) (k_maxProperties k) (k_minProperties k)
    (k_minItems k) (k_maxItems k) (k_minimum k) (k_maximum k) (k_exclusiveMinimum k)
    (k_exclusiveMaximum k) (k_minLength k) (k_maxLength k).

(** * Computations over the heap *)

Record sstate := SState { st_heap : list schema; st_ticks : nat }.

(** A location that the heap does not have is outside the model; like a recursion that runs out of
    fuel it ends in [Hang]. *)
Definition SM (A : Type) : Type := sstate → result (A * sstate).

#[export] Instance SM_ret : MRet SM := λ A a st, Ok (a, st).
#[export] Instance SM_bind : MBind SM := λ A B f m st,
  match m st with Ok (a, st') => f a st' | Throw e => Throw e | Hang => Hang end.

Lemma sm_bind {A B} (m : SM A) (f : A → SM B) st a st' : m st = Ok (a, st') → (m ≫= f) st = f a st'.
Proof. intros H. unfold mbind, SM_bind. by rewrite H. Qed.

Definition throw {A} (e : jsval) : SM A := λ _, Throw e.
Definition diverge {A} : SM A := λ _, Hang.

Definition get (l : loc) : SM schema := λ st,
  match st_heap st !! l with Some s => Ok (s, st) | None => Hang end.
Definition put (l : loc) (s : schema) : SM unit := λ st,
  Ok (tt, SState (<[l := s]> (st_heap st)) (st_ticks st)).
Definition new (s : schema) : SM loc := λ st,
  Ok (length (st_heap st), SState (st_heap st ++ [s]) (st_ticks st)).
Definition tick : SM nat := λ st, Ok (st_ticks st, SState (st_heap st) (S (st_ticks st))).

Lemma get_ok l s st : st_heap st !! l = Some s → get l st = Ok (s, st).
Proof. intros H. unfold get. by rewrite H. Qed.

Fixpoint each_item {A} (f : loc → SM A) (ls : list loc) : SM (list A) :=
  match ls with
  | [] => mret []
  | l :: r => a ← f l; b ← each_item f r; mret (a :: b)
  end.

Definition defined (v : jsval) : bool := match v with JUndef => false | _ => true end.
Definition is_some {A} (o : option A) : bool := match o with Some _ => true | None => false end.
Definition type_is (t : option string) (name : string) : bool :=
  match t with Some s => String.eqb s name | None => false end.

(** * Lengths *)

(** The end index of [slice(0, e)] on a sequence of length [n]. *)
Definition slice_end (n : nat) (e : Z) : nat :=
  Z.to_nat (if (e <? 0)%Z then Z.max 0 (Z.of_nat n + e) else e).

(** [sampleArray.push(sampleArray[i++ % sampleArray.length])], [k] times; [0 % 0] is no index. *)
Fixpoint repeat_items (k i : nat) (l : list jsval) : list jsval :=
  match k with
  | O => l
  | S k' => repeat_items k' (S i)
              (l ++ [match l with [] => JUndef | _ => default JUndef (l !! (i mod length l)) end])
  end.

Definition handleMinMaxItems (k : keywords) (sampleArray : list jsval) : list jsval :=
  let l := match k_maxItems k with
           | Some m => take (slice_end (length sampleArray) m) sampleArray
           | None => sampleArray
           end in
  match k_minItems k with
  | Some m => repeat_items (Z.to_nat (m - Z.of_nat (length l))) 0 l
  | None => l
  end.

(** [value[i % value.length]] where it is added to a string. *)
Definition char_at (value : string) (i : nat) : string :=
  match String.get (i mod String.length value) value with Some c => String c "" | None => "undefined" end.

Fixpoint repeat_chars (fuel i : nat) (m : Z) (value : string) : string :=
  match fuel with
  | O => value
  | S f => if (Z.of_nat (String.length value) <? m)%Z
           then repeat_chars f (S i) m (value +:+ char_at value i) else value
  end.

Definition fit_string (k : keywords) (value : string) : string :=
  let v := match k_maxLength k with
           | Some m => String.substring 0 (slice_end (String.length value) m) value
           | None => value
           end in
  match k_minLength k with Some m => repeat_chars (Z.to_nat m) 0 m v | None => v end.

Definition fit_number (k : keywords) (value : jsval) : jsval :=
  let value := match k_minimum k with
               | Some (m, e) => JNum (if default false (k_exclusiveMinimum k) then m + pow10 e else m)%Z e
               | None => value
               end in
  match k_maximum k with
  | Some (m, e) => JNum (if default false (k_exclusiveMaximum k) then m - pow10 e else m)%Z e
  | None => value
  end.

(** * Plain values *)

(** The texts that swagger-client leaves as [$$ref]. *)
Definition sanitizeRef (value : jsval) : jsval :=
  deeplyStripKey "$$ref" (λ val _, match val with JStr s => includes s "#" | _ => false end) value.

Definition plain_value (type : option string) (sample : jsval) : jsval :=
  match sample with
  | JNum _ _ | JNaN => if type_is type "string" then JStr (to_string sample) else sample
  | JStr s => if type_is type "string" then sample
              else match Json.parse (JStr s) with Ok v => v | _ => sample end
  | _ => sample
  end.

Section Samples.
(** The texts of [new Date().toISOString()]. *)
Variable clock : nat → string.
Variables includeReadOnly includeWriteOnly : bool.

Definition primitives : list (string * (schema → SM jsval)) :=
  [ ("string", λ _, mret (JStr "string"));
    ("string_email", λ _, mret (JStr "user@example.com"));
    ("string_date-time", λ _, t ← tick; mret (JStr (clock t)));
    ("string_date", λ _, t ← tick; mret (JStr (String.substring 0 10 (clock t))));
    ("string_uuid", λ _, mret (JStr "3fa85f64-5717-4562-b3fc-2c963f66afa6"));
    ("string_hostname", λ _, mret (JStr "example.com"));
    ("string_ipv4", λ _, mret (JStr "198.51.100.42"));
    ("string_ipv6", λ _, mret (JStr "2001:0db8:5b96:0000:0000:426f:8e17:642a"));
    ("number", λ _, mret (JInt 0));
    ("number_float", λ _, mret (JInt 0));
    ("integer", λ _, mret (JInt 0));
    ("boolean", λ s, mret (match k_default (s_kw s) with JBool b => JBool b | _ => JBool true end)) ].

Definition primitive (s : schema) : SM jsval :=
  let type := default "undefined" (k_type (s_kw s)) in
  let key := type +:+ "_" +:+ default "undefined" (s_format s) in
  match aget primitives key with
  | Some fn => fn s
  | None => match aget primitives type with
            | Some fn => fn s
            | None => mret (JStr ("Unknown Type: " +:+ type))
            end
  end.

(** * Joining schemas *)

(** [setIfNotDefinedInTarget] for all keywords. *)
Definition lift_keywords (old target : keywords) : keywords :=
  let js (t o : jsval) := if defined t then t else o in
  Keywords (js (k_example target) (k_example old)) (js (k_default target) (k_default old))
    (k_enum target ∪ k_enum old) (js (k_xml target) (k_xml old)) (k_type target ∪ k_type old)
    (k_maxProperties target ∪ k_maxProperties old) (k_minProperties target ∪ k_minProperties old)
    (k_minItems target ∪ k_minItems old) (k_maxItems target ∪ k_maxItems old)
    (k_minimum target ∪ k_minimum old) (k_maximum target ∪ k_maximum old)
    (k_exclusiveMinimum target ∪ k_exclusiveMinimum old)
    (k_exclusiveMaximum target ∪ k_exclusiveMaximum old)
    (k_minLength target ∪ k_minLength old) (k_maxLength target ∪ k_maxLength old).

Definition push_required (r : list string) (key : string) : list string :=
  if bool_decide (key ∈ r) then r else r ++ [key].

Definition lift_required (old target : option (list string)) : option (list string) :=
  match old with
  | None => target
  | Some o => Some (foldl push_required (default [] target) o)
  end.

Definition hidden (s : schema) : bool :=
  s_deprecated s || (s_readOnly s && negb includeReadOnly) || (s_writeOnly s && negb includeWriteOnly).

(** The loop over the properties of the schema that is joined in. The branch that would extend
    [required] asks for a value that is both falsy and an array and is never taken. *)
Fixpoint lift_properties (props : list (string * loc)) (target : list (string * loc)) :
    SM (list (string * loc)) :=
  match props with
  | [] => mret target
  | (propName, l) :: r =>
      p ← get l;
      lift_properties r
        (if hidden p || is_some (aget target propName) then target else target ++ [(propName, l)])
  end.

(** [if(schemaToAdd.properties) ...] *)
Definition add_properties (old target : loc) : SM unit :=
  o ← get old;
  match s_properties o with
  | None => mret ()
  | Some props =>
      t ← get target;
      q ← lift_properties props (default [] (s_properties t));
      put target (with_properties t (Some q))
  end.

Fixpoint liftSampleHelper (fuel : nat) (oldSchema target : loc) : SM unit :=
  match fuel with
  | O => diverge
  | S n =>
      o ← get oldSchema;
      t ← get target;
      put target (with_required (with_kw t (lift_keywords (s_kw o) (s_kw t)))
                    (lift_required (s_required o) (s_required t)));;
      add_properties oldSchema target;;
      match s_items o with
      | None => mret ()
      | Some oi =>
          ti ← match s_items t with
               | Some ti => mret ti
               | None => ti ← new empty_schema;
                         t ← get target;
                         put target (with_items t (Some ti));;
                         mret ti
               end;
          liftSampleHelper n oi ti
      end
  end.

(** * The generator *)

(** [type], and the tests of the recovery of a missing one. *)
Definition names_type (k : keywords) : bool :=
  match k_type k with Some t => negb (String.eqb t "") | None => false end.

Definition object_like (s : schema) : bool :=
  is_some (s_properties s)
  || match s_additionalProperties s with AnyAdditional true | SchemaAdditional _ => true | _ => false end
  || is_some (k_maxProperties (s_kw s)) || is_some (k_minProperties (s_kw s)).

Definition array_like (s : schema) : bool :=
  is_some (s_items s) || is_some (k_minItems (s_kw s)) || is_some (k_maxItems (s_kw s)).

Definition number_like (k : keywords) : bool :=
  is_some (k_minimum k) || is_some (k_maximum k)
  || is_some (k_exclusiveMinimum k) || is_some (k_exclusiveMaximum k).

(** The type of a schema that names none, and what the code writes back into the schema. *)
Definition recover_type (usePlainValue : bool) (s : schema) : option string * schema :=
  let k := s_kw s in
  if names_type k then (k_type k, s)
  else if object_like s then (Some "object", s)
  else if array_like s then (Some "array", s)
  else if number_like k then (Some "number", with_kw s (kw_type k (Some "number")))
  else if negb usePlainValue && negb (is_some (k_enum k))
       then (Some "string", with_kw s (kw_type k (Some "string")))
  else (k_type k, s).

(** The object under construction: its fields and [propertyAddedCounter]. *)
Definition building : Type := list (string * jsval) * Z.

Definition hasExceededMaxProperties (k : keywords) (counter : Z) : bool :=
  match k_maxProperties k with Some m => (m <=? counter)%Z | None => false end.

(** In this mode the code looks for the properties added so far under the name "undefined". *)
Definition required_found (res : list (string * jsval)) (key : string) : result bool :=
  match assoc res "undefined" with
  | None | Some JUndef | Some JNull => Ok false
  | Some (JArr l) =>
      (fix find (l : list jsval) : result bool :=
         match l with
         | [] => Ok false
         | x :: r => v ← getp x key; if defined v then Ok true else find r
         end) l
  | Some v => Throw (not_a_function v "find")
  end.

Fixpoint addedCount (res : list (string * jsval)) (required : list string) : result Z :=
  match required with
  | [] => Ok 0%Z
  | key :: r => b ← required_found res key; n ← addedCount res r; Ok ((if b : bool then 1 else 0) + n)%Z
  end.

Definition requiredPropertiesToAdd (s : schema) (res : list (string * jsval)) : result Z :=
  match s_required s with
  | None => Ok 0%Z
  | Some r => n ← addedCount res r; Ok (Z.of_nat (length r) - n)%Z
  end.

Definition isOptionalProperty (s : schema) (propName : string) : bool :=
  negb (bool_decide (propName ∈ default [] (s_required s))).

Definition canAddProperty (s : schema) (b : building) (propName : string) : result bool :=
  match k_maxProperties (s_kw s) with
  | None => Ok true
  | Some m =>
      if hasExceededMaxProperties (s_kw s) b.2 then Ok false
      else if negb (isOptionalProperty s propName) then Ok true
      else n ← requiredPropertiesToAdd s b.1; Ok (0 <? m - b.2 - n)%Z
  end.

Definition lifted {A} (r : result A) : SM A := λ st,
  match r with Ok a => Ok (a, st) | Throw e => Throw e | Hang => Hang end.

Section Step.
(** The recursive calls, without an overriding example. *)
Variable sample : loc → SM jsval.

Definition addPropertyToResult (s : schema) (propName : string) (l : loc) (b : building) : SM building :=
  can ← lifted (canAddProperty s b propName);
  if can : bool then v ← sample l; mret (oset b.1 propName v, (b.2 + 1)%Z) else mret b.

Fixpoint add_each (s : schema) (props : list (string * loc)) (b : building) : SM building :=
  match props with
  | [] => mret b
  | (propName, l) :: r =>
      p ← get l;
      b ← (if hidden p then mret b else addPropertyToResult s propName l b);
      add_each s r b
  end.

Definition additional_name (i : nat) : string := "additionalProp" +:+ N_to_string (N.of_nat i).

(** [for (let i = 1; i < toGenerateCount; i++)], with [k] rounds left. *)
Fixpoint add_additional (kw : keywords) (v : jsval) (k i : nat) (b : building) : building :=
  match k with
  | O => b
  | S k' => if hasExceededMaxProperties kw b.2 then b
            else add_additional kw v k' (S i) (oset b.1 (additional_name i) v, (b.2 + 1)%Z)
  end.

Definition toGenerateCount (kw : keywords) (counter : Z) : Z :=
  match k_minProperties kw with
  | Some m => if (counter <? m)%Z then (m - counter)%Z else 4%Z
  | None => 4%Z
  end.

Definition sample_object (s : schema) : SM jsval :=
  b ← add_each s (default [] (s_properties s)) ([], 0%Z);
  if hasExceededMaxProperties (s_kw s) b.2 then mret (JObj b.1)
  else match s_additionalProperties s with
       | AnyAdditional true => mret (JObj (oset b.1 "additionalProp1" (JObj [])))
       | SchemaAdditional l =>
           v ← sample l;
           let k := Z.to_nat (toGenerateCount (s_kw s) b.2 - 1) in
           mret (JObj (add_additional (s_kw s) v k 1 b).1)
       | _ => mret (JObj b.1)
       end.

Definition sample_array (fuel : nat) (s : schema) : SM jsval :=
  match s_items s with
  | None => throw (cannot_read JUndef "anyOf")
  | Some items =>
      it ← get items;
      let alternative := λ i, liftSampleHelper fuel items i;; sample i in
      l ← match s_anyOf it, s_oneOf it with
          | Some alts, _ => each_item alternative alts
          | None, Some alts => each_item alternative alts
          | None, None => v ← sample items; mret [v]
          end;
      mret (JArr (handleMinMaxItems (s_kw s) l))
  end.
End Step.

Definition sample_primitive (type : option string) (s : schema) : SM jsval :=
  value ← match k_enum (s_kw s) with
          | Some l => mret (default JUndef (head l))
          | None => v ← primitive s;
                    mret (match v with
                          | JNum _ _ => fit_number (s_kw s) v
                          | JStr t => JStr (fit_string (s_kw s) t)
                          | v => v
                          end)
          end;
  mret (if type_is type "file" then JUndef else value).

(** [hasOneOf ? schema.oneOf[0] : schema.anyOf[0]] *)
Definition first_alternative (s : schema) : option loc :=
  match s_oneOf s with Some (a :: _) => Some a | _ => head (default [] (s_anyOf s)) end.

(** The schema joined in, if any, and whether the plain value is used afterwards. *)
Definition combine (fuel : nat) (l : loc) (exampleOverride : jsval) : SM bool :=
  s ← get l;
  let usePlainValue := defined exampleOverride || defined (k_example (s_kw s)) || defined (k_default (s_kw s)) in
  match usePlainValue, first_alternative s with
  | false, Some schemaToAdd =>
      liftSampleHelper fuel schemaToAdd l;;
      s ← get l;
      a ← get schemaToAdd;
      (if negb (truthy (k_xml (s_kw s))) && truthy (k_xml (s_kw a))
       then put l (with_kw s (kw_xml (s_kw s) (k_xml (s_kw a)))) else mret ());;
      if defined (k_example (s_kw s)) && defined (k_example (s_kw a)) then mret true
      else add_properties schemaToAdd l;; mret false
  | _, _ => mret usePlainValue
  end.

Fixpoint sampleFromSchemaGeneric (fuel : nat) (schema : option loc) (exampleOverride : jsval) : SM jsval :=
  match schema, fuel with
  | None, _ =>
      mret (if defined exampleOverride then plain_value None (sanitizeRef exampleOverride) else JUndef)
  | _, O => diverge
  | Some l, S n =>
      usePlainValue ← combine n l exampleOverride;
      s ← get l;
      let '(type, s) := recover_type usePlainValue s in
      put l s;;
      let kw := s_kw s in
      let sample := λ l, sampleFromSchemaGeneric n (Some l) JUndef in
      if usePlainValue : bool then
        mret (plain_value type (sanitizeRef
          (if defined exampleOverride then exampleOverride
           else if defined (k_example kw) then k_example kw else k_default kw)))
      else if type_is type "object" then sample_object sample s
      else if type_is type "array" then sample_array sample n s
      else sample_primitive type s
  end.

Definition sampleFromSchema (fuel : nat) (schema : option loc) (o : jsval) : SM jsval :=
  sampleFromSchemaGeneric fuel schema o.

(** [typeof res === "object"] is stringified always, a string for a media type of JSON. *)
Definition shouldStringify (contentType : string) (res : jsval) : bool :=
  match res with
  | JNull | JArr _ | JObj _ | JErr _ _ _ => true
  | JStr _ => includes contentType "json"
  | _ => false
  end.

Definition getStringifiedSampleForSchema (fuel : nat) (schema : option loc) (contentType : string)
    (exampleOverride : jsval) : SM jsval :=
  res ← sampleFromSchema fuel schema exampleOverride;
  mret (if shouldStringify contentType res then Json.stringify "  " res else res).

(** The samples for XML and YAML are left to the parameters. *)
Definition getSampleSchema (getXmlSampleSchema getYamlSampleSchema : SM jsval) (fuel : nat)
    (schema : option loc) (contentType : string) (exampleOverride : jsval) : SM jsval :=
  if includes contentType "xml" then getXmlSampleSchema
  else if includes contentType "yaml" || includes contentType "yml" then getYamlSampleSchema
  else getStringifiedSampleForSchema fuel schema contentType exampleOverride.
End Samples.

(** * Valid values *)

(** The rules of the schema for a value, stated independently of the generator: the type, the bounds,
    the listed values, the required properties, and for each property its own schema. Properties that
    are not to be shown must be missing, and only allowed names may be added. *)
Section Valid.
Variables includeReadOnly includeWriteOnly : bool.
Variable h : list schema.

Definition at_least (o : option Z) (n : Z) : bool := match o with Some m => (m <=? n)%Z | None => true end.
Definition at_most (o : option Z) (n : Z) : bool := match o with Some m => (n <=? m)%Z | None => true end.

Definition above (kw : keywords) (m : Z) (e : nat) : bool :=
  match k_minimum kw with
  | Some (a, d) => if default false (k_exclusiveMinimum kw) then num_lt a d m e else negb (num_lt m e a d)
  | None => true
  end.
Definition below (kw : keywords) (m : Z) (e : nat) : bool :=
  match k_maximum kw with
  | Some (a, d) => if default false (k_exclusiveMaximum kw) then num_lt m e a d else negb (num_lt a d m e)
  | None => true
  end.

(** Values without parts. *)
Definition leaf_valid (type : option string) (kw : keywords) (v : jsval) : bool :=
  match type, v with
  | Some "string", JStr t =>
      at_least (k_minLength kw) (Z.of_nat (String.length t)) && at_most (k_maxLength kw) (Z.of_nat (String.length t))
  | Some "number", JNum m e => above kw m e && below kw m e
  | Some "integer", JNum m O => above kw m 0 && below kw m 0
  | Some "boolean", JBool _ => true
  | None, _ => true
  | _, _ => false
  end.

Definition type_of (s : schema) : option string := (recover_type false s).1.

Definition shown (l : loc) : bool :=
  match h !! l with Some p => negb (hidden includeReadOnly includeWriteOnly p) | None => false end.

Section Parts.
Variable part_valid : loc → jsval → bool.

Definition field_valid (s : schema) (kv : string * jsval) : bool :=
  match aget (default [] (s_properties s)) kv.1, s_additionalProperties s with
  | Some p, _ => shown p && part_valid p kv.2
  | None, SchemaAdditional a => part_valid a kv.2
  | None, AnyAdditional true => true
  | None, _ => false
  end.

Definition object_valid (s : schema) (fs : list (string * jsval)) : bool :=
  at_most (k_maxProperties (s_kw s)) (Z.of_nat (length fs)) &&
  at_least (k_minProperties (s_kw s)) (Z.of_nat (length fs)) &&
  bool_decide (NoDup (map fst fs)) &&
  forallb (λ r, bool_decide (r ∈ map fst fs)) (default [] (s_required s)) &&
  forallb (field_valid s) fs.

Definition array_valid (s : schema) (vs : list jsval) : bool :=
  at_least (k_minItems (s_kw s)) (Z.of_nat (length vs)) && at_most (k_maxItems (s_kw s)) (Z.of_nat (length vs)) &&
  match s_items s with Some i => forallb (part_valid i) vs | None => true end.
End Parts.

Fixpoint valid (n : nat) (l : loc) (v : jsval) : bool :=
  match n, h !! l with
  | S n, Some s =>
      match k_enum (s_kw s) with Some vs => bool_decide (v ∈ vs) | None => true end &&
      (if type_is (type_of s) "object" then match v with JObj fs => object_valid (valid n) s fs | _ => false end
       else if type_is (type_of s) "array" then match v with JArr vs => array_valid (valid n) s vs | _ => false end
       else leaf_valid (type_of s) (s_kw s) v)
  | _, _ => false
  end.

(** * Supported schemas

    The schemas for which the generator is correct. This is less than all schemas that a value can meet:
    the examples at the end of the file are schemas that can be met and whose sample is invalid or an
    exception (a minimal number of properties that only additional ones can reach, excluded bounds less
    than 1 apart, fractional bounds of integers, lists without a schema of their items). *)

Definition is_plain (s : schema) : bool := defined (k_example (s_kw s)) || defined (k_default (s_kw s)).

(** The value given by the author of the schema, as the generator reads it. *)
Definition plain_sample (s : schema) : jsval :=
  plain_value (recover_type true s).1
    (sanitizeRef (if defined (k_example (s_kw s)) then k_example (s_kw s) else k_default (s_kw s))).

(** No contradictory bounds; an excluded maximum leaves the number one below it in the range. *)
Definition lengths_ok (lo hi : option Z) : bool :=
  match hi with Some b => (0 <=? b)%Z && match lo with Some a => (a <=? b)%Z | None => true end | None => true end.

Definition room (kw : keywords) : bool :=
  match k_minimum kw, k_maximum kw with
  | Some (a, d), Some (b, e) =>
      let b' := if default false (k_exclusiveMaximum kw) then (b - pow10 e)%Z else b in
      if default false (k_exclusiveMinimum kw) then num_lt a d b' e else negb (num_lt b' e a d)
  | _, _ => true
  end.

Definition whole (o : option num) : bool := match o with Some (_, S _) => false | _ => true end.

Definition supported_leaf (type : option string) (kw : keywords) : bool :=
  match k_enum kw with
  | Some vs => match vs with v :: _ => leaf_valid type kw v | [] => false end
  | None =>
      match type with
      | Some "string" => lengths_ok (k_minLength kw) (k_maxLength kw)
      | Some "number" => room kw
      | Some "integer" => room kw && whole (k_minimum kw) && whole (k_maximum kw)
      | Some "boolean" => true
      | _ => false
      end
  end.

(** The required names are different shown properties and no more than the maximum; the required properties
    alone, or without a maximum the shown properties, reach the minimum, and no property has a name that the generator uses itself. *)
Definition supported_object (s : schema) : bool :=
  let props := default [] (s_properties s) in
  let required := default [] (s_required s) in
  let visible := filter (λ kl, shown kl.2 = true) props in
  bool_decide (NoDup (map fst props)) && bool_decide (NoDup required) &&
  forallb (λ r, bool_decide (r ∈ map fst visible)) required &&
  at_most (k_maxProperties (s_kw s)) (Z.of_nat (length required)) &&
  at_least (k_minProperties (s_kw s))
    (Z.of_nat (match k_maxProperties (s_kw s) with Some _ => length required | None => length visible end)) &&
  forallb (λ kl, negb (String.eqb kl.1 "undefined") && negb (is_some (strip_prefix "additionalProp" kl.1))) props.

(** A schema of depth below [n] without alternatives. An example or a default meets it. Otherwise: an object
    has no list of values, its shown properties and the schema of its additional ones are supported; a list has
    no list of values, bounds that are not contradictory, and supported items; another type
    is a string, a number, an integer or a boolean with bounds that are not contradictory as above, or any
    whose first listed value is valid. *)
Fixpoint supported (n : nat) (l : loc) : bool :=
  match n, h !! l with
  | S n', Some s =>
      if is_plain s then valid n l (plain_sample s)
      else negb (is_some (s_oneOf s)) && negb (is_some (s_anyOf s)) &&
           (if type_is (type_of s) "object" then
              negb (is_some (k_enum (s_kw s))) && supported_object s &&
              forallb (λ kl, is_some (h !! kl.2) && (negb (shown kl.2) || supported n' kl.2)) (default [] (s_properties s)) &&
              match s_additionalProperties s with SchemaAdditional a => supported n' a | _ => true end
            else if type_is (type_of s) "array" then
              negb (is_some (k_enum (s_kw s))) && lengths_ok (k_minItems (s_kw s)) (k_maxItems (s_kw s)) &&
              match s_items s with
              | Some i => supported n' i && match h !! i with
                                       | Some it => negb (is_some (s_oneOf it)) && negb (is_some (s_anyOf it))
                                       | None => false
                                       end
              | None => false
              end
            else supported_leaf (type_of s) (s_kw s))
  | _, _ => false
  end.
End Valid.

(** The heap after samples were taken: types that were missing are filled in. *)
Definition touched (s : schema) : schema := (recover_type (is_plain s) s).2.

Definition extends (h h' : list schema) : Prop :=
  ∀ l s, h !! l = Some s → h' !! l = Some s ∨ h' !! l = Some (touched s).


(** * Reading schemas that were filled in *)

Definition retyped (s : schema) (t : option string) : schema := with_kw s (kw_type (s_kw s) t).

Lemma retyped_id s : retyped s (k_type (s_kw s)) = s.
Proof. by destruct s as [[]]. Qed.

Lemma recover_retyped b s : ∃ t, (recover_type b s).2 = retyped s t.
Proof.
  unfold recover_type. repeat case_match; cbn [snd]; try (exists (k_type (s_kw s)); by rewrite retyped_id);
    by eexists.
Qed.

Lemma recover_idem b s : recover_type b (recover_type b s).2 = recover_type b s.
Proof.
  unfold recover_type. destruct (names_type (s_kw s)) eqn:E; [cbn [snd]; by rewrite E|].
  destruct (object_like s) eqn:E1; [cbn [snd]; by rewrite E, E1|].
  destruct (array_like s) eqn:E2; [cbn [snd]; by rewrite E, E1, E2|].
  destruct (number_like _) eqn:E3; [done|].
  destruct (negb b && _) eqn:E4; [done|]. cbn [snd]. by rewrite E, E1, E2, E3, E4.
Qed.

Lemma touched_retyped s : ∃ t, touched s = retyped s t.
Proof. apply recover_retyped. Qed.

Lemma touched_recover s s' : s' = s ∨ s' = touched s → recover_type (is_plain s) s' = recover_type (is_plain s) s.
Proof. intros [->| ->]; [done|apply recover_idem]. Qed.

Lemma fetched h h' l s : extends h h' → h !! l = Some s →
  ∃ s' t, h' !! l = Some s' ∧ s' = retyped s t ∧ recover_type (is_plain s) s' = recover_type (is_plain s) s.
Proof.
  intros He Hl. destruct (touched_retyped s) as [t Ht].
  destruct (He _ _ Hl) as [E|E]; rewrite E; eexists _, _; split_and!; eauto using touched_recover, eq_sym, retyped_id.
Qed.

Lemma extends_refl h : extends h h.
Proof. left. done. Qed.

Lemma extends_touch h h' l s : extends h h' → h !! l = Some s → extends h (<[l := touched s]> h').
Proof.
  intros He Hl k t Hk. destruct (decide (k = l)) as [->|Hn].
  - right. simplify_eq. apply list_lookup_insert_eq. destruct (He _ _ Hl) as [E|E]; by eapply lookup_lt_Some.
  - rewrite list_lookup_insert_ne by done. by apply He.
Qed.

(** * Values without parts *)

Lemma pow10_pos e : (0 < pow10 e)%Z.
Proof. unfold pow10. apply Z.pow_pos_nonneg; lia. Qed.

Lemma fit_number_valid kw : room kw = true →
  ∃ m e, fit_number kw (JInt 0) = JNum m e ∧ above kw m e && below kw m e = true ∧
    (whole (k_minimum kw) = true → whole (k_maximum kw) = true → e = O).
Proof.
  unfold room, fit_number, above, below, num_lt, whole.
  destruct (k_minimum kw) as [[a d]|], (k_maximum kw) as [[b e]|]; intros Hr;
    repeat match goal with |- context [pow10 ?x] => lazymatch goal with
      | _ : (0 < pow10 x)%Z |- _ => fail | _ => pose proof (pow10_pos x) end end;
    (eexists _, _; split; [reflexivity|]);
    (split; [|by repeat case_match]).
  all: repeat case_match; simplify_eq/=; try done; rewrite ?andb_true_r; try lia; nia.
Qed.

Lemma char_at_length v i : v ≠ "" → String.length (char_at v i) = 1%nat.
Proof.
  intros Hv. unfold char_at. destruct (String.get _ v) eqn:E; [done|]. exfalso.
  assert (Hl : String.length v ≠ O) by (destruct v; done).
  assert (∀ w n, (n < String.length w)%nat → String.get n w ≠ None) as Hg.
  { induction w as [|c w IH]; intros [|n] Hn; cbn [String.length String.get] in *; try done; try lia. apply IH. lia. }
  apply (Hg v (i mod String.length v)%nat); [by apply Nat.mod_upper_bound|done].
Qed.

Lemma str_app_length s t : String.length (s +:+ t) = (String.length s + String.length t)%nat.
Proof. induction s as [|c s IH]; [done|]. cbn [String.length String.app]. cbn. f_equal. exact IH. Qed.

Lemma repeat_chars_length f i m v : v ≠ "" → (m - Z.of_nat (String.length v) ≤ Z.of_nat f)%Z →
  Z.of_nat (String.length (repeat_chars f i m v)) = Z.max (Z.of_nat (String.length v)) m.
Proof.
  revert i v. induction f as [|f IH]; intros i v Hv Hf; cbn [repeat_chars]; [lia|].
  destruct (Z.ltb_spec (Z.of_nat (String.length v)) m); [|lia].
  rewrite IH.
  - rewrite str_app_length, char_at_length by done. lia.
  - destruct v; done.
  - rewrite str_app_length, char_at_length by done. lia.
Qed.

Lemma substring_min n v : String.length (String.substring 0 n v) = Nat.min n (String.length v).
Proof. revert n. induction v as [|c v IH]; intros [|n]; cbn [String.length String.substring] in *; try done. rewrite IH. lia. Qed.

Lemma fit_string_valid kw v : v ≠ "" → lengths_ok (k_minLength kw) (k_maxLength kw) = true →
  leaf_valid (Some "string") kw (JStr (fit_string kw v)) = true.
Proof.
  intros Hv Hl. cbn [leaf_valid]. unfold fit_string, lengths_ok, at_least, at_most in *.
  assert (Hn : String.length v ≠ O) by (destruct v; done).
  destruct (k_maxLength kw) as [b|], (k_minLength kw) as [a|]; rewrite ?andb_true_iff, ?Z.leb_le in *.
  - destruct Hl as [Hb Ha]. unfold slice_end. destruct (Z.ltb_spec b 0); [lia|].
    destruct (decide (b = 0)%Z) as [->|Hb0].
    + destruct (Z.to_nat a) eqn:E; cbn [repeat_chars]; rewrite ?substring_min; [|lia].
      split; lia.
    + rewrite repeat_chars_length; rewrite ?substring_min; [lia| |lia].
      intros E. apply (f_equal String.length) in E. rewrite substring_min in E. cbn in E. lia.
  - unfold slice_end. destruct (Z.ltb_spec b 0); [lia|]. rewrite substring_min. split; [done|lia].
  - rewrite repeat_chars_length by (done || lia). split; [lia|done].
  - done.
Qed.

Section Sampling.
Variable clock : nat → string.
Variables includeReadOnly includeWriteOnly : bool.
Hypothesis clock_text : ∀ t, (24 ≤ String.length (clock t))%nat.

Lemma clock_nonempty t : clock t ≠ "" ∧ String.substring 0 10 (clock t) ≠ "".
Proof.
  pose proof (clock_text t) as H.
  split; intros E; apply (f_equal String.length) in E; rewrite ?substring_min in E;
    change (String.length "") with O in E; lia.
Qed.

(** What each entry of the table gives. *)
Definition entry_value (key : string) (v : jsval) : Prop :=
  match v with
  | JStr t => String.prefix "string" key = true ∧ t ≠ ""
  | JNum m e => (String.prefix "number" key = true ∨ key = "integer") ∧ m = 0%Z ∧ e = O
  | JBool _ => key = "boolean"
  | _ => False
  end.

Lemma primitives_value key fn s st : aget (primitives clock) key = Some fn →
  ∃ v st', fn s st = Ok (v, st') ∧ entry_value key v ∧ st_heap st' = st_heap st.
Proof.
  intros H%aget_In. unfold primitives in H. rewrite !elem_of_cons, elem_of_nil in H.
  destruct_or?; simplify_eq; try done; eexists _, _; (split; [reflexivity|]); (split; [|done]);
    try (split; [reflexivity|]; try done; apply clock_nonempty); try (by split; [left|]); try (by split; [right|]).
  by destruct (k_default (s_kw s)).
Qed.

Lemma primitive_value s st t : k_type (s_kw s) = Some t → t ∈ ["string"; "number"; "integer"; "boolean"] →
  ∃ v st', primitive clock s st = Ok (v, st') ∧ st_heap st' = st_heap st ∧
    match v with JStr x => t = "string" ∧ x ≠ "" | JNum m e => (t = "number" ∨ t = "integer") ∧ m = 0%Z ∧ e = O
              | JBool _ => t = "boolean" | _ => False end.
Proof.
  intros Ht Hin. unfold primitive. rewrite Ht. cbn [default from_option id].
  destruct (aget _ (t +:+ _)) as [fn|] eqn:E; [|destruct (aget _ t) as [fn|] eqn:E'].
  1: apply (primitives_value _ _ s st) in E as (v & st' & Hv & Hk & Hh).
  2: apply (primitives_value _ _ s st) in E' as (v & st' & Hv & Hk & Hh).
  1,2: exists v, st'; split_and!; [done|done|]; rewrite !elem_of_cons, elem_of_nil in Hin; destruct_or?; subst;
    destruct v; cbn in Hk; naive_solver.
  exfalso. rewrite !elem_of_cons, elem_of_nil in Hin; destruct_or?; subst; done.
Qed.

Lemma supported_leaf_enum type kw v vs : supported_leaf type kw = true → k_enum kw = Some vs → head vs = Some v →
  leaf_valid type kw v = true.
Proof. unfold supported_leaf. intros H E Hv. rewrite E in H. by destruct vs; simplify_eq/=. Qed.

Lemma sample_primitive_valid s type st : supported_leaf type (s_kw s) = true →
  ∃ v st', sample_primitive clock type (retyped s type) st = Ok (v, st') ∧ st_heap st' = st_heap st ∧
    match k_enum (s_kw s) with Some vs => bool_decide (v ∈ vs) | None => true end = true ∧
    leaf_valid type (s_kw s) v = true.
Proof.
  intros Hs. unfold sample_primitive. change (k_enum (s_kw (retyped s type))) with (k_enum (s_kw s)).
  assert (Hf : type_is type "file" = true → ∀ v, leaf_valid type (s_kw s) v = false).
  { destruct type as [t|]; [|done]. cbn [type_is]. intros ->%String.eqb_eq v. by destruct v. }
  destruct (k_enum (s_kw s)) as [vs|] eqn:En.
  - destruct vs as [|v vs]; [unfold supported_leaf in Hs; by rewrite En in Hs|].
    pose proof (supported_leaf_enum _ _ v _ Hs En eq_refl) as Hv.
    exists v, st. cbn [mbind SM_bind mret SM_ret head default from_option id].
    destruct (type_is type "file"); [by rewrite Hf in Hv|]. split_and!; [done|done| |done].
    apply bool_decide_eq_true. by left.
  - unfold supported_leaf in Hs. rewrite En in Hs.
    assert (∃ t, type = Some t ∧ t ∈ ["string"; "number"; "integer"; "boolean"]) as (t & -> & Ht).
    { repeat case_match; try done; eexists; (split; [done|]); set_solver. }
    destruct (primitive_value (retyped s (Some t)) st t eq_refl Ht) as (v & st' & Hv & Hh & Hcase).
    erewrite (sm_bind _ _ st _ st') by (by rewrite (sm_bind _ _ st v st' Hv)).
    assert (type_is (Some t) "file" = false) as ->. { cbn [type_is]. rewrite !elem_of_cons, elem_of_nil in Ht. by destruct_or?; subst. }
    eexists _, _; split_and!; [done|done|done|].
    destruct v; try done.
    + subst t. done.
    + destruct Hcase as (Hn & -> & ->). change (fit_number (s_kw (retyped s (Some t)))) with (fit_number (s_kw s)).
      assert (Hr : room (s_kw s) = true) by (destruct Hn; subst t; rewrite ?andb_true_iff in Hs; tauto).
      destruct (fit_number_valid _ Hr) as (m & e & -> & Hb & Hw).
      destruct Hn; subst t; [done|]. rewrite !andb_true_iff in Hs. by rewrite Hw in * by tauto.
    + destruct Hcase as [-> Hx]. by apply (fit_string_valid (s_kw s)).
Qed.

(** * Arrays *)

Lemma repeat_items_spec k i l : l ≠ [] → (i < length l)%nat →
  length (repeat_items k i l) = (length l + k)%nat ∧ ∀ x, x ∈ repeat_items k i l → x ∈ l.
Proof.
  revert i l. induction k as [|k IH]; intros i l Hl Hi; cbn [repeat_items]; [split; [lia|done]|].
  destruct (lookup_lt_is_Some_2 l i Hi) as [y Hy].
  replace (match l with [] => _ | _ => _ end) with y.
  2: { destruct l; [done|]. rewrite Nat.mod_small by done. by rewrite Hy. }
  destruct (IH (S i) (l ++ [y])) as [IHl IHx]; [by destruct l|rewrite length_app; cbn; lia|].
  rewrite IHl, length_app. split; [cbn; lia|].
  intros x Hx%IHx. apply elem_of_app in Hx as [Hx|Hx]; [done|]. apply list_elem_of_singleton in Hx as ->.
  by eapply list_elem_of_lookup_2.
Qed.

Lemma handleMinMaxItems_spec kw l : l ≠ [] → lengths_ok (k_minItems kw) (k_maxItems kw) = true →
  let r := handleMinMaxItems kw l in
  at_least (k_minItems kw) (Z.of_nat (length r)) = true ∧ at_most (k_maxItems kw) (Z.of_nat (length r)) = true ∧
  ∀ x, x ∈ r → x ∈ l.
Proof.
  intros Hl Hok. unfold handleMinMaxItems, lengths_ok, at_least, at_most in *. cbv zeta.
  assert (Hn : length l ≠ O) by (by destruct l).
  set (l' := match k_maxItems kw with Some m => _ | None => _ end).
  assert (∀ x, x ∈ l' → x ∈ l) as Hsub.
  { subst l'. case_match; [|done]. intros x Hx. by eapply elem_of_take in Hx as (? & ? & ?); eapply list_elem_of_lookup_2. }
  assert (Hlen : match k_maxItems kw with Some m => Z.of_nat (length l') = Z.min m (Z.of_nat (length l)) | None => l' = l end).
  { subst l'. destruct (k_maxItems kw) as [m|]; [|done]. rewrite length_take. unfold slice_end.
    rewrite !andb_true_iff, Z.leb_le in Hok. destruct (Z.ltb_spec m 0); lia. }
  destruct (k_minItems kw) as [a|].
  2: { split_and!; [done| |done]. destruct (k_maxItems kw); lia. }
  destruct (decide (l' = [])) as [E|Hne].
  - rewrite E in *. destruct (k_maxItems kw) as [m|]; [|by subst l']. cbn [length] in Hlen.
    rewrite !andb_true_iff, !Z.leb_le in Hok.
    assert (a ≤ 0)%Z by lia.
    replace (Z.to_nat (a - Z.of_nat (length (@nil jsval)))) with O by (cbn [length]; lia).
    cbn [repeat_items length]. rewrite !Z.leb_le. split_and!; [lia|lia|set_solver].
  - assert (length l' ≠ O) by (by destruct l').
    destruct (repeat_items_spec (Z.to_nat (a - Z.of_nat (length l'))) 0 l' Hne ltac:(lia)) as [-> Hx].
    rewrite Z.leb_le. split_and!; [lia| |eauto]. destruct (k_maxItems kw) as [m|]; [|done].
    rewrite !andb_true_iff, !Z.leb_le in *. lia.
Qed.
(** * Objects *)

Lemma addedCount_none res r : "undefined" ∉ map fst res → addedCount res r = Ok 0%Z.
Proof.
  intros Hu. induction r as [|key r IH]; [done|]. cbn [addedCount]. unfold required_found.
  rewrite assoc_None by done. rewrite ok_bind, IH. done.
Qed.

Definition optional (R : list string) (names : list string) : list string := filter (λ k, k ∉ R) names.

Lemma names_below R names p : NoDup names → NoDup R → p ∈ R → p ∉ names →
  (length names < length (optional R names) + length R)%nat.
Proof.
  intros Hn HR Hp Hnp. unfold optional.
  assert (length names = length (filter (λ k, k ∈ R) names) + length (filter (λ k, k ∉ R) names))%nat as ->.
  { clear. induction names as [|k ks IH]; [done|]. rewrite !filter_cons. cbn [length]. rewrite IH.
    destruct (decide (k ∈ R)); [rewrite (decide_False (P := k ∉ R)) by tauto|rewrite (decide_True (P := k ∉ R)) by done];
      cbn [length]; lia. }
  assert (length (p :: filter (λ k, k ∈ R) names) ≤ length R)%nat as Hle; [|cbn in Hle; lia].
  apply submseteq_length, NoDup_submseteq.
  - constructor; [|by apply NoDup_filter]. rewrite list_elem_of_filter. tauto.
  - intros x [->|Hx]%elem_of_cons; [done|]. apply list_elem_of_filter in Hx. tauto.
Qed.

Section Object.
Variable h : list schema.
Variable n : nat.
Variable sample : loc → SM jsval.
Hypothesis sample_valid : ∀ l st, supported includeReadOnly includeWriteOnly h n l = true → extends h (st_heap st) →
  ∃ v st', sample l st = Ok (v, st') ∧ valid includeReadOnly includeWriteOnly h n l v = true ∧ extends h (st_heap st').

Variable s : schema.
Local Abbreviation R := (default [] (s_required s)).
Local Abbreviation showing := (shown includeReadOnly includeWriteOnly h).
Hypothesis R_nodup : NoDup R.

(** Room is kept for the required properties. *)
Definition spared (fs : list (string * jsval)) : Prop :=
  match k_maxProperties (s_kw s) with
  | Some m => (Z.of_nat (length (optional R (map fst fs)) + length R) ≤ m)%Z ∧ (Z.of_nat (length fs) ≤ m)%Z
  | None => True
  end.

Lemma canAdd_required fs k : NoDup (map fst fs) → spared fs → k ∉ map fst fs →
  k ∈ R ∨ k_maxProperties (s_kw s) = None →
  canAddProperty s (fs, Z.of_nat (length fs)) k = Ok true.
Proof.
  intros Hnd Hsp Hk Hr. unfold canAddProperty, spared, hasExceededMaxProperties in *.
  destruct (k_maxProperties (s_kw s)) as [m|] eqn:Em; [|done]. destruct Hr as [Hr|]; [|done]. cbn [snd fst].
  pose proof (names_below R (map fst fs) k Hnd R_nodup Hr Hk) as Hlt. rewrite length_map in Hlt.
  destruct (Z.leb_spec m (Z.of_nat (length fs))); [lia|].
  unfold isOptionalProperty. by rewrite bool_decide_eq_true_2.
Qed.

Lemma canAdd_spared fs k v : spared fs → "undefined" ∉ map fst fs → k ∉ map fst fs →
  ∃ b, canAddProperty s (fs, Z.of_nat (length fs)) k = Ok b ∧ (b = true → spared (fs ++ [(k, v)])).
Proof.
  intros Hsp Hu Hk. unfold canAddProperty, spared, hasExceededMaxProperties, requiredPropertiesToAdd in *.
  destruct (k_maxProperties (s_kw s)) as [m|] eqn:Em; [|by exists true]. cbn [snd fst].
  destruct (Z.leb_spec m (Z.of_nat (length fs))); [by exists false|].
  unfold isOptionalProperty, optional in *. rewrite negb_involutive.
  rewrite map_app, filter_app, !length_app. cbn [map fst]. rewrite filter_cons, filter_nil. cbn [length].
  destruct (bool_decide_reflect (k ∈ R)) as [Hr|Hr].
  - exists true. split; [done|]. intros _. rewrite decide_False by tauto. cbn [length]. lia.
  - rewrite decide_True by done. cbn [length].
    assert (length (filter (λ k, k ∉ R) (map fst fs)) ≤ length fs)%nat as Hle.
    { rewrite <- (length_map fst fs). apply length_filter. }
    destruct (s_required s) as [r|] eqn:Er.
    + rewrite addedCount_none, ok_bind, ok_bind by done. eexists. split; [done|].
      intros Hlt%Z.ltb_lt. cbn [default from_option id] in *. lia.
    + rewrite ok_bind. eexists. split; [done|]. intros Hlt%Z.ltb_lt. cbn [default from_option id length] in *. lia.
Qed.
Definition property_ok (kl : string * loc) : Prop :=
  is_Some (h !! kl.2) ∧ (showing kl.2 = true → supported includeReadOnly includeWriteOnly h n kl.2 = true).

Definition field_from (props : list (string * loc)) (kv : string * jsval) : Prop :=
  ∃ l, (kv.1, l) ∈ props ∧ showing l = true ∧ valid includeReadOnly includeWriteOnly h n l kv.2 = true.

Lemma add_property_valid k l fs st :
  extends h (st_heap st) → property_ok (k, l) → k ∉ map fst fs → "undefined" ∉ map fst fs →
  NoDup (map fst fs) → spared fs → showing l = true →
  ∃ new st', addPropertyToResult sample s k l (fs, Z.of_nat (length fs)) st
      = Ok ((fs ++ new, Z.of_nat (length (fs ++ new))), st') ∧ extends h (st_heap st') ∧ spared (fs ++ new) ∧
    (new = [] ∨ ∃ v, new = [(k, v)] ∧ valid includeReadOnly includeWriteOnly h n l v = true) ∧
    (k ∈ R ∨ k_maxProperties (s_kw s) = None → new ≠ []).
Proof.
  intros He [_ Hs] Hk Hu Hnd Hsp Hsh. cbn [snd] in Hs. unfold addPropertyToResult.
  destruct (sample_valid l st (Hs Hsh) He) as (v & st' & Hv & Hval & He').
  destruct (canAdd_spared fs k v Hsp Hu Hk) as (b & Hb & Hsp').
  erewrite (sm_bind _ _ st b st) by (unfold lifted; by rewrite Hb). destruct b.
  - rewrite (sm_bind _ _ st v st' Hv). cbn [fst snd]. rewrite oset_fresh by done.
    exists [(k, v)], st'. split_and!; [|done|by apply Hsp'|eauto|done].
    unfold mret, SM_ret. rewrite length_app. cbn [length]. repeat f_equal. lia.
  - exists [], st. rewrite app_nil_r. split_and!; [done|done|done|by left|].
    intros Hr. pose proof (canAdd_required fs k Hnd Hsp Hk Hr). congruence.
Qed.

Lemma add_each_valid props : ∀ fs st,
  extends h (st_heap st) → Forall property_ok props → NoDup (map fst props) →
  (∀ k, k ∈ map fst props → k ∉ map fst fs ∧ k ≠ "undefined") →
  NoDup (map fst fs) → "undefined" ∉ map fst fs → spared fs →
  ∃ new st', add_each includeReadOnly includeWriteOnly sample s props (fs, Z.of_nat (length fs)) st
      = Ok ((fs ++ new, Z.of_nat (length (fs ++ new))), st') ∧ extends h (st_heap st') ∧
    NoDup (map fst (fs ++ new)) ∧ spared (fs ++ new) ∧ Forall (field_from props) new ∧
    ∀ k l, (k, l) ∈ props → showing l = true → k ∈ R ∨ k_maxProperties (s_kw s) = None → k ∈ map fst new.
Proof.
  induction props as [|[k l] props IH]; intros fs st He Hps Hnd Hk Hfs Hu Hsp.
  { exists [], st. rewrite app_nil_r. split_and!; try done. intros k l Hin. by apply elem_of_nil in Hin. }
  apply Forall_cons in Hps as [Hp Hps]. cbn [map fst] in Hnd, Hk. apply NoDup_cons in Hnd as [Hkp Hnd].
  destruct (Hk k) as [Hkfs Hku]; [by left|].
  pose proof Hp as [[p Hlp] _]. cbn [snd] in Hlp.
  destruct (fetched _ _ _ _ He Hlp) as (p' & t & Hp' & -> & _). cbn [add_each].
  rewrite (sm_bind _ _ _ _ _ (get_ok _ _ _ Hp')).
  change (hidden includeReadOnly includeWriteOnly (retyped p t)) with (hidden includeReadOnly includeWriteOnly p).
  assert (showing l = negb (hidden includeReadOnly includeWriteOnly p)) as Hsh by (unfold shown; by rewrite Hlp).
  destruct (hidden includeReadOnly includeWriteOnly p) eqn:Eh.
  - erewrite (sm_bind _ _ st _ st) by done.
    destruct (IH fs st) as (new & st' & E & He' & Hn' & Hsp' & Hf & Hall); try done.
    { intros j Hj. apply Hk. by right. }
    exists new, st'. split_and!; try done.
    + eapply Forall_impl; [exact Hf|]. intros kv (l' & ? & ?). exists l'. split; [by right|done].
    + intros j l' [[= -> ->]|Hin]%elem_of_cons Hs Hr; [by rewrite Hsh in Hs|]. eauto.
  - destruct (add_property_valid k l fs st) as (new & st' & E & He' & Hsp' & Hcase & Hreq); try done.
    rewrite (sm_bind _ _ _ _ _ E).
    assert (Hin : map fst new ⊆ [k]) by (destruct Hcase as [->|(v & -> & _)]; set_solver).
    destruct (IH (fs ++ new) st') as (new' & st'' & E' & He'' & Hn' & Hsp'' & Hf & Hall); try done.
    { intros j Hj. destruct (Hk j) as [? ?]; [by right|]. split; [|done]. rewrite map_app, elem_of_app. set_solver. }
    { destruct Hcase as [->|(v & -> & _)]; [by rewrite app_nil_r|]. rewrite map_app. apply NoDup_app.
      split_and!; [done| |apply NoDup_singleton]. intros x Hx Hx'. apply list_elem_of_singleton in Hx' as ->. done. }
    { rewrite map_app, elem_of_app. set_solver. }
    rewrite <- app_assoc in *. exists (new ++ new'), st''. split_and!; try done.
    + apply Forall_app. split.
      * destruct Hcase as [->|(v & -> & Hv)]; [done|]. constructor; [|done]. exists l. split; [by left|done].
      * eapply Forall_impl; [exact Hf|]. intros kv (l' & ? & ?). exists l'. split; [by right|done].
    + intros j l' Hj Hs Hr. rewrite map_app, elem_of_app. apply elem_of_cons in Hj as [[= -> ->]|Hj]; [|eauto].
      left. destruct Hcase as [->|(v & -> & _)]; [by destruct Hreq|by left].
Qed.
(** [r] is [fs] with generated fields of value [v] added. *)
Definition grown (v : jsval) (fs r : list (string * jsval)) : Prop :=
  (length fs ≤ length r)%nat ∧ (NoDup (map fst fs) → NoDup (map fst r)) ∧
  (∀ x, x ∈ map fst fs → x ∈ map fst r) ∧
  ∀ kv, kv ∈ r → kv ∈ fs ∨ (∃ j, kv.1 = additional_name j) ∧ kv.2 = v.

Lemma grown_refl v fs : grown v fs fs.
Proof. split_and!; auto. Qed.

Lemma grown_trans v fs gs r : grown v fs gs → grown v gs r → grown v fs r.
Proof. intros (? & ? & ? & H) (? & ? & ? & H'). split_and!; [lia|auto|auto|]. intros kv Hkv. destruct (H' kv Hkv); auto. Qed.

Lemma oset_length fs k (v : jsval) : (length fs ≤ length (oset fs k v) ≤ S (length fs))%nat.
Proof. induction fs as [|[y w] fs IH]; cbn [oset length]; [lia|]. case_match; cbn [length]; lia. Qed.

Lemma oset_elem fs k (v : jsval) kv : kv ∈ oset fs k v → kv ∈ fs ∨ kv = (k, v).
Proof.
  induction fs as [|[y w] fs IH]; cbn [oset]; [intros ->%list_elem_of_singleton; by right|].
  destruct (String.eqb_spec y k) as [->|]; rewrite !elem_of_cons; naive_solver.
Qed.

Lemma oset_grown v fs i : grown v fs (oset fs (additional_name i) v).
Proof.
  split_and!; [apply oset_length|apply oset_NoDup| |].
  - intros x Hx. rewrite oset_keys. case_match; [done|]. rewrite elem_of_app. by left.
  - intros kv [Hkv| ->]%oset_elem; [by left|]. right. split; [by eexists|done].
Qed.

Lemma add_additional_grown v k : ∀ i b, (Z.of_nat (length b.1) ≤ b.2)%Z →
  at_most (k_maxProperties (s_kw s)) b.2 = true →
  let r := (add_additional (s_kw s) v k i b).1 in
  at_most (k_maxProperties (s_kw s)) (Z.of_nat (length r)) = true ∧ grown v b.1 r.
Proof.
  induction k as [|k IH]; intros i [fs c] Hc Hm; cbn [fst snd add_additional] in *.
  { split; [|apply grown_refl]. unfold at_most in *. case_match; lia. }
  destruct (hasExceededMaxProperties (s_kw s) c) eqn:Ex; cbn [fst].
  { split; [|apply grown_refl]. unfold at_most in *. case_match; lia. }
  pose proof (oset_length fs (additional_name i) v).
  destruct (IH (S i) (oset fs (additional_name i) v, (c + 1)%Z)) as [Hr Hg]; cbn [fst snd] in *; [lia| |].
  { unfold at_most, hasExceededMaxProperties in *. case_match; [|done]. lia. }
  split; [done|]. eapply grown_trans; [apply oset_grown|exact Hg].
Qed.

Local Abbreviation props := (default [] (s_properties s)).
Hypothesis s_supported : supported_object includeReadOnly includeWriteOnly h s = true.
Hypothesis props_ok : Forall property_ok props.

Lemma supported_parts : NoDup (map fst props) ∧
  (∀ r, r ∈ R → ∃ l, (r, l) ∈ props ∧ showing l = true) ∧
  at_most (k_maxProperties (s_kw s)) (Z.of_nat (length R)) = true ∧
  at_least (k_minProperties (s_kw s)) (Z.of_nat (match k_maxProperties (s_kw s) with
    Some _ => length R | None => length (filter (λ kl, showing kl.2 = true) props) end)) = true ∧
  (∀ k, k ∈ map fst props → k ≠ "undefined" ∧ ∀ i, k ≠ additional_name i).
Proof.
  unfold supported_object in s_supported. rewrite !andb_true_iff, !bool_decide_eq_true, !forallb_forall in s_supported.
  destruct s_supported as [[[[[H1 H2] H3] H4] H5] H6]. split_and!; try done.
  - intros r Hr%list_elem_of_In. apply H3, bool_decide_eq_true in Hr.
    apply list_elem_of_fmap in Hr as ([k l] & -> & [? ?]%list_elem_of_filter). by exists l.
  - intros k ([j l] & -> & Hin%list_elem_of_In)%list_elem_of_fmap. apply H6 in Hin.
    rewrite andb_true_iff, !negb_true_iff, String.eqb_neq in Hin. cbn [fst] in *. destruct Hin as [Hu Ha].
    split; [done|]. intros i ->. unfold additional_name in Ha. by rewrite strip_prefix_app in Ha.
Qed.
Lemma aget_nodup {A} (o : list (string * A)) k v : NoDup (map fst o) → (k, v) ∈ o → aget o k = Some v.
Proof.
  induction o as [|[j w] o IH]; [intros _ H; by apply elem_of_nil in H|]. cbn [map fst aget].
  intros [Hj Hnd]%NoDup_cons [[= -> ->]|Hin]%elem_of_cons; [by rewrite String.eqb_refl|].
  destruct (String.eqb_spec j k) as [->|]; [|auto]. destruct Hj. apply list_elem_of_fmap. by exists (k, v).
Qed.

Local Abbreviation part := (valid includeReadOnly includeWriteOnly h n).
Local Abbreviation field_ok := (field_valid includeReadOnly includeWriteOnly h part s).

Lemma grown_valid v fs r : NoDup (map fst fs) → Forall (field_from props) fs →
  (∀ k l, (k, l) ∈ props → showing l = true → k ∈ R ∨ k_maxProperties (s_kw s) = None → k ∈ map fst fs) →
  at_most (k_maxProperties (s_kw s)) (Z.of_nat (length r)) = true → grown v fs r →
  (r = fs ∨ ∀ i, field_ok (additional_name i, v) = true) →
  object_valid includeReadOnly includeWriteOnly h part s r = true.
Proof.
  intros Hnd Hfs Hall Hmax (Hlen & Hnd' & Hin & Hr) Hadd.
  destruct supported_parts as (Hp & HR & _ & Hmin & Hnames). unfold object_valid.
  rewrite !andb_true_iff, !forallb_forall, bool_decide_eq_true. split_and!; [done| |by apply Hnd'| |].
  - assert (Hle : ∀ names : list string, NoDup names → (∀ x, x ∈ names → x ∈ map fst fs) → (length names ≤ length r)%nat).
    { intros names Hn Hx. transitivity (length (map fst fs)); [|by rewrite length_map].
      by apply submseteq_length, NoDup_submseteq. }
    unfold at_least in *. destruct (k_minProperties (s_kw s)); [|done]. destruct (k_maxProperties (s_kw s)).
    + specialize (Hle R R_nodup). enough (length R ≤ length r)%nat by lia. apply Hle. intros x Hx.
      destruct (HR x Hx) as (l & ? & ?). eauto.
    + set (vis := filter _ props) in *. specialize (Hle (map fst vis)). rewrite length_map in Hle.
      enough (length vis ≤ length r)%nat by lia. apply Hle.
      * apply (sublist_NoDup _ (map fst props) Hp), (fmap_sublist fst), sublist_filter.
      * intros x ([k l] & -> & [? ?]%list_elem_of_filter)%list_elem_of_fmap. eauto.
  - intros x Hx%list_elem_of_In. apply bool_decide_eq_true, Hin. destruct (HR x Hx) as (l & ? & ?). eauto.
  - intros [k w] Hkv%list_elem_of_In. destruct (Hr _ Hkv) as [Hkv'|[[j Hj] Hw]].
    + rewrite Forall_forall in Hfs. destruct (Hfs _ Hkv') as (l & Hl & Hs & Hv). unfold field_valid.
      rewrite (aget_nodup _ _ _ Hp Hl), Hs, Hv. done.
    + cbn [fst snd] in Hj, Hw. subst k w. destruct Hadd as [->|Hadd]; [|done].
      rewrite Forall_forall in Hfs. destruct (Hfs _ Hkv) as (l & Hl & _). cbn [fst] in Hl.
      destruct (Hnames (additional_name j)) as [_ []%(λ f, f j)]; [|done]. apply list_elem_of_fmap. by eexists (_, _).
Qed.
Hypothesis additional_ok : ∀ a, s_additionalProperties s = SchemaAdditional a →
  supported includeReadOnly includeWriteOnly h n a = true.

Lemma additional_field v i :
  (∀ a, s_additionalProperties s = SchemaAdditional a → part a v = true) →
  match s_additionalProperties s with NoAdditional | AnyAdditional false => False | _ => True end →
  field_ok (additional_name i, v) = true.
Proof.
  intros Hv Hc. unfold field_valid. cbn [fst snd].
  assert (aget props (additional_name i) = None) as ->.
  { apply aget_None. intros Hin. destruct supported_parts as (_ & _ & _ & _ & Hn). by apply (proj2 (Hn _ Hin) i). }
  destruct (s_additionalProperties s) as [|[]|a]; auto.
Qed.

Lemma sample_object_valid st : extends h (st_heap st) →
  ∃ fs st', sample_object includeReadOnly includeWriteOnly sample s st = Ok (JObj fs, st') ∧
    object_valid includeReadOnly includeWriteOnly h part s fs = true ∧ extends h (st_heap st').
Proof.
  intros He. destruct supported_parts as (Hp & HR & Hmax & Hmin & Hnames).
  destruct (add_each_valid props [] st) as (fs & st1 & E & He1 & Hnd & Hsp & Hfs & Hall); try done.
  { intros k Hk. split; [by intros ?%elem_of_nil|]. by apply Hnames. }
  { constructor. } { by intros ?%elem_of_nil. }
  { unfold spared, at_most in *. case_match; [|done]. cbn [map optional filter list_filter length]. lia. }
  cbn [app] in *. unfold sample_object. change (@nil (string * jsval), 0%Z) with (@nil (string * jsval), Z.of_nat (length (@nil (string * jsval)))).
  rewrite (sm_bind _ _ _ _ _ E). cbn [fst snd].
  assert (Hlen : at_most (k_maxProperties (s_kw s)) (Z.of_nat (length fs)) = true).
  { unfold spared, at_most in *. case_match; [|done]. lia. }
  pose proof (λ r v, grown_valid v fs r Hnd Hfs Hall) as Hgrown.
  pose proof (Hgrown fs JUndef Hlen (grown_refl _ _) (or_introl eq_refl)) as Hplain.
  destruct (hasExceededMaxProperties (s_kw s) (Z.of_nat (length fs))) eqn:Ex; [by exists fs, st1|].
  pose proof additional_field as Hfield. pose proof additional_ok as Hadd. clear additional_ok.
  destruct (s_additionalProperties s) as [|[]|a] eqn:Ea; try by exists fs, st1.
  - eexists _, st1. split_and!; [done| |done]. change "additionalProp1" with (additional_name 1).
    apply (Hgrown _ (JObj [])); [|apply oset_grown|right; intros i; by apply Hfield].
    pose proof (oset_length fs (additional_name 1) (JObj [])).
    unfold at_most, hasExceededMaxProperties in *. case_match; [|done]. lia.
  - destruct (sample_valid a st1 (Hadd a eq_refl) He1) as (v & st2 & Ev & Hv & He2).
    rewrite (sm_bind _ _ _ _ _ Ev). eexists _, st2. split_and!; [done| |done].
    destruct (add_additional_grown v (Z.to_nat (toGenerateCount (s_kw s) (Z.of_nat (length fs)) - 1)) 1
      (fs, Z.of_nat (length fs)) ltac:(done) Hlen) as [Hr Hg].
    apply (Hgrown _ v Hr Hg).
    right. intros i. apply Hfield; [|done]. intros a' [= <-]. done.
Qed.
End Object.

(** * Sampling *)

Definition no_alternatives (s : schema) : Prop := s_oneOf s = None ∧ s_anyOf s = None.

Lemma generic_step h fuel l st s : extends h (st_heap st) → h !! l = Some s → is_plain s = true ∨ no_alternatives s →
  let type := (recover_type (is_plain s) s).1 in
  let sample := λ l, sampleFromSchemaGeneric clock includeReadOnly includeWriteOnly fuel (Some l) JUndef in
  let st1 := SState (<[l := touched s]> (st_heap st)) (st_ticks st) in
  sampleFromSchemaGeneric clock includeReadOnly includeWriteOnly (S fuel) (Some l) JUndef st =
    (if is_plain s then mret (plain_sample s)
     else if type_is type "object" then sample_object includeReadOnly includeWriteOnly sample (touched s)
     else if type_is type "array" then sample_array includeReadOnly includeWriteOnly sample fuel (touched s)
     else sample_primitive clock type (touched s)) st1.
Proof.
  intros He Hl Hs type sample st1. destruct (fetched _ _ _ _ He Hl) as (s' & t & Hl' & -> & Hrec).
  cbn [sampleFromSchemaGeneric].
  assert (combine includeReadOnly includeWriteOnly fuel l JUndef st = Ok (is_plain s, st)) as Hc.
  { unfold combine. rewrite (sm_bind _ _ _ _ _ (get_ok _ _ _ Hl')).
    change (defined JUndef || defined (k_example (s_kw (retyped s t))) || defined (k_default (s_kw (retyped s t))))
      with (is_plain s). destruct (is_plain s) eqn:Ep; [done|]. destruct Hs as [|[Ho Ha]]; [done|].
    unfold first_alternative. change (s_oneOf (retyped s t)) with (s_oneOf s). change (s_anyOf (retyped s t)) with (s_anyOf s).
    by rewrite Ho, Ha. }
  rewrite (sm_bind _ _ _ _ _ Hc), (sm_bind _ _ _ _ _ (get_ok _ _ _ Hl')), Hrec.
  subst type. unfold touched in *. destruct (recover_retyped (is_plain s) s) as [t' Ht'].
  destruct (recover_type (is_plain s) s) as [ty s''] eqn:Er. cbn [fst snd] in *. subst s''.
  erewrite (sm_bind _ _ st tt st1) by done.
  destruct (is_plain s) eqn:Ep; [|done]. unfold plain_sample. by rewrite Er.
Qed.

Lemma touched_type s : is_plain s = false →
  touched s = retyped s (k_type (s_kw (touched s))) ∧
  (type_of s = Some "object" ∨ type_of s = Some "array" ∨ k_type (s_kw (touched s)) = type_of s).
Proof.
  intros Hp. unfold touched, type_of. rewrite Hp. split.
  - destruct (recover_retyped false s) as [t ->]. done.
  - unfold recover_type. repeat case_match; auto.
Qed.

Lemma sample_array_step sample fuel s st i it v st' :
  s_items s = Some i → st_heap st !! i = Some it → no_alternatives it → sample i st = Ok (v, st') →
  lengths_ok (k_minItems (s_kw s)) (k_maxItems (s_kw s)) = true →
  ∃ vs, sample_array includeReadOnly includeWriteOnly sample fuel s st = Ok (JArr vs, st') ∧
    ∀ part_valid : loc → jsval → bool, part_valid i v = true → array_valid part_valid s vs = true.
Proof.
  intros Ei Hi [Ho Ha] E Hlen. unfold sample_array, array_valid.
  rewrite Ei, (sm_bind _ _ _ _ _ (get_ok _ _ _ Hi)), Ho, Ha.
  erewrite (sm_bind _ _ st [v] st') by (by rewrite (sm_bind _ _ _ _ _ E)).
  eexists. split; [done|]. intros part Hv.
  destruct (handleMinMaxItems_spec (s_kw s) [v]) as (H1 & H2 & H3); [done|done|].
  rewrite H1, H2. apply forallb_forall. intros x Hx%list_elem_of_In. apply H3, list_elem_of_singleton in Hx as ->. done.
Qed.

Lemma not_some {A} (o : option A) : negb (is_some o) = true → o = None.
Proof. by destruct o. Qed.

Lemma sampling_valid h : ∀ n fuel l st, (n ≤ fuel)%nat →
  supported includeReadOnly includeWriteOnly h n l = true → extends h (st_heap st) →
  ∃ v st', sampleFromSchemaGeneric clock includeReadOnly includeWriteOnly fuel (Some l) JUndef st = Ok (v, st') ∧
    valid includeReadOnly includeWriteOnly h n l v = true ∧ extends h (st_heap st').
Proof.
  induction n as [|n IH]; intros fuel l st Hf Hs He; [done|]. destruct fuel as [|fuel]; [lia|].
  cbn [supported] in Hs. destruct (h !! l) as [s|] eqn:Hl; [|done].
  pose proof (extends_touch _ _ _ _ He Hl) as He1.
  set (st1 := SState (<[l := touched s]> (st_heap st)) (st_ticks st)).
  destruct (is_plain s) eqn:Ep.
  { rewrite (generic_step h _ _ _ s) by auto. rewrite Ep. by exists (plain_sample s), st1. }
  rewrite !andb_true_iff in Hs. destruct Hs as [[Ho Ha] Hs].
  rewrite (generic_step h _ _ _ s He Hl) by (right; split; [by destruct (s_oneOf s)|by destruct (s_anyOf s)]).
  rewrite Ep. change (recover_type false s).1 with (type_of s). destruct (touched_type s Ep) as [Ht Hty].
  set (t := k_type (s_kw (touched s))) in *. fold st1. rewrite Ht. cbn [valid]. rewrite Hl.
  set (sample := λ l, sampleFromSchemaGeneric clock includeReadOnly includeWriteOnly fuel (Some l) JUndef).
  pose proof (λ l st, IH fuel l st ltac:(lia)) as Hsample. fold sample in Hsample.
  destruct (type_is (type_of s) "object") eqn:Eo; [|destruct (type_is (type_of s) "array") eqn:Ea].
  - rewrite !andb_true_iff in Hs. destruct Hs as [[[He0 Hso] Hps] Hadd].
    edestruct (sample_object_valid h n sample Hsample (retyped s t)) with (st := st1)
      as (fs & st' & E & Hv & He'); [| | | |exact He1|].
    + unfold supported_object in Hso. rewrite !andb_true_iff, !bool_decide_eq_true in Hso. tauto.
    + exact Hso.
    + rewrite forallb_forall in Hps. apply Forall_forall. intros kl Hin. apply list_elem_of_In, Hps in Hin.
      rewrite andb_true_iff, orb_true_iff, negb_true_iff in Hin. destruct Hin as [H1 H2].
      split; [by destruct (h !! kl.2)|]. intros Hsh. destruct H2; congruence.
    + intros a Hq. change (s_additionalProperties (retyped s t)) with (s_additionalProperties s) in Hq. by rewrite Hq in Hadd.
    + exists (JObj fs), st'. split_and!; [exact E| |done]. by destruct (k_enum (s_kw s)).
  - rewrite !andb_true_iff in Hs. destruct Hs as [[He0 Hlen] Hit].
    destruct (s_items s) as [i|] eqn:Ei; [|done]. rewrite andb_true_iff in Hit. destruct Hit as [Hsi Hit].
    destruct (h !! i) as [it|] eqn:Ehi; [|done]. rewrite andb_true_iff in Hit. destruct Hit as [Hio%not_some Hia%not_some].
    destruct (fetched h (st_heap st1) i it He1 Ehi) as (it' & ti & Hi' & -> & _).
    destruct (Hsample i st1 Hsi He1) as (v & st' & E & Hv & He').
    destruct (sample_array_step sample fuel (retyped s t) st1 i _ v st' Ei Hi' (conj Hio Hia) E Hlen) as (vs & E' & Hvs).
    exists (JArr vs), st'. split_and!; [exact E'| |done]. destruct (k_enum (s_kw s)); [done|].
    apply (Hvs (valid includeReadOnly includeWriteOnly h n) Hv).
  - destruct Hty as [Hty|[Hty|Hty]]; [by rewrite Hty in Eo|by rewrite Hty in Ea|]. rewrite Hty.
    destruct (sample_primitive_valid s (type_of s) st1 Hs) as (v & st' & E & Hh & Hen & Hv).
    exists v, st'. rewrite Hen, Hv, Hh. split_and!; [exact E|done|exact He1].
Qed.
End Sampling.

(** * Examples *)

(** Schemas of the examples. *)
Definition typed (t : string) : schema := with_kw empty_schema (kw_type no_keywords (Some t)).
Definition object_of (props : list (string * loc)) (required : option (list string)) : schema :=
  with_required (with_properties (typed "object") (Some props)) required.
Definition with_additional (s : schema) (a : additional) : schema :=
  Schema (s_kw s) (s_format s) (s_required s) (s_properties s) a (s_items s)
    (s_oneOf s) (s_anyOf s) (s_deprecated s) (s_readOnly s) (s_writeOnly s).
Definition with_format (s : schema) (f : string) : schema :=
  Schema (s_kw s) (Some f) (s_required s) (s_properties s) (s_additionalProperties s) (s_items s)
    (s_oneOf s) (s_anyOf s) (s_deprecated s) (s_readOnly s) (s_writeOnly s).
Definition read_only (s : schema) : schema :=
  Schema (s_kw s) (s_format s) (s_required s) (s_properties s) (s_additionalProperties s) (s_items s)
    (s_oneOf s) (s_anyOf s) (s_deprecated s) true (s_writeOnly s).
Definition one_of (s : schema) (ls : list loc) : schema :=
  Schema (s_kw s) (s_format s) (s_required s) (s_properties s) (s_additionalProperties s) (s_items s)
    (Some ls) (s_anyOf s) (s_deprecated s) (s_readOnly s) (s_writeOnly s).
Definition any_of (s : schema) (ls : list loc) : schema :=
  Schema (s_kw s) (s_format s) (s_required s) (s_properties s) (s_additionalProperties s) (s_items s)
    (s_oneOf s) (Some ls) (s_deprecated s) (s_readOnly s) (s_writeOnly s).

Definition noon : nat → string := λ _, "2024-01-01T12:00:00.000Z".

(** The sample of the schema at [l] in a request. *)
Definition sampled (h : list schema) (l : loc) : result jsval :=
  r ← sampleFromSchema noon false true 10 (Some l) JUndef (SState h 0); Ok r.1.

(** C12: the example value generated for a [supported] schema is valid for it, and the generator returns. The value
    has the type of the schema and keeps its bounds, it is one of the listed values, objects have their
    required properties, no hidden or unknown ones and as many as allowed, and the same holds for all
    parts. This is so for every state left by earlier samples, also when schemas share their parts.
    Supported are schemas without alternatives whose given examples are valid, whose bounds do not
    contradict each other, whose minimal numbers of properties are reached by the declared properties,
    whose integers have whole bounds and whose excluded bounds leave room, whose lists have a schema of
    their items, and whose parts are supported. *)
Theorem sample_meets_schema clock includeReadOnly includeWriteOnly h n fuel l st :
  (∀ t, (24 ≤ String.length (clock t))%nat) → (n ≤ fuel)%nat →
  supported includeReadOnly includeWriteOnly h n l = true → extends h (st_heap st) →
  ∃ v st', sampleFromSchema clock includeReadOnly includeWriteOnly fuel (Some l) JUndef st = Ok (v, st') ∧
    valid includeReadOnly includeWriteOnly h n l v = true ∧ extends h (st_heap st').
Proof. intros Hc Hn Hs He. by apply sampling_valid. Qed.

(** A pet with a generated id, a name of two to four characters, at least two tags and an age
    between 1 and 30, both excluded. *)
Definition pet_heap : list schema :=
  [ with_additional (object_of [("id", 1); ("name", 2); ("tags", 3); ("age", 5)] (Some ["name"; "tags"])) (SchemaAdditional 4);
    read_only (typed "integer");
    with_kw empty_schema (Keywords JUndef JUndef None JUndef (Some "string") None None None None None None None None (Some 2%Z) (Some 4%Z));
    with_items (with_kw empty_schema (Keywords JUndef JUndef None JUndef None None None (Some 2%Z) None None None None None None None)) (Some 4);
    with_kw empty_schema (Keywords JUndef JUndef (Some [JStr "new"; JStr "old"]) JUndef (Some "string") None None None None None None None None None None);
    with_kw empty_schema (Keywords JUndef JUndef None JUndef None None None None None
      (Some (1%Z, 0%nat)) (Some (30%Z, 0%nat)) (Some true) (Some true) None None) ].

Lemma sample_meets_schema_witness :
  sampled pet_heap 0 = Ok (JObj [("name", JStr "stri"); ("tags", JArr [JStr "new"; JStr "new"]); ("age", JInt 29);
    ("additionalProp1", JStr "new"); ("additionalProp2", JStr "new"); ("additionalProp3", JStr "new")]) ∧
  ∃ v st', sampleFromSchema noon false true 10 (Some 0) JUndef (SState pet_heap 0) = Ok (v, st') ∧
    valid false true pet_heap 3 0 v = true ∧ extends pet_heap (st_heap st').
Proof.
  split; [vm_compute; reflexivity|].
  apply (sample_meets_schema noon false true pet_heap 3 10 0 (SState pet_heap 0)).
  - intros t. vm_compute. lia.
  - lia.
  - vm_compute. reflexivity.
  - apply extends_refl.
Defined.

(** With a maximum the room kept for the required properties is never reduced when these are added:
    optional properties are left out although the maximum allows them. *)
Example optional_left_out :
  let kw := Keywords JUndef JUndef None JUndef (Some "object") (Some 3%Z) None None None None None None None None None in
  sampled [with_kw (object_of [("a", 1); ("b", 1); ("c", 1)] (Some ["a"; "b"])) kw; typed "string"] 0 =
    Ok (JObj [("a", JStr "string"); ("b", JStr "string")]).
Proof. vm_compute. reflexivity. Qed.

(** One property fewer than the minimum is generated. *)
Example minimum_missed :
  let kw := Keywords JUndef JUndef None JUndef (Some "object") None (Some 3%Z) None None None None None None None None in
  let h := [with_additional (with_kw empty_schema kw) (SchemaAdditional 1); typed "string"] in
  sampled h 0 = Ok (JObj [("additionalProp1", JStr "string"); ("additionalProp2", JStr "string")]) ∧
  valid false true h 2 0 (JObj [("additionalProp1", JStr "string"); ("additionalProp2", JStr "string")]) = false.
Proof. vm_compute. split; reflexivity. Qed.

(** An excluded maximum is met by subtracting 1, also when that leaves the range. *)
Example close_bounds_missed :
  let kw := Keywords JUndef JUndef None JUndef (Some "number") None None None None
    (Some (0%Z, 0%nat)) (Some (5%Z, 1%nat)) None (Some true) None None in
  let h := [with_kw empty_schema kw] in
  sampled h 0 = Ok (JNum (-5) 1) ∧ valid false true h 1 0 (JNum (-5) 1) = false ∧ valid false true h 1 0 (JNum 1 1) = true.
Proof. vm_compute. split_and!; reflexivity. Qed.

(** A fractional minimum of an integer is shown as it is. *)
Example fractional_integer :
  let kw := Keywords JUndef JUndef None JUndef (Some "integer") None None None None (Some (15%Z, 1%nat)) None None None None None in
  let h := [with_kw empty_schema kw] in
  sampled h 0 = Ok (JNum 15 1) ∧ valid false true h 1 0 (JNum 15 1) = false ∧ valid false true h 1 0 (JInt 2) = true.
Proof. vm_compute. split_and!; reflexivity. Qed.

(** A list without a schema for its items raises an error. *)
Example array_without_items : sampled [typed "array"] 0 = Throw (cannot_read JUndef "anyOf").
Proof. reflexivity. Qed.

(** The alternatives of the items share the property that both inherit. Sampling the first writes the
    default of its alternative into it, so the second one shows another value for the same property. *)
Example shared_property_changes :
  let string_x := with_kw empty_schema (Keywords JUndef (JStr "x") None JUndef (Some "string") None None None None None None None None None None) in
  sampled [with_items (typed "array") (Some 1); any_of (object_of [("p", 4)] None) [2; 3];
           object_of [] None; object_of [] None; one_of empty_schema [5]; string_x] 0 =
    Ok (JArr [JObj [("p", JStr "string")]; JObj [("p", JStr "x")]]).
Proof. vm_compute. reflexivity. Qed.

(** The format and the additional properties of an alternative are lost. *)
Example alternative_loses_format :
  let email := with_format (typed "string") "email" in
  let dictionary := with_additional (typed "object") (SchemaAdditional 0) in
  let h := [email; one_of empty_schema [0]; dictionary; one_of empty_schema [2]] in
  sampled h 0 = Ok (JStr "user@example.com") ∧ sampled h 1 = Ok (JStr "string") ∧ sampled h 3 = Ok (JObj []).
Proof. vm_compute. split_and!; reflexivity. Qed.
