(* ===== verification/SwAlternatives.v ===== *)
(** Schemas with alternatives (oneOf, anyOf) in core/plugins/samples/fn.js: what liftSampleHelper makes of a
    schema that only lists alternatives, and that its sample is a value of the first of them. *)

From S2P Require Import Prelude JsValue Json JsString SwUtils SwSamples.

Section Alternatives.
Variable clock : nat → string.
Variables includeReadOnly includeWriteOnly : bool.
Hypothesis clock_text : ∀ t, (24 ≤ String.length (clock t))%nat.
Variable h : list schema.

Local Abbreviation showing := (shown includeReadOnly includeWriteOnly h).
Local Abbreviation is_valid := (valid includeReadOnly includeWriteOnly h).
Local Abbreviation is_supported := (supported includeReadOnly includeWriteOnly h).
Local Abbreviation lift := (liftSampleHelper includeReadOnly includeWriteOnly).
Local Abbreviation generic := (sampleFromSchemaGeneric clock includeReadOnly includeWriteOnly).

Definition shown_props (props : list (string * loc)) : list (string * loc) := filter (λ kl, showing kl.2 = true) props.

(** * What is joined in *)

Lemma lift_keywords_empty k : lift_keywords k no_keywords = k.
Proof.
  assert (∀ A (o : option A), None ∪ o = o) as Hn by (by intros A []).
  destruct k. unfold lift_keywords, no_keywords. cbn. by rewrite !Hn.
Qed.

Lemma foldl_push acc R : NoDup (acc ++ R) → foldl push_required acc R = acc ++ R.
Proof.
  revert acc. induction R as [|r R IH]; intros acc Hnd; cbn [foldl]; [by rewrite app_nil_r|].
  rewrite cons_middle, app_assoc in Hnd. unfold push_required at 2. rewrite bool_decide_false.
  - by rewrite IH, <- app_assoc.
  - apply NoDup_app in Hnd as [Hnd _]. apply NoDup_app in Hnd as (_ & Hd & _). intros Hin. by apply (Hd r Hin), list_elem_of_singleton.
Qed.

Lemma filter_ext_in {A} (P Q : A → Prop) `{∀ x, Decision (P x)} `{∀ x, Decision (Q x)} (l : list A) :
  (∀ x, x ∈ l → P x ↔ Q x) → filter P l = filter Q l.
Proof.
  induction l as [|x l IH]; intros Hl; [done|]. rewrite !filter_cons, IH by (intros y Hy; apply Hl; by right).
  destruct (Hl x) as [H1 H2]; [by left|]. destruct (decide (P x)), (decide (Q x)); tauto.
Qed.

Lemma filter_all {A} (P : A → Prop) `{∀ x, Decision (P x)} (l : list A) : (∀ x, x ∈ l → P x) → filter P l = l.
Proof.
  induction l as [|x l IH]; intros Hl; [done|]. rewrite filter_cons, decide_True by (apply Hl; by left).
  f_equal. apply IH. intros y Hy. apply Hl. by right.
Qed.

Lemma lift_properties_spec props : ∀ target st, extends h (st_heap st) → Forall (λ kl, is_Some (h !! kl.2)) props →
  NoDup (map fst props) →
  lift_properties includeReadOnly includeWriteOnly props target st =
    Ok (target ++ filter (λ kl, kl.1 ∉ map fst target) (shown_props props), st).
Proof.
  induction props as [|[k l] props IH]; intros target st He Hps Hnd; cbn [lift_properties].
  { by rewrite app_nil_r. }
  apply Forall_cons in Hps as [[p Hp] Hps]. cbn [map fst snd] in *. apply NoDup_cons in Hnd as [Hk Hnd].
  destruct (fetched _ _ _ _ He Hp) as (p' & t & Hp' & -> & _).
  rewrite (sm_bind _ _ _ _ _ (get_ok _ _ _ Hp')), IH by done.
  change (hidden includeReadOnly includeWriteOnly (retyped p t)) with (hidden includeReadOnly includeWriteOnly p).
  assert (showing l = negb (hidden includeReadOnly includeWriteOnly p)) as Hsh by (unfold shown; by rewrite Hp).
  unfold shown_props. rewrite filter_cons. cbn [snd].
  destruct (hidden includeReadOnly includeWriteOnly p); cbn [orb negb] in *.
  { by rewrite decide_False by (rewrite Hsh; done). }
  rewrite decide_True by done. rewrite filter_cons. cbn [fst].
  destruct (aget target k) eqn:Ek; cbn [is_some].
  - rewrite decide_False; [done|]. intros Hn. apply aget_None in Hn. congruence.
  - apply aget_None in Ek. rewrite decide_True by done. rewrite <- app_assoc. cbn [app]. do 3 f_equal. f_equal.
    apply filter_ext_in. intros [j w] Hj. cbn [fst]. rewrite map_app, elem_of_app. cbn [map fst].
    rewrite list_elem_of_singleton. split; [tauto|]. intros Hn [?|<-]; [done|].
    apply Hk. apply list_elem_of_filter in Hj as [_ Hj]. apply list_elem_of_fmap. by exists (j, w).
Qed.

Lemma extends_above h' t x : extends h h' → (length h ≤ t)%nat → extends h (<[t := x]> h').
Proof.
  intros He Ht l s Hl. pose proof (lookup_lt_Some _ _ _ Hl). rewrite list_lookup_insert_ne by lia. by apply He.
Qed.

Lemma extends_app h' x : extends h h' → extends h (h' ++ x).
Proof. intros He l s Hl. destruct (He _ _ Hl) as [E|E]; [left|right]; by apply lookup_app_l_Some. Qed.

Definition parts_exist (s : schema) : bool :=
  let props := default [] (s_properties s) in
  forallb (λ kl, is_some (h !! kl.2)) props && bool_decide (NoDup (map fst props)).

Lemma add_properties_spec a t st sa tr : extends h (st_heap st) → h !! a = Some sa → st_heap st !! t = Some tr →
  parts_exist sa = true →
  add_properties includeReadOnly includeWriteOnly a t st = Ok (tt,
    match s_properties sa with
    | None => st
    | Some props =>
        let q := default [] (s_properties tr) in
        SState (<[t := with_properties tr (Some (q ++ filter (λ kl, kl.1 ∉ map fst q) (shown_props props)))]> (st_heap st))
          (st_ticks st)
    end).
Proof.
  intros He Ha Ht Hp. destruct (fetched _ _ _ _ He Ha) as (sa' & ty & Ha' & -> & _). unfold add_properties.
  rewrite (sm_bind _ _ _ _ _ (get_ok _ _ _ Ha')). change (s_properties (retyped sa ty)) with (s_properties sa).
  destruct (s_properties sa) as [props|] eqn:Ep; [|done]. rewrite (sm_bind _ _ _ _ _ (get_ok _ _ _ Ht)).
  unfold parts_exist in Hp. rewrite Ep, andb_true_iff, forallb_forall, bool_decide_eq_true in Hp. destruct Hp as [Hp Hnd].
  rewrite (sm_bind _ _ _ _ _ (lift_properties_spec props _ st He ltac:(apply Forall_forall; intros kl Hin%list_elem_of_In;
    apply Hp in Hin; by destruct (h !! kl.2)) Hnd)). done.
Qed.

(** * The joined schema *)

(** The parts of a schema into which nothing was joined. *)
Definition blank (t : schema) : Prop :=
  s_kw t = no_keywords ∧ s_required t = None ∧ s_properties t = None ∧ s_items t = None ∧ s_additionalProperties t = NoAdditional.

(** What becomes of [t] when [sa] is joined in; the format and the additional properties are lost. *)
Definition copied (sa t : schema) (items : option loc) : schema :=
  Schema (s_kw sa) (s_format t) (lift_required (s_required sa) None) (shown_props <$> s_properties sa) NoAdditional items
    (s_oneOf t) (s_anyOf t) (s_deprecated t) (s_readOnly t) (s_writeOnly t).

Fixpoint is_copy (heap : list schema) (n : nat) (a t : loc) (tr : schema) : Prop :=
  match n with
  | O => False
  | S n => ∃ sa items, h !! a = Some sa ∧ heap !! t = Some (copied sa tr items) ∧
      match s_items sa, items with
      | None, None => True
      | Some oi, Some ti => (length h ≤ ti)%nat ∧ is_copy heap n oi ti empty_schema
      | _, _ => False
      end
  end.

(** The schemas joined in name their types and their parts exist, along the items. *)
Fixpoint liftable (n : nat) (a : loc) : bool :=
  match n, h !! a with
  | S n, Some sa => names_type (s_kw sa) && parts_exist sa &&
                    match s_items sa with Some i => liftable n i | None => true end
  | _, _ => false
  end.

Lemma named_touched s : names_type (s_kw s) = true → touched s = s.
Proof. intros H. unfold touched, recover_type. by rewrite H. Qed.

Lemma named_lookup h' a sa : extends h h' → h !! a = Some sa → names_type (s_kw sa) = true → h' !! a = Some sa.
Proof. intros He Ha Hn. destruct (He _ _ Ha) as [E|E]; [done|]. by rewrite named_touched in E. Qed.

(** The first steps: keywords, required names and properties. *)
Definition joined (sa tr : schema) : schema := copied sa tr None.

Lemma lift_head fuel a t st sa tr : extends h (st_heap st) → h !! a = Some sa → names_type (s_kw sa) = true →
  parts_exist sa = true → st_heap st !! t = Some tr → blank tr → (length h ≤ t)%nat →
  let st1 := SState (<[t := joined sa tr]> (st_heap st)) (st_ticks st) in
  lift (S fuel) a t st =
    match s_items sa with
    | None => Ok (tt, st1)
    | Some oi => let ti := length (st_heap st) in
        lift fuel oi ti (SState (<[t := copied sa tr (Some ti)]> (st_heap st ++ [empty_schema])) (st_ticks st))
    end.
Proof.
  intros He Ha Hn Hp Ht (Hkw & Hr & Hps & Hi & Had) Hle st1. pose proof (named_lookup _ _ _ He Ha Hn) as Ha'.
  pose proof (lookup_lt_Some _ _ _ Ht) as Hlt.
  cbn [liftSampleHelper]. rewrite (sm_bind _ _ _ _ _ (get_ok _ _ _ Ha')), (sm_bind _ _ _ _ _ (get_ok _ _ _ Ht)).
  rewrite Hkw, Hr, lift_keywords_empty, Hi.
  set (T1 := with_required (with_kw tr (s_kw sa)) (lift_required (s_required sa) None)).
  set (stp := SState (<[t := T1]> (st_heap st)) (st_ticks st)). erewrite (sm_bind _ _ st tt stp) by done.
  assert (Ht1 : st_heap stp !! t = Some T1) by (by apply list_lookup_insert_eq).
  assert (add_properties includeReadOnly includeWriteOnly a t stp = Ok (tt, st1)) as Hadd.
  { rewrite (add_properties_spec a t stp sa T1); [|by apply extends_above|done|done|done].
    do 2 f_equal. subst st1 stp T1. unfold joined, copied, with_properties, with_required, with_kw. cbn.
    rewrite Hps, Had, Hi. destruct (s_properties sa) as [props|]; cbn; [|done].
    rewrite list_insert_insert_eq. do 4 f_equal. apply filter_all. intros x _. by intros ?%elem_of_nil. }
  rewrite (sm_bind _ _ _ _ _ Hadd). destruct (s_items sa) as [oi|]; [|done]. cbv zeta.
  assert (Hl1 : length (st_heap st1) = length (st_heap st)) by apply length_insert.
  erewrite (sm_bind _ _ st1 (length (st_heap st)) (SState (<[t := copied sa tr (Some (length (st_heap st)))]> (st_heap st ++ [empty_schema])) (st_ticks st))); [done|].
  set (st2 := SState (st_heap st1 ++ [empty_schema]) (st_ticks st)).
  erewrite (sm_bind _ _ st1 (length (st_heap st)) st2) by (unfold new; by rewrite Hl1).
  assert (Ht2 : st_heap st2 !! t = Some (joined sa tr)).
  { apply lookup_app_l_Some. by apply list_lookup_insert_eq. }
  rewrite (sm_bind _ _ _ _ _ (get_ok _ _ _ Ht2)).
  erewrite (sm_bind _ _ st2 tt) by done. unfold mret, SM_ret. do 3 f_equal. cbn [st_heap st2].
  rewrite insert_app_l by (by rewrite Hl1). cbn [st1 st_heap]. rewrite list_insert_insert_eq.
  by rewrite insert_app_l.
Qed.

Lemma lift_copy : ∀ n fuel a t st tr, (n ≤ fuel)%nat → liftable n a = true → extends h (st_heap st) →
  (length h ≤ t)%nat → st_heap st !! t = Some tr → blank tr →
  ∃ st', lift fuel a t st = Ok (tt, st') ∧ extends h (st_heap st') ∧
    (∀ k x, st_heap st !! k = Some x → k ≠ t → st_heap st' !! k = Some x) ∧ is_copy (st_heap st') n a t tr.
Proof.
  induction n as [|n IH]; intros fuel a t st tr Hf Hl He Hle Ht Hb; [done|]. destruct fuel as [|fuel]; [lia|].
  cbn [liftable] in Hl. destruct (h !! a) as [sa|] eqn:Ha; [|done]. rewrite !andb_true_iff in Hl.
  destruct Hl as [[Hn Hp] Hi]. rewrite (lift_head _ _ _ _ sa tr) by done.
  pose proof (lookup_lt_Some _ _ _ Ht) as Hlt. cbn [is_copy].
  destruct (s_items sa) as [oi|] eqn:Ei.
  - set (ti := length (st_heap st)). set (hp := <[t := copied sa tr (Some ti)]> (st_heap st ++ [empty_schema])).
    assert (Hti : hp !! ti = Some empty_schema).
    { unfold hp. rewrite list_lookup_insert_ne by lia. by apply list_lookup_middle. }
    assert (length h ≤ ti)%nat by lia.
    destruct (IH fuel oi ti (SState hp (st_ticks st)) empty_schema) as (st' & E & He' & Hk & Hc); try done; [lia| |].
    { apply extends_above; [|done]. by apply extends_app. }
    exists st'. split_and!; [done|done| |].
    + intros k x Hx Hne. pose proof (lookup_lt_Some _ _ _ Hx). apply Hk; [|lia]. cbn [st_heap]. unfold hp.
      rewrite list_lookup_insert_ne by done. by apply lookup_app_l_Some.
    + exists sa, (Some ti). rewrite Ei. split_and!; [done| |done|done]. apply Hk; [|lia]. cbn [st_heap]. unfold hp.
      apply list_lookup_insert_eq. rewrite length_app. lia.
  - eexists. split_and!; [done|by apply extends_above| |].
    + intros k x Hx Hne. cbn [st_heap]. by rewrite list_lookup_insert_ne.
    + exists sa, None. rewrite Ei. split_and!; [done| |done]. by apply list_lookup_insert_eq.
Qed.

(** * Values of the joined schema *)

Lemma copied_required sa tr items : supported_object includeReadOnly includeWriteOnly h sa = true →
  default [] (s_required (copied sa tr items)) = default [] (s_required sa).
Proof.
  unfold supported_object. rewrite !andb_true_iff, !bool_decide_eq_true. intros [[[[[_ HR] _] _] _] _].
  cbn [copied s_required]. destruct (s_required sa) as [r|]; [|done]. cbn. by apply (foldl_push []).
Qed.

Lemma copied_properties sa tr items : default [] (s_properties (copied sa tr items)) = shown_props (default [] (s_properties sa)).
Proof. cbn [copied s_properties]. by destruct (s_properties sa). Qed.

Lemma shown_shown props : shown_props (shown_props props) = shown_props props.
Proof. by apply list_filter_filter_l. Qed.

Lemma forallb_sub {A} (f : A → bool) l k : l `sublist_of` k → forallb f k = true → forallb f l = true.
Proof.
  intros Hs Hk. rewrite forallb_forall in *. intros x Hx%list_elem_of_In. apply Hk, list_elem_of_In.
  by eapply elem_of_sublist.
Qed.

Lemma copied_supported_object sa tr items : supported_object includeReadOnly includeWriteOnly h sa = true →
  supported_object includeReadOnly includeWriteOnly h (copied sa tr items) = true.
Proof.
  intros Hs. pose proof (copied_required sa tr items Hs) as HR. unfold supported_object in *.
  rewrite HR, copied_properties. fold (shown_props (shown_props (default [] (s_properties sa)))).
  fold (shown_props (default [] (s_properties sa))) in Hs.
  rewrite !andb_true_iff, !bool_decide_eq_true in *. destruct Hs as [[[[[H1 H2] H3] H4] H5] H6].
  pose proof (sublist_filter (λ kl, showing kl.2 = true) (default [] (s_properties sa))) as Hsub.
  split_and!; try done.
  - apply (sublist_NoDup _ _ H1), (fmap_sublist fst), Hsub.
  - by rewrite shown_shown.
  - by rewrite shown_shown.
  - by apply (forallb_sub _ _ _ Hsub).
Qed.

Lemma copied_object_valid sa tr items part fs : supported_object includeReadOnly includeWriteOnly h sa = true →
  object_valid includeReadOnly includeWriteOnly h part (copied sa tr items) fs = true →
  object_valid includeReadOnly includeWriteOnly h part sa fs = true.
Proof.
  intros Hs. pose proof (copied_required sa tr items Hs) as HR. unfold object_valid. rewrite HR.
  change (s_kw (copied sa tr items)) with (s_kw sa). rewrite !andb_true_iff, !forallb_forall.
  intros ([[[H1 H2] H3] H4] & H5). split_and!; try done. intros kv Hkv. specialize (H5 kv Hkv).
  unfold field_valid in *. rewrite copied_properties in H5. cbn [copied s_additionalProperties] in H5.
  destruct (aget (shown_props _) kv.1) as [p|] eqn:E; [|done].
  apply aget_In, list_elem_of_filter in E as [_ Hin].
  unfold supported_object in Hs. rewrite !andb_true_iff, !bool_decide_eq_true in Hs.
  by rewrite (aget_nodup _ _ p) by (done || tauto).
Qed.

Lemma named_type s b : names_type (s_kw s) = true → recover_type b s = (k_type (s_kw s), s).
Proof. intros H. unfold recover_type. by rewrite H. Qed.

(** The three kinds of values, for a schema that was joined into another one. *)
Lemma copied_body n fuel a sa tr items st : (n ≤ fuel)%nat → h !! a = Some sa → names_type (s_kw sa) = true →
  is_plain sa = false → is_supported (S n) a = true → extends h (st_heap st) →
  (∀ oi, s_items sa = Some oi → is_supported n oi = true → ∃ ti it v st', items = Some ti ∧ st_heap st !! ti = Some it ∧
    no_alternatives it ∧ generic fuel (Some ti) JUndef st = Ok (v, st') ∧ is_valid n oi v = true ∧ extends h (st_heap st')) →
  let ty := k_type (s_kw sa) in let s := copied sa tr items in
  let sample := λ l, generic fuel (Some l) JUndef in
  ∃ v st', (if type_is ty "object" then sample_object includeReadOnly includeWriteOnly sample s
            else if type_is ty "array" then sample_array includeReadOnly includeWriteOnly sample fuel s
            else sample_primitive clock ty s) st = Ok (v, st') ∧
    is_valid (S n) a v = true ∧ extends h (st_heap st').
Proof.
  intros Hf Ha Hn Hp Hs He Hitems ty s sample. cbn [supported] in Hs. rewrite Ha, Hp, !andb_true_iff in Hs.
  destruct Hs as [_ Hs]. cbn [valid]. rewrite Ha. unfold type_of in *. rewrite named_type in * by done. cbn [fst] in *. fold ty in Hs |- *.
  destruct (type_is ty "object") eqn:Eo; [|destruct (type_is ty "array") eqn:Ea].
  - rewrite !andb_true_iff in Hs. destruct Hs as [[[Hen Hso] Hps] _].
    pose proof (λ l st, sampling_valid clock includeReadOnly includeWriteOnly clock_text h n fuel l st Hf) as Hsample. fold sample in Hsample.
    edestruct (sample_object_valid clock includeReadOnly includeWriteOnly clock_text h n sample Hsample s) with (st := st)
      as (fs & st' & E & Hv & He'); [| | | |done|].
    + unfold s. rewrite copied_required by done. unfold supported_object in Hso. rewrite !andb_true_iff, !bool_decide_eq_true in Hso. tauto.
    + by apply copied_supported_object.
    + unfold s. rewrite copied_properties. rewrite forallb_forall in Hps. apply Forall_forall.
      intros kl [Hsh Hin%list_elem_of_In]%list_elem_of_filter. apply Hps in Hin.
      rewrite andb_true_iff, orb_true_iff, negb_true_iff in Hin. destruct Hin as [H1 H2].
      split; [by destruct (h !! kl.2)|]. intros _. destruct H2; congruence.
    + done.
    + exists (JObj fs), st'. split_and!; [exact E| |done]. destruct (k_enum (s_kw sa)); [done|]. by eapply copied_object_valid.
  - rewrite !andb_true_iff in Hs. destruct Hs as [[Hen Hlen] Hit].
    destruct (s_items sa) as [oi|] eqn:Ei; [|done]. rewrite andb_true_iff in Hit. destruct Hit as [Hsi _].
    destruct (Hitems oi eq_refl Hsi) as (ti & it & v & st' & -> & Hti & Hna & E & Hv & He').
    destruct (sample_array_step includeReadOnly includeWriteOnly sample fuel s st ti it v st' eq_refl Hti Hna E Hlen) as (vs & E' & Hvs).
    exists (JArr vs), st'. split_and!; [exact E'| |done]. destruct (k_enum (s_kw sa)); [done|].
    specialize (Hvs (λ _, is_valid n oi) Hv). unfold array_valid in *. by rewrite Ei.
  - destruct (sample_primitive_valid clock clock_text s ty st Hs) as (v & st' & E & Hh & Hen & Hv).
    change (retyped s ty) with (retyped s (k_type (s_kw s))) in E. rewrite retyped_id in E.
    exists v, st'. split_and!; [exact E| |by rewrite Hh]. change (s_kw s) with (s_kw sa) in Hen, Hv. by rewrite Hen, Hv.
Qed.

Lemma copy_sampled : ∀ n fuel a t st tr, (n ≤ fuel)%nat → liftable n a = true → is_supported n a = true →
  extends h (st_heap st) → (length h ≤ t)%nat → is_copy (st_heap st) n a t tr → no_alternatives tr →
  ∃ v st', generic fuel (Some t) JUndef st = Ok (v, st') ∧ is_valid n a v = true ∧ extends h (st_heap st').
Proof.
  induction n as [|n IH]; intros fuel a t st tr Hf Hl Hs He Hle Hc Hna; [done|]. destruct fuel as [|fuel]; [lia|].
  destruct Hc as (sa & items & Ha & Ht & Hi). cbn [liftable] in Hl. rewrite Ha, !andb_true_iff in Hl. destruct Hl as [[Hn _] Hli].
  rewrite (generic_step clock _ _ (st_heap st) fuel t st (copied sa tr items) (extends_refl _) Ht) by (right; exact Hna).
  cbv zeta. rewrite (named_touched (copied sa tr items)) by done. destruct st as [hp tk]. cbn [st_heap st_ticks] in *.
  match goal with |- context [SState ?x tk] => replace x with hp by (symmetry; by apply list_insert_id) end.
  change (is_plain (copied sa tr items)) with (is_plain sa). rewrite (named_type (copied sa tr items)) by done. cbn [fst].
  destruct (is_plain sa) eqn:Ep.
  - eexists _, _. split_and!; [done| |done]. cbn [supported] in Hs. rewrite Ha, Ep in Hs.
    unfold plain_sample in *. rewrite (named_type (copied sa tr items)) by done. by rewrite (named_type sa) in Hs by done.
  - apply (copied_body n fuel a sa tr items); [lia|done..|]. intros oi Ei Hsi. rewrite Ei in Hi, Hli.
    destruct items as [ti|]; [|done]. destruct Hi as [Hlti Hc]. pose proof Hc as Hc'. destruct n as [|n']; [done|].
    destruct Hc' as (so & its & _ & Hti & _).
    destruct (IH fuel oi ti (SState hp tk) empty_schema) as (v & st' & E & Hv & He'); try done; [lia|].
    exists ti, (copied so empty_schema its), v, st'. by split_and!.
Qed.

(** Joining a second time adds nothing. *)
Lemma add_properties_again a t st sa tr items : extends h (st_heap st) → h !! a = Some sa → parts_exist sa = true →
  st_heap st !! t = Some (copied sa tr items) → add_properties includeReadOnly includeWriteOnly a t st = Ok (tt, st).
Proof.
  intros He Ha Hp Ht. rewrite (add_properties_spec a t st sa (copied sa tr items)) by done.
  do 2 f_equal. destruct st as [hp tk]. cbn [st_heap st_ticks] in *. rewrite copied_properties.
  destruct (s_properties sa) as [props|] eqn:Ep; [|done]. cbn [default from_option id]. f_equal.
  assert (filter (λ kl : string * loc, kl.1 ∉ map fst (shown_props props)) (shown_props props) = []) as ->.
  { apply elem_of_nil_inv. intros kl [Hn Hin]%list_elem_of_filter. apply Hn, list_elem_of_fmap. by exists kl. }
  rewrite app_nil_r. apply list_insert_id. etransitivity; [exact Ht|]. f_equal.
  unfold copied, with_properties. cbn. by rewrite Ep.
Qed.

Lemma combine_alternative n fuel a l st s : (n ≤ fuel)%nat → liftable n a = true → extends h (st_heap st) →
  (length h ≤ l)%nat → st_heap st !! l = Some s → blank s → first_alternative s = Some a →
  ∃ sa st', h !! a = Some sa ∧ combine includeReadOnly includeWriteOnly fuel l JUndef st = Ok (defined (k_example (s_kw sa)), st') ∧
    extends h (st_heap st') ∧ is_copy (st_heap st') n a l s.
Proof.
  intros Hf Hl He Hle Hs Hb Hfirst. destruct n as [|n]; [done|].
  destruct (lift_copy (S n) fuel a l st s) as (st1 & E & He1 & _ & Hc); try done.
  pose proof Hc as (sa & items & Ha & Hcl & _). cbn [liftable] in Hl. rewrite Ha, !andb_true_iff in Hl.
  destruct Hl as [[Hn Hp] _]. pose proof (named_lookup _ _ _ He1 Ha Hn) as Ha1.
  exists sa, st1. split_and!; try done. unfold combine. rewrite (sm_bind _ _ _ _ _ (get_ok _ _ _ Hs)).
  destruct Hb as (-> & _). cbn [defined k_example k_default no_keywords orb]. rewrite Hfirst.
  rewrite (sm_bind _ _ _ _ _ E), (sm_bind _ _ _ _ _ (get_ok _ _ _ Hcl)), (sm_bind _ _ _ _ _ (get_ok _ _ _ Ha1)).
  change (s_kw (copied sa s items)) with (s_kw sa). rewrite andb_negb_l, andb_diag.
  erewrite (sm_bind _ _ st1 tt st1) by done. destruct (defined (k_example (s_kw sa))); [done|].
  by rewrite (sm_bind _ _ _ _ _ (add_properties_again _ _ _ _ _ _ He1 Ha Hp Hcl)).
Qed.

Lemma alternative_sampled n fuel a l st s : (n ≤ fuel)%nat → liftable n a = true → is_supported n a = true →
  (∀ sa, h !! a = Some sa → k_default (s_kw sa) = JUndef) → extends h (st_heap st) →
  (length h ≤ l)%nat → st_heap st !! l = Some s → blank s → first_alternative s = Some a →
  ∃ v st', generic (S fuel) (Some l) JUndef st = Ok (v, st') ∧ is_valid n a v = true ∧ extends h (st_heap st').
Proof.
  intros Hf Hl Hsa Hd He Hle Hs Hb Hfirst.
  destruct (combine_alternative n fuel a l st s) as (sa & st1 & Ha & E & He1 & Hc); try done.
  destruct n as [|n]; [done|]. destruct Hc as (sa' & items & Ha' & Hcl & Hi). simplify_eq.
  cbn [liftable] in Hl. rewrite Ha, !andb_true_iff in Hl. destruct Hl as [[Hn _] Hli]. specialize (Hd sa Ha).
  cbn [sampleFromSchemaGeneric]. rewrite (sm_bind _ _ _ _ _ E), (sm_bind _ _ _ _ _ (get_ok _ _ _ Hcl)).
  rewrite (named_type (copied sa s items)) by done. destruct st1 as [hp tk]. cbn [st_heap] in *.
  erewrite (sm_bind _ _ (SState hp tk) tt (SState hp tk)).
  2: { unfold put. do 3 f_equal. by apply list_insert_id. }
  change (s_kw (copied sa s items)) with (s_kw sa).
  assert (is_plain sa = defined (k_example (s_kw sa))) as Hpl by (unfold is_plain; by rewrite Hd, orb_false_r).
  destruct (defined (k_example (s_kw sa))) eqn:Ex.
  - eexists _, _. split_and!; [done| |done]. cbn [supported] in Hsa. rewrite Ha, Hpl in Hsa.
    unfold plain_sample in Hsa. rewrite (named_type sa), Ex in Hsa by done. exact Hsa.
  - apply (copied_body n fuel a sa s items); [lia|done..|]. intros oi Ei Hsi. rewrite Ei in Hi, Hli.
    destruct items as [ti|]; [|done]. destruct Hi as [Hlti Hc]. pose proof Hc as Hc'. destruct n as [|n']; [done|].
    destruct Hc' as (so & its & _ & Hti & _).
    destruct (copy_sampled (S n') fuel oi ti (SState hp tk) empty_schema) as (v & st' & E' & Hv & He'); try done; [lia|].
    exists ti, (copied so empty_schema its), v, st'. by split_and!.
Qed.
End Alternatives.

(** C13: a schema that only lists alternatives is shown by a value that is valid for the first of them, as
    long as that alternative is [supported], names its type (and those of its items) and has no default of
    its own: joining it into the schema keeps its bounds, required names, shown properties and items. *)
Theorem first_alternative_valid clock includeReadOnly includeWriteOnly h n fuel a l s st :
  (∀ t, (24 ≤ String.length (clock t))%nat) → (n ≤ fuel)%nat → extends h (st_heap st) →
  (length h ≤ l)%nat → st_heap st !! l = Some s → blank s → first_alternative s = Some a →
  liftable h n a = true → supported includeReadOnly includeWriteOnly h n a = true →
  (∀ sa, h !! a = Some sa → k_default (s_kw sa) = JUndef) →
  ∃ v st', sampleFromSchema clock includeReadOnly includeWriteOnly (S fuel) (Some l) JUndef st = Ok (v, st') ∧
    valid includeReadOnly includeWriteOnly h n a v = true ∧ extends h (st_heap st').
Proof. intros. by apply (alternative_sampled clock includeReadOnly includeWriteOnly) with (s := s). Qed.

(** A list of at least two objects, first of two alternatives. *)
Definition list_heap : list schema :=
  [ typed "string"; object_of [("name", 0)] (Some ["name"]);
    with_items (with_kw empty_schema (Keywords JUndef JUndef None JUndef (Some "array") None None (Some 2%Z) None None None None None None None)) (Some 1) ].

Lemma first_alternative_valid_witness :
  sampled (list_heap ++ [one_of empty_schema [2; 0]]) 3 =
    Ok (JArr [JObj [("name", JStr "string")]; JObj [("name", JStr "string")]]) ∧
  ∃ v st', sampleFromSchema noon false true 10 (Some 3) JUndef (SState (list_heap ++ [one_of empty_schema [2; 0]]) 0) = Ok (v, st') ∧
    valid false true list_heap 3 2 v = true ∧ extends list_heap (st_heap st').
Proof.
  split; [vm_compute; reflexivity|].
  apply (first_alternative_valid noon false true list_heap 3 9 2 3 (one_of empty_schema [2; 0])).
  - intros t. vm_compute. lia.
  - lia.
  - apply extends_app, extends_refl.
  - vm_compute. lia.
  - reflexivity.
  - split_and!; reflexivity.
  - reflexivity.
  - vm_compute. reflexivity.
  - vm_compute. reflexivity.
  - intros sa [= <-]. reflexivity.
Defined.
