(* ===== verification/SwResolve.v ===== *)
(** Loading and resolving a definition (core/plugins/spec/actions.js and wrap-actions.js): the text is stored
    and parsed, the parsed definition replaces the old one, and the parts that contain references are
    requested. Requests are collected in one array of the module; 35 ms after the last one a run resolves
    the whole array, one path after the other, and then replaces the resolved parts in the store.

    Timers, answers of the resolver and requests of the page come in any order; [handle] is the effect of
    one such event. YAML.safeLoad and resolveSubtree are not part of the sources: the first is a
    parameter, the answers of the second are events. *)

From S2P Require Import Prelude JsValue Json JsString SwErr SwAuth SwStore SwValidate SwImmutable SwSpec SwExecute.

(** * lodash set *)

(** [set(object, path, value)] on plain objects: what is not an object on the way is replaced, and an
    empty path changes nothing. The names on the path are not array indices; an array on the way takes
    no named fields. *)
Fixpoint lset_at (v : jsval) (path : list string) (x : jsval) : jsval :=
  match path with
  | [] => x
  | k :: r =>
      match v with
      | JObj fs => JObj (oset fs k (lset_at (default (JObj []) (assoc fs k)) r x))
      | JArr l => JArr l
      | _ => JObj [(k, lset_at (JObj []) r x)]
      end
  end.

Definition lset (v : jsval) (path : list string) (x : jsval) : jsval :=
  match path with [] => v | _ => lset_at v path x end.

(** * State *)

(** [requestBatch] and its property [system]. *)
Record batch := Batch { b_paths : list (list string); b_system : bool }.

(** An invocation of the debounced function: the paths of the array that are still to resolve, the objects that the steps of the reduce pass on, the text read at the start, and the part
    that waits for OpenID data. *)
Record run := Run {
  todo : list (list string);
  resultMap : jsval;
  specWithCurrentSubtrees : jsval;
  specStr0 : string;
  awaiting : option jsval;
}.

(** The branches spec and err of the store, the array of the module, whether the debounced function is
    due, and its unfinished invocations. *)
Record rpage := RPage {
  r_spec : jsval;
  r_err : err_state;
  r_batch : batch;
  r_timer : bool;
  r_runs : list run;
}.

Definition with_spec (st : rpage) (s : jsval) : rpage :=
  RPage s (r_err st) (r_batch st) (r_timer st) (r_runs st).
Definition with_err (st : rpage) (e : err_state) : rpage :=
  RPage (r_spec st) e (r_batch st) (r_timer st) (r_runs st).
Definition with_runs (st : rpage) (rs : list run) : rpage :=
  RPage (r_spec st) (r_err st) (r_batch st) (r_timer st) rs.

Definition specStr (spec : jsval) : string := match lookIn spec ["spec"] with Some (JStr s) => s | _ => "" end.
Definition specResolvedSubtree (spec : jsval) (path : list string) : option jsval := lookIn spec ("resolvedSubtrees" :: path).

Definition updateResolvedSubtree (st : rpage) (path : list string) (value : jsval) : rpage :=
  with_spec st (reduced (r_spec st) (UPDATE_RESOLVED_SUBTREE (r_spec st) path value)).
Definition invalidateResolvedSubtreeCache (st : rpage) : rpage := updateResolvedSubtree st [] (JObj []).

(** * Requests *)

Definition path_key (path : list string) : string := join "@@" path.

Definition requestResolvedSubtree (path : list string) (st : rpage) : rpage :=
  if bool_decide (path_key path ∈ map path_key (b_paths (r_batch st))) then st
  else RPage (r_spec st) (r_err st) (Batch (b_paths (r_batch st) ++ [path]) true) true (r_runs st).

(** The array as it is before any request. *)
Definition no_batch : batch := Batch [] false.

(** * A run *)

(** [(specSelectors.specResolvedSubtree([]) || Map()).toJS()] *)
Definition resolved_now (spec : jsval) : jsval :=
  match specResolvedSubtree spec [] with Some v => if truthy v then v else JObj [] | None => JObj [] end.

(** The timer is due. Without a system nothing is done. *)
Definition debResolveSubtrees (st : rpage) : rpage :=
  let st := RPage (r_spec st) (r_err st) (r_batch st) false (r_runs st) in
  if b_system (r_batch st)
  then with_runs st (r_runs st ++ [Run (b_paths (r_batch st)) (resolved_now (r_spec st)) (specJson (r_spec st))
                                       (specStr (r_spec st)) None])
  else st.

(** The filter of clearBy: errors of the resolver within the path go. *)
Definition within_path (fullPath : list jsval) (path : list string) : bool :=
  forallb id (imap (λ i key, match path !! i with Some k => strict_eq key (JStr k) | None => true end) fullPath).

Definition keep_error (path : list string) (err : fields) : result bool :=
  let field k := default JUndef (assoc err k) in
  if negb (strict_eq (field "type") (JStr "thrown")) then Ok true
  else if negb (strict_eq (field "source") (JStr "resolver")) then Ok true
  else match field "fullPath" with
       | JArr keys => Ok (negb (within_path keys path))
       | JUndef | JNull => Throw (cannot_read (field "fullPath") "every")
       | v => Throw (not_a_function v "every")
       end.

(** [if(errSelectors.allErrors().size) errActions.clearBy(...)]; a reducer that throws changes nothing. *)
Definition clear_path (path : list string) (st : err_state) : err_state :=
  match allErrors st, mapM (keep_error path) (allErrors st) with
  | _ :: _, Ok _ =>
      default st (wrapWithTryCatch (CLEAR_BY st (Some (λ err, match keep_error path err with Ok b => b | _ => false end))))
  | _, _ => st
  end.

Section Resolve.
(** The position of a path in the text, provided by Swagger Editor only. *)
Variable getLineNumberForPath : string → jsval → jsval.

Definition prepared (text : string) (err : fields) : jsval :=
  let fullPath := default JUndef (assoc err "fullPath") in
  let names := match fullPath with JArr l => join "." (map to_string l) | v => to_string v end in
  let err := oset err "line" (if truthy fullPath then getLineNumberForPath text fullPath else JNull) in
  let err := oset err "path" (if truthy fullPath then JStr names else JNull) in
  let err := oset err "level" (JStr "error") in
  let err := oset err "type" (JStr "thrown") in
  JObj (oset err "source" (JStr "resolver")).

Definition report (text : string) (path : list string) (errors : list fields) (st : err_state) : err_state :=
  let st := clear_path path st in
  match errors with [] => st | _ => NEW_THROWN_ERR_BATCH st (map (prepared text) errors) end.

(** ** OpenID *)

Definition is_oidc (scheme : jsval) : result bool :=
  t ← getp scheme "type"; Ok (strict_eq t (JStr "openIdConnect")).

(** What one discovery request gave: the text of a successful response, or nothing. *)
Definition oidc_data (answer : option string) (scheme : jsval) : jsval :=
  match answer, scheme with
  | Some text, JObj fs => match Json.parse (JStr text) with
                          | Ok data => JObj (oset fs "openIdConnectData" data)
                          | _ => scheme
                          end
  | _, _ => scheme
  end.

(** The fields of [spec] with the answers for the schemes of type openIdConnect, in their order. *)
Fixpoint add_oidc (fs : fields) (answers : list (option string)) : fields :=
  match fs with
  | [] => []
  | (k, scheme) :: r =>
      match is_oidc scheme, answers with
      | Ok true, a :: rest => (k, oidc_data a scheme) :: add_oidc r rest
      | _, _ => (k, scheme) :: add_oidc r answers
      end
  end.

Definition with_oidc (spec : jsval) (answers : list (option string)) : jsval :=
  match spec with JObj fs => JObj (add_oidc fs answers) | v => v end.

(** [Object.values(spec).filter(...)] *)
Definition oidc_schemes (spec : jsval) : result (list bool) :=
  match spec with JObj fs => mapM (λ kv, is_oidc kv.2) fs | _ => Ok [] end.

Definition resolves_schemes (st : rpage) (spec : jsval) (path : list string) : bool :=
  truthy spec && isOAS3 (r_spec st) && bool_decide (take 2 path = ["components"; "securitySchemes"]).

(** ** Steps *)

(** After the last path the array is emptied and the store gets the results. *)
Definition finished (i : nat) (r : run) (st : rpage) : rpage :=
  let st := RPage (r_spec st) (r_err st) no_batch (r_timer st) (delete i (r_runs st)) in
  updateResolvedSubtree st [] (resultMap r).

(** An invocation that fails logs the exception and ends with another one, for the missing result. *)
Definition failed (i : nat) (st : rpage) : rpage := with_runs st (delete i (r_runs st)).

(** The end of a step: both objects get the part. *)
Definition store_part (i : nat) (r : run) (spec : jsval) (st : rpage) : rpage :=
  match todo r with
  | [] => finished i r st
  | path :: rest =>
      let r := Run rest (lset (resultMap r) path spec) (lset (specWithCurrentSubtrees r) path spec)
                   (specStr0 r) None in
      match rest with [] => finished i r st | _ => with_runs st (<[i := r]> (r_runs st)) end
  end.

(** [resolveSubtree] has answered for the first of the paths. *)
Definition answered (i : nat) (errors : list fields) (spec : jsval) (st : rpage) : option rpage :=
  match r_runs st !! i with
  | Some (Run (path :: rest) rm sp text None as r) =>
      let st := with_err st (report text path errors (r_err st)) in
      if resolves_schemes st spec path then
        match oidc_schemes spec with
        | Ok flags => Some (if existsb id flags
                            then with_runs st (<[i := Run (path :: rest) rm sp text (Some spec)]> (r_runs st))
                            else store_part i r spec st)
        | _ => Some (failed i st)
        end
      else Some (store_part i r spec st)
  | _ => None
  end.

(** All discovery requests have settled. *)
Definition oidc_answered (i : nat) (answers : list (option string)) (st : rpage) : option rpage :=
  match r_runs st !! i with
  | Some (Run td rm sp text (Some spec)) =>
      Some (store_part i (Run td rm sp text None) (with_oidc spec answers) st)
  | _ => None
  end.

(** [resolveSubtree] has thrown. *)
Definition rejected (i : nat) (st : rpage) : option rpage :=
  match r_runs st !! i with
  | Some (Run (_ :: _) _ _ _ None) => Some (failed i st)
  | _ => None
  end.

(** * Definitions *)

(** The paths with a reference of their own; an entry without fields ends the action with an exception. *)
Fixpoint request_refs (paths : list (string * jsval)) (st : rpage) : bool * rpage :=
  match paths with
  | [] => (true, st)
  | (k, val) :: r =>
      match getp val "$ref" with
      | Ok ref => request_refs r (if truthy ref then requestResolvedSubtree ["paths"; k] st else st)
      | _ => (false, st)
      end
  end.

(** [Object.keys(get(json, ["paths"]) || {})] with their values. *)
Definition path_items (json : jsval) : list (string * jsval) :=
  match own json "paths" with Some (JObj fs) => fs | Some (JArr l) => indexed l | _ => [] end.

(** The wrapped updateJsonSpec. *)
Definition updateJsonSpec (json : jsval) (st : rpage) : rpage :=
  let st := with_spec st (reduced (r_spec st) (UPDATE_JSON (r_spec st) json)) in
  let st := invalidateResolvedSubtreeCache st in
  let '(ok, st) := request_refs (path_items json) st in
  if ok then requestResolvedSubtree ["components"; "securitySchemes"] st else st.

(** The exceptions of YAML.safeLoad have a reason and the position of the error. *)
Variable safeLoad : string → result jsval.

Definition parser_error (e : jsval) : fields :=
  let line := match own e "mark" with Some m => default JUndef (own m "line") | None => JUndef end in
  [("source", JStr "parser"); ("level", JStr "error"); ("message", default JUndef (own e "reason"));
   ("line", match line with JNum m O => if truthy line then JInt (m + 1) else JUndef | _ => JUndef end)].

Definition parseToJson (str : string) (st : rpage) : rpage :=
  let str := if String.eqb str "" then specStr (r_spec st) else str in
  let st := with_err st (CLEAR (r_err st) (Some [("source", JStr "parser")])) in
  match safeLoad str with
  | Ok json => if match json with JObj _ | JArr _ | JErr _ _ _ => true | _ => false end then updateJsonSpec json st else st
  | Throw e => with_err st (NEW_SPEC_ERR (r_err st) (parser_error e))
  | Hang => st
  end.

(** The wrapped updateSpec: the text that is parsed is the one given, not the one stored. *)
Definition updateSpec (text : string) (st : rpage) : rpage :=
  parseToJson text (with_spec st (reduced (r_spec st) (setIn (Some (r_spec st)) ["spec"] (JStr (cleanSpec text))))).

(** * Events *)

Inductive revent :=
| ERequest (path : list string)
| EDue
| EAnswer (i : nat) (errors : list fields) (spec : jsval)
| EOidc (i : nat) (answers : list (option string))
| EReject (i : nat)
| EOpen (text : string).

(** [None]: the event is not possible in the state. *)
Definition handle (st : rpage) (e : revent) : option rpage :=
  match e with
  | ERequest path => Some (requestResolvedSubtree path st)
  | EDue => if r_timer st then Some (debResolveSubtrees st) else None
  | EAnswer i errors spec => answered i errors spec st
  | EOidc i answers => oidc_answered i answers st
  | EReject i => rejected i st
  | EOpen text => Some (updateSpec text st)
  end.

Fixpoint handles (st : rpage) (es : list revent) : option rpage :=
  match es with [] => Some st | e :: r => st ← handle st e; handles st r end.

(** The page at its start; [url] is the address of the configuration. *)
Definition r_init (url : jsval) : rpage := RPage (spec_init url) err_init no_batch false [].
End Resolve.

(** * Every request is served *)

Section Served.
Variable getLineNumberForPath : string → jsval → jsval.
Variable safeLoad : string → result jsval.
Local Abbreviation hdl := (handle getLineNumberForPath safeLoad).
Local Abbreviation hdls := (handles getLineNumberForPath safeLoad).

(** The paths that the loading of a definition requests. *)
Fixpoint ref_paths (paths : list (string * jsval)) : bool * list (list string) :=
  match paths with
  | [] => (true, [])
  | (k, val) :: r =>
      match getp val "$ref" with
      | Ok ref => let '(ok, ps) := ref_paths r in (ok, if truthy ref then ["paths"; k] :: ps else ps)
      | _ => (false, [])
      end
  end.

Definition requests_of (json : jsval) : list (list string) :=
  let '(ok, ps) := ref_paths (path_items json) in ps ++ (if ok then [["components"; "securitySchemes"]] else []).









Definition batched (st : rpage) (p : list string) : Prop := path_key p ∈ map path_key (b_paths (r_batch st)).











Lemma request_refs_spec fs : ∀ st,
  request_refs fs st = ((ref_paths fs).1, foldl (λ st p, requestResolvedSubtree p st) st (ref_paths fs).2).
Proof.
  induction fs as [|[k v] fs IH]; intros st; [done|]. cbn [request_refs ref_paths].
  destruct (getp v "$ref") as [ref| |]; [|done..]. rewrite IH. destruct (ref_paths fs) as [ok ps]. by destruct (truthy ref).
Qed.

Lemma updateJsonSpec_spec json st : updateJsonSpec json st =
  foldl (λ st p, requestResolvedSubtree p st)
    (invalidateResolvedSubtreeCache (with_spec st (reduced (r_spec st) (UPDATE_JSON (r_spec st) json)))) (requests_of json).
Proof.
  unfold updateJsonSpec, requests_of. rewrite request_refs_spec. destruct (ref_paths (path_items json)) as [ok ps].
  cbn [fst snd]. rewrite foldl_app. by destruct ok.
Qed.













End Served.

(** * What a run writes *)



Lemma lookIn_empty k path : lookIn (JObj []) (k :: path) = None.
Proof. done. Qed.




Lemma diverge_cons k r j q : diverge (k :: r) (j :: q) = if String.eqb k j then diverge r q else true.
Proof. done. Qed.

Lemma diverge_sym p : ∀ q, diverge p q = diverge q p.
Proof.
  induction p as [|k r IH]; intros [|j q]; try done. rewrite !diverge_cons, String.eqb_sym. by destruct (String.eqb j k).
Qed.
















Section Run.
Variable getLineNumberForPath : string → jsval → jsval.
Variable safeLoad : string → result jsval.


End Run.


(** * Loading a definition *)

Lemma foldl_request ps : ∀ st, let st' := foldl (λ st p, requestResolvedSubtree p st) st ps in
  r_spec st' = r_spec st ∧ r_err st' = r_err st ∧ (∀ p, batched st p → batched st' p) ∧ ∀ p, p ∈ ps → batched st' p.
Proof.
  assert (∀ p st, batched (requestResolvedSubtree p st) p ∧ (∀ q, batched st q → batched (requestResolvedSubtree p st) q) ∧
    r_spec (requestResolvedSubtree p st) = r_spec st ∧ r_err (requestResolvedSubtree p st) = r_err st) as H1.
  { intros p st. unfold requestResolvedSubtree, batched. case_bool_decide; [done|]. cbn [r_batch b_paths r_spec r_err].
    rewrite map_app. split_and!; [..|done|done]; [|intros q Hq]; rewrite elem_of_app; [right|by left]. by left. }
  induction ps as [|p ps IH]; intros st; cbn [foldl]; [split_and!; try done; by intros p ?%elem_of_nil|].
  destruct (IH (requestResolvedSubtree p st)) as (E1 & E2 & E3 & E4). destruct (H1 p st) as (F1 & F2 & F3 & F4).
  cbv zeta in *. split_and!; [congruence|congruence|auto|]. intros q [->|Hq]%elem_of_cons; auto.
Qed.

(** Opening a text that parses to an object stores it, replaces the definition, forgets the resolved parts
    of the old one and the errors of the parser, and requests all paths with references of their own
    and the security schemes. *)
Theorem definition_opened safeLoad text json fs st :
  r_spec st = JObj fs → text ≠ "" → safeLoad text = Ok json → is_map json = true →
  let st' := updateSpec safeLoad text st in
  specStr (r_spec st') = cleanSpec text ∧ specJson (r_spec st') = json ∧ specResolvedSubtree (r_spec st') [] = Some (JObj []) ∧
  r_err st' = CLEAR (r_err st) (Some [("source", JStr "parser")]) ∧ ∀ p, p ∈ requests_of json → batched st' p.
Proof.
  intros Hs Ht Hl Hm st'. subst st'. unfold updateSpec, parseToJson. rewrite (proj2 (String.eqb_neq _ _) Ht), Hl.
  destruct json as [| | | | | | |js|]; try done. rewrite updateJsonSpec_spec.
  set (st1 := invalidateResolvedSubtreeCache _). destruct (foldl_request (requests_of (JObj js)) st1) as (E1 & E2 & _ & E4).
  cbv zeta in *. rewrite E1, E2.
  assert (r_spec st1 = JObj (oset (oset (oset fs "spec" (JStr (cleanSpec text))) "json" (JObj js)) "resolvedSubtrees" (JObj []))) as ->.
  { subst st1. unfold invalidateResolvedSubtreeCache, updateResolvedSubtree, with_spec, with_err. cbn [r_spec]. by rewrite Hs. }
  split_and!; [..|done|exact E4].
  - unfold specStr. rewrite lookIn_cons, !assoc_oset_ne, assoc_oset_eq by done. done.
  - unfold specJson. rewrite lookIn_cons, assoc_oset_ne, assoc_oset_eq by done. done.
  - unfold specResolvedSubtree. by rewrite lookIn_cons, assoc_oset_eq.
Qed.

(** * Races *)

(** A run that ends empties the array, also of what was requested since it started: the request is lost. *)
Example request_lost :
  let a := ["paths"; "/a"] in let b := ["paths"; "/b"] in
  option_map (λ st, (r_timer st, length (r_runs st), b_paths (r_batch st), specResolvedSubtree (r_spec st) b))
    (handles (λ _ _, JUndef) (λ _, Ok JNull) (r_init JUndef) [ERequest a; EDue; ERequest b; EAnswer 0 [] (JObj []); EDue]) =
  Some (false, 0%nat, [], None).
Proof. vm_compute. reflexivity. Qed.

(** A run writes all results on top of what was resolved when it started: results written by another run in
    the meantime are lost. *)
Example results_lost :
  let a := ["paths"; "/a"] in let b := ["paths"; "/b"] in let c := ["paths"; "/c"] in
  option_map (λ st, (length (r_runs st), specResolvedSubtree (r_spec st) b, specResolvedSubtree (r_spec st) c))
    (handles (λ _ _, JUndef) (λ _, Ok JNull) (r_init JUndef)
       [ERequest a; EDue; ERequest b; EDue; EAnswer 0 [] (JObj []); ERequest c; EDue; EAnswer 1 [] (JObj [("c", JInt 1)]);
        EAnswer 0 [] (JObj []); EAnswer 0 [] (JObj [])]) =
  Some (0%nat, Some (JObj []), None).
Proof. vm_compute. reflexivity. Qed.

(** Another definition is opened while the schemes of the first are resolved: its own are not requested,
    and the schemes of the first one are stored as its own. *)
Example stale_schemes :
  let load := λ t, Ok (JObj [("info", JStr t)]) in
  let old := JObj [("key", JObj [("type", JStr "apiKey")])] in
  option_map (λ st, (r_timer st, r_runs st, specJson (r_spec st), specResolvedSubtree (r_spec st) ["components"; "securitySchemes"]))
    (handles (λ _ _, JUndef) load (r_init JUndef) [EOpen "first"; EDue; EOpen "second"; EAnswer 0 [] old]) =
  Some (false, [], JObj [("info", JStr "second")], Some old).
Proof. vm_compute. reflexivity. Qed.

(** After a failure the paths stay in the array: requesting one of them again does nothing. *)
Theorem never_retried getLineNumberForPath safeLoad st i st' r p :
  handle getLineNumberForPath safeLoad st (EReject i) = Some st' → r_runs st !! i = Some r →
  p ∈ b_paths (r_batch st) → r_batch st' = r_batch st ∧ handle getLineNumberForPath safeLoad st' (ERequest p) = Some st'.
Proof.
  cbn [handle]. unfold rejected. intros E Hi Hp. rewrite Hi in E. destruct r as [[|] ? ? ? [|]]; try done.
  injection E as <-. split; [done|]. f_equal. unfold requestResolvedSubtree. rewrite bool_decide_true; [done|].
  cbn. apply list_elem_of_fmap. by exists p.
Qed.

(** Tabs are replaced in the text that is stored, not in the one that is parsed. *)
Example tabs_parsed :
  let load := λ t, if includes t (String (ch 9) "") then Throw (JErr "YAMLException" "" [("reason", JStr "tab")]) else Ok (JObj []) in
  let text := "info:" +:+ String (ch 9) "x" in
  let st := updateSpec load text (r_init JUndef) in
  specStr (r_spec st) = "info:  x" ∧ length (allErrors (r_err st)) = 1%nat ∧ lookIn (r_spec st) ["json"] = None.
Proof. vm_compute. split_and!; reflexivity. Qed.

(** An error of the parser in the first line has no line. *)
Example first_line : assoc (parser_error (JErr "YAMLException" "" [("mark", JObj [("line", JInt 0)])])) "line" = Some JUndef.
Proof. reflexivity. Qed.

(** * Witnesses *)





