(* ===== verification/SwPlugins.v ===== *)
(** Smaller plugins of Swagger UI: the modes and the summary of the layout plugin, on-complete (the callback
    of the configuration after a definition was loaded), logs (the threshold of messages) and the wrapped
    action of swagger-js that passes withCredentials on. *)

From S2P Require Import Prelude JsValue Json JsString SwUtils SwErr SwAuth SwStore SwImmutable SwSpec SwExecute.

(** * Modes of the layout *)

(** The branch [layout] as a map; the modes are nested by the path of the thing. *)
Definition UPDATE_MODE (state : jsval) (thing : list string) (mode : jsval) : result jsval :=
  setIn (Some state) ("modes" :: thing) (JStr (if truthy mode then to_string mode else "")).

(** The action with its default and the reducer. *)
Definition changeMode (state : jsval) (thing : string + list string) (mode : option jsval) : jsval :=
  reduced state (UPDATE_MODE state (normalizeArray thing) (default (JStr "") mode)).

Definition whatMode (state : jsval) (thing : string + list string) (def : option jsval) : jsval :=
  default (default (JStr "") def) (lookIn state ("modes" :: normalizeArray thing)).

Definition showSummary (st : layout_state) : bool := negb (truthy (isShown st (inl "editor") JUndef)).

(** No mode is set for something that contains the thing: the way to it is made of maps. *)
Fixpoint maps_to (v : option jsval) (ks : list string) : bool :=
  match ks, v with
  | [], _ => true
  | _ :: _, None => true
  | k :: r, Some (JObj fs) => maps_to (assoc fs k) r
  | _, _ => false
  end.

Lemma setIn_maps ks x : ∀ v, maps_to v ks = true → ∃ v', setIn v ks x = Ok v' ∧ lookIn v' ks = Some x.
Proof.
  induction ks as [|k ks IH]; intros v Hv; [by exists x|]. destruct v as [[| | | | | | |fs|]|]; cbn [maps_to] in Hv; try done.
  - destruct (IH _ Hv) as (y & Hy & Hl). exists (JObj (oset fs k y)).
    rewrite setIn_cons, Hy, ok_bind, lookIn_cons, assoc_oset_eq. done.
  - destruct (IH None) as (y & Hy & Hl); [by destruct ks|]. exists (JObj [(k, y)]). rewrite lookIn_cons.
    change (setIn None (k :: ks) x) with (y ← setIn None ks x; Ok (JObj [(k, y)])). rewrite Hy, ok_bind.
    cbn [assoc]. rewrite String.eqb_refl. done.
Qed.

(** The mode that was set is the one read, for a thing given as a name or as a path; the modes of other
    things stay. *)
Theorem mode_roundtrip state thing mode : maps_to (Some state) ("modes" :: normalizeArray thing) = true →
  let state' := changeMode state thing (Some mode) in
  (∀ def, whatMode state' thing def = JStr (if truthy mode then to_string mode else "")) ∧
  ∀ other def, diverge (normalizeArray thing) (normalizeArray other) = true → whatMode state' other def = whatMode state other def.
Proof.
  intros Hm. unfold changeMode, UPDATE_MODE, reduced, whatMode. cbn [default from_option id].
  set (x := JStr (if truthy mode then to_string mode else "")). destruct (setIn_maps _ x _ Hm) as (v' & E & Hl). rewrite E. cbn [wrapWithTryCatch default from_option id].
  split; [intros def; by rewrite Hl|]. intros other def Hd. by rewrite (lookIn_setIn_ne _ ("modes" :: normalizeArray other) _ _ _ E).
Qed.

(** A mode of a thing blocks those of its parts: the reducer fails and nothing is stored. *)
Example mode_blocked :
  let st := changeMode (JObj []) (inr ["a"]) (Some (JStr "x")) in
  changeMode st (inr ["a"; "b"]) (Some (JStr "y")) = st ∧ whatMode st (inr ["a"; "b"]) None = JStr "".
Proof. split; reflexivity. Qed.

(** * on-complete *)

(** The flag of the module, whether the configuration has a callback, and how often it was scheduled. *)
Record complete := Complete { engaged : bool; callback : bool; scheduled : nat }.

(** The wrapped actions updateSpec ([true]) and updateJsonSpec ([false]). *)
Definition complete_step (st : complete) (spec : bool) : complete :=
  if spec then Complete true (callback st) (scheduled st)
  else if engaged st && callback st then Complete false (callback st) (S (scheduled st))
  else st.

Definition on_complete (st : complete) (actions : list bool) : complete := foldl complete_step st actions.

(** Loading a definition schedules the callback once, however often its parsed form is updated, and the
    callback is never scheduled more often than definitions were loaded. *)
Theorem completes_once st n actions : callback st = true →
  scheduled (on_complete st (true :: replicate (S n) false)) = S (scheduled st) ∧
  (scheduled (on_complete st actions) ≤ scheduled st + length (filter (λ b, b = true) actions) + (if engaged st then 1 else 0))%nat.
Proof.
  intros Hc. split.
  - unfold on_complete. cbn. rewrite Hc. cbn. generalize (S (scheduled st)) as k. intros k.
    induction n as [|n IH]; [done|]. exact IH.
  - clear n. revert st Hc. induction actions as [|b actions IH]; intros st Hc; [cbn; lia|]. unfold on_complete in *. cbn [foldl].
    rewrite filter_cons. destruct b; cbn [complete_step].
    + etransitivity; [by apply IH|]. rewrite decide_True by done. cbn. destruct (engaged st); lia.
    + rewrite decide_False by done. rewrite Hc, andb_true_r.
      destruct (engaged st) eqn:E; (etransitivity; [by apply IH|]); cbn; rewrite ?E; lia.
Qed.

(** * logs *)

(** [levels[level] || -1]: the level debug is 0 and counts as unknown. *)
Definition getLevel (level : string) : Z :=
  match aget [("debug", 0%Z); ("info", 1%Z); ("log", 2%Z); ("warn", 3%Z); ("error", 4%Z)] level with
  | Some n => if (n =? 0)%Z then (-1)%Z else n
  | None => (-1)%Z
  end.

(** Whether a message of [level] is written, with the level of the configuration. *)
Definition log (logLevel level : string) : bool := (getLevel logLevel <=? getLevel level)%Z.

(** The levels in their order. *)
Definition level_names : list string := ["debug"; "info"; "log"; "warn"; "error"].

(** A message is written exactly if its level is not below the configured one; without a known level of
    the configuration every message is. *)
Theorem log_threshold i j logLevel level : level_names !! i = Some logLevel → level_names !! j = Some level →
  log logLevel level = bool_decide (i ≤ j)%nat.
Proof.
  destruct i as [|[|[|[|[|i]]]]]; intros [= <-]; destruct j as [|[|[|[|[|j]]]]]; intros [= <-]; reflexivity.
Qed.

Theorem log_all logLevel level : logLevel ∉ level_names → log logLevel level = true.
Proof.
  intros Hn. unfold log. assert (getLevel logLevel = (-1)%Z) as ->.
  { unfold getLevel. rewrite (proj2 (aget_None _ _)); [done|]. exact Hn. }
  apply Z.leb_le. unfold getLevel. repeat case_match; try lia.
  match goal with H : aget _ _ = Some _ |- _ => apply aget_In in H; rewrite !elem_of_cons, elem_of_nil in H end.
  destruct_or?; simplify_eq; lia || done.
Qed.

(** * swagger-js *)

(** The wrapped action loaded: [fetch.withCredentials] after the configuration has been loaded. *)
Definition withCredentials (before : option bool) (value : jsval) : option bool :=
  match value with
  | JUndef => before
  | JStr s => Some (String.eqb s "true")
  | v => Some (truthy v)
  end.

(** Requests carry credentials exactly if the configuration says so, as a value or as a text of the query. *)
Theorem credentials_sent before value : value ≠ JUndef →
  withCredentials before value = Some true ↔ value = JStr "true" ∨ (truthy value = true ∧ ∀ s, value ≠ JStr s).
Proof.
  intros Hv. assert (Hb : ∀ b : bool, Some b = Some true ↔ b = true) by (intros []; naive_solver).
  assert (Hother : (∀ s, value ≠ JStr s) → truthy value = true ↔ value = JStr "true" ∨ (truthy value = true ∧ ∀ s, value ≠ JStr s)).
  { intros Hn. split; [by right|]. intros [E|[E _]]; [by apply Hn in E|done]. }
  destruct value as [| | | | |s| | |]; cbn [withCredentials]; try done; rewrite Hb; try (by apply Hother).
  rewrite String.eqb_eq. split; [intros ->; by left|]. intros [[= ->]|[_ H]]; [done|]. by destruct (H s).
Qed.
