(* ===== verification/SwExamples.v ===== *)
(** The examples of a request body (core/components/examples-select-value-retainer.jsx and
    examples-select.jsx, below core/plugins/oas3/components/request-body.jsx): a body that the user has
    edited can be exchanged for an example and taken back.

    The store holds the value and the key of the active example; the component keeps the last edited
    value. Values are texts; null is [None]. The props of a component are compared and handled when
    the store has changed, until it does not change any more. *)

From S2P Require Import Prelude JsValue Json JsString SwUtils.

Definition modified_key : string := "__MODIFIED__VALUE__".

(** * State *)

(** The state of the retainer for its namespace. *)
Record retained := Retained {
  lastUserEditedValue : option string;
  lastDownstreamValue : string;
  isModifiedValueSelected : bool;
}.

(** The branch of the store: bodyValue and activeExample. *)
Record body := Body { b_value : string; b_key : option string }.

Section Examples.
(** The examples of the media type with their texts, and the text generated without an example. *)
Variable examples : list (string * string).
Variable generated : string.

Record props := Props { currentKey : option string; currentUserInputValue : option string; userHasEditedBody : bool }.

Definition truthy_text (v : option string) : bool := match v with Some s => negb (String.eqb s "") | None => false end.

(** [stringifyUnlessList((examples || Map({})).getIn([exampleKey, "value"]))] *)
Definition getValueForExample (key : option string) : string := default "" (k ← key; aget examples k).

(** [requestBodyValue]: an empty text reads as null. *)
Definition requestBodyValue (st : body) : option string := if String.eqb (b_value st) "" then None else Some (b_value st).

(** [getDefaultRequestBodyValue] for the active example. *)
Definition defaultBody (key : option string) : string := default generated (k ← key; aget examples k).

Definition hasUserEditedBody (st : body) : bool :=
  truthy_text (requestBodyValue st) && negb (bool_decide (requestBodyValue st = Some (defaultBody (b_key st)))).

(** The props that RequestBody passes on. *)
Definition props_of (st : body) : props := Props (b_key st) (requestBodyValue st) (hasUserEditedBody st).

(** * The retainer *)

Definition constructor_ (p : props) : retained :=
  let valueFromExample := getValueForExample (currentKey p) in
  Retained (currentUserInputValue p) valueFromExample
    (userHasEditedBody p || negb (bool_decide (currentUserInputValue p = Some valueFromExample))).

(** [_onExamplesSelect] with the handlers of RequestBody: onSelect sets the key, updateValue the value. *)
Definition onExamplesSelect (key : string) (isSyntheticChange : bool) (p : props) (r : retained) (st : body) : retained * body :=
  let valueFromExample := getValueForExample (Some key) in
  if String.eqb key modified_key then
    (Retained (lastUserEditedValue r) (lastDownstreamValue r) true, Body (default "" (lastUserEditedValue r)) (b_key st))
  else
    let st := Body (b_value st) (Some key) in
    let r := Retained (lastUserEditedValue r) valueFromExample
               ((isSyntheticChange && userHasEditedBody p) ||
                (truthy_text (currentUserInputValue p) && negb (bool_decide (currentUserInputValue p = Some valueFromExample)))) in
    (r, if isSyntheticChange then st else Body valueFromExample (b_key st)).

(** The keys of the examples with the value. *)
Definition matching (value : option string) : list string :=
  map fst (filter (λ kv, Some kv.2 = value) examples).

Definition retainer_receives (p next : props) (r : retained) (st : body) : retained * body :=
  let newValue := currentUserInputValue next in
  match matching newValue with
  | (k :: _) as ks =>
      let key := match currentKey next with
                 | Some c => if bool_decide (c ∈ ks) then c else k
                 | None => k
                 end in
      (r, Body (b_value st) (Some key))
  | [] =>
      if negb (bool_decide (newValue = currentUserInputValue p)) && negb (bool_decide (newValue = lastUserEditedValue r))
         && negb (bool_decide (newValue = Some (lastDownstreamValue r)))
      then (Retained newValue (lastDownstreamValue r)
              (userHasEditedBody next || negb (bool_decide (newValue = Some (getValueForExample (currentKey next))))), st)
      else (r, st)
  end.

(** * The selection *)

(** The first example is selected when the key is not one of the examples, which are always new objects. *)
Definition select_receives (next : props) (r : retained) (st : body) : retained * body :=
  match currentKey next, examples with
  | Some c, _ :: _ => if bool_decide (c ∈ map fst examples) then (r, st)
                      else onExamplesSelect (default "" (head (map fst examples))) true next r st
  | None, _ :: _ => onExamplesSelect (default "" (head (map fst examples))) true next r st
  | _, [] => (r, st)
  end.

Definition isModifiedValueAvailable (r : retained) : bool :=
  truthy_text (lastUserEditedValue r) && negb (bool_decide (lastUserEditedValue r = Some (lastDownstreamValue r))).

Definition isValueModified (p : props) (r : retained) : bool :=
  (isModifiedValueSelected r && negb (bool_decide (currentUserInputValue p = Some (getValueForExample (currentKey p)))))
  || userHasEditedBody p.

(** The option that the selection shows. *)
Definition option_shown (p : props) (r : retained) : string :=
  if isModifiedValueAvailable r && isValueModified p r then modified_key else default "" (currentKey p).

(** * Updates *)

(** The page: the props of the last rendering, the state of the retainer and the store. *)
Record epage := EPage { e_props : props; e_retained : retained; e_body : body }.

(** One rendering with the props of the store. *)
Definition render (pg : epage) : epage :=
  let next := props_of (e_body pg) in
  let '(r, st) := retainer_receives (e_props pg) next (e_retained pg) (e_body pg) in
  let '(r, st) := select_receives next r st in
  EPage next r st.

(** Renderings until the store is the one rendered. *)
Fixpoint settle (fuel : nat) (pg : epage) : option epage :=
  match fuel with
  | O => None
  | S n => let pg' := render pg in
           if bool_decide (b_key (e_body pg') = b_key (e_body pg) ∧ b_value (e_body pg') = b_value (e_body pg)) then Some pg'
           else settle n pg'
  end.

(** The component is shown: its state is built and the selection selects the first example. *)
Definition mount (st : body) : epage :=
  let p := props_of st in
  let '(r, st) := onExamplesSelect (default "" (head (map fst examples))) true p (constructor_ p) st in
  EPage p r st.

Inductive event := Edit (text : string) | Select (key : string).

Definition act (pg : epage) (e : event) : epage :=
  match e with
  | Edit text => EPage (e_props pg) (e_retained pg) (Body text (b_key (e_body pg)))
  | Select key => let '(r, st) := onExamplesSelect key false (e_props pg) (e_retained pg) (e_body pg) in EPage (e_props pg) r st
  end.

(** At most three renderings follow an event. *)
Definition step (pg : epage) (e : event) : option epage := settle 3 (act pg e).

Fixpoint steps (pg : epage) (es : list event) : option epage :=
  match es with [] => Some pg | e :: r => pg ← step pg e; steps pg r end.
(** * The edited value is kept *)

Hypothesis keys_distinct : NoDup (map fst examples).
Hypothesis has_example : examples ≠ [].
Hypothesis values_given : ∀ kv, kv ∈ examples → kv.2 ≠ "".
Hypothesis no_modified_key : modified_key ∉ map fst examples.

Local Abbreviation keys := (map fst examples).
Local Abbreviation values := (map snd examples).

Lemma matching_spec v k : k ∈ matching v ↔ ∃ x, v = Some x ∧ (k, x) ∈ examples.
Proof.
  unfold matching. split.
  - intros ([j x] & -> & [E Hin]%list_elem_of_filter)%list_elem_of_fmap. by exists x.
  - intros (x & -> & Hin). apply list_elem_of_fmap. exists (k, x). split; [done|]. by apply list_elem_of_filter.
Qed.

Lemma matching_keys v k : k ∈ matching v → k ∈ keys.
Proof. intros (x & _ & Hin)%matching_spec. apply list_elem_of_fmap. by exists (k, x). Qed.

Lemma matching_nil v : matching v = [] ↔ ∀ x, v = Some x → x ∉ values.
Proof.
  split.
  - intros E x -> Hx. apply list_elem_of_fmap in Hx as ([k y] & -> & Hin). cbn [snd] in *.
    assert (k ∈ matching (Some y)) as Hk by (apply matching_spec; by exists y). rewrite E in Hk. by apply elem_of_nil in Hk.
  - intros H. apply elem_of_nil_inv. intros k (x & -> & Hin)%matching_spec. apply (H x eq_refl), list_elem_of_fmap. by exists (k, x).
Qed.

Lemma example_value k : k ∈ keys → ∃ x, aget examples k = Some x ∧ (k, x) ∈ examples ∧ x ≠ "".
Proof.
  intros Hk. destruct (aget examples k) as [x|] eqn:E; [|by apply aget_None in E].
  exists x. pose proof (aget_In _ _ _ E) as Hin. split_and!; [done|done|]. by apply (values_given (k, x)).
Qed.

(** What the retainer keeps when no example has the value. *)
Definition tracked (p next : props) (r : retained) : retained := (retainer_receives p next r (Body "" None)).1.

Lemma settle_S n pg pg' : render pg = pg' → settle (S n) pg =
  if bool_decide (b_key (e_body pg') = b_key (e_body pg) ∧ b_value (e_body pg') = b_value (e_body pg)) then Some pg' else settle n pg'.
Proof. by intros <-. Qed.

Lemma retainer_settles pg c : b_key (e_body pg) = Some c → c ∈ keys →
  let v := requestBodyValue (e_body pg) in
  ∃ pg' c', settle 3 pg = Some pg' ∧ e_props pg' = props_of (e_body pg') ∧
    e_body pg' = Body (b_value (e_body pg)) (Some c') ∧ c' ∈ keys ∧ (c ∈ matching v ∨ matching v = [] → c' = c) ∧
    (c' ∈ matching v ∨ matching v = []) ∧
    e_retained pg' = match matching v with [] => tracked (e_props pg) (props_of (e_body pg)) (e_retained pg) | _ => e_retained pg end.
Proof.
  intros Hc Hck v. destruct pg as [p r [val key]]. cbn [e_body b_key b_value] in *. subst key.
  assert (Hsel : ∀ c' r st, c' ∈ keys → select_receives (props_of (Body val (Some c'))) r st = (r, st)).
  { intros c' r' st' Hc'. unfold select_receives, props_of. cbn [currentKey b_key]. rewrite bool_decide_true by done. by destruct examples. }
  destruct (matching v) as [|k ks] eqn:Em.
  - exists (EPage (props_of (Body val (Some c))) (tracked p (props_of (Body val (Some c))) r) (Body val (Some c))), c.
    split_and!; try done; [|by right].
    rewrite (settle_S _ _ (EPage (props_of (Body val (Some c))) (tracked p (props_of (Body val (Some c))) r) (Body val (Some c)))).
    { by rewrite bool_decide_true. }
    unfold render. cbn [e_body e_props e_retained].
    assert (retainer_receives p (props_of (Body val (Some c))) r (Body val (Some c)) =
      (tracked p (props_of (Body val (Some c))) r, Body val (Some c))) as ->.
    { unfold tracked, retainer_receives. cbn [props_of currentUserInputValue]. fold v. rewrite Em. by case_match. }
    by rewrite Hsel.
  - set (c' := if bool_decide (c ∈ k :: ks) then c else k).
    assert (Hc' : c' ∈ k :: ks) by (unfold c'; case_bool_decide; [done|by left]).
    assert (Hck' : c' ∈ keys) by (apply (matching_keys v); by rewrite Em).
    assert (Hrec : ∀ p r, retainer_receives p (props_of (Body val (Some c))) r (Body val (Some c)) = (r, Body val (Some c'))).
    { intros p' r'. unfold retainer_receives, props_of. cbn [currentUserInputValue currentKey b_key b_value]. fold v. rewrite Em. reflexivity. }
    assert (Hrec' : ∀ p r, retainer_receives p (props_of (Body val (Some c'))) r (Body val (Some c')) = (r, Body val (Some c'))).
    { intros p' r'. unfold retainer_receives, props_of. cbn [currentUserInputValue currentKey b_key b_value].
      change (requestBodyValue (Body val (Some c'))) with v. rewrite Em. by rewrite bool_decide_true. }
    exists (EPage (props_of (Body val (Some c'))) r (Body val (Some c'))), c'.
    split_and!; try done; [|intros [H|]; [|done]; unfold c'; by rewrite bool_decide_true|by left].
    rewrite (settle_S _ _ (EPage (props_of (Body val (Some c))) r (Body val (Some c')))).
    2: { unfold render. cbn [e_body e_props e_retained]. by rewrite Hrec, Hsel. }
    cbn [e_body b_key b_value]. destruct (bool_decide_reflect (Some c' = Some c ∧ val = val)) as [[[= ->] _]|_]; [done|].
    rewrite (settle_S _ _ (EPage (props_of (Body val (Some c'))) r (Body val (Some c')))); [by rewrite bool_decide_true|].
    unfold render. cbn [e_body e_props e_retained]. by rewrite Hrec', Hsel.
Qed.
(** A settled page: what it shows is what is stored, and a value of the user is kept. *)
Record settled (pg : epage) : Prop := {
  se_props : e_props pg = props_of (e_body pg);
  se_key : ∃ c, b_key (e_body pg) = Some c ∧ c ∈ keys;
  se_kept : ∀ w, requestBodyValue (e_body pg) = Some w → w ∉ values → lastUserEditedValue (e_retained pg) = Some w;
  se_downstream : lastDownstreamValue (e_retained pg) ∈ values ∨ lastDownstreamValue (e_retained pg) = "";
}.

Lemma key_value k x : aget examples k = Some x → x ∈ values.
Proof. intros H%aget_In. apply list_elem_of_fmap. by exists (k, x). Qed.

Lemma requestBodyValue_Some st w : requestBodyValue st = Some w ↔ b_value st = w ∧ w ≠ "".
Proof. unfold requestBodyValue. destruct (String.eqb_spec (b_value st) "") as [E|E]; split; naive_solver. Qed.

Lemma tracked_spec p next r :
  matching (currentUserInputValue next) = [] →
  lastDownstreamValue (tracked p next r) = lastDownstreamValue r ∧
  (lastUserEditedValue (tracked p next r) = lastUserEditedValue r ∨
   lastUserEditedValue (tracked p next r) = currentUserInputValue next) ∧
  (lastUserEditedValue (tracked p next r) = currentUserInputValue next ∨ currentUserInputValue next = currentUserInputValue p ∨
   currentUserInputValue next = Some (lastDownstreamValue r)).
Proof.
  intros Em. unfold tracked, retainer_receives. rewrite Em.
  destruct (negb _ && negb _ && negb _) eqn:E; cbn [fst lastUserEditedValue lastDownstreamValue]; [tauto|].
  rewrite !andb_false_iff, !negb_false_iff, !bool_decide_eq_true in E. split_and!; [done|by left|]. naive_solver.
Qed.

(** After the store was written: [p] are the props of the last rendering. *)
Lemma settle_settled pg c v0 : b_key (e_body pg) = Some c → c ∈ keys →
  lastDownstreamValue (e_retained pg) ∈ values ∨ lastDownstreamValue (e_retained pg) = "" →
  currentUserInputValue (e_props pg) = v0 →
  (∀ w, v0 = Some w → w ∉ values → requestBodyValue (e_body pg) = Some w → lastUserEditedValue (e_retained pg) = Some w) →
  ∃ pg' c', settle 3 pg = Some pg' ∧ settled pg' ∧ e_body pg' = Body (b_value (e_body pg)) (Some c') ∧ c' ∈ keys ∧
    (c ∈ matching (requestBodyValue (e_body pg)) → c' = c) ∧
    lastDownstreamValue (e_retained pg') = lastDownstreamValue (e_retained pg) ∧
    (matching (requestBodyValue (e_body pg)) ≠ [] → e_retained pg' = e_retained pg).
Proof.
  intros Hc Hck Hd Hv0 Hkept. destruct (retainer_settles pg c Hc Hck) as (pg' & c' & E & Hp & Hb & Hc' & Heq & _ & Hr).
  exists pg', c'. set (v := requestBodyValue (e_body pg)) in *.
  assert (Hv : requestBodyValue (e_body pg') = v) by (by rewrite Hb).
  assert (Hld : lastDownstreamValue (e_retained pg') = lastDownstreamValue (e_retained pg)).
  { rewrite Hr. destruct (matching v) eqn:Em; [|done]. by apply tracked_spec. }
  split_and!; try done; [|naive_solver|by rewrite Hr; destruct (matching v)].
  constructor; [done|by rewrite Hb; eauto| |by rewrite Hld].
  intros w Hw Hn. rewrite Hv in Hw. rewrite Hr. destruct (matching v) as [|k ks] eqn:Em.
  - destruct (tracked_spec (e_props pg) (props_of (e_body pg)) (e_retained pg) Em) as (_ & Hcase & Ht).
    cbn [props_of currentUserInputValue] in *. fold v in Hcase, Ht. destruct Ht as [Ht|[Ht|Ht]].
    + congruence.
    + assert (lastUserEditedValue (e_retained pg) = Some w) by (apply Hkept; congruence). destruct Hcase; congruence.
    + rewrite Hw in Ht. injection Ht as ->. apply requestBodyValue_Some in Hw as [_ Hne]. destruct Hd; done.
  - exfalso. assert (Hk : k ∈ matching v) by (rewrite Em; by left). apply matching_spec in Hk as (x & Hx & Hin).
    apply Hn. rewrite Hw in Hx. injection Hx as ->. apply list_elem_of_fmap. by exists (k, x).
Qed.
Lemma first_key : default "" (head keys) ∈ keys.
Proof. destruct examples as [|[k x] es]; [done|]. by left. Qed.

Lemma example_select k b p r st : k ∈ keys → ∃ x, aget examples k = Some x ∧ x ≠ "" ∧ x ∈ values ∧
  onExamplesSelect k b p r st = (Retained (lastUserEditedValue r) x
    ((b && userHasEditedBody p) || (truthy_text (currentUserInputValue p) && negb (bool_decide (currentUserInputValue p = Some x)))),
    if b then Body (b_value st) (Some k) else Body x (Some k)).
Proof.
  intros Hk. destruct (example_value k Hk) as (x & Hx & Hin & Hne). exists x. split_and!; [done|done|by eapply key_value|].
  unfold onExamplesSelect, getValueForExample. cbn [mbind option_bind]. rewrite Hx.
  destruct (String.eqb_spec k modified_key) as [->|_]; [done|]. by destruct b.
Qed.

Lemma mount_settled st : ∃ pg, settle 3 (mount st) = Some pg ∧ settled pg.
Proof.
  unfold mount. destruct (example_select _ true (props_of st) (constructor_ (props_of st)) st first_key) as (x & Hx & Hne & Hv & ->).
  edestruct settle_settled as (pg & c' & E & Hs & _); [..|by exists pg]; cbn; [done|apply first_key|by left|done|].
  intros w Hw _ _. exact Hw.
Qed.

Definition possible (e : event) : Prop := match e with Edit _ => True | Select k => k ∈ keys ∨ k = modified_key end.

Lemma edit_step pg t : settled pg → ∃ pg', step pg (Edit t) = Some pg' ∧ settled pg' ∧ b_value (e_body pg') = t.
Proof.
  intros [Hp (c & Hc & Hck) Hk Hd].
  destruct (settle_settled (act pg (Edit t)) c (requestBodyValue (e_body pg))) as (pg' & c' & E & Hs & Hb & _); try done.
  - cbn. by rewrite Hp.
  - intros w Hw Hn _. by apply Hk.
  - exists pg'. split_and!; [done|done|]. by rewrite Hb.
Qed.

Lemma select_step pg k : settled pg → k ∈ keys →
  ∃ pg' x, step pg (Select k) = Some pg' ∧ settled pg' ∧ aget examples k = Some x ∧ e_body pg' = Body x (Some k) ∧
    lastUserEditedValue (e_retained pg') = lastUserEditedValue (e_retained pg).
Proof.
  intros [Hp (c & Hc & Hck) Hk Hd] Hin.
  destruct (example_select k false (e_props pg) (e_retained pg) (e_body pg) Hin) as (x & Hx & Hne & Hv & Hsel).
  assert (Hact : act pg (Select k) = EPage (e_props pg) (onExamplesSelect k false (e_props pg) (e_retained pg) (e_body pg)).1 (Body x (Some k))).
  { cbn [act]. by rewrite Hsel. }
  assert (Hrv : requestBodyValue (Body x (Some k)) = Some x) by (by apply requestBodyValue_Some).
  assert (Hm : k ∈ matching (Some x)) by (apply matching_spec; exists x; split; [done|by apply aget_In]).
  unfold step. rewrite Hact, Hsel. cbn [fst].
  edestruct settle_settled as (pg' & c' & E & Hs & Hb & _ & Heq & _ & Hr); [..|exists pg', x; rewrite E; split_and!; try done];
    cbn [e_body b_key b_value e_retained lastDownstreamValue e_props] in *; try done; [by left|..].
  - intros w _ Hn Hw. rewrite Hrv in Hw. by injection Hw as ->.
  - rewrite Hb, Heq; [done|by rewrite Hrv].
  - rewrite Hr; [done|]. rewrite Hrv. intros En. rewrite En in Hm. by apply elem_of_nil in Hm.
Qed.

Lemma modified_step pg : settled pg → ∃ pg', step pg (Select modified_key) = Some pg' ∧ settled pg' ∧
  b_value (e_body pg') = default "" (lastUserEditedValue (e_retained pg)).
Proof.
  intros [Hp (c & Hc & Hck) Hk Hd].
  destruct (settle_settled (act pg (Select modified_key)) c (currentUserInputValue (e_props pg))) as (pg' & c' & E & Hs & Hb & _); try done.
  - intros w _ _ Hw. apply requestBodyValue_Some in Hw as [Hw Hne]. cbn in Hw |- *. by destruct (lastUserEditedValue (e_retained pg)); simplify_eq/=.
  - exists pg'. split_and!; [done|done|]. by rewrite Hb.
Qed.

Lemma steps_settled es : ∀ pg, settled pg → Forall possible es → ∃ pg', steps pg es = Some pg' ∧ settled pg'.
Proof.
  induction es as [|e es IH]; intros pg Hs Hes; [by exists pg|]. apply Forall_cons in Hes as [He Hes]. cbn [steps].
  assert (∃ pg', step pg e = Some pg' ∧ settled pg') as (pg' & -> & Hs').
  { destruct e as [t|k]; [|destruct He as [Hk|Hk]].
    - destruct (edit_step pg t Hs) as (pg' & ? & ? & _). eauto.
    - destruct (select_step pg k Hs Hk) as (pg' & x & ? & ? & _). eauto.
    - rewrite Hk. destruct (modified_step pg Hs) as (pg' & ? & ? & _). eauto. }
  by apply IH.
Qed.

Lemma shown_modified pg w : settled pg → b_value (e_body pg) = w → w ≠ "" → w ∉ values →
  option_shown (e_props pg) (e_retained pg) = modified_key ∧ lastUserEditedValue (e_retained pg) = Some w.
Proof.
  intros [Hp (c & Hc & Hck) Hk Hd] Hw Hne Hn.
  assert (Hv : requestBodyValue (e_body pg) = Some w) by (by apply requestBodyValue_Some). pose proof (Hk w Hv Hn) as Hl. split; [|done].
  assert (He : hasUserEditedBody (e_body pg) = true).
  { unfold hasUserEditedBody. rewrite Hv, Hc. cbn [truthy_text]. rewrite (proj2 (String.eqb_neq _ _) Hne).
    destruct (example_value c Hck) as (x & Hx & _). unfold defaultBody. cbn [mbind option_bind]. rewrite Hx. cbn [default from_option id].
    rewrite bool_decide_false; [done|]. intros [= ->]. by apply key_value in Hx. }
  unfold option_shown, isModifiedValueAvailable, isValueModified. rewrite Hp, Hl. cbn [truthy_text props_of userHasEditedBody].
  rewrite (proj2 (String.eqb_neq _ _) Hne), bool_decide_false by (intros [= ->]; by destruct Hd). rewrite He, orb_true_r. done.
Qed.

Lemma shown_example pg k x : settled pg → e_body pg = Body x (Some k) → aget examples k = Some x → x ≠ "" →
  option_shown (e_props pg) (e_retained pg) = k.
Proof.
  intros [Hp _ _ _] Hb Hx Hne. unfold option_shown, isValueModified. rewrite Hp, Hb. cbn [props_of currentUserInputValue currentKey userHasEditedBody b_key].
  unfold hasUserEditedBody, getValueForExample, defaultBody. cbn [b_key b_value mbind option_bind].
  rewrite (proj2 (requestBodyValue_Some _ x)) by done. rewrite Hx. cbn [default from_option id].
  rewrite bool_decide_true by done. cbn [negb]. rewrite !andb_false_r. done.
Qed.
Lemma steps_app es es' pg : steps pg (es ++ es') = (pg ← steps pg es; steps pg es').
Proof. revert pg. induction es as [|e es IH]; intros pg; [done|]. cbn [steps app]. destruct (step pg e); [apply IH|done]. Qed.

Lemma selects_kept ks : ∀ pg, settled pg → Forall (λ k, k ∈ keys) ks → ∃ pg', steps pg (map Select ks) = Some pg' ∧ settled pg' ∧
  lastUserEditedValue (e_retained pg') = lastUserEditedValue (e_retained pg) ∧
  ∀ k, last ks = Some k → aget examples k = Some (b_value (e_body pg')) ∧ option_shown (e_props pg') (e_retained pg') = k.
Proof.
  induction ks as [|k ks IH] using rev_ind; intros pg Hs Hks; [by exists pg|].
  apply Forall_app in Hks as [Hks [Hk _]%Forall_cons].
  destruct (IH pg Hs Hks) as (pg1 & E1 & Hs1 & Hl1 & _). destruct (select_step pg1 k Hs1 Hk) as (pg2 & x & E2 & Hs2 & Hx & Hb & Hl2).
  exists pg2. rewrite map_app, steps_app, E1. cbn [map mbind option_bind steps]. rewrite E2. split_and!; [done|done|congruence|].
  intros j Hj. rewrite last_snoc in Hj. injection Hj as <-. rewrite Hb. cbn [b_value]. split; [done|].
  eapply shown_example; [done|exact Hb|done|]. apply aget_In in Hx. by apply (values_given (k, x)).
Qed.
End Examples.

(** C14: what the user has typed into a request body is never lost by looking at examples. After any use of
    the page, a text is entered that is not empty and no example; the examples have different names and none
    has an empty text; whichever examples are chosen then, each is shown as
    the body and as the choice, and choosing the modified value brings the text back. Every update of the
    page comes to rest. *)
Theorem edited_value_returns examples generated st es w ks :
  NoDup (map fst examples) → examples ≠ [] → (∀ kv, kv ∈ examples → kv.2 ≠ "") → modified_key ∉ map fst examples →
  Forall (possible examples) es → w ≠ "" → w ∉ map snd examples → Forall (λ k, k ∈ map fst examples) ks →
  ∃ pg0 pg1 pg2 pg3, settle examples generated 3 (mount examples generated st) = Some pg0 ∧
    steps examples generated pg0 (es ++ [Edit w]) = Some pg1 ∧ option_shown examples (e_props pg1) (e_retained pg1) = modified_key ∧
    steps examples generated pg1 (map Select ks) = Some pg2 ∧
    (∀ k, last ks = Some k → aget examples k = Some (b_value (e_body pg2)) ∧ option_shown examples (e_props pg2) (e_retained pg2) = k) ∧
    step examples generated pg2 (Select modified_key) = Some pg3 ∧
    b_value (e_body pg3) = w ∧ option_shown examples (e_props pg3) (e_retained pg3) = modified_key.
Proof.
  intros Hnd Hex Hval Hmod Hes Hw Hn Hks.
  destruct (mount_settled examples generated) with (st := st) as (pg0 & E0 & S0); try done.
  destruct (steps_settled examples generated) with (es := es) (pg := pg0) as (pg & Es & Ss); try done.
  destruct (edit_step examples generated) with (pg := pg) (t := w) as (pg1 & E1 & S1 & V1); try done.
  destruct (shown_modified examples generated) with (pg := pg1) (w := w) as [M1 L1]; try done.
  destruct (selects_kept examples generated) with (ks := ks) (pg := pg1) as (pg2 & E2 & S2 & L2 & K2); try done.
  destruct (modified_step examples generated) with (pg := pg2) as (pg3 & E3 & S3 & V3); try done.
  rewrite L2, L1 in V3. exists pg0, pg1, pg2, pg3. split_and!; try done.
  - rewrite steps_app, Es. cbn [mbind option_bind steps]. by rewrite E1.
  - by apply (shown_modified examples generated) with (w := w).
Qed.

(** An example with an empty text reads as no value at all and takes the place of the edited value. *)
Example empty_example_forgets :
  let examples := [("full", "x"); ("empty", "")] in
  (pg ← settle examples "g" 3 (mount examples "g" (Body "" None));
   pg ← steps examples "g" pg [Edit "mine"; Select "empty"; Select modified_key];
   Some (b_value (e_body pg))) = Some "".
Proof. vm_compute. reflexivity. Qed.

Lemma edited_value_returns_witness :
  let examples := [("cat", "{1}"); ("dog", "{2}")] in
  ∃ pg0 pg1 pg2 pg3, settle examples "{}" 3 (mount examples "{}" (Body "" None)) = Some pg0 ∧
    steps examples "{}" pg0 ([Select "dog"; Edit "{1}"] ++ [Edit "{3}"]) = Some pg1 ∧ option_shown examples (e_props pg1) (e_retained pg1) = modified_key ∧
    steps examples "{}" pg1 (map Select ["cat"; "dog"]) = Some pg2 ∧
    (∀ k, last ["cat"; "dog"] = Some k → aget examples k = Some (b_value (e_body pg2)) ∧ option_shown examples (e_props pg2) (e_retained pg2) = k) ∧
    step examples "{}" pg2 (Select modified_key) = Some pg3 ∧
    b_value (e_body pg3) = "{3}" ∧ option_shown examples (e_props pg3) (e_retained pg3) = modified_key.
Proof.
  apply (edited_value_returns [("cat", "{1}"); ("dog", "{2}")] "{}" (Body "" None) [Select "dog"; Edit "{1}"] "{3}" ["cat"; "dog"]).
  - apply (bool_decide_unpack _). vm_compute. exact I.
  - done.
  - intros kv Hkv. rewrite !elem_of_cons, elem_of_nil in Hkv. destruct_or?; subst; done.
  - apply (bool_decide_unpack _). vm_compute. exact I.
  - repeat constructor.
  - done.
  - apply (bool_decide_unpack _). vm_compute. exact I.
  - apply (bool_decide_unpack _). vm_compute. exact I.
Defined.
